(* ===== verification/_CoqProject ===== *)
-Q . S2P
Prelude.v
Nom.v
Cookie.v
Util.v
Wire.v
Crypto.v
ElGamal.v
Dsa.v
Aes.v
Data.v
Address.v
Dest.v
I2np.v
Message.v
Ntcp2Frame.v
Framed.v
Ntcp2Codec.v
Session.v
Ntcp2Session.v
Duplex.v
Ntcp2Handshake.v
NtcpFrame.v
NtcpCodec.v
NtcpSession.v
NtcpHsFrame.v
NtcpHsCodec.v
NtcpHandshake.v
NtcpHsRun.v
Transport.v
Su3.v
Tunnel.v
Participant.v
Acceptor.v
TunnelPath.v
NetDb.v
NetDbSpec.v
Lookup.v
Client.v
Reseed.v
Router.v
EndToEnd.v
Connect.v
Ntcp2Connect.v
NtcpConnect.v
Restart.v
Mock.v
Program.v
