(* ===== verification/Prelude.v ===== *)
(** * Verification of ire, an I2P router

    ** What is verified

    ire is a router of the anonymity network I2P, written in Rust.  This
    development models its core as executable Rocq definitions, translated
    function by function from the sources under [src/src/], and proves what
    makes each part correct.  The parts, from the bottom up, with the files
    they come from:

    - [Prelude] (this file): panics and results, bytes, machine integers.
    - [Nom], [Cookie]: the parser combinators ([nom]) and serialisation
      combinators ([cookie-factory]) the frames are written with.  Both are
      crates, so they are classes whose laws are the documented behaviour of
      the combinators the sources use; [nom_ref] and [cf_ref] implement them.
      A [tuple] of parsers is modelled as nested pairs.
    - [Util]: [util.rs] (the [serialize] loop that grows its buffer until the
      generator fits, the decaying bloom filter that detects replays, hex).
    - [Wire]: what it means that a generator and a parser fit together
      ([rt]), with a rule per combinator.
    - [Crypto]: [crypto/mod.rs], [crypto/frame.rs], [crypto/math.rs],
      [constants.rs] (keys, signatures and their types on the wire).
    - [ElGamal], [Dsa], [Aes]: [crypto/elgamal.rs] and [crypto/dh.rs],
      [crypto/dsa.rs], the [Aes256] of [crypto/mod.rs].
    - [Data]: [data/mod.rs], [data/frame.rs] (identities, certificates,
      mappings, router addresses, router infos and their signatures).
    - [Dest]: [data/dest.rs], [data/dest/frame.rs] (destinations, lease sets).
    - [I2np], [Message]: [i2np/mod.rs], [i2np/frame.rs] (build records, every
      message payload; messages, garlic messages nested to any depth, the
      checksum and the two framings).
    - [Tunnel]: [tunnel.rs], [tunnel/encryption.rs], [tunnel/frame.rs] (what a
      hop remembers, the layers hops add and the creator takes off, the
      1024-byte tunnel messages).
    - [Participant]: [tunnel/processor.rs] (the task that forwards tunnel data).
    - [Acceptor]: [tunnel/acceptor.rs] (the task that answers build requests).
    - [TunnelPath]: the acceptors and participants of the hops of a tunnel, from
      the build request to the data.
    - [Address]: the socket addresses in router addresses ([data/mod.rs]).
    - [NetDb]: [netdb/mod.rs], [netdb/errors.rs] and [Query] of
      [netdb/client.rs] (the database, the engine's poll loop and its timers);
      [NetDbSpec]: what the database promises, as an abstract transition system.
    - [Lookup]: [netdb/lookup.rs] (iterative lookups and exploration).
    - [Client]: [netdb/client.rs] (the futures other tasks ask the database with).
    - [Su3]: [file/mod.rs], [file/frame.rs] and the offline signing keys of
      [crypto/mod.rs]; [Reseed]: [netdb/reseed.rs] (the reseeder).
    - [Ntcp2Frame], [Ntcp2Codec], [Ntcp2Session], [Ntcp2Handshake]:
      [transport/ntcp2/frame.rs], [transport/ntcp2/mod.rs],
      [transport/ntcp2/handshake/mod.rs] (blocks, the encrypted stream, both
      halves of a session, both handshakes); [Duplex]: the connection the two
      ends of a handshake share.
    - [NtcpFrame], [NtcpCodec], [NtcpSession], [NtcpHsFrame], [NtcpHsCodec],
      [NtcpHandshake]: [transport/ntcp/frame.rs], [transport/ntcp/mod.rs],
      [transport/ntcp/handshake/frame.rs], [transport/ntcp/handshake/mod.rs];
      [NtcpHsRun]: both ends of an NTCP handshake against each other.
    - [Framed]: tokio's framed connection over any codec.
    - [Session]: [transport/session.rs] and the poll loop of a session, which is
      the same in both transports (the interface [SessionKind]).
    - [Transport]: [transport/mod.rs] and the managers of both transports (bids,
      connecting, the published addresses, the key file).
    - [Router]: [router/mod.rs], [router/builder.rs], [router/config.rs] and the
      listener of [transport/ntcp2/mod.rs] (the distributor, building and
      starting, a peer that connects).
    - [EndToEnd]: a message on its way from one router's session through both
      codecs to the queues of the other's subsystems.
    - [Connect]: what [connect] of both transports has in common, a handshake
      with ten seconds and the session that follows; [Ntcp2Connect],
      [NtcpConnect]: the two of them, and the end of [listen].
    - [Restart]: building a router again with the files it has left behind.
    - [Mock]: [router/mock.rs] and [netdb/mock.rs].
    - [Program]: [bin/ire.rs] (the commands of the program).

    A parser of a component calls the parsers of the components below it, and
    the same holds for the generators; [Message] is what the transports and the
    tunnels exchange.  A session of a transport hands its messages to the
    distributor of [Router], which sorts them into the queues of [NetDb],
    [Acceptor] and [Participant].  [Acceptor] hands the tunnels it accepts to
    [Participant]; both use the filter of [Util] and the ciphers of [Aes].
    [Reseed] stores what it fetched through the futures of [Client].

    ** How it is modelled

    - A function that can panic returns an [outcome]; [Result] is [result].
      A panic propagates through [let!] and through the combinators.
    - Integers are [Z]; casts ([as_u8] ...) wrap, and arithmetic that can leave
      its type goes through [checked], whose argument says whether the build
      has overflow checks.  [usize] has 64 bits.
    - A byte slice is a [list Z]; [bytes_ok] says its elements are bytes.
    - Randomness, clocks and the network are arguments.  Rejection sampling
      takes the list of draws and returns [None] when they run out, so
      "enough acceptable draws" is a visible hypothesis.
    - Futures are state machines: a poll takes what the runtime, the clocks and
      the channels contribute and returns the effects and the next state.
    - Code that is not part of the repository is a class with the laws its
      documentation gives, and each class has a reference implementation that
      the witnesses run on: [Nom], [NomText], [CookieFactory] (parsing and
      writing), [BigUintOps], [SigCrates], [Sha1], [Sha2], [AesCrate],
      [RsaCrates], [NoiseTransport], [NoiseHandshake], [SipHash], [SipKeys]
      (cryptography), [BloomFilter], [Flate2], [ZipCrate], [Base64] and [IpText],
      [SelectOk] and [SelectAll] of [futures], [Timeout] of [tokio].  [DhGroup] and [DsaGroup] hold the
      numbers of the groups.
    - [SessionKind] with [SessionLaws], [FramedCodec] with [FramedLaws] and
      [TunnelBuildRequest] are interfaces between components: the session loop,
      the framed connection and the acceptor are proved against them, and each
      protocol proves its laws.
    - The queues and one-shot channels of [futures] are lists and cells, as
      documented: what is sent arrives in order, and a dropped end is noticed.
    - Maps are stdpp's [gmap].

    ** Fuel

    [serialize] loops with a bound of 2^64 iterations; [serialize_correct] shows
    that one per byte is enough, and [ri_store_never_serializes] that one input
    exhausts any bound.  [message] recurses with the length of its input as
    fuel; [message_fuel_enough] shows that more changes nothing.  The loops in
    the polls of the tunnel tasks have at most as many passes as they have
    states; a poll of a handshake has at most six rounds; a poll of the reseeder
    has at most two passes per event and two more; an iterative lookup has one
    pass per peer it can hear of.  That they never run out is part of their
    theorems.

    ** What the theorems show

    - Round trips: every structure that is sent (keys, identities, router
      infos, lease sets, build records, payloads, messages, tunnel messages)
      serialises without panicking and parses back to itself, whatever follows
      it; and what a parser accepts is well-formed, so it can be sent on.
    - Cryptography: decryption inverts encryption (ElGamal, AES-CBC streams,
      tunnel layers, build requests), key agreement agrees, signatures made
      with a key verify under it.
    - Tunnels: the tasks never panic on the hop types that are not implemented,
      because the acceptor never registers them; no message is forwarded twice
      within the lifetime of a tunnel; a request is admitted exactly under the
      conditions the protocol names; a request that is prepared for a chain of
      hops goes through all of them and the creator reads their answers; and the
      tunnel that they have registered carries data until it expires.
    - The network database refines its abstract specification and keeps its
      invariant; a store through a client is one operation in a sequence of
      operations that makes the database what it is; an iterative lookup ends,
      asks nobody twice and asks the closest first.
    - Transports: frames survive any cut of the byte stream, and are closed by a
      checksum (of all but the two longest NTCP frames of a release build); a
      session keeps the order of messages in both directions, loses none and
      hands them over one at a time; both handshakes complete however the polls
      of the two ends interleave, and NTCP's authenticates; a message goes over
      the cheapest transport that takes it.
    - Reseeding: what is accepted was signed by a known signer over exactly the
      bytes that were read, and what is built as the format says is accepted;
      the reseeder asks nobody twice, ends, and says truly whether it succeeded.
    - Composition: what one router's session has sent arrives at the other's
      distributor; the split into queues loses nothing for the subsystems; what
      a router publishes leads to its listeners and is taken by any database; of
      two routers that have not met, what one is asked to send reaches the queues
      of the other in order, over either transport; a connection attempt ends in
      time, and every message that waits for it is in the session's channel or
      waits for ever, unless the peer opens a session itself and takes them; a
      router that restarts has the identity it had, and the keys that the program
      generates start one.
    - Bounds and errors: which inputs panic, what does not fit.
    - Some theorems state defects of the code, among them: a tunnel gateway
      message that is written without its length, a router info store that is
      never serialised, an expiry test that is the wrong way round, a checksum
      that can be bypassed, messages, su3 files and router infos of a peer that
      panic the task that meets them, a handshake that takes any router info,
      a failed lookup or connection that is never tried again, a session that
      is displaced by a second one with the same peer.

    ** What is not modelled

    The sockets, TLS, name resolution and the task runtime (tokio), which are
    arguments where their results matter; the parsing of the command line
    ([clap]), whose matches are an argument of [Program]; accepting connections
    and spawning tasks beyond what becomes of one connection; [Display] and
    [Debug] implementations, logging and trait declarations.  Constant-time
    comparison is comparison.

    ** This file

    - [outcome] is a Rust computation that may panic ([unimplemented!],
      [unwrap] on [None], a failing [expect], a failing index);
    - [result] is Rust's [Result], [Poll] is that of [futures];
    - [bytes_ok] says that the elements of a slice are bytes;
    - [be_bytes] and [be_val] are the big-endian encodings every frame uses;
    - [utf8_ok] is the check [String::from_utf8] performs. *)

From stdpp Require Export base list gmap sorting numbers strings.
From Stdlib Require Export ZArith Lia.

#[global] Open Scope Z_scope.

(** ** Outcomes and results *)

Inductive outcome (A : Type) : Type :=
| Ret (a : A)
| Panic.
Arguments Ret {A} a.
Arguments Panic {A}.

Inductive result (A E : Type) : Type :=
| Ok (a : A)
| Err (e : E).
Arguments Ok {A E} a.
Arguments Err {A E} e.

Definition obind {A B} (o : outcome A) (k : A -> outcome B) : outcome B :=
  match o with Ret a => k a | Panic => Panic end.

Definition rmap {A B E} (f : A -> B) (r : result A E) : result B E :=
  match r with Ok a => Ok (f a) | Err e => Err e end.

Definition rmap_err {A E F} (f : E -> F) (r : result A E) : result A F :=
  match r with Ok a => Ok a | Err e => Err (f e) end.

Definition rok {A E} (r : result A E) : option A :=
  match r with Ok a => Some a | Err _ => None end.

(** [Option::unwrap] *)
Definition unwrap {A} (o : option A) : outcome A :=
  match o with Some a => Ret a | None => Panic end.

(** [futures::Poll] *)
Inductive Poll (A E : Type) : Type :=
| Ready (a : A)
| NotReady
| PollErr (e : E).
Arguments Ready {A E} a.
Arguments NotReady {A E}.
Arguments PollErr {A E} e.

Declare Scope rust_scope.
Delimit Scope rust_scope with rust.
Notation "'let!' x ':=' e 'in' k" := (obind e (fun x => k))
  (at level 10, x pattern, e at level 100, k at level 200) : rust_scope.
(** [let? x := e in k] is [let x = e?; k] *)
Notation "'let?' x ':=' e 'in' k" :=
  (match e with
   | Ret (Ok x) => k
   | Ret (Err err) => Ret (Err err)
   | Panic => Panic
   end)
  (at level 10, x pattern, e at level 100, k at level 200) : rust_scope.
(** a computation that may panic or, when it serialises, never return ([None]);
    [let* x := e in k] runs [e] first *)
Definition comp (A : Type) : Type := outcome (option A).
Definition cret {A} (a : A) : comp A := Ret (Some a).
Definition cbind {A B} (m : comp A) (k : A -> comp B) : comp B :=
  match m with
  | Ret (Some a) => k a
  | Ret None => Ret None
  | Panic => Panic
  end.
Notation "'let*' x ':=' e 'in' k" := (cbind e (fun x => k))
  (at level 10, x pattern, e at level 100, k at level 200) : rust_scope.
#[global] Open Scope rust_scope.

(** ** Bytes *)

Abbreviation bytes := (list Z).

Definition len {A} (l : list A) : Z := Z.of_nat (length l).

Definition byte_ok (b : Z) : Prop := 0 <= b < 256.
Definition bytes_ok (l : bytes) : Prop := Forall byte_ok l.

Definition u8_ok (v : Z) : Prop := 0 <= v < 2 ^ 8.
Definition u16_ok (v : Z) : Prop := 0 <= v < 2 ^ 16.
Definition u32_ok (v : Z) : Prop := 0 <= v < 2 ^ 32.
Definition u64_ok (v : Z) : Prop := 0 <= v < 2 ^ 64.

(** the [as u8], [as u16], [as u32] and [as u64] casts *)
Definition as_u8 (v : Z) : Z := v mod 2 ^ 8.
Definition as_u16 (v : Z) : Z := v mod 2 ^ 16.
Definition as_u32 (v : Z) : Z := v mod 2 ^ 32.
Definition as_u64 (v : Z) : Z := v mod 2 ^ 64.

(** The result [v] of an addition, subtraction or multiplication on [w]-bit
    unsigned integers: out of range it panics in a build with overflow checks
    ([oc], Cargo's default for debug builds) and wraps around in one without.
    [usize] has 64 bits. *)
Definition checked (oc : bool) (w v : Z) : outcome Z :=
  if (0 <=? v) && (v <? 2 ^ w) then Ret v
  else if oc then Panic else Ret (v mod 2 ^ w).

Lemma checked_ok oc w v : 0 <= v < 2 ^ w -> checked oc w v = Ret v.
Proof.
  intros [H1 H2]. unfold checked. by rewrite (proj2 (Z.leb_le _ _) H1), (proj2 (Z.ltb_lt _ _) H2).
Qed.

Lemma checked_range oc w v n : 0 <= w -> checked oc w v = Ret n -> 0 <= n < 2 ^ w.
Proof.
  intros Hw. unfold checked. destruct (_ && _) eqn:E.
  - apply andb_true_iff in E as [H1%Z.leb_le H2%Z.ltb_lt]. by intros [= <-].
  - destruct oc; [done|]. intros [= <-]. apply Z.mod_pos_bound. lia.
Qed.

Lemma lxor_range w a b : 0 <= w -> 0 <= a < 2 ^ w -> 0 <= b < 2 ^ w -> 0 <= Z.lxor a b < 2 ^ w.
Proof.
  intros Hw Ha Hb. assert (Z.lxor a b = Z.lxor a b mod 2 ^ w) as ->; [|apply Z.mod_pos_bound; lia].
  apply Z.bits_inj'. intros n Hn. destruct (Z.lt_ge_cases n w) as [Hlt|Hge].
  - by rewrite Z.mod_pow2_bits_low.
  - rewrite Z.mod_pow2_bits_high by lia. rewrite Z.lxor_spec.
    rewrite <- (Z.mod_small a (2 ^ w)), <- (Z.mod_small b (2 ^ w)) by done.
    by rewrite !Z.mod_pow2_bits_high by lia.
Qed.

Lemma checked_panic oc w v : checked oc w v = Panic <-> oc = true /\ ~ 0 <= v < 2 ^ w.
Proof.
  unfold checked. destruct (_ && _) eqn:E.
  - apply andb_true_iff in E as [H1%Z.leb_le H2%Z.ltb_lt]. split; [done|]. by intros [_ []].
  - assert (~ 0 <= v < 2 ^ w) as Hn.
    { intros [H1%Z.leb_le H2%Z.ltb_lt]. by rewrite H1, H2 in E. }
    destruct oc; naive_solver.
Qed.

(** [usize::saturating_sub] *)
Definition saturating_sub (a b : Z) : Z := Z.max 0 (a - b).

(** slices [l[..n]], [l[n..]] and [l[a..b]] *)
Definition ztake {A} (n : Z) (l : list A) : list A := take (Z.to_nat n) l.
Definition zdrop {A} (n : Z) (l : list A) : list A := drop (Z.to_nat n) l.
Definition slice {A} (a b : Z) (l : list A) : list A := ztake (b - a) (zdrop a l).

Definition zeros (n : Z) : bytes := replicate (Z.to_nat n) 0.

Fixpoint bytes_eqb (a b : bytes) : bool :=
  match a, b with
  | [], [] => true
  | x :: a', y :: b' => (x =? y) && bytes_eqb a' b'
  | _, _ => false
  end.

(** [a] is a prefix of [b] *)
Fixpoint is_prefix (a b : bytes) : bool :=
  match a, b with
  | [], _ => true
  | x :: a', y :: b' => (x =? y) && is_prefix a' b'
  | _ :: _, [] => false
  end.

Lemma bytes_eqb_eq a b : bytes_eqb a b = true <-> a = b.
Proof.
  revert b; induction a as [|x a IH]; intros [|y b]; simpl; split; intros H; try done.
  - apply andb_prop in H as [Hx Ha]. apply Z.eqb_eq in Hx. apply IH in Ha. by subst.
  - simplify_eq. rewrite Z.eqb_refl. by apply IH.
Qed.

Lemma bytes_eqb_refl a : bytes_eqb a a = true.
Proof. by apply bytes_eqb_eq. Qed.

Lemma is_prefix_app a b : is_prefix a (a ++ b) = true.
Proof. induction a as [|x a IH]; simpl; [done|]. by rewrite Z.eqb_refl. Qed.

Lemma is_prefix_len a b : is_prefix a b = true -> (length a <= length b)%nat.
Proof.
  revert b. induction a as [|x a IH]; intros [|y b] H; cbn in *; try lia; try done.
  apply andb_true_iff in H as [_ H]. specialize (IH b H). lia.
Qed.

(** ** Lengths *)

Lemma len_nonneg {A} (l : list A) : 0 <= len l.
Proof. unfold len. lia. Qed.

Lemma len_nil {A} : len (@nil A) = 0.
Proof. done. Qed.

Lemma len_cons {A} (x : A) l : len (x :: l) = 1 + len l.
Proof. unfold len. simpl length. lia. Qed.

Lemma len_app {A} (l k : list A) : len (l ++ k) = len l + len k.
Proof. unfold len. rewrite length_app. lia. Qed.

Lemma len_zeros n : 0 <= n -> len (zeros n) = n.
Proof. intros. unfold len, zeros. rewrite length_replicate. lia. Qed.

Lemma zeros_app a b : 0 <= a -> 0 <= b -> zeros (a + b) = zeros a ++ zeros b.
Proof. intros Ha Hb. unfold zeros. by rewrite Z2Nat.inj_add, replicate_add. Qed.

Lemma len_replicate {A} (n : nat) (x : A) : len (replicate n x) = Z.of_nat n.
Proof. unfold len. by rewrite length_replicate. Qed.

Lemma len_map {A B} (f : A -> B) l : len (map f l) = len l.
Proof. unfold len. by rewrite length_map. Qed.

Lemma ztake_app {A} (l k : list A) n : n = len l -> ztake n (l ++ k) = l.
Proof.
  intros ->. unfold ztake, len. rewrite Nat2Z.id.
  by rewrite take_app_length.
Qed.

Lemma zdrop_app {A} (l k : list A) n : n = len l -> zdrop n (l ++ k) = k.
Proof.
  intros ->. unfold zdrop, len. rewrite Nat2Z.id.
  by rewrite drop_app_length.
Qed.

Lemma len_ztake {A} (l : list A) n : 0 <= n -> n <= len l -> len (ztake n l) = n.
Proof. unfold ztake, len. intros. rewrite length_take. lia. Qed.

Lemma len_zdrop {A} (l : list A) n : 0 <= n -> n <= len l -> len (zdrop n l) = len l - n.
Proof. unfold zdrop, len. intros. rewrite length_drop. lia. Qed.

Lemma ztake_zdrop {A} (l : list A) n : ztake n l ++ zdrop n l = l.
Proof. apply take_drop. Qed.

Lemma ztake_all {A} (l : list A) n : n = len l -> ztake n l = l.
Proof. intros ->. unfold ztake, len. rewrite Nat2Z.id. by rewrite firstn_all. Qed.

Lemma slice_app {A} (p l k : list A) a b :
  a = len p -> b = len p + len l -> slice a b (p ++ l ++ k) = l.
Proof.
  intros -> ->. unfold slice. rewrite zdrop_app by done.
  apply ztake_app. lia.
Qed.

(** Splitting a list at a length: the shape proofs about buffers need. *)
Lemma split_at {A} (l : list A) n :
  0 <= n -> n <= len l -> exists a b, l = a ++ b /\ len a = n.
Proof.
  intros. exists (ztake n l), (zdrop n l).
  by rewrite ztake_zdrop, len_ztake.
Qed.

Lemma bytes_ok_app a b : bytes_ok (a ++ b) <-> bytes_ok a /\ bytes_ok b.
Proof. apply Forall_app. Qed.

Lemma bytes_ok_ztake n l : bytes_ok l -> bytes_ok (ztake n l).
Proof. apply Forall_take. Qed.

Lemma bytes_ok_zdrop n l : bytes_ok l -> bytes_ok (zdrop n l).
Proof. apply Forall_drop. Qed.

(** ** Big-endian integers *)

Fixpoint be_bytes (n : nat) (v : Z) : bytes :=
  match n with
  | O => []
  | S n => be_bytes n (v / 256) ++ [v mod 256]
  end.

Definition be_val (l : bytes) : Z := foldl (fun acc b => acc * 256 + b) 0 l.

Lemma len_be_bytes n v : len (be_bytes n v) = Z.of_nat n.
Proof.
  revert v; induction n as [|n IH]; intros v; cbn [be_bytes]; [done|].
  rewrite len_app, IH, len_cons, len_nil. lia.
Qed.

Lemma be_val_app_one l b : be_val (l ++ [b]) = be_val l * 256 + b.
Proof. unfold be_val. by rewrite foldl_app. Qed.

Lemma be_val_bytes n v : be_val (be_bytes n v) = v mod 256 ^ Z.of_nat n.
Proof.
  revert v; induction n as [|n IH]; intros v; cbn [be_bytes].
  - simpl. by rewrite Z.mod_1_r.
  - rewrite be_val_app_one, IH.
    rewrite Nat2Z.inj_succ, Z.pow_succ_r by lia.
    rewrite Z.rem_mul_r by lia. lia.
Qed.

Lemma be_bytes_ok n v : bytes_ok (be_bytes n v).
Proof.
  revert v; induction n as [|n IH]; intros v; cbn [be_bytes]; [constructor|].
  apply bytes_ok_app; split; [apply IH|].
  repeat constructor; apply Z.mod_pos_bound; lia.
Qed.

Lemma be_bytes_val l n : bytes_ok l -> Z.of_nat n = len l -> be_bytes n (be_val l) = l.
Proof.
  revert n; induction l as [|b l IH] using rev_ind; intros n Hok Hn.
  - destruct n; [done|]. rewrite len_nil in Hn. lia.
  - apply bytes_ok_app in Hok as [Hl Hb]. inversion Hb as [|? ? Hb1 _]; subst.
    rewrite len_app, len_cons, len_nil in Hn. unfold byte_ok in Hb1.
    destruct n as [|n]; [pose proof (len_nonneg l); lia|].
    cbn [be_bytes]. rewrite be_val_app_one.
    rewrite Z.div_add_l, Z.div_small, Z.add_0_r by lia.
    rewrite IH by (try done; lia).
    by rewrite Z.add_comm, Z.mod_add, Z.mod_small by lia.
Qed.

Lemma be_val_bound l : bytes_ok l -> 0 <= be_val l < 256 ^ len l.
Proof.
  induction l as [|b l IH] using rev_ind; intros H; [done|].
  apply bytes_ok_app in H as [Hl Hb]. inversion Hb as [|? ? Hb1 _]; subst.
  unfold byte_ok in Hb1. specialize (IH Hl).
  rewrite be_val_app_one.
  replace (len (l ++ [b])) with (Z.succ (len l))
    by (rewrite len_app; unfold len; simpl; lia).
  rewrite Z.pow_succ_r by apply len_nonneg. lia.
Qed.

Lemma be_val_be_bytes_id n v :
  0 <= v < 256 ^ Z.of_nat n -> be_val (be_bytes n v) = v.
Proof. intros. rewrite be_val_bytes. by apply Z.mod_small. Qed.

(** Only the low [n] bytes are written: the [as u16] cast is invisible. *)
Lemma be_bytes_mod n v : be_bytes n (v mod 256 ^ Z.of_nat n) = be_bytes n v.
Proof.
  revert v; induction n as [|n IH]; intros v; cbn [be_bytes]; [done|].
  rewrite Nat2Z.inj_succ, Z.pow_succ_r by lia.
  rewrite Z.rem_mul_r by lia.
  set (q := (v / 256) mod 256 ^ Z.of_nat n).
  pose proof (Z.mod_pos_bound v 256 ltac:(lia)).
  replace ((v mod 256 + 256 * q) / 256) with q by (Z.div_mod_to_equations; lia).
  replace ((v mod 256 + 256 * q) mod 256) with (v mod 256)
    by (rewrite Z.mul_comm, Z.mod_add, Z.mod_mod by lia; done).
  unfold q. by rewrite IH.
Qed.

Lemma be_val_app a b : be_val (a ++ b) = be_val a * 256 ^ len b + be_val b.
Proof.
  induction b as [|x b IH] using rev_ind.
  - rewrite app_nil_r, len_nil. unfold be_val at 3. simpl. lia.
  - rewrite app_assoc, !be_val_app_one, IH.
    replace (len (b ++ [x])) with (Z.succ (len b)) by (rewrite len_app; unfold len; simpl; lia).
    rewrite Z.pow_succ_r by apply len_nonneg. lia.
Qed.

Lemma be_val_zeros n : be_val (zeros n) = 0.
Proof.
  unfold zeros. induction (Z.to_nat n) as [|k IH]; [done|].
  change (replicate (S k) 0) with ([0] ++ replicate k 0).
  rewrite be_val_app, IH. unfold be_val. simpl. lia.
Qed.

(** [bytes_ok], decided *)
Definition bytes_okb (l : bytes) : bool := forallb (fun b => (0 <=? b) && (b <? 256)) l.

Lemma bytes_okb_ok l : bytes_okb l = true -> bytes_ok l.
Proof.
  induction l as [|b l IH]; cbn; [constructor|]. intros [H1 H2]%andb_prop.
  constructor; [|by apply IH]. unfold byte_ok. lia.
Qed.

Lemma zeros_ok n : bytes_ok (zeros n).
Proof. unfold zeros. apply Forall_replicate. done. Qed.

(** the parts of a buffer are bytes, so the buffer is *)
Ltac bytes_solve :=
  repeat first [ assumption | apply be_bytes_ok | apply zeros_ok | apply bytes_ok_app; split ].

(** a non-zero leading byte bounds the value from below *)
Lemma be_val_lead b l : bytes_ok (b :: l) -> b <> 0 -> 256 ^ len l <= be_val (b :: l).
Proof.
  intros Hok Hb. inversion Hok as [|? ? Hb1 Hl]; subst. unfold byte_ok in Hb1.
  change (b :: l) with ([b] ++ l). rewrite be_val_app.
  replace (be_val [b]) with b by (unfold be_val; simpl; lia).
  pose proof (be_val_bound l Hl). nia.
Qed.

Lemma be_bytes_cons n v : be_bytes (S n) v = (v / 256 ^ Z.of_nat n) mod 256 :: be_bytes n v.
Proof.
  revert v; induction n as [|n IH]; intros v.
  - cbn. by rewrite Z.div_1_r.
  - change (be_bytes (S (S n)) v) with (be_bytes (S n) (v / 256) ++ [v mod 256]).
    rewrite IH. rewrite Z.div_div by (try apply Z.pow_pos_nonneg; lia).
    replace (256 * 256 ^ Z.of_nat n) with (256 ^ Z.of_nat (S n))
      by (rewrite Nat2Z.inj_succ, Z.pow_succ_r by lia; done).
    done.
Qed.

(** ** UTF-8 *)

Definition cont_byte (b : Z) : bool := (128 <=? b) && (b <=? 191).

(** Well-formed UTF-8 as [String::from_utf8] checks it: shortest forms only,
    no surrogates, nothing above U+10FFFF. *)
Fixpoint utf8_ok (l : bytes) : bool :=
  match l with
  | [] => true
  | b0 :: l0 =>
    if b0 <=? 127 then utf8_ok l0 else
    match l0 with
    | [] => false
    | b1 :: l1 =>
      if (194 <=? b0) && (b0 <=? 223) then cont_byte b1 && utf8_ok l1 else
      match l1 with
      | [] => false
      | b2 :: l2 =>
        if (224 <=? b0) && (b0 <=? 239) then
          (if b0 =? 224 then (160 <=? b1) && (b1 <=? 191)
           else if b0 =? 237 then (128 <=? b1) && (b1 <=? 159)
           else cont_byte b1) && cont_byte b2 && utf8_ok l2
        else
        match l2 with
        | [] => false
        | b3 :: l3 =>
          if (240 <=? b0) && (b0 <=? 244) then
            (if b0 =? 240 then (144 <=? b1) && (b1 <=? 191)
             else if b0 =? 244 then (128 <=? b1) && (b1 <=? 143)
             else cont_byte b1) && cont_byte b2 && cont_byte b3 && utf8_ok l3
          else false
        end
      end
    end
  end.

(** the bytes of an ASCII string literal *)
Fixpoint ascii_bytes (s : string) : bytes :=
  match s with
  | EmptyString => []
  | String c s => Z.of_nat (Ascii.nat_of_ascii c) :: ascii_bytes s
  end.

(** ** Loops *)

(** a loop with a bound on its iterations; [inr] ends it *)
Fixpoint iter_nat {St R : Type} (n : nat) (f : St -> St + R) (s : St) : St + R :=
  match n with
  | O => inl s
  | S n => match f s with inl s => iter_nat n f s | inr r => inr r end
  end.

(** the same with the bound in binary, so that a large bound costs nothing *)
Fixpoint iter_pos {St R : Type} (p : positive) (f : St -> St + R) (s : St) : St + R :=
  match p with
  | xH => f s
  | xO p => match iter_pos p f s with inl s => iter_pos p f s | inr r => inr r end
  | xI p => match f s with
            | inl s => match iter_pos p f s with inl s => iter_pos p f s | inr r => inr r end
            | inr r => inr r
            end
  end.

Lemma iter_nat_add {St R} (f : St -> St + R) n m s :
  iter_nat (n + m) f s = match iter_nat n f s with inl s => iter_nat m f s | inr r => inr r end.
Proof.
  revert s; induction n as [|n IH]; intros s; [done|].
  cbn. destruct (f s); [apply IH|reflexivity].
Qed.

Lemma iter_pos_nat {St R} (f : St -> St + R) p s : iter_pos p f s = iter_nat (Pos.to_nat p) f s.
Proof.
  revert s; induction p as [p IH|p IH|]; intros s.
  - rewrite Pos2Nat.inj_xI. replace (2 * Pos.to_nat p)%nat with (Pos.to_nat p + Pos.to_nat p)%nat by lia.
    cbn [iter_pos iter_nat]. destruct (f s) as [s'|]; [|done].
    rewrite iter_nat_add, <- IH. destruct (iter_pos p f s'); [apply IH|done].
  - rewrite Pos2Nat.inj_xO. replace (2 * Pos.to_nat p)%nat with (Pos.to_nat p + Pos.to_nat p)%nat by lia.
    cbn [iter_pos]. rewrite iter_nat_add, <- IH. destruct (iter_pos p f s); [apply IH|done].
  - change (Pos.to_nat 1) with 1%nat. cbn [iter_pos iter_nat]. by destruct (f s).
Qed.

(** ** Tactics and hints *)

Create HintDb ire discriminated.
Create Rewrite HintDb len.
#[export] Hint Resolve len_nonneg be_bytes_ok bytes_eqb_refl : ire.
#[export] Hint Rewrite @len_app @len_cons @len_nil len_be_bytes @len_replicate @len_map : len.

(** normalise lengths, then linear arithmetic *)
Ltac len_nil_norm :=
  repeat match goal with
         | |- context [@len ?A (@nil _)] => change (@len A (@nil A)) with 0
         | H : context [@len ?A (@nil _)] |- _ => change (@len A (@nil A)) with 0 in H
         end.
Ltac len_norm := autorewrite with len in *; len_nil_norm.
Ltac llia :=
  len_norm; unfold u8_ok, u16_ok, u32_ok, u64_ok, byte_ok in *;
  repeat match goal with
         | |- context [len ?l] =>
             lazymatch goal with
             | _ : 0 <= len l |- _ => fail
             | _ => pose proof (len_nonneg l)
             end
         | _ : context [len ?l] |- _ =>
             lazymatch goal with
             | _ : 0 <= len l |- _ => fail
             | _ => pose proof (len_nonneg l)
             end
         end; lia.
