(* ===== verification/Nom.v ===== *)
(** * The parser combinators the frames are written with

    ire parses with the crate [nom] 7 (streaming parsers).  The crate is not
    part of the repository, so its combinators are a parameter of the model:
    the class [Nom] holds the operations the sources use and the behaviour
    nom documents for them.  Closures passed to a combinator may panic, and a
    panic propagates.

    From the laws we derive the rules the components use:

    - [parses p bs a]: [p] reads exactly [bs] and returns [a], whatever
      follows;
    - [sound p P]: whatever [p] returns satisfies [P], provided the input
      consists of bytes, and what it leaves unread is a suffix of the input.

    [nom_ref] is an implementation of the class, so the laws can hold and
    the parsers can be run. *)

From S2P Require Import Prelude.

(** ** Results of a parser *)

Inductive Needed := NUnknown | NSize (n : Z).

Inductive ErrorKind :=
| KTag | KMapRes | KMapOpt | KVerify | KComplete | KMany0 | KMany1 | KSwitch
| KEof | KChar | KOneOf | KTakeUntil | KCount.

(** [nom::Err]: [Failure] is [Error] that alternatives do not recover from *)
Inductive NomErr (I : Type) :=
| Incomplete (n : Needed)
| Error (input : I) (code : ErrorKind)
| Failure (input : I) (code : ErrorKind).
Arguments Incomplete {I} n.
Arguments Error {I} input code.
Arguments Failure {I} input code.

Definition IResult (I O : Type) : Type := outcome (result (I * O) (NomErr I)).
Definition parser (I O : Type) : Type := I -> IResult I O.

(** the success of a parser *)
Definition POk {I O} (i : I) (o : O) : IResult I O := Ret (Ok (i, o)).
Definition PErr {I O} (e : NomErr I) : IResult I O := Ret (Err e).

Definition pbind {I A B} (r : IResult I A) (k : I -> A -> IResult I B) : IResult I B :=
  match r with
  | Ret (Ok (i, a)) => k i a
  | Ret (Err e) => Ret (Err e)
  | Panic => Panic
  end.

(** [let (i, x) = p(i)?; k] *)
Notation "'let_p' ( i , x ) ':=' e 'in' k" := (pbind e (fun i x => k))
  (at level 10, i name, x pattern, e at level 100, k at level 200) : rust_scope.

(** bit-level input: the bytes and how many bits of the first are read *)
Definition bit_input : Type := (bytes * Z)%type.

(** [e.convert()] of a bit-level error *)
Definition bit_err (e : NomErr bit_input) : NomErr bytes :=
  match e with
  | Incomplete n => Incomplete n
  | Error (i, _) k => Error i k
  | Failure (i, _) k => Failure i k
  end.

(** ** The interface *)

Class Nom := {
  nom_take : Z -> parser bytes bytes;
  be_u8 : parser bytes Z;
  be_u16 : parser bytes Z;
  be_u32 : parser bytes Z;
  be_u64 : parser bytes Z;
  nom_tag : bytes -> parser bytes bytes;
  take_until_byte : Z -> parser bytes bytes;
  nom_map : forall {I A B}, parser I A -> (A -> outcome B) -> parser I B;
  map_res : forall {I A B E}, parser I A -> (A -> outcome (result B E)) -> parser I B;
  map_opt : forall {I A B}, parser I A -> (A -> outcome (option B)) -> parser I B;
  nom_verify : forall {I A}, parser I A -> (A -> bool) -> parser I A;
  nom_cond : forall {I A}, bool -> parser I A -> parser I (option A);
  nom_peek : forall {I A}, parser I A -> parser I A;
  nom_success : forall {I A}, A -> parser I A;
  complete : forall {I A}, parser I A -> parser I A;
  nom_pair : forall {I A B}, parser I A -> parser I B -> parser I (A * B);
  preceded : forall {I A B}, parser I A -> parser I B -> parser I B;
  terminated : forall {I A B}, parser I A -> parser I B -> parser I A;
  separated_pair : forall {I A B C}, parser I A -> parser I C -> parser I B -> parser I (A * B);
  nom_count : forall {I A}, parser I A -> nat -> parser I (list A);
  length_data : parser bytes Z -> parser bytes bytes;
  length_value : forall {A}, parser bytes Z -> parser bytes A -> parser bytes A;
  length_count : forall {I A}, parser I Z -> parser I A -> parser I (list A);
  many0 : forall {A}, parser bytes A -> parser bytes (list A);
  many1 : forall {A}, parser bytes A -> parser bytes (list A);
  take_bits : Z -> parser bit_input Z;
  nom_bits : forall {A}, parser bit_input A -> parser bytes A;

  (** *** Primitive parsers *)
  (** streaming [take]: the next [n] bytes, or a request for more input *)
  nom_take_ok : forall n i, 0 <= n -> n <= len i ->
    nom_take n i = POk (zdrop n i) (ztake n i);
  nom_take_short : forall n i, len i < n -> exists k, nom_take n i = PErr (Incomplete k);
  be_u8_ok : forall i, 1 <= len i -> be_u8 i = POk (zdrop 1 i) (be_val (ztake 1 i));
  be_u8_short : forall i, len i < 1 -> exists k, be_u8 i = PErr (Incomplete k);
  be_u16_ok : forall i, 2 <= len i -> be_u16 i = POk (zdrop 2 i) (be_val (ztake 2 i));
  be_u16_short : forall i, len i < 2 -> exists k, be_u16 i = PErr (Incomplete k);
  be_u32_ok : forall i, 4 <= len i -> be_u32 i = POk (zdrop 4 i) (be_val (ztake 4 i));
  be_u32_short : forall i, len i < 4 -> exists k, be_u32 i = PErr (Incomplete k);
  be_u64_ok : forall i, 8 <= len i -> be_u64 i = POk (zdrop 8 i) (be_val (ztake 8 i));
  be_u64_short : forall i, len i < 8 -> exists k, be_u64 i = PErr (Incomplete k);
  (** [tag] compares as much as there is *)
  nom_tag_ok : forall t i, is_prefix t i = true ->
    nom_tag t i = POk (zdrop (len t) i) (ztake (len t) i);
  nom_tag_short : forall t i, is_prefix t i = false -> is_prefix i t = true ->
    exists k, nom_tag t i = PErr (Incomplete k);
  nom_tag_bad : forall t i, is_prefix t i = false -> is_prefix i t = false ->
    nom_tag t i = PErr (Error i KTag);
  (** [take_until] of a one-byte pattern: up to its first occurrence *)
  take_until_ok : forall b l r, Forall (fun x => x <> b) l ->
    take_until_byte b (l ++ b :: r) = POk (b :: r) l;
  take_until_short : forall b l, Forall (fun x => x <> b) l ->
    exists k, take_until_byte b l = PErr (Incomplete k);

  (** *** Combinators *)
  nom_map_eq : forall I A B (p : parser I A) (f : A -> outcome B) i,
    nom_map p f i = pbind (p i) (fun i' a => let! b := f a in POk i' b);
  map_res_eq : forall I A B E (p : parser I A) (f : A -> outcome (result B E)) i,
    map_res p f i = pbind (p i) (fun i' a =>
      let! r := f a in
      match r with Ok b => POk i' b | Err _ => PErr (Error i KMapRes) end);
  map_opt_eq : forall I A B (p : parser I A) (f : A -> outcome (option B)) i,
    map_opt p f i = pbind (p i) (fun i' a =>
      let! r := f a in
      match r with Some b => POk i' b | None => PErr (Error i KMapOpt) end);
  nom_verify_eq : forall I A (p : parser I A) (f : A -> bool) i,
    nom_verify p f i = pbind (p i) (fun i' a =>
      if f a then POk i' a else PErr (Error i KVerify));
  nom_cond_eq : forall I A b (p : parser I A) i,
    nom_cond b p i = if b then pbind (p i) (fun i' a => POk i' (Some a)) else POk i None;
  nom_peek_eq : forall I A (p : parser I A) i,
    nom_peek p i = pbind (p i) (fun _ a => POk i a);
  nom_success_eq : forall I A (a : A) (i : I), nom_success a i = POk i a;
  complete_eq : forall I A (p : parser I A) i,
    complete p i = match p i with
                   | Ret (Err (Incomplete _)) => PErr (Error i KComplete)
                   | r => r
                   end;
  nom_pair_eq : forall I A B (p : parser I A) (q : parser I B) i,
    nom_pair p q i = pbind (p i) (fun i1 a => pbind (q i1) (fun i2 b => POk i2 (a, b)));
  preceded_eq : forall I A B (p : parser I A) (q : parser I B) i,
    preceded p q i = pbind (p i) (fun i1 _ => q i1);
  terminated_eq : forall I A B (p : parser I A) (q : parser I B) i,
    terminated p q i = pbind (p i) (fun i1 a => pbind (q i1) (fun i2 _ => POk i2 a));
  separated_pair_eq : forall I A B C (p : parser I A) (s : parser I C) (q : parser I B) i,
    separated_pair p s q i = pbind (p i) (fun i1 a => pbind (s i1) (fun i2 _ =>
                             pbind (q i2) (fun i3 b => POk i3 (a, b))));

  (** *** Repetition and lengths *)
  nom_count_0 : forall I A (p : parser I A) i, nom_count p 0 i = POk i [];
  nom_count_S : forall I A (p : parser I A) n i,
    nom_count p (S n) i =
    pbind (p i) (fun i1 a => pbind (nom_count p n i1) (fun i2 l => POk i2 (a :: l)));
  length_data_eq : forall lp i,
    length_data lp i = pbind (lp i) (fun i1 n => nom_take n i1);
  length_count_eq : forall I A lp (p : parser I A) i,
    length_count lp p i = pbind (lp i) (fun i1 n => nom_count p (Z.to_nat n) i1);
  (** the inner parser sees exactly the announced bytes, so running out of
      them is an error, and what it leaves unread is skipped *)
  length_value_eq : forall A lp (p : parser bytes A) i,
    length_value lp p i = pbind (lp i) (fun i1 n => pbind (nom_take n i1) (fun i2 s =>
      match p s with
      | Ret (Ok (_, a)) => POk i2 a
      | Ret (Err (Incomplete _)) => PErr (Error s KComplete)
      | Ret (Err e) => PErr e
      | Panic => Panic
      end));
  (** [many0] stops at the first [Error]; everything else propagates *)
  many0_stop : forall A (p : parser bytes A) i j k, p i = PErr (Error j k) ->
    many0 p i = POk i [];
  many0_err : forall A (p : parser bytes A) i e,
    p i = PErr e -> (forall j k, e <> Error j k) -> many0 p i = PErr e;
  many0_panic : forall A (p : parser bytes A) i, p i = Panic -> many0 p i = Panic;
  many0_step : forall A (p : parser bytes A) i i' a, p i = POk i' a -> len i' < len i ->
    many0 p i = pbind (many0 p i') (fun r l => POk r (a :: l));
  many0_stuck : forall A (p : parser bytes A) i i' a, p i = POk i' a -> len i' = len i ->
    exists j, many0 p i = PErr (Error j KMany0);
  many1_err : forall A (p : parser bytes A) i e, p i = PErr e -> many1 p i = PErr e;
  many1_panic : forall A (p : parser bytes A) i, p i = Panic -> many1 p i = Panic;
  many1_ok : forall A (p : parser bytes A) i i' a r l,
    p i = POk i' a -> many0 p i' = POk r l -> many1 p i = POk r (a :: l);
  many1_fail : forall A (p : parser bytes A) i i' a e,
    p i = POk i' a -> many0 p i' = PErr e -> exists e', many1 p i = PErr e';
  many1_fail_panic : forall A (p : parser bytes A) i i' a,
    p i = POk i' a -> many0 p i' = Panic -> many1 p i = Panic;

  (** *** Bits: reading inside one byte *)
  take_bits_in : forall n o b i, 0 < n -> 0 <= o -> o + n < 8 ->
    take_bits n (b :: i, o) = POk (b :: i, o + n) (b / 2 ^ (8 - o - n) mod 2 ^ n);
  take_bits_end : forall n o b i, 0 < n -> 0 <= o -> o + n = 8 ->
    take_bits n (b :: i, o) = POk (i, 0) (b mod 2 ^ n);
  take_bits_short : forall n, 0 < n -> exists k, take_bits n ([], 0) = PErr (Incomplete k);
  nom_bits_eq : forall A (p : parser bit_input A) i,
    nom_bits p i = match p (i, 0) with
                   | Ret (Ok ((r, o), a)) => POk (if o =? 0 then r else zdrop 1 r) a
                   | Ret (Err (Incomplete k)) => nom_bits p i
                   | Ret (Err e) => PErr (bit_err e)
                   | Panic => Panic
                   end;
  nom_bits_short : forall A (p : parser bit_input A) i k, p (i, 0) = PErr (Incomplete k) ->
    exists k', nom_bits p i = PErr (Incomplete k');
}.

(** [map] with a closure that cannot panic *)
Definition map_pure {nom : Nom} {I A B} (p : parser I A) (f : A -> B) : parser I B :=
  nom_map p (fun a => Ret (f a)).

(** ** Exact parses *)

(** [p] reads exactly [bs] and returns [a], whatever follows *)
Definition parses {A} (p : parser bytes A) (bs : bytes) (a : A) : Prop :=
  forall rest, p (bs ++ rest) = POk rest a.

Create HintDb parse.

Section Rules.
Context {nom : Nom}.

Lemma parses_exact {A} (p : parser bytes A) bs a : parses p bs a -> p bs = POk [] a.
Proof. intros H. specialize (H []). by rewrite app_nil_r in H. Qed.

Lemma parses_bind {A B} (p : parser bytes A) (k : bytes -> A -> IResult bytes B) bs1 bs2 a b :
  parses p bs1 a -> (forall rest, k (bs2 ++ rest) a = POk rest b) ->
  parses (fun i => pbind (p i) k) (bs1 ++ bs2) b.
Proof. intros Hp Hk rest. rewrite <- app_assoc, Hp. apply Hk. Qed.

Lemma parses_take n bs : n = len bs -> parses (nom_take n) bs bs.
Proof.
  intros -> rest. rewrite nom_take_ok by llia.
  by rewrite ztake_app, zdrop_app.
Qed.

Lemma parses_be_u8 v : u8_ok v -> parses be_u8 (be_bytes 1 v) v.
Proof.
  intros Hv rest. rewrite be_u8_ok by llia.
  rewrite ztake_app, zdrop_app by (by rewrite len_be_bytes).
  by rewrite be_val_be_bytes_id.
Qed.

Lemma parses_be_u16 v : u16_ok v -> parses be_u16 (be_bytes 2 v) v.
Proof.
  intros Hv rest. rewrite be_u16_ok by llia.
  rewrite ztake_app, zdrop_app by (by rewrite len_be_bytes).
  by rewrite be_val_be_bytes_id.
Qed.

Lemma parses_be_u32 v : u32_ok v -> parses be_u32 (be_bytes 4 v) v.
Proof.
  intros Hv rest. rewrite be_u32_ok by llia.
  rewrite ztake_app, zdrop_app by (by rewrite len_be_bytes).
  by rewrite be_val_be_bytes_id.
Qed.

Lemma parses_be_u64 v : u64_ok v -> parses be_u64 (be_bytes 8 v) v.
Proof.
  intros Hv rest. rewrite be_u64_ok by llia.
  rewrite ztake_app, zdrop_app by (by rewrite len_be_bytes).
  by rewrite be_val_be_bytes_id.
Qed.

Lemma parses_tag t : parses (nom_tag t) t t.
Proof.
  intros rest. rewrite nom_tag_ok by apply is_prefix_app.
  by rewrite ztake_app, zdrop_app.
Qed.

Lemma parses_map {A B} (p : parser bytes A) (f : A -> outcome B) bs a b :
  parses p bs a -> f a = Ret b -> parses (nom_map p f) bs b.
Proof. intros Hp Hf rest. rewrite nom_map_eq, Hp. cbn. by rewrite Hf. Qed.

Lemma parses_map_pure {A B} (p : parser bytes A) (f : A -> B) bs a b :
  parses p bs a -> f a = b -> parses (map_pure p f) bs b.
Proof. intros Hp <-. by eapply parses_map. Qed.

Lemma parses_map_res {A B E} (p : parser bytes A) (f : A -> outcome (result B E)) bs a b :
  parses p bs a -> f a = Ret (Ok b) -> parses (map_res p f) bs b.
Proof. intros Hp Hf rest. rewrite map_res_eq, Hp. cbn. by rewrite Hf. Qed.

Lemma parses_map_opt {A B} (p : parser bytes A) (f : A -> outcome (option B)) bs a b :
  parses p bs a -> f a = Ret (Some b) -> parses (map_opt p f) bs b.
Proof. intros Hp Hf rest. rewrite map_opt_eq, Hp. cbn. by rewrite Hf. Qed.

Lemma parses_verify {A} (p : parser bytes A) f bs a :
  parses p bs a -> f a = true -> parses (nom_verify p f) bs a.
Proof. intros Hp Hf rest. rewrite nom_verify_eq, Hp. cbn. by rewrite Hf. Qed.

Lemma parses_cond_true {A} (p : parser bytes A) bs a :
  parses p bs a -> parses (nom_cond true p) bs (Some a).
Proof. intros Hp rest. by rewrite nom_cond_eq, Hp. Qed.

Lemma parses_cond_false {A} (p : parser bytes A) : parses (nom_cond false p) [] None.
Proof. intros rest. by rewrite nom_cond_eq. Qed.

Lemma parses_complete {A} (p : parser bytes A) bs a :
  parses p bs a -> parses (complete p) bs a.
Proof. intros Hp rest. by rewrite complete_eq, Hp. Qed.

Lemma parses_success {A} (a : A) : parses (nom_success a) [] a.
Proof. intros rest. by rewrite nom_success_eq. Qed.

Lemma parses_pair {A B} (p : parser bytes A) (q : parser bytes B) bs1 bs2 a b :
  parses p bs1 a -> parses q bs2 b -> parses (nom_pair p q) (bs1 ++ bs2) (a, b).
Proof.
  intros Hp Hq rest. rewrite nom_pair_eq, <- app_assoc, Hp. cbn. by rewrite Hq.
Qed.

Lemma parses_preceded {A B} (p : parser bytes A) (q : parser bytes B) bs1 bs2 a b :
  parses p bs1 a -> parses q bs2 b -> parses (preceded p q) (bs1 ++ bs2) b.
Proof.
  intros Hp Hq rest. rewrite preceded_eq, <- app_assoc, Hp. cbn. by rewrite Hq.
Qed.

Lemma parses_terminated {A B} (p : parser bytes A) (q : parser bytes B) bs1 bs2 a b :
  parses p bs1 a -> parses q bs2 b -> parses (terminated p q) (bs1 ++ bs2) a.
Proof.
  intros Hp Hq rest. rewrite terminated_eq, <- app_assoc, Hp. cbn. by rewrite Hq.
Qed.

Lemma parses_separated_pair {A B C} (p : parser bytes A) (sep : parser bytes C)
    (q : parser bytes B) bs1 bs2 bs3 a c b :
  parses p bs1 a -> parses sep bs2 c -> parses q bs3 b ->
  parses (separated_pair p sep q) (bs1 ++ bs2 ++ bs3) (a, b).
Proof.
  intros Hp Hs Hq rest. rewrite separated_pair_eq, <- !app_assoc, Hp. cbn.
  rewrite Hs. cbn. by rewrite Hq.
Qed.

Lemma parses_count {A} (p : parser bytes A) (enc : A -> bytes) l n :
  n = length l -> Forall (fun a => parses p (enc a) a) l ->
  parses (nom_count p n) (concat (map enc l)) l.
Proof.
  intros -> H. induction H as [|a l Ha _ IH]; intros rest; simpl length; simpl concat.
  - apply nom_count_0.
  - rewrite nom_count_S, <- app_assoc, Ha. cbn. by rewrite IH.
Qed.

Lemma parses_length_count {A} lp lbs n (p : parser bytes A) (enc : A -> bytes) l :
  parses lp lbs n -> n = len l -> Forall (fun a => parses p (enc a) a) l ->
  parses (length_count lp p) (lbs ++ concat (map enc l)) l.
Proof.
  intros Hl -> H rest. rewrite length_count_eq, <- app_assoc, Hl. cbn.
  apply parses_count; [|done]. unfold len. lia.
Qed.

Lemma parses_length_data lp lbs n bs :
  parses lp lbs n -> n = len bs -> parses (length_data lp) (lbs ++ bs) bs.
Proof.
  intros Hl -> rest. rewrite length_data_eq, <- app_assoc, Hl. cbn.
  by apply parses_take.
Qed.

Lemma parses_length_value {A} lp lbs n (p : parser bytes A) bs r a :
  parses lp lbs n -> n = len bs -> p bs = POk r a ->
  parses (length_value lp p) (lbs ++ bs) a.
Proof.
  intros Hl -> Hp rest. rewrite length_value_eq, <- app_assoc, Hl. cbn.
  rewrite (parses_take _ bs) by done. cbn. by rewrite Hp.
Qed.

(** [many0(complete(p))] reads a whole buffer of encodings *)
Lemma many0_complete_all {A} (p : parser bytes A) (enc : A -> bytes) l k :
  Forall (fun a => parses p (enc a) a /\ 0 < len (enc a)) l ->
  p [] = PErr (Incomplete k) ->
  many0 (complete p) (concat (map enc l)) = POk [] l.
Proof.
  intros H Hnil. induction H as [|a l [Ha Hlen] _ IH]; simpl concat.
  - eapply many0_stop. rewrite complete_eq, Hnil. done.
  - erewrite many0_step; [by rewrite IH | by apply parses_complete | llia].
Qed.

(** the same with an encoding per element *)
Lemma many0_complete_each {A} (p : parser bytes A) l bss k :
  Forall2 (fun a bs => parses p bs a /\ 0 < len bs) l bss -> p [] = PErr (Incomplete k) ->
  many0 (complete p) (concat bss) = POk [] l.
Proof.
  intros H Hnil. induction H as [|a bs l bss [Ha Hlen] _ IH]; simpl concat.
  - eapply many0_stop. rewrite complete_eq, Hnil. done.
  - erewrite many0_step; [by rewrite IH | by apply parses_complete | llia].
Qed.

Lemma many1_complete_each {A} (p : parser bytes A) l bss k :
  l <> [] -> Forall2 (fun a bs => parses p bs a /\ 0 < len bs) l bss -> p [] = PErr (Incomplete k) ->
  many1 (complete p) (concat bss) = POk [] l.
Proof.
  intros Hl H Hnil. destruct H as [|a bs l bss [Ha Hlen] H]; [done|]. simpl concat.
  eapply many1_ok; [by apply parses_complete|]. by eapply many0_complete_each.
Qed.

(** ** Soundness of a parser *)

(** what [p] returns satisfies [P]; it leaves a suffix of its input *)
Definition sound {A} (p : parser bytes A) (P : A -> Prop) : Prop :=
  forall i r a, bytes_ok i -> p i = POk r a -> P a /\ exists c, i = c ++ r.

Lemma sound_suffix_ok {A} (p : parser bytes A) P i r a :
  sound p P -> bytes_ok i -> p i = POk r a -> P a /\ bytes_ok r.
Proof.
  intros Hs Hi Hp. destruct (Hs _ _ _ Hi Hp) as [HP [c ->]].
  apply bytes_ok_app in Hi as [_ Hr]. done.
Qed.

Lemma sound_weaken {A} (p : parser bytes A) (P Q : A -> Prop) :
  sound p P -> (forall a, P a -> Q a) -> sound p Q.
Proof. intros Hs HPQ i r a Hi Hp. destruct (Hs _ _ _ Hi Hp). eauto. Qed.

Lemma sound_bind {A B} (p : parser bytes A) (k : bytes -> A -> IResult bytes B) P Q :
  sound p P -> (forall a, P a -> sound (fun i => k i a) Q) ->
  sound (fun i => pbind (p i) k) Q.
Proof.
  intros Hp Hk i r b Hi H. destruct (p i) as [[[i1 a]|e]|] eqn:E; try discriminate H.
  cbn in H. destruct (Hp _ _ _ Hi E) as [HP [c ->]].
  apply bytes_ok_app in Hi as [_ Hi1].
  destruct (Hk a HP _ _ _ Hi1 H) as [HQ [c' ->]].
  split; [done|]. exists (c ++ c'). by rewrite app_assoc.
Qed.

Lemma sound_ret {A} (a : A) (P : A -> Prop) : P a -> sound (fun i => POk i a) P.
Proof. intros HP i r b _ [= <- <-]. split; [done|]. by exists []. Qed.

Lemma sound_err {A} (P : A -> Prop) (e : bytes -> NomErr bytes) :
  sound (fun i => PErr (e i)) P.
Proof. by intros i r a _ [=]. Qed.

Lemma sound_panic {A} (P : A -> Prop) : sound (fun i => Panic) P.
Proof. by intros i r a _ [=]. Qed.

Lemma take_len n i r a : 0 <= n -> nom_take n i = POk r a -> len a = n.
Proof.
  intros Hn H. destruct (Z.le_gt_cases n (len i)) as [Hl|Hl].
  - rewrite nom_take_ok in H by done. injection H as _ <-. by apply len_ztake.
  - destruct (nom_take_short n i) as [k Hk]; [lia|]. rewrite Hk in H. discriminate H.
Qed.

Lemma sound_take n :
  0 <= n -> sound (nom_take n) (fun b => bytes_ok b /\ len b = n).
Proof.
  intros Hn i r a Hi H. destruct (Z.le_gt_cases n (len i)) as [Hl|Hl].
  - rewrite nom_take_ok in H by done. injection H as <- <-.
    split; [split; [by apply bytes_ok_ztake | by apply len_ztake]|].
    exists (ztake n i). by rewrite ztake_zdrop.
  - destruct (nom_take_short n i) as [k Hk]; [lia|]. rewrite Hk in H. discriminate H.
Qed.

Lemma sound_be_aux n (p : parser bytes Z) :
  0 <= n ->
  (forall i, n <= len i -> p i = POk (zdrop n i) (be_val (ztake n i))) ->
  (forall i, len i < n -> exists k, p i = PErr (Incomplete k)) ->
  sound p (fun v => 0 <= v < 256 ^ n).
Proof.
  intros Hn Hok Hs i r a Hi H. destruct (Z.le_gt_cases n (len i)) as [Hl|Hl].
  - rewrite Hok in H by done. injection H as <- <-. split.
    + pose proof (be_val_bound (ztake n i) (bytes_ok_ztake n i Hi)) as Hb.
      by rewrite len_ztake in Hb.
    + exists (ztake n i). by rewrite ztake_zdrop.
  - destruct (Hs i) as [k Hk]; [lia|]. rewrite Hk in H. discriminate H.
Qed.

Lemma sound_be_u8 : sound be_u8 u8_ok.
Proof. apply (sound_be_aux 1); [lia | apply be_u8_ok | apply be_u8_short]. Qed.
Lemma sound_be_u16 : sound be_u16 u16_ok.
Proof. apply (sound_be_aux 2); [lia | apply be_u16_ok | apply be_u16_short]. Qed.
Lemma sound_be_u32 : sound be_u32 u32_ok.
Proof. apply (sound_be_aux 4); [lia | apply be_u32_ok | apply be_u32_short]. Qed.
Lemma sound_be_u64 : sound be_u64 u64_ok.
Proof. apply (sound_be_aux 8); [lia | apply be_u64_ok | apply be_u64_short]. Qed.

Lemma sound_ext {A} (p q : parser bytes A) P :
  (forall i, p i = q i) -> sound q P -> sound p P.
Proof. intros He Hq i r a. rewrite He. apply Hq. Qed.

Lemma sound_map {A B} (p : parser bytes A) (f : A -> outcome B) P Q :
  sound p P -> (forall a b, P a -> f a = Ret b -> Q b) -> sound (nom_map p f) Q.
Proof.
  intros Hp Hf. eapply sound_ext; [apply nom_map_eq|].
  eapply sound_bind; [exact Hp|]. intros a Ha i r b Hi H.
  destruct (f a) as [b'|] eqn:E; [|discriminate H].
  by apply (sound_ret b'); [eapply Hf|..].
Qed.

Lemma sound_map_pure {A B} (p : parser bytes A) (f : A -> B) P Q :
  sound p P -> (forall a, P a -> Q (f a)) -> sound (map_pure p f) Q.
Proof. intros Hp Hf. eapply sound_map; [exact Hp|]. intros a b Ha [= <-]. by apply Hf. Qed.

Lemma sound_map_res {A B E} (p : parser bytes A) (f : A -> outcome (result B E)) P Q :
  sound p P -> (forall a b, P a -> f a = Ret (Ok b) -> Q b) -> sound (map_res p f) Q.
Proof.
  intros Hp Hf i r b Hi. rewrite map_res_eq.
  destruct (p i) as [[[i1 a]|e]|] eqn:E1; [|done..]. cbn.
  destruct (f a) as [[b'|]|] eqn:E2; [|done..]. intros [= <- <-].
  destruct (Hp _ _ _ Hi E1). split; [by eapply Hf|done].
Qed.

Lemma sound_map_opt {A B} (p : parser bytes A) (f : A -> outcome (option B)) P Q :
  sound p P -> (forall a b, P a -> f a = Ret (Some b) -> Q b) -> sound (map_opt p f) Q.
Proof.
  intros Hp Hf i r b Hi. rewrite map_opt_eq.
  destruct (p i) as [[[i1 a]|e]|] eqn:E1; [|done..]. cbn.
  destruct (f a) as [[b'|]|] eqn:E2; [|done..]. intros [= <- <-].
  destruct (Hp _ _ _ Hi E1). split; [by eapply Hf|done].
Qed.

Lemma sound_verify {A} (p : parser bytes A) f P :
  sound p P -> sound (nom_verify p f) (fun a => P a /\ f a = true).
Proof.
  intros Hp i r b Hi. rewrite nom_verify_eq.
  destruct (p i) as [[[i1 a]|e]|] eqn:E1; [|done..]. cbn.
  destruct (f a) eqn:E2; [|done]. intros [= <- <-].
  destruct (Hp _ _ _ Hi E1). done.
Qed.

Lemma sound_cond {A} b (p : parser bytes A) P :
  sound p P ->
  sound (nom_cond b p) (fun o => match o with Some a => b = true /\ P a | None => b = false end).
Proof.
  intros Hp. destruct b; (eapply sound_ext; [intros i; apply nom_cond_eq|]).
  - eapply sound_bind; [exact Hp|]. intros a Ha. by apply sound_ret.
  - by apply sound_ret.
Qed.

Lemma sound_pair {A B} (p : parser bytes A) (q : parser bytes B) P Q :
  sound p P -> sound q Q -> sound (nom_pair p q) (fun ab => P ab.1 /\ Q ab.2).
Proof.
  intros Hp Hq. eapply sound_ext; [apply nom_pair_eq|].
  eapply sound_bind; [exact Hp|]. intros a Ha. cbn.
  eapply sound_bind; [exact Hq|]. intros b Hb. by apply sound_ret.
Qed.

Lemma sound_preceded {A B} (p : parser bytes A) (q : parser bytes B) P Q :
  sound p P -> sound q Q -> sound (preceded p q) Q.
Proof.
  intros Hp Hq. eapply sound_ext; [apply preceded_eq|].
  eapply sound_bind; [exact Hp|]. intros a Ha. exact Hq.
Qed.

Lemma sound_terminated {A B} (p : parser bytes A) (q : parser bytes B) P Q :
  sound p P -> sound q Q -> sound (terminated p q) P.
Proof.
  intros Hp Hq. eapply sound_ext; [apply terminated_eq|].
  eapply sound_bind; [exact Hp|]. intros a Ha. cbn.
  eapply sound_bind; [exact Hq|]. intros b Hb. by apply sound_ret.
Qed.

Lemma sound_separated_pair {A B C} (p : parser bytes A) (s : parser bytes C)
    (q : parser bytes B) P Q R :
  sound p P -> sound s R -> sound q Q ->
  sound (separated_pair p s q) (fun ab => P ab.1 /\ Q ab.2).
Proof.
  intros Hp Hs Hq. eapply sound_ext; [apply separated_pair_eq|].
  eapply sound_bind; [exact Hp|]. intros a Ha. cbn.
  eapply sound_bind; [exact Hs|]. intros c Hc. cbn.
  eapply sound_bind; [exact Hq|]. intros b Hb. by apply sound_ret.
Qed.

Lemma sound_peek {A} (p : parser bytes A) P : sound p P -> sound (nom_peek p) P.
Proof.
  intros Hp i r a Hi. rewrite nom_peek_eq. destruct (p i) as [[[i1 x]|]|] eqn:E; [|done..].
  intros [= <- <-]. destruct (Hp _ _ _ Hi E). split; [done|by exists []].
Qed.

Lemma sound_complete {A} (p : parser bytes A) P : sound p P -> sound (complete p) P.
Proof.
  intros Hp i r a Hi. rewrite complete_eq.
  destruct (p i) as [[[i1 x]|[]]|] eqn:E; try done.
  intros [= <- <-]. by apply (Hp i i1 x).
Qed.

Lemma sound_tag t : sound (nom_tag t) (fun b => b = t).
Proof.
  intros i r a Hi H. destruct (is_prefix t i) eqn:E1.
  - rewrite nom_tag_ok in H by done. injection H as <- <-.
    split; [|exists (ztake (len t) i); by rewrite ztake_zdrop].
    clear Hi. revert i E1. induction t as [|x t IH]; intros [|y i] E; try done.
    simpl in E. apply andb_prop in E as [->%Z.eqb_eq E].
    specialize (IH i E). unfold ztake, len in *. rewrite Nat2Z.id in *. simpl. by rewrite IH.
  - destruct (is_prefix i t) eqn:E2.
    + destruct (nom_tag_short t i E1 E2) as [k Hk]. rewrite Hk in H. discriminate H.
    + rewrite nom_tag_bad in H by done. discriminate H.
Qed.

Lemma sound_count {A} (p : parser bytes A) P n :
  sound p P -> sound (nom_count p n) (fun l => Forall P l /\ length l = n).
Proof.
  intros Hp. induction n as [|n IH].
  - eapply sound_ext; [intros i; apply nom_count_0|]. by apply sound_ret.
  - eapply sound_ext; [apply nom_count_S|].
    eapply sound_bind; [exact Hp|]. intros a Ha. cbn.
    eapply sound_bind; [exact IH|]. intros l [Hl Hn]. apply sound_ret.
    split; [by constructor|]. by rewrite <- Hn.
Qed.

Lemma sound_length_count {A} lp (p : parser bytes A) (L : Z -> Prop) P :
  sound lp L -> sound p P ->
  sound (length_count lp p) (fun l => Forall P l /\ exists n, L n /\ length l = Z.to_nat n).
Proof.
  intros Hl Hp. eapply sound_ext; [apply length_count_eq|].
  eapply sound_bind; [exact Hl|]. intros n Hn. cbn.
  eapply sound_weaken; [by apply sound_count|]. naive_solver.
Qed.

Lemma sound_length_data lp (L : Z -> Prop) :
  sound lp L -> (forall n, L n -> 0 <= n) ->
  sound (length_data lp) (fun b => bytes_ok b /\ L (len b)).
Proof.
  intros Hl Hpos. eapply sound_ext; [apply length_data_eq|].
  eapply sound_bind; [exact Hl|]. intros n Hn. cbn.
  eapply sound_weaken; [apply sound_take; by apply Hpos|]. naive_solver.
Qed.

Lemma sound_length_value {A} lp (p : parser bytes A) (L : Z -> Prop) P :
  sound lp L -> (forall n, L n -> 0 <= n) -> sound p P -> sound (length_value lp p) P.
Proof.
  intros Hl Hpos Hp. eapply sound_ext; [apply length_value_eq|].
  eapply sound_bind; [exact Hl|]. intros n Hn. cbn.
  eapply sound_bind; [apply sound_take; by apply Hpos|]. intros s [Hs _] i r a Hi H.
  destruct (p s) as [[[r' a']|[]]|] eqn:E; try discriminate H.
  injection H as <- <-. destruct (Hp _ _ _ Hs E). split; [done|by exists []].
Qed.

Lemma sound_many0 {A} (p : parser bytes A) P : sound p P -> sound (many0 p) (Forall P).
Proof.
  intros Hp i. remember (length i) as n eqn:Hn. revert i Hn.
  induction n as [n IH] using lt_wf_ind. intros i -> r l Hi H.
  destruct (p i) as [[[i1 a]|e]|] eqn:E.
  - destruct (Hp _ _ _ Hi E) as [Ha [c Hc]].
    destruct (decide (len i1 = len i)) as [He|He].
    { destruct (many0_stuck _ p i i1 a E He) as [j Hj]. rewrite Hj in H. discriminate H. }
    assert (length i1 < length i)%nat by (subst i; rewrite length_app in *; unfold len in *;
      rewrite ?length_app in *; lia).
    rewrite (many0_step _ p i i1 a E) in H by (unfold len; lia).
    destruct (many0 p i1) as [[[r' l']|]|] eqn:E2; try discriminate H.
    injection H as <- <-. subst i. apply bytes_ok_app in Hi as [_ Hi1].
    destruct (IH (length i1) ltac:(lia) i1 eq_refl _ _ Hi1 E2) as [Hl [c' ->]].
    split; [by constructor|]. exists (c ++ c'). by rewrite app_assoc.
  - destruct e as [k|j k|j k].
    + rewrite (many0_err _ p i _ E) in H by done. discriminate H.
    + rewrite (many0_stop _ p i _ _ E) in H. injection H as <- <-.
      split; [constructor|by exists []].
    + rewrite (many0_err _ p i _ E) in H by done. discriminate H.
  - rewrite (many0_panic _ p i E) in H. discriminate H.
Qed.

Lemma sound_many1 {A} (p : parser bytes A) P :
  sound p P -> sound (many1 p) (fun l => l <> [] /\ Forall P l).
Proof.
  intros Hp i r l Hi H. destruct (p i) as [[[i1 a]|e]|] eqn:E.
  - destruct (Hp _ _ _ Hi E) as [Ha [c ->]]. apply bytes_ok_app in Hi as [_ Hi1].
    destruct (many0 p i1) as [[[r' l']|e]|] eqn:E2.
    + rewrite (many1_ok _ _ _ _ _ _ _ E E2) in H. injection H as <- <-.
      destruct (sound_many0 p P Hp _ _ _ Hi1 E2) as [Hl [c' ->]].
      split; [by split; [|constructor]|]. exists (c ++ c'). by rewrite app_assoc.
    + destruct (many1_fail _ _ _ _ _ _ E E2) as [e' He]. by rewrite He in H.
    + by rewrite (many1_fail_panic _ _ _ _ _ E E2) in H.
  - by rewrite (many1_err _ _ _ _ E) in H.
  - by rewrite (many1_panic _ _ _ E) in H.
Qed.

(** ** Exact inverses *)

(** what [p] consumed is the encoding of what it returned *)
Definition exact {A} (p : parser bytes A) (enc : A -> bytes) : Prop :=
  forall i r a, bytes_ok i -> p i = POk r a -> i = enc a ++ r.

Lemma exact_be_aux (n : nat) (p : parser bytes Z) :
  (forall i, Z.of_nat n <= len i -> p i = POk (zdrop (Z.of_nat n) i) (be_val (ztake (Z.of_nat n) i))) ->
  (forall i, len i < Z.of_nat n -> exists k, p i = PErr (Incomplete k)) ->
  exact p (be_bytes n).
Proof.
  intros Hok Hs i r a Hi H. destruct (Z.le_gt_cases (Z.of_nat n) (len i)) as [Hl|Hl].
  - rewrite Hok in H by done. injection H as <- <-.
    rewrite be_bytes_val; [by rewrite ztake_zdrop|by apply bytes_ok_ztake|].
    rewrite len_ztake; lia.
  - destruct (Hs i) as [k Hk]; [lia|]. rewrite Hk in H. discriminate H.
Qed.

Lemma exact_be_u8 : exact be_u8 (be_bytes 1).
Proof. apply exact_be_aux; [apply be_u8_ok | apply be_u8_short]. Qed.
Lemma exact_be_u16 : exact be_u16 (be_bytes 2).
Proof. apply exact_be_aux; [apply be_u16_ok | apply be_u16_short]. Qed.

Lemma exact_take n : 0 <= n -> exact (nom_take n) (fun b => b).
Proof.
  intros Hn i r a Hi H. destruct (Z.le_gt_cases n (len i)) as [Hl|Hl].
  - rewrite nom_take_ok in H by done. injection H as <- <-. by rewrite ztake_zdrop.
  - destruct (nom_take_short n i) as [k Hk]; [lia|]. rewrite Hk in H. discriminate H.
Qed.

Lemma exact_tag t : exact (nom_tag t) (fun _ => t).
Proof.
  intros i r a Hi H. destruct (sound_tag t i r a Hi H) as [-> [c Hc]].
  destruct (is_prefix t i) eqn:E1.
  - rewrite nom_tag_ok in H by done. injection H as <- Ht.
    rewrite <- Ht at 1. by rewrite ztake_zdrop.
  - destruct (is_prefix i t) eqn:E2.
    + destruct (nom_tag_short t i E1 E2) as [k Hk]. rewrite Hk in H. discriminate H.
    + rewrite nom_tag_bad in H by done. discriminate H.
Qed.

Lemma exact_bind {A B} (p : parser bytes A) (k : bytes -> A -> IResult bytes B) encA P i r b :
  exact p encA -> sound p P -> bytes_ok i -> pbind (p i) k = POk r b ->
  exists i1 a, p i = POk i1 a /\ P a /\ i = encA a ++ i1 /\ bytes_ok i1 /\ k i1 a = POk r b.
Proof.
  intros He Hs Hi H. destruct (p i) as [[[i1 a]|e]|] eqn:E; try discriminate H.
  exists i1, a. destruct (sound_suffix_ok p P i i1 a Hs Hi E). eauto 10.
Qed.

Lemma exact_many0 {A} (p : parser bytes A) enc :
  exact p enc -> exact (many0 (complete p)) (fun l => concat (map enc l)).
Proof.
  intros He i. remember (length i) as n eqn:Hn. revert i Hn.
  induction n as [n IH] using lt_wf_ind. intros i -> r l Hi H.
  assert (exact (complete p) enc) as Hc.
  { intros i' r' a' Hi'. rewrite complete_eq.
    destruct (p i') as [[[]|[]]|] eqn:E; try done. intros [= <- <-]. by apply (He i' l0 a). }
  destruct (complete p i) as [[[i1 a]|e]|] eqn:E.
  - pose proof (Hc _ _ _ Hi E) as Hi1.
    destruct (decide (len i1 = len i)) as [Hl|Hl].
    { destruct (many0_stuck _ _ i i1 a E Hl) as [j Hj]. rewrite Hj in H. discriminate H. }
    assert (len i1 < len i) as Hlt by (rewrite Hi1 in *; rewrite len_app in *;
      pose proof (len_nonneg (enc a)); lia).
    rewrite (many0_step _ _ i i1 a E Hlt) in H.
    destruct (many0 (complete p) i1) as [[[r' l']|]|] eqn:E2; try discriminate H.
    injection H as <- <-. rewrite Hi1 in Hi. apply bytes_ok_app in Hi as [_ Hok].
    unfold len in Hlt.
    pose proof (IH (length i1) ltac:(lia) i1 eq_refl _ _ Hok E2) as ->.
    cbn. rewrite <- app_assoc. exact Hi1.
  - destruct e as [k|j k|j k].
    + rewrite (many0_err _ _ i _ E) in H by done. discriminate H.
    + rewrite (many0_stop _ _ i _ _ E) in H. by injection H as <- <-.
    + rewrite (many0_err _ _ i _ E) in H by done. discriminate H.
  - rewrite (many0_panic _ _ i E) in H. discriminate H.
Qed.

(** ** Parsers that never panic *)

Definition total {A} (p : parser bytes A) : Prop := forall i, bytes_ok i -> p i <> Panic.

Lemma total_ext {A} (p q : parser bytes A) : (forall i, p i = q i) -> total q -> total p.
Proof. intros He Hq i Hi. rewrite He. by apply Hq. Qed.

Lemma total_ok {A} (a : A) : total (fun i => POk i a).
Proof. by intros i _ [=]. Qed.
Lemma total_err {A} (e : bytes -> NomErr bytes) : total (fun i => @PErr bytes A (e i)).
Proof. by intros i _ [=]. Qed.

Lemma total_bind {A B} (p : parser bytes A) (k : bytes -> A -> IResult bytes B) P :
  total p -> sound p P -> (forall a, P a -> total (fun i => k i a)) -> total (fun i => pbind (p i) k).
Proof.
  intros Ht Hs Hk i Hi. destruct (p i) as [[[i1 a]|e]|] eqn:E; cbn.
  - destruct (sound_suffix_ok p P i i1 a Hs Hi E) as [Ha Hi1]. by apply Hk.
  - done.
  - by destruct (Ht i Hi).
Qed.

Lemma total_map_pure {A B} (p : parser bytes A) (f : A -> B) : total p -> total (map_pure p f).
Proof.
  intros Hp i Hi. unfold map_pure. rewrite nom_map_eq. specialize (Hp i Hi).
  by destruct (p i) as [[[]|]|].
Qed.

Lemma total_take n : 0 <= n -> total (nom_take n).
Proof.
  intros Hn i Hi. destruct (Z.le_gt_cases n (len i)).
  - by rewrite nom_take_ok.
  - destruct (nom_take_short n i) as [k ->]; [lia|done].
Qed.

Lemma total_be_aux n (p : parser bytes Z) :
  (forall i, n <= len i -> p i = POk (zdrop n i) (be_val (ztake n i))) ->
  (forall i, len i < n -> exists k, p i = PErr (Incomplete k)) -> total p.
Proof.
  intros Hok Hs i Hi. destruct (Z.le_gt_cases n (len i)); [by rewrite Hok|].
  by destruct (Hs i) as [k ->]; [lia|].
Qed.

Lemma total_be_u8 : total be_u8.
Proof. apply (total_be_aux 1); [apply be_u8_ok|apply be_u8_short]. Qed.
Lemma total_be_u16 : total be_u16.
Proof. apply (total_be_aux 2); [apply be_u16_ok|apply be_u16_short]. Qed.
Lemma total_be_u32 : total be_u32.
Proof. apply (total_be_aux 4); [apply be_u32_ok|apply be_u32_short]. Qed.
Lemma total_be_u64 : total be_u64.
Proof. apply (total_be_aux 8); [apply be_u64_ok|apply be_u64_short]. Qed.

Lemma total_tag t : total (nom_tag t).
Proof.
  intros i Hi. destruct (is_prefix t i) eqn:E1; [by rewrite nom_tag_ok|].
  destruct (is_prefix i t) eqn:E2; [by destruct (nom_tag_short t i E1 E2) as [k ->]|by rewrite nom_tag_bad].
Qed.

(** a buffer either holds the byte, at a first place, or does not *)
Lemma first_occurrence (b : Z) (i : bytes) :
  Forall (fun x => x <> b) i \/ exists l r, i = l ++ b :: r /\ Forall (fun x => x <> b) l.
Proof.
  induction i as [|x i [IH|(l & r & -> & IH)]]; [by left| |].
  - destruct (decide (x = b)) as [->|Hne]; [right; by exists [], i|left; by constructor].
  - destruct (decide (x = b)) as [->|Hne]; right; [by exists [], (l ++ b :: r)|].
    exists (x :: l), r. split; [done|by constructor].
Qed.

Lemma total_take_until b : total (take_until_byte b).
Proof.
  intros i Hi. destruct (first_occurrence b i) as [H|(l & r & -> & H)].
  - by destruct (take_until_short b i H) as [k ->].
  - by rewrite take_until_ok.
Qed.

Lemma sound_take_until b : sound (take_until_byte b) (fun l => bytes_ok l /\ Forall (fun x => x <> b) l).
Proof.
  intros i r a Hi H. destruct (first_occurrence b i) as [Hn|(l & t & -> & Hl)].
  - destruct (take_until_short b i Hn) as [k Hk]. rewrite Hk in H. discriminate H.
  - rewrite take_until_ok in H by done. injection H as <- <-.
    apply bytes_ok_app in Hi as [Hok _]. split; [done|]. by exists l.
Qed.

Lemma total_cond {A} b (p : parser bytes A) : total p -> total (nom_cond b p).
Proof.
  intros Hp i Hi. rewrite nom_cond_eq. destruct b; [|done]. specialize (Hp i Hi).
  by destruct (p i) as [[[]|]|].
Qed.

Lemma total_complete {A} (p : parser bytes A) : total p -> total (complete p).
Proof.
  intros Hp i Hi. rewrite complete_eq. specialize (Hp i Hi). by destruct (p i) as [[|[]]|].
Qed.

Lemma total_peek {A} (p : parser bytes A) : total p -> total (nom_peek p).
Proof.
  intros Hp i Hi. rewrite nom_peek_eq. specialize (Hp i Hi). by destruct (p i) as [[[]|]|].
Qed.

Lemma total_verify {A} (p : parser bytes A) f : total p -> total (nom_verify p f).
Proof.
  intros Hp i Hi. rewrite nom_verify_eq. specialize (Hp i Hi).
  destruct (p i) as [[[? a]|]|]; [|done..]. cbn. by destruct (f a).
Qed.

Lemma total_pair {A B} (p : parser bytes A) (q : parser bytes B) P :
  total p -> sound p P -> total q -> total (nom_pair p q).
Proof.
  intros Hp Hs Hq. eapply total_ext; [apply nom_pair_eq|].
  eapply total_bind; [exact Hp|exact Hs|]. intros a _. cbn. intros i Hi. specialize (Hq i Hi).
  by destruct (q i) as [[[]|]|].
Qed.

Lemma total_preceded {A B} (p : parser bytes A) (q : parser bytes B) P :
  total p -> sound p P -> total q -> total (preceded p q).
Proof.
  intros Hp Hs Hq. eapply total_ext; [apply preceded_eq|]. by eapply total_bind.
Qed.

Lemma total_terminated {A B} (p : parser bytes A) (q : parser bytes B) P :
  total p -> sound p P -> total q -> total (terminated p q).
Proof.
  intros Hp Hs Hq. eapply total_ext; [apply terminated_eq|].
  eapply total_bind; [exact Hp|exact Hs|]. intros a _. cbn. intros i Hi. specialize (Hq i Hi).
  by destruct (q i) as [[[]|]|].
Qed.

Lemma total_length_data lp (L : Z -> Prop) :
  total lp -> sound lp L -> (forall n, L n -> 0 <= n) -> total (length_data lp).
Proof.
  intros Hp Hs HL. eapply total_ext; [apply length_data_eq|].
  eapply total_bind; [exact Hp|exact Hs|]. intros n Hn. cbn. by apply total_take, HL.
Qed.

Lemma total_many0 {A} (p : parser bytes A) P : total p -> sound p P -> total (many0 p).
Proof.
  intros Ht Hs i. remember (length i) as n eqn:Hn. revert i Hn.
  induction n as [n IH] using lt_wf_ind. intros i -> Hi.
  destruct (p i) as [[[i1 a]|e]|] eqn:E.
  - destruct (Hs _ _ _ Hi E) as [Ha [c Hc]]. assert (bytes_ok i1) as Hi1.
    { subst i. by apply bytes_ok_app in Hi as [_ ?]. }
    destruct (decide (len i1 = len i)) as [He|He].
    { by destruct (many0_stuck _ p i i1 a E He) as [j ->]. }
    assert (length i1 < length i)%nat by (subst i; unfold len in *; rewrite ?length_app in *; lia).
    rewrite (many0_step _ p i i1 a E) by (unfold len; lia).
    specialize (IH (length i1) ltac:(lia) i1 eq_refl Hi1). by destruct (many0 p i1) as [[[]|]|].
  - destruct e as [k|j k|j k].
    + by rewrite (many0_err _ p i _ E).
    + by rewrite (many0_stop _ p i _ _ E).
    + by rewrite (many0_err _ p i _ E).
  - by destruct (Ht i Hi).
Qed.

(** ** Streaming: asking for more

    [waits p bs]: on any proper prefix of [bs], [p] asks for more input. *)
Definition waits {A} (p : parser bytes A) (bs : bytes) : Prop :=
  forall q rest, bs = q ++ rest -> rest <> [] -> exists k, p q = PErr (Incomplete k).

Lemma len_prefix (q rest bs : bytes) : bs = q ++ rest -> rest <> [] -> len q < len bs.
Proof. intros -> Hr. destruct rest; [done|]. rewrite len_app, len_cons. pose proof (len_nonneg rest). lia. Qed.

Lemma waits_ext {A} (p q : parser bytes A) bs : (forall i, p i = q i) -> waits q bs -> waits p bs.
Proof. intros He Hq i rest E Hr. rewrite He. by apply (Hq i rest). Qed.

Lemma waits_nil {A} (p : parser bytes A) : waits p [].
Proof. intros q rest E Hr. by destruct q, rest. Qed.

Lemma waits_take n bs : n = len bs -> waits (nom_take n) bs.
Proof. intros -> q rest E Hr. apply nom_take_short. by eapply len_prefix. Qed.

Lemma waits_be_u8 v : waits be_u8 (be_bytes 1 v).
Proof. intros q rest E Hr. apply be_u8_short. apply len_prefix in E; [by rewrite len_be_bytes in E|done]. Qed.
Lemma waits_be_u16 v : waits be_u16 (be_bytes 2 v).
Proof. intros q rest E Hr. apply be_u16_short. apply len_prefix in E; [by rewrite len_be_bytes in E|done]. Qed.
Lemma waits_be_u32 v : waits be_u32 (be_bytes 4 v).
Proof. intros q rest E Hr. apply be_u32_short. apply len_prefix in E; [by rewrite len_be_bytes in E|done]. Qed.

Lemma waits_tag t : waits (nom_tag t) t.
Proof.
  intros q rest -> Hr. destruct (nom_tag_short (q ++ rest) q) as [k Hk]; [|apply is_prefix_app|by exists k].
  apply not_true_iff_false. intros H%is_prefix_len. rewrite length_app in H. destruct rest; [done|]. cbn in H. lia.
Qed.

(** the first parser waits, or it is done and the rest waits *)
Lemma waits_bind {A B} (p : parser bytes A) (k : bytes -> A -> IResult bytes B) bs1 bs2 a :
  parses p bs1 a -> waits p bs1 -> waits (fun i => k i a) bs2 -> waits (fun i => pbind (p i) k) (bs1 ++ bs2).
Proof.
  intros Hp Hw Hk q rest E Hr. destruct (Z.le_gt_cases (len bs1) (len q)) as [Hl|Hl].
  - destruct (split_at q (len bs1)) as (q1 & q2 & -> & H1); [apply len_nonneg|done|].
    rewrite <- app_assoc in E. apply app_inj_1 in E as [-> E]; [|unfold len in H1; lia].
    rewrite Hp. cbn [pbind POk]. by apply (Hk q2 rest).
  - destruct (split_at bs1 (len q)) as (q' & x & -> & H1); [apply len_nonneg|lia|].
    rewrite <- app_assoc in E. apply app_inj_1 in E as [-> E]; [|unfold len in H1; lia].
    destruct (Hw q x eq_refl) as [n ->]; [|by exists n]. intros ->. rewrite app_nil_r in Hl. lia.
Qed.

(** nothing is read after it *)
Lemma waits_last {A B} (p : parser bytes A) (k : bytes -> A -> IResult bytes B) bs :
  waits p bs -> waits (fun i => pbind (p i) k) bs.
Proof. intros Hw q rest E Hr. destruct (Hw q rest E Hr) as [n ->]. by exists n. Qed.

Lemma waits_map_pure {A B} (p : parser bytes A) (f : A -> B) bs : waits p bs -> waits (map_pure p f) bs.
Proof. intros Hw. eapply waits_ext; [intros i; apply nom_map_eq|by apply waits_last]. Qed.

Lemma waits_map_res {A B E} (p : parser bytes A) (f : A -> outcome (result B E)) bs : waits p bs -> waits (map_res p f) bs.
Proof. intros Hw q rest Eq Hr. rewrite map_res_eq. destruct (Hw q rest Eq Hr) as [n ->]. by exists n. Qed.

Lemma waits_map_opt {A B} (p : parser bytes A) (f : A -> outcome (option B)) bs : waits p bs -> waits (map_opt p f) bs.
Proof. intros Hw q rest Eq Hr. rewrite map_opt_eq. destruct (Hw q rest Eq Hr) as [n ->]. by exists n. Qed.

Lemma waits_pair {A B} (p : parser bytes A) (q : parser bytes B) bs1 bs2 a :
  parses p bs1 a -> waits p bs1 -> waits q bs2 -> waits (nom_pair p q) (bs1 ++ bs2).
Proof.
  intros Hp Hw Hq. eapply waits_ext; [intros i; apply nom_pair_eq|]. eapply waits_bind; [done..|]. by apply waits_last.
Qed.

Lemma waits_terminated {A B} (p : parser bytes A) (q : parser bytes B) bs1 bs2 a :
  parses p bs1 a -> waits p bs1 -> waits q bs2 -> waits (terminated p q) (bs1 ++ bs2).
Proof.
  intros Hp Hw Hq. eapply waits_ext; [intros i; apply terminated_eq|]. eapply waits_bind; [done..|]. by apply waits_last.
Qed.

Lemma waits_separated_pair {A B C} (p : parser bytes A) (s : parser bytes C) (q : parser bytes B) bs1 bs2 bs3 a c :
  parses p bs1 a -> waits p bs1 -> parses s bs2 c -> waits s bs2 -> waits q bs3 ->
  waits (separated_pair p s q) (bs1 ++ bs2 ++ bs3).
Proof.
  intros Hp Hwp Hs Hws Hq. eapply waits_ext; [intros i; apply separated_pair_eq|].
  eapply waits_bind; [done..|]. eapply waits_bind; [done..|]. by apply waits_last.
Qed.

Lemma waits_length_data lp lbs n bs :
  parses lp lbs n -> waits lp lbs -> n = len bs -> waits (length_data lp) (lbs ++ bs).
Proof.
  intros Hp Hw Hn. eapply waits_ext; [intros i; apply length_data_eq|]. eapply waits_bind; [done..|]. by apply waits_take.
Qed.

Lemma waits_length_value {A} lp lbs n (p : parser bytes A) bs :
  parses lp lbs n -> waits lp lbs -> n = len bs -> waits (length_value lp p) (lbs ++ bs).
Proof.
  intros Hp Hw Hn. eapply waits_ext; [intros i; apply length_value_eq|]. eapply waits_bind; [done..|].
  by apply waits_last, waits_take.
Qed.

End Rules.

#[export] Hint Resolve parses_be_u8 parses_be_u16 parses_be_u32 parses_be_u64 parses_tag
  parses_cond_false parses_success : parse.
#[export] Hint Resolve waits_be_u8 waits_be_u16 waits_be_u32 waits_tag waits_take waits_map_pure waits_last : parse.
#[export] Hint Resolve sound_be_u8 sound_be_u16 sound_be_u32 sound_be_u64 : parse.

(** ** A reference implementation *)

Module NomRef.

Definition r_take (n : Z) : parser bytes bytes := fun i =>
  if n <=? len i then POk (zdrop n i) (ztake n i) else PErr (Incomplete (NSize (n - len i))).

Definition r_be (n : Z) : parser bytes Z := fun i =>
  if n <=? len i then POk (zdrop n i) (be_val (ztake n i))
  else PErr (Incomplete (NSize (n - len i))).

Definition r_tag (t : bytes) : parser bytes bytes := fun i =>
  if is_prefix t i then POk (zdrop (len t) i) (ztake (len t) i)
  else if is_prefix i t then PErr (Incomplete (NSize (len t - len i)))
  else PErr (Error i KTag).

Fixpoint r_until (b : Z) (acc i : bytes) : IResult bytes bytes :=
  match i with
  | [] => PErr (Incomplete NUnknown)
  | x :: i' => if x =? b then POk i (rev acc) else r_until b (x :: acc) i'
  end.

Fixpoint r_count {I A} (p : parser I A) (n : nat) : parser I (list A) := fun i =>
  match n with
  | O => POk i []
  | S n => pbind (p i) (fun i1 a => pbind (r_count p n i1) (fun i2 l => POk i2 (a :: l)))
  end.

Fixpoint r_many0 {A} (fuel : nat) (p : parser bytes A) (i : bytes) : IResult bytes (list A) :=
  match fuel with
  | O => POk i []
  | S fuel =>
    match p i with
    | Ret (Ok (i', a)) =>
        if len i <=? len i' then PErr (Error i KMany0)
        else pbind (r_many0 fuel p i') (fun r l => POk r (a :: l))
    | Ret (Err (Error _ _)) => POk i []
    | Ret (Err e) => PErr e
    | Panic => Panic
    end
  end.

Definition r_many {A} (p : parser bytes A) : parser bytes (list A) := fun i =>
  r_many0 (S (length i)) p i.

Definition r_take_bits (n : Z) : parser bit_input Z := fun '(i, o) =>
  match i with
  | [] => PErr (Incomplete (NSize 1))
  | b :: i' =>
      if o + n <? 8 then POk (i, o + n) (b / 2 ^ (8 - o - n) mod 2 ^ n)
      else POk (i', 0) (b mod 2 ^ n)
  end.

Lemma r_until_ok b l acc r : Forall (fun x => x <> b) l ->
  r_until b acc (l ++ b :: r) = POk (b :: r) (rev acc ++ l).
Proof.
  intros H. revert acc; induction H as [|x l Hx _ IH]; intros acc; simpl.
  - by rewrite Z.eqb_refl, app_nil_r.
  - apply Z.eqb_neq in Hx as ->. rewrite IH. simpl. by rewrite <- app_assoc.
Qed.

Lemma r_until_short b l acc : Forall (fun x => x <> b) l ->
  r_until b acc l = PErr (Incomplete NUnknown).
Proof.
  intros H. revert acc; induction H as [|x l Hx _ IH]; intros acc; simpl; [done|].
  by apply Z.eqb_neq in Hx as ->.
Qed.

(** enough fuel is enough *)
Lemma r_many0_fuel {A} (p : parser bytes A) f g i :
  (length i < f)%nat -> (length i < g)%nat -> r_many0 f p i = r_many0 g p i.
Proof.
  revert g i; induction f as [|f IH]; intros [|g] i Hf Hg; try lia. simpl.
  destruct (p i) as [[[i' a]|e]|]; [|done..].
  destruct (len i <=? len i') eqn:E; [done|].
  apply Z.leb_gt in E. unfold len in E. rewrite (IH g i') by lia. done.
Qed.

End NomRef.

Definition nom_ref : Nom.
Proof.
  refine {|
    nom_take := NomRef.r_take;
    be_u8 := NomRef.r_be 1; be_u16 := NomRef.r_be 2;
    be_u32 := NomRef.r_be 4; be_u64 := NomRef.r_be 8;
    nom_tag := NomRef.r_tag;
    take_until_byte := fun b i => NomRef.r_until b [] i;
    nom_map := fun I A B p f i => pbind (p i) (fun i' a => let! b := f a in POk i' b);
    map_res := fun I A B E p f i => pbind (p i) (fun i' a =>
      let! r := f a in match r with Ok b => POk i' b | Err _ => PErr (Error i KMapRes) end);
    map_opt := fun I A B p f i => pbind (p i) (fun i' a =>
      let! r := f a in match r with Some b => POk i' b | None => PErr (Error i KMapOpt) end);
    nom_verify := fun I A p f i => pbind (p i) (fun i' a =>
      if f a then POk i' a else PErr (Error i KVerify));
    nom_cond := fun I A b p i =>
      if b then pbind (p i) (fun i' a => POk i' (Some a)) else POk i None;
    nom_peek := fun I A p i => pbind (p i) (fun _ a => POk i a);
    nom_success := fun I A a i => POk i a;
    complete := fun I A p i => match p i with
                               | Ret (Err (Incomplete _)) => PErr (Error i KComplete)
                               | r => r
                               end;
    nom_pair := fun I A B p q i =>
      pbind (p i) (fun i1 a => pbind (q i1) (fun i2 b => POk i2 (a, b)));
    preceded := fun I A B p q i => pbind (p i) (fun i1 _ => q i1);
    terminated := fun I A B p q i =>
      pbind (p i) (fun i1 a => pbind (q i1) (fun i2 _ => POk i2 a));
    separated_pair := fun I A B C p s q i => pbind (p i) (fun i1 a => pbind (s i1) (fun i2 _ =>
                             pbind (q i2) (fun i3 b => POk i3 (a, b))));
    nom_count := fun I A p n => NomRef.r_count p n;
    length_data := fun lp i => pbind (lp i) (fun i1 n => NomRef.r_take n i1);
    length_count := fun I A lp p i =>
      pbind (lp i) (fun i1 n => NomRef.r_count p (Z.to_nat n) i1);
    length_value := fun A lp p i =>
      pbind (lp i) (fun i1 n => pbind (NomRef.r_take n i1) (fun i2 s =>
        match p s with
        | Ret (Ok (_, a)) => POk i2 a
        | Ret (Err (Incomplete _)) => PErr (Error s KComplete)
        | Ret (Err e) => PErr e
        | Panic => Panic
        end));
    many0 := fun A p => NomRef.r_many p;
    many1 := fun A p i =>
      pbind (p i) (fun i1 a => pbind (NomRef.r_many p i1) (fun r l => POk r (a :: l)));
    take_bits := NomRef.r_take_bits;
    nom_bits := fun A p i =>
      match p (i, 0) with
      | Ret (Ok ((r, o), a)) => POk (if o =? 0 then r else zdrop 1 r) a
      | Ret (Err e) => PErr (bit_err e)
      | Panic => Panic
      end
  |};
  try (intros; reflexivity);
  unfold NomRef.r_take, NomRef.r_be, NomRef.r_tag, NomRef.r_many.
  all: try (intros; match goal with |- context [?a <=? ?b] =>
              destruct (Z.leb_spec a b) end; [done || lia | done || eauto || lia]).
  all: try (intros; match goal with |- context [?a <=? ?b] =>
              destruct (Z.leb_spec a b) end; [lia | eauto]).
  - intros t i ->. done.
  - intros t i -> ->. eauto.
  - intros t i -> ->. done.
  - intros. by rewrite NomRef.r_until_ok.
  - intros. rewrite NomRef.r_until_short by done. eauto.
  - intros A p i j k H. simpl. by rewrite H.
  - intros A p i e H Hne. simpl. rewrite H. destruct e; [done| |done]. by destruct (Hne input code).
  - intros A p i H. simpl. by rewrite H.
  - intros A p i i' a H Hl. cbn [NomRef.r_many0]. rewrite H.
    cbv beta iota delta [POk].
    destruct (Z.leb_spec (len i) (len i')); [lia|].
    rewrite (NomRef.r_many0_fuel p (length i) (S (length i'))); [done| |lia].
    unfold len in Hl. lia.
  - intros A p i i' a H Hl. simpl. rewrite H. cbn.
    destruct (Z.leb_spec (len i) (len i')); [eauto|lia].
  - intros A p i e H. by rewrite H.
  - intros A p i H. by rewrite H.
  - intros A p i i' a r l H H2. rewrite H. cbn [POk pbind]. unfold NomRef.r_many in *. rewrite H2. done.
  - intros A p i i' a e H H2. rewrite H. cbn [POk pbind]. rewrite H2. cbn. eauto.
  - intros A p i i' a H H2. rewrite H. cbn [POk pbind]. by rewrite H2.
  - intros n o b i Hn Ho Hl. simpl. destruct (Z.ltb_spec (o + n) 8); [done|lia].
  - intros n o b i Hn Ho Hl. simpl. destruct (Z.ltb_spec (o + n) 8); [lia|done].
  - intros n Hn. simpl. eauto.
  - intros A p i. destruct (p (i, 0)) as [[[[r o] a]|[]]|]; done.
  - intros A p i k H. rewrite H. cbn. eauto.
Defined.

(** ** What a parser cuts off

    What such a parser accepts depends on the bytes it reads and on nothing after
    them: the same bytes give the same result whatever follows. *)

Section Cuts.
Context {nom : Nom}.

(** [P c a]: what is read and what it stands for *)
Definition cuts {A} (p : parser bytes A) (P : bytes -> A -> Prop) : Prop :=
  forall i r a, bytes_ok i -> p i = POk r a -> exists c, i = c ++ r /\ parses p c a /\ P c a.

Lemma cuts_weaken {A} (p : parser bytes A) (P Q : bytes -> A -> Prop) :
  cuts p P -> (forall c a, bytes_ok c -> P c a -> Q c a) -> cuts p Q.
Proof.
  intros Hp HPQ i r a Hi H. destruct (Hp _ _ _ Hi H) as (c & -> & Hc & HP).
  apply bytes_ok_app in Hi as [Hi _]. eauto.
Qed.

Lemma cuts_ext {A} (p q : parser bytes A) P : (forall i, p i = q i) -> cuts q P -> cuts p P.
Proof.
  intros He Hq i r a Hi H. rewrite He in H. destruct (Hq _ _ _ Hi H) as (c & -> & Hc & HP).
  exists c. split; [done|]. split; [|done]. intros rest. by rewrite He.
Qed.

(** a parser that reads a fixed number of bytes, and from nothing else *)
Lemma cuts_fixed {A} n (p : parser bytes A) (f : bytes -> A) :
  0 <= n -> (forall i, n <= len i -> p i = POk (zdrop n i) (f (ztake n i))) ->
  (forall i, len i < n -> exists k, p i = PErr (Incomplete k)) ->
  cuts p (fun c a => len c = n /\ a = f c).
Proof.
  intros Hn Hok Hs i r a Hi H. destruct (Z.le_gt_cases n (len i)) as [Hl|Hl].
  - destruct (split_at i n Hn Hl) as (c & d & -> & Hc).
    rewrite Hok, ztake_app, zdrop_app in H by done. injection H as <- <-.
    exists c. split; [done|]. split; [|done]. intros rest.
    by rewrite Hok, ztake_app, zdrop_app by llia.
  - destruct (Hs i) as [k Hk]; [lia|]. rewrite Hk in H. discriminate H.
Qed.

Lemma cuts_take n : 0 <= n -> cuts (nom_take n) (fun c b => len c = n /\ b = c).
Proof.
  intros Hn. apply (cuts_fixed n _ (fun b => b)); [done| |intros i; apply nom_take_short].
  intros i. by apply nom_take_ok.
Qed.

Lemma cuts_be_aux n (p : parser bytes Z) :
  0 <= n -> (forall i, n <= len i -> p i = POk (zdrop n i) (be_val (ztake n i))) ->
  (forall i, len i < n -> exists k, p i = PErr (Incomplete k)) ->
  cuts p (fun c v => len c = n /\ 0 <= v < 256 ^ n).
Proof.
  intros Hn Hok Hs. eapply cuts_weaken; [by eapply (cuts_fixed n)|].
  intros c v Hc [<- ->]. split; [done|]. by apply be_val_bound.
Qed.

Lemma cuts_be_u8 : cuts be_u8 (fun c v => len c = 1 /\ u8_ok v).
Proof. by apply (cuts_be_aux 1); [|apply be_u8_ok|apply be_u8_short]. Qed.
Lemma cuts_be_u16 : cuts be_u16 (fun c v => len c = 2 /\ u16_ok v).
Proof. by apply (cuts_be_aux 2); [|apply be_u16_ok|apply be_u16_short]. Qed.
Lemma cuts_be_u64 : cuts be_u64 (fun c v => len c = 8 /\ u64_ok v).
Proof. by apply (cuts_be_aux 8); [|apply be_u64_ok|apply be_u64_short]. Qed.

Lemma is_prefix_split t i : is_prefix t i = true -> exists r, i = t ++ r.
Proof.
  revert i. induction t as [|x t IH]; intros i H; [by exists i|].
  destruct i as [|y i]; [done|]. cbn in H. apply andb_true_iff in H as [->%Z.eqb_eq H].
  destruct (IH i H) as [r ->]. by exists r.
Qed.

Lemma cuts_tag t : cuts (nom_tag t) (fun c _ => c = t).
Proof.
  intros i r a Hi H. destruct (is_prefix t i) eqn:E.
  - destruct (is_prefix_split t i E) as [d ->]. rewrite (parses_tag t) in H. injection H as <- <-.
    exists t. split; [done|]. split; [apply parses_tag|done].
  - destruct (is_prefix i t) eqn:E2.
    + destruct (nom_tag_short t i E E2) as [k Hk]. rewrite Hk in H. discriminate H.
    + rewrite (nom_tag_bad t i E E2) in H. discriminate H.
Qed.

Lemma cuts_ret {A} (a : A) (P : bytes -> A -> Prop) : P [] a -> cuts (fun i => POk i a) P.
Proof. intros HP i r b _ [= <- <-]. exists []. by split. Qed.

Lemma cuts_bind {A B} (p : parser bytes A) (k : bytes -> A -> IResult bytes B) P Q :
  cuts p P -> (forall c a, P c a -> cuts (fun i => k i a) (fun d b => Q (c ++ d) b)) ->
  cuts (fun i => pbind (p i) k) Q.
Proof.
  intros Hp Hk i r b Hi H. destruct (p i) as [[[i1 a]|e]|] eqn:E; try discriminate H.
  cbn in H. destruct (Hp _ _ _ Hi E) as (c & -> & Hc & HP).
  apply bytes_ok_app in Hi as [_ Hi1].
  destruct (Hk c a HP _ _ _ Hi1 H) as (c' & -> & Hc' & HQ).
  exists (c ++ c'). split; [by rewrite app_assoc|]. split; [by eapply parses_bind|done].
Qed.

(** a step that may refuse: the error names the input, the result does not *)
Lemma cuts_refine {A B} (p : parser bytes A) (q : parser bytes B) (f : A -> option B) (P : bytes -> A -> Prop) (Q : bytes -> B -> Prop) :
  cuts p P -> (forall c a b, bytes_ok c -> P c a -> f a = Some b -> Q c b) ->
  (forall i r a, p i = POk r a ->
    match f a with Some b => q i = POk r b | None => forall r' b, q i <> POk r' b end) ->
  (forall i, (forall r a, p i <> POk r a) -> forall r b, q i <> POk r b) -> cuts q Q.
Proof.
  intros Hp Hf Hq Hn i r b Hi H. destruct (p i) as [[[r' a]|e]|] eqn:E.
  - destruct (Hp i r' a Hi E) as (c & -> & Hc & HP). pose proof (Hq _ _ _ E) as Hqi.
    destruct (f a) as [b'|] eqn:Ef; [|by apply Hqi in H]. rewrite H in Hqi. injection Hqi as -> ->.
    apply bytes_ok_app in Hi as [Hi _].
    exists c. split; [done|]. split; [|by eapply Hf]. intros rest.
    pose proof (Hq _ _ _ (Hc rest)) as Hqr. by rewrite Ef in Hqr.
  - exfalso. eapply Hn; [|exact H]. intros r' a. by rewrite E.
  - exfalso. eapply Hn; [|exact H]. intros r' a. by rewrite E.
Qed.

Lemma cuts_map_res {A B E} (p : parser bytes A) (f : A -> outcome (result B E)) P (Q : bytes -> B -> Prop) :
  cuts p P -> (forall c a b, bytes_ok c -> P c a -> f a = Ret (Ok b) -> Q c b) -> cuts (map_res p f) Q.
Proof.
  intros Hp Hf. apply (cuts_refine p _ (fun a => match f a with Ret (Ok b) => Some b | _ => None end) P Q Hp).
  - intros c a b Hc Ha. destruct (f a) as [[]|] eqn:Ef; try done. intros [= <-]. by eapply Hf.
  - intros i r a H. rewrite map_res_eq, H. cbn. by destruct (f a) as [[]|].
  - intros i H r b. rewrite map_res_eq. by destruct (p i) as [[[r' a]|]|]; [destruct (H r' a)|..].
Qed.

Lemma cuts_map_opt {A B} (p : parser bytes A) (f : A -> outcome (option B)) P (Q : bytes -> B -> Prop) :
  cuts p P -> (forall c a b, bytes_ok c -> P c a -> f a = Ret (Some b) -> Q c b) -> cuts (map_opt p f) Q.
Proof.
  intros Hp Hf. apply (cuts_refine p _ (fun a => match f a with Ret (Some b) => Some b | _ => None end) P Q Hp).
  - intros c a b Hc Ha. destruct (f a) as [[]|] eqn:Ef; try done. intros [= <-]. by eapply Hf.
  - intros i r a H. rewrite map_opt_eq, H. cbn. by destruct (f a) as [[]|].
  - intros i H r b. rewrite map_opt_eq. by destruct (p i) as [[[r' a]|]|]; [destruct (H r' a)|..].
Qed.

Lemma cuts_verify {A} (p : parser bytes A) f P :
  cuts p P -> cuts (nom_verify p f) (fun c a => P c a /\ f a = true).
Proof.
  intros Hp. apply (cuts_refine p _ (fun a => if f a then Some a else None) P _ Hp).
  - intros c a b Hc Ha. destruct (f a) eqn:Ef; [|done]. by intros [= <-].
  - intros i r a H. rewrite nom_verify_eq, H. cbn. by destruct (f a).
  - intros i H r b. rewrite nom_verify_eq. by destruct (p i) as [[[r' a]|]|]; [destruct (H r' a)|..].
Qed.

(** [length_value(success(n), p)] *)
Lemma cuts_length_value {A} n (p : parser bytes A) :
  0 <= n -> cuts (length_value (nom_success n) p) (fun c a => len c = n /\ exists r, p c = POk r a).
Proof.
  intros Hn.
  apply (cuts_refine (nom_take n) _ (fun s => match p s with Ret (Ok (_, a)) => Some a | _ => None end) _ _ (cuts_take n Hn)).
  - intros c s a Hs [Hl ->]. destruct (p c) as [[[r a']|]|] eqn:E; try done. intros [= <-]. split; [done|]. by exists r.
  - intros i r s H. rewrite length_value_eq, nom_success_eq. cbn. rewrite H. cbn.
    by destruct (p s) as [[[? a]|[]]|].
  - intros i H r b. rewrite length_value_eq, nom_success_eq. cbn.
    by destruct (nom_take n i) as [[[r' a]|]|]; [destruct (H r' a)|..].
Qed.

End Cuts.

#[export] Hint Resolve cuts_be_u8 cuts_be_u16 cuts_be_u64 cuts_tag : parse.

(** ** Text

    More of [nom], for the parsers of text: [bytes::streaming::take_while] and
    [take_until], [character::streaming::one_of] and [char]. *)

(** the first occurrence of [pat] *)
Fixpoint split_on (pat i : bytes) : option (bytes * bytes) :=
  if is_prefix pat i then Some ([], i)
  else match i with
       | [] => None
       | x :: i => match split_on pat i with Some (a, b) => Some (x :: a, b) | None => None end
       end.

Class NomText := {
  nom_take_while : (Z -> bool) -> parser bytes bytes;
  nom_take_until : bytes -> parser bytes bytes;
  one_of : bytes -> parser bytes Z;
  nom_char : Z -> parser bytes Z;
  take_while_ok : forall f l b r, Forall (fun x => f x = true) l -> f b = false ->
    nom_take_while f (l ++ b :: r) = POk (b :: r) l;
  take_while_short : forall f l, Forall (fun x => f x = true) l ->
    exists k, nom_take_while f l = PErr (Incomplete k);
  nom_take_until_ok : forall pat i a b, split_on pat i = Some (a, b) -> nom_take_until pat i = POk b a;
  nom_take_until_short : forall pat i, split_on pat i = None ->
    exists k, nom_take_until pat i = PErr (Incomplete k);
  one_of_ok : forall s c i, c ∈ s -> one_of s (c :: i) = POk i c;
  one_of_bad : forall s c i, c ∉ s -> one_of s (c :: i) = PErr (Error (c :: i) KOneOf);
  one_of_short : forall s, exists k, one_of s [] = PErr (Incomplete k);
  nom_char_ok : forall c i, nom_char c (c :: i) = POk i c;
  nom_char_bad : forall c d i, d <> c -> nom_char c (d :: i) = PErr (Error (d :: i) KChar);
  nom_char_short : forall c, exists k, nom_char c [] = PErr (Incomplete k)
}.

Fixpoint r_while (f : Z -> bool) (acc i : bytes) : IResult bytes bytes :=
  match i with
  | [] => PErr (Incomplete (NSize 1))
  | x :: i' => if f x then r_while f (x :: acc) i' else POk i (rev acc)
  end.

Lemma r_while_ok f l b acc r : Forall (fun x => f x = true) l -> f b = false ->
  r_while f acc (l ++ b :: r) = POk (b :: r) (rev acc ++ l).
Proof.
  intros H Hb. revert acc; induction H as [|x l Hx _ IH]; intros acc; simpl.
  - by rewrite Hb, app_nil_r.
  - rewrite Hx, IH. simpl. by rewrite <- app_assoc.
Qed.

Lemma r_while_short f l acc : Forall (fun x => f x = true) l -> r_while f acc l = PErr (Incomplete (NSize 1)).
Proof. intros H. revert acc; induction H as [|x l Hx _ IH]; intros acc; simpl; [done|]. by rewrite Hx. Qed.

Definition nom_text_ref : NomText.
Proof.
  refine {|
    nom_take_while := fun f i => r_while f [] i;
    nom_take_until := fun pat i =>
      match split_on pat i with Some (a, b) => POk b a | None => PErr (Incomplete NUnknown) end;
    one_of := fun s i =>
      match i with
      | [] => PErr (Incomplete (NSize 1))
      | c :: i' => if decide (c ∈ s) then POk i' c else PErr (Error i KOneOf)
      end;
    nom_char := fun c i =>
      match i with
      | [] => PErr (Incomplete (NSize 1))
      | d :: i' => if d =? c then POk i' c else PErr (Error i KChar)
      end
  |}.
  - intros f l b r Hl Hb. by rewrite r_while_ok.
  - intros f l Hl. rewrite r_while_short by done. eauto.
  - intros pat i a b ->. done.
  - intros pat i ->. eauto.
  - intros s c i Hc. by rewrite decide_True.
  - intros s c i Hc. by rewrite decide_False.
  - eauto.
  - intros c i. by rewrite Z.eqb_refl.
  - intros c d i Hd. by apply Z.eqb_neq in Hd as ->.
  - eauto.
Defined.

Lemma split_on_app pat l r : (forall n, 0 <= n < len l -> is_prefix pat (zdrop n (l ++ pat ++ r)) = false) ->
  split_on pat (l ++ pat ++ r) = Some (l, pat ++ r).
Proof.
  induction l as [|x l IH]; intros H.
  - cbn [app]. destruct pat as [|p pat]; [by destruct r|]. cbn [split_on app].
    change (p :: pat ++ r) with ((p :: pat) ++ r). by rewrite is_prefix_app.
  - change ((x :: l) ++ pat ++ r) with (x :: l ++ pat ++ r) in *. cbn [split_on].
    assert (is_prefix pat (x :: l ++ pat ++ r) = false) as ->.
    { apply (H 0). rewrite len_cons. pose proof (len_nonneg l). lia. }
    rewrite IH; [done|]. intros n Hn. specialize (H (n + 1)). rewrite len_cons in H.
    unfold zdrop in *. replace (Z.to_nat (n + 1)) with (S (Z.to_nat n)) in H by lia. apply H. lia.
Qed.

Lemma split_on_eq pat i a b : split_on pat i = Some (a, b) -> i = a ++ b.
Proof.
  revert a. induction i as [|x i IH]; intros a; cbn [split_on]; destruct (is_prefix pat _).
  - by intros [= <- <-].
  - done.
  - by intros [= <- <-].
  - destruct (split_on pat i) as [[a' b']|]; [|done]. intros [= <- <-]. by rewrite (IH a' eq_refl).
Qed.

Section Text.
Context {text : NomText}.

Lemma sound_take_until_seq pat : sound (nom_take_until pat) (fun _ => True).
Proof.
  intros i r a _ H. split; [done|]. destruct (split_on pat i) as [[x y]|] eqn:E.
  - rewrite (nom_take_until_ok _ _ _ _ E) in H. injection H as -> ->. exists a. by apply (split_on_eq pat).
  - destruct (nom_take_until_short _ _ E) as [k Hk]. rewrite Hk in H. discriminate H.
Qed.

Lemma parses_one_of s c : c ∈ s -> parses (one_of s) [c] c.
Proof. intros Hc rest. by apply one_of_ok. Qed.

Lemma parses_char c : parses (nom_char c) [c] c.
Proof. intros rest. apply nom_char_ok. Qed.

Lemma sound_one_of s : sound (one_of s) (fun _ => True).
Proof.
  intros i r a _ H. split; [done|]. destruct i as [|c i].
  - destruct (one_of_short s) as [k Hk]. rewrite Hk in H. discriminate H.
  - destruct (decide (c ∈ s)) as [Hc|Hc]; [rewrite one_of_ok in H by done|rewrite one_of_bad in H by done; discriminate H].
    injection H as -> ->. by exists [a].
Qed.

Lemma sound_char c : sound (nom_char c) (fun _ => True).
Proof.
  intros i r a _ H. split; [done|]. destruct i as [|d i].
  - destruct (nom_char_short c) as [k Hk]. rewrite Hk in H. discriminate H.
  - destruct (decide (d = c)) as [->|Hd]; [rewrite nom_char_ok in H|rewrite nom_char_bad in H by done; discriminate H].
    injection H as -> ->. by exists [a].
Qed.

End Text.
