(* ===== verification/Cookie.v ===== *)
(** * The serialisation combinators the frames are written with

    ire serialises with the crate [cookie-factory] 0.2: a generator receives
    a mutable buffer and an index, writes at the index and returns the next
    one, or reports how large the buffer would have to be.  The crate is not
    part of the repository; its macros are a parameter of the model, the
    class [CookieFactory], with their documented behaviour as laws.

    The specification used by every component is [writes g bs]: with enough
    room, [g] overwrites exactly [len bs] bytes by [bs] and leaves the rest
    of the buffer alone; without it, [g] fails and names a size that is
    larger than the buffer but no larger than necessary. *)

From S2P Require Import Prelude.

Inductive GenError :=
| BufferTooSmall (n : Z)
| InvalidOffset
| CustomError (n : Z)
| NotYetImplemented.

(** the buffer and the index of the next write *)
Definition gen_state : Type := (bytes * Z)%type.
(** the buffer as the call leaves it, and the next index or the error *)
Definition gen_result : Type := outcome (bytes * result Z GenError).
Definition gen : Type := gen_state -> gen_result.

Definition GOk (buf : bytes) (idx : Z) : gen_result := Ret (buf, Ok idx).
Definition GErr (buf : bytes) (e : GenError) : gen_result := Ret (buf, Err e).

Definition gbind (r : gen_result) (k : gen) : gen_result :=
  match r with
  | Ret (buf, Ok idx) => k (buf, idx)
  | Ret (buf, Err e) => GErr buf e
  | Panic => Panic
  end.

(** ** The interface *)

Class CookieFactory := {
  gen_slice : bytes -> gen;
  gen_be_u8 : Z -> gen;
  gen_be_u16 : Z -> gen;
  gen_be_u32 : Z -> gen;
  gen_be_u64 : Z -> gen;
  gen_skip : Z -> gen;
  (** [a >> b] of [do_gen!] *)
  gen_seq : gen -> gen -> gen;
  (** [name: a >> rest] of [do_gen!]: the name is the index before [a] *)
  gen_label : (Z -> gen) -> gen;
  gen_at_offset : Z -> gen -> gen;
  gen_cond : bool -> gen -> gen;
  gen_many : forall {A}, list A -> (A -> gen) -> gen;

  gen_slice_ok : forall bs pre old post, len old = len bs ->
    gen_slice bs (pre ++ old ++ post, len pre) = GOk (pre ++ bs ++ post) (len pre + len bs);
  gen_slice_small : forall bs buf idx, len buf < idx + len bs ->
    gen_slice bs (buf, idx) = GErr buf (BufferTooSmall (idx + len bs));
  (** an integer is cast to the width and written big-endian *)
  gen_be_u8_eq : forall v s, gen_be_u8 v s = gen_slice (be_bytes 1 v) s;
  gen_be_u16_eq : forall v s, gen_be_u16 v s = gen_slice (be_bytes 2 v) s;
  gen_be_u32_eq : forall v s, gen_be_u32 v s = gen_slice (be_bytes 4 v) s;
  gen_be_u64_eq : forall v s, gen_be_u64 v s = gen_slice (be_bytes 8 v) s;
  gen_skip_ok : forall n buf idx, idx + n <= len buf -> gen_skip n (buf, idx) = GOk buf (idx + n);
  gen_skip_small : forall n buf idx, len buf < idx + n ->
    gen_skip n (buf, idx) = GErr buf (BufferTooSmall (idx + n));
  gen_seq_eq : forall g h s, gen_seq g h s = gbind (g s) h;
  gen_label_eq : forall k s, gen_label k s = k s.2 s;
  gen_at_offset_eq : forall o g buf idx,
    gen_at_offset o g (buf, idx) = gbind (g (buf, o)) (fun s => GOk s.1 idx);
  gen_cond_eq : forall b g buf idx,
    gen_cond b g (buf, idx) = if b then g (buf, idx) else GOk buf idx;
  gen_many_nil : forall A (f : A -> gen) buf idx, gen_many [] f (buf, idx) = GOk buf idx;
  gen_many_cons : forall A (f : A -> gen) a l s,
    gen_many (a :: l) f s = gbind (f a s) (gen_many l f);
}.

Infix ">>>" := gen_seq (at level 60, right associativity) : rust_scope.
Notation "'label' x ':' g '>>>' k" := (gen_label (fun x => gen_seq g k))
  (at level 60, x name, g at level 59, k at level 60) : rust_scope.

(** a generator applied to [o.unwrap()] *)
Definition gen_unwrap {A} (o : option A) (g : A -> gen) : gen := fun s =>
  match o with Some a => g a s | None => Panic end.

(** a generator given by the [Err] branch of its function *)
Definition gen_fail (e : GenError) : gen := fun s => GErr s.1 e.

(** ** The specification of a generator *)

Record writes (g : gen) (bs : bytes) : Prop := {
  writes_ok : forall pre old post, len old = len bs ->
    g (pre ++ old ++ post, len pre) = GOk (pre ++ bs ++ post) (len pre + len bs);
  writes_small : forall buf idx, 0 <= idx <= len buf -> len buf < idx + len bs ->
    exists n buf', g (buf, idx) = GErr buf' (BufferTooSmall n) /\ len buf' = len buf /\
                   len buf < n <= idx + len bs
}.

Create HintDb gen.

Section Rules.
Context {cf : CookieFactory}.

Lemma writes_ext g h bs : (forall s, g s = h s) -> writes h bs -> writes g bs.
Proof.
  intros He [Hok Hs]. split; intros; rewrite He; eauto.
Qed.

Lemma writes_eq g bs bs' : writes g bs -> bs = bs' -> writes g bs'.
Proof. by intros H <-. Qed.

Lemma writes_slice bs : writes (gen_slice bs) bs.
Proof.
  split; intros; [by apply gen_slice_ok|].
  exists (idx + len bs), buf. rewrite gen_slice_small by done. split; [done|lia].
Qed.

Lemma writes_be_u8 v : writes (gen_be_u8 v) (be_bytes 1 v).
Proof. eapply writes_ext; [apply gen_be_u8_eq | apply writes_slice]. Qed.
Lemma writes_be_u16 v : writes (gen_be_u16 v) (be_bytes 2 v).
Proof. eapply writes_ext; [apply gen_be_u16_eq | apply writes_slice]. Qed.
Lemma writes_be_u32 v : writes (gen_be_u32 v) (be_bytes 4 v).
Proof. eapply writes_ext; [apply gen_be_u32_eq | apply writes_slice]. Qed.
Lemma writes_be_u64 v : writes (gen_be_u64 v) (be_bytes 8 v).
Proof. eapply writes_ext; [apply gen_be_u64_eq | apply writes_slice]. Qed.

(** a successful write at the end of a known prefix *)
Lemma writes_at g bs pre old post idx :
  writes g bs -> len old = len bs -> idx = len pre ->
  g (pre ++ old ++ post, idx) = GOk (pre ++ bs ++ post) (len pre + len bs).
Proof. intros H Hl ->. by apply writes_ok. Qed.

(** there is room, so the write succeeds and keeps the buffer's length *)
Lemma writes_room g bs buf idx :
  writes g bs -> 0 <= idx -> idx + len bs <= len buf ->
  exists pre old post, buf = pre ++ old ++ post /\ len pre = idx /\ len old = len bs /\
    g (buf, idx) = GOk (pre ++ bs ++ post) (idx + len bs).
Proof.
  intros H Hi Hl.
  destruct (split_at buf idx) as (pre & r & -> & Hpre); [lia|llia|].
  destruct (split_at r (len bs)) as (old & post & -> & Hold); [llia|llia|].
  exists pre, old, post. subst idx. repeat split; [done|]. by apply writes_ok.
Qed.

Lemma writes_seq g h bs1 bs2 :
  writes g bs1 -> writes h bs2 -> writes (g >>> h) (bs1 ++ bs2).
Proof.
  intros Hg Hh. eapply writes_ext; [apply gen_seq_eq|]. split.
  - intros pre old post Hl.
    destruct (split_at old (len bs1)) as (o1 & o2 & -> & H1); [llia|llia|].
    rewrite <- (app_assoc o1), (writes_ok _ _ Hg) by done. cbn.
    rewrite (app_assoc pre bs1).
    rewrite (writes_at _ _ (pre ++ bs1) o2 post _ Hh) by llia.
    f_equal; [by rewrite <- !app_assoc|llia].
  - intros buf idx Hi Hl. destruct (Z.le_gt_cases (idx + len bs1) (len buf)) as [H1|H1].
    + destruct (writes_room _ _ buf idx Hg) as (pre & old & post & -> & Hp & Ho & ->); [lia|done|].
      cbn. destruct (writes_small _ _ Hh (pre ++ bs1 ++ post) (idx + len bs1)) as (n & b' & -> & Hb & Hn).
      * llia.
      * llia.
      * exists n, b'. split; [done|llia].
    + destruct (writes_small _ _ Hg buf idx) as (n & b' & -> & Hb & Hn); [done|lia|].
      cbn. exists n, b'. split; [done|llia].
Qed.

Lemma writes_cond_true g bs : writes g bs -> writes (gen_cond true g) bs.
Proof. intros. apply (writes_ext _ g); [intros []; apply gen_cond_eq|done]. Qed.

Lemma writes_nil g : (forall buf idx, g (buf, idx) = GOk buf idx) -> writes g [].
Proof.
  intros H. split.
  - intros pre old post Hl. rewrite H. cbn. f_equal; [|llia].
        destruct old; [done|]. rewrite len_cons, len_nil in Hl. pose proof (len_nonneg old). lia.
  - intros buf idx Hi Hl. rewrite len_nil in Hl. lia.
Qed.

Lemma writes_cond_false g : writes (gen_cond false g) [].
Proof. apply writes_nil. intros. apply gen_cond_eq. Qed.

Lemma writes_unwrap {A} (a : A) g bs : writes (g a) bs -> writes (gen_unwrap (Some a) g) bs.
Proof. by apply writes_ext. Qed.

Lemma writes_many {A} (f : A -> gen) (enc : A -> bytes) l :
  Forall (fun a => writes (f a) (enc a)) l -> writes (gen_many l f) (concat (map enc l)).
Proof.
  induction 1 as [|a l Ha _ IH]; simpl.
  - apply writes_nil. apply gen_many_nil.
  - eapply (writes_ext _ (f a >>> gen_many l f)).
    + intros s. by rewrite gen_many_cons, gen_seq_eq.
    + by apply writes_seq.
Qed.

Lemma writes_many_each {A} (f : A -> gen) l bss :
  Forall2 (fun a bs => writes (f a) bs) l bss -> writes (gen_many l f) (concat bss).
Proof.
  intros H. induction H as [|a bs l bss Ha _ IH].
  - apply writes_nil, gen_many_nil.
  - eapply writes_ext; [|apply writes_seq; [exact Ha|exact IH]]. intros s. by rewrite gen_many_cons, gen_seq_eq.
Qed.

(** [size: gen_skip!(2) >> start: g >> end: gen_at_offset!(size, gen_be_u16!(end - start))] *)
Definition len_prefixed (g : gen) : gen :=
  label size : gen_skip 2 >>>
  label start : g >>>
  gen_label (fun end_ => gen_at_offset size (gen_be_u16 (end_ - start))).

(** A two-byte length patched in after the fact is a length prefix. *)
Lemma writes_len_prefixed g bs :
  writes g bs -> writes (len_prefixed g) (be_bytes 2 (len bs) ++ bs).
Proof.
  intros Hg. unfold len_prefixed. split.
  - intros pre old post Hl.
    destruct (split_at old 2) as (o1 & o2 & -> & H1); [lia|llia|].
    rewrite gen_label_eq, gen_seq_eq, gen_skip_ok by (cbn; llia). cbn [gbind GOk].
    rewrite gen_label_eq, gen_seq_eq. cbn [snd].
    rewrite <- (app_assoc o1), (app_assoc pre o1).
    rewrite (writes_at _ _ (pre ++ o1) o2 post _ Hg) by llia. cbn [gbind GOk].
    rewrite gen_label_eq, gen_at_offset_eq. cbn [snd].
    replace (len (pre ++ o1) + len bs - (len pre + 2)) with (len bs) by llia.
    rewrite <- app_assoc.
    rewrite (writes_at _ _ pre o1 (bs ++ post) _ (writes_be_u16 (len bs))) by llia.
    cbn [gbind GOk fst]. unfold GOk. rewrite <- !app_assoc.
    do 3 f_equal. llia.
  - intros buf idx Hi Hl. rewrite gen_label_eq, gen_seq_eq. cbn [snd].
    destruct (Z.le_gt_cases (idx + 2) (len buf)) as [H2|H2].
    + rewrite gen_skip_ok by done. cbn [gbind GOk].
      rewrite gen_label_eq, gen_seq_eq. cbn [snd].
      destruct (writes_small _ _ Hg buf (idx + 2)) as (n & b' & -> & Hb & Hn); [llia|llia|].
      cbn. exists n, b'. split; [done|llia].
    + rewrite gen_skip_small by lia. cbn. exists (idx + 2), buf. split; [done|llia].
Qed.

(** what follows such a field may use where it starts and its length *)
Lemma len_prefixed_then g (k : Z -> Z -> gen) buf idx :
  (label size : gen_skip 2 >>>
   label start : g >>>
   gen_label (fun end_ => gen_at_offset size (gen_be_u16 (end_ - start)) >>> k size (end_ - start))) (buf, idx) =
  gbind (len_prefixed g (buf, idx)) (fun s => k idx (s.2 - (idx + 2)) s).
Proof.
  unfold len_prefixed. rewrite !gen_label_eq, !gen_seq_eq. cbn [snd].
  destruct (Z.le_gt_cases (idx + 2) (len buf)) as [H2|H2]; [|by rewrite gen_skip_small by lia].
  rewrite gen_skip_ok by done. cbn [gbind GOk]. rewrite !gen_label_eq, !gen_seq_eq. cbn [snd].
  destruct (g (buf, idx + 2)) as [[b [e|e]]|]; [|done..]. cbn [gbind].
  rewrite !gen_label_eq, gen_seq_eq, gen_at_offset_eq. cbn [snd].
  by destruct (gen_be_u16 _ (b, idx)) as [[b' [e'|e']]|].
Qed.

(** [g] fills a buffer of zeros: what it skips stays zero. *)
Definition fills (g : gen) (bs : bytes) : Prop :=
  forall pre n, len bs <= n -> g (pre ++ zeros n, len pre) = GOk (pre ++ bs ++ zeros (n - len bs)) (len pre + len bs).

Lemma zeros_split k n : 0 <= k <= n -> zeros n = zeros k ++ zeros (n - k).
Proof. intros H. rewrite <- zeros_app by lia. f_equal. lia. Qed.

Lemma fills_ext g h bs : (forall s, g s = h s) -> fills h bs -> fills g bs.
Proof. intros He H pre n Hn. rewrite He. by apply H. Qed.

Lemma fills_eq g bs bs' : fills g bs -> bs = bs' -> fills g bs'.
Proof. by intros H <-. Qed.

Lemma fills_writes g bs : writes g bs -> fills g bs.
Proof.
  intros Hw pre n Hn. pose proof (len_nonneg bs). rewrite (zeros_split (len bs) n) by lia.
  apply (writes_ok _ _ Hw). apply len_zeros. lia.
Qed.

Lemma fills_skip n : 0 <= n -> fills (gen_skip n) (zeros n).
Proof.
  intros Hn pre m Hm. rewrite len_zeros in Hm |- * by done. rewrite gen_skip_ok by (rewrite len_app, len_zeros by lia; lia).
  by rewrite <- zeros_split.
Qed.

(** what follows may depend on where it starts *)
Lemma fills_bind g (k : gen) bs1 bs2 :
  fills g bs1 -> fills k bs2 -> fills (fun s => gbind (g s) k) (bs1 ++ bs2).
Proof.
  intros Hg Hk pre n Hn. rewrite len_app in Hn. pose proof (len_nonneg bs1). pose proof (len_nonneg bs2).
  rewrite Hg by lia. cbn [gbind GOk]. rewrite app_assoc, <- len_app, Hk by lia.
  unfold GOk. rewrite <- !app_assoc, !len_app. do 3 f_equal; [do 3 f_equal|]; lia.
Qed.

Lemma fills_seq g h bs1 bs2 : fills g bs1 -> fills h bs2 -> fills (g >>> h) (bs1 ++ bs2).
Proof. intros Hg Hh. eapply fills_ext; [intros s; apply gen_seq_eq|by apply fills_bind]. Qed.

(** A field that is skipped first and patched in from what was written after
    it: [h] gets where that starts and ends. *)
Lemma writes_patched n m1 m2 g (h : Z -> Z -> gen) b1 b2 bg bp :
  writes m1 b1 -> writes m2 b2 -> writes g bg -> len bp = n ->
  (forall pre old post, len old = n ->
     h (len (pre ++ old ++ b1 ++ b2)) (len (pre ++ old ++ b1 ++ b2) + len bg)
       (pre ++ old ++ b1 ++ b2 ++ bg ++ post, len pre) =
     GOk (pre ++ bp ++ b1 ++ b2 ++ bg ++ post) (len pre + n)) ->
  writes (label o : gen_skip n >>> m1 >>> m2 >>> label s : g >>> gen_label (fun e => gen_at_offset o (h s e)))
         (bp ++ b1 ++ b2 ++ bg).
Proof.
  intros H1 H2 Hg Hn Hh. assert (0 <= n) by llia. split.
  - intros pre old post Hl. rewrite !len_app in Hl.
    destruct (split_at old n) as (o & o' & -> & Ho); [llia|llia|].
    destruct (split_at o' (len b1)) as (o1 & o'' & -> & Ho1); [llia|llia|].
    destruct (split_at o'' (len b2)) as (o2 & o3 & -> & Ho2); [llia|llia|].
    rewrite <- !(app_assoc o), <- (app_assoc o1), <- (app_assoc o2).
    rewrite gen_label_eq, gen_seq_eq, gen_skip_ok by (cbn; llia). cbn [gbind GOk snd].
    rewrite gen_seq_eq, (app_assoc pre o).
    rewrite (writes_at _ _ (pre ++ o) o1 _ _ H1) by llia. cbn [gbind GOk].
    rewrite gen_seq_eq, (app_assoc (pre ++ o) b1).
    rewrite (writes_at _ _ ((pre ++ o) ++ b1) o2 _ _ H2) by llia. cbn [gbind GOk].
    rewrite gen_label_eq, gen_seq_eq, (app_assoc ((pre ++ o) ++ b1) b2). cbn [snd].
    rewrite (writes_at _ _ (((pre ++ o) ++ b1) ++ b2) o3 _ _ Hg) by llia. cbn [gbind GOk].
    rewrite gen_label_eq, gen_at_offset_eq. cbn [snd].
    specialize (Hh pre o post Ho). rewrite <- !app_assoc.
    replace (len (pre ++ o ++ b1) + len b2) with (len (pre ++ o ++ b1 ++ b2)) by llia.
    rewrite Hh. cbn [gbind GOk fst]. unfold GOk.
    do 3 f_equal. llia.
  - intros buf idx Hi Hl. rewrite !len_app in Hl. rewrite gen_label_eq, gen_seq_eq. cbn [snd].
    destruct (Z.le_gt_cases (idx + n) (len buf)) as [Hr|Hr].
    2: { rewrite gen_skip_small by lia. cbn. exists (idx + n), buf. split; [done|llia]. }
    rewrite gen_skip_ok by done. cbn [gbind GOk]. rewrite gen_seq_eq.
    destruct (Z.le_gt_cases (idx + n + len b1) (len buf)) as [Hr1|Hr1].
    2: { destruct (writes_small _ _ H1 buf (idx + n)) as (k & b' & -> & Hb & Hk); [llia|llia|].
         cbn. exists k, b'. split; [done|llia]. }
    destruct (writes_room _ _ buf (idx + n) H1) as (p1 & o1 & q1 & E1 & Hp1 & Ho1 & ->); [llia|done|].
    cbn [gbind GOk]. rewrite gen_seq_eq. set (buf1 := p1 ++ b1 ++ q1).
    assert (len buf1 = len buf) as L1 by (subst buf1; rewrite E1; llia).
    destruct (Z.le_gt_cases (idx + n + len b1 + len b2) (len buf1)) as [Hr2|Hr2].
    2: { destruct (writes_small _ _ H2 buf1 (idx + n + len b1)) as (k & b' & -> & Hb & Hk); [llia|llia|].
         cbn. exists k, b'. split; [done|llia]. }
    destruct (writes_room _ _ buf1 (idx + n + len b1) H2) as (p2 & o2 & q2 & E2 & Hp2 & Ho2 & ->); [llia|done|].
    cbn [gbind GOk]. rewrite gen_label_eq, gen_seq_eq. cbn [snd].
    assert (len (p2 ++ b2 ++ q2) = len buf) as L2 by (rewrite <- L1, E2; llia).
    destruct (writes_small _ _ Hg (p2 ++ b2 ++ q2) (idx + n + len b1 + len b2)) as (k & b' & -> & Hb & Hk); [llia|llia|].
    cbn. exists k, b'. split; [done|llia].
Qed.

End Rules.

#[export] Hint Resolve writes_slice writes_be_u8 writes_be_u16 writes_be_u32 writes_be_u64
  writes_seq writes_cond_true writes_cond_false writes_unwrap : gen.

(** ** A reference implementation *)

Module CookieRef.

Definition r_slice (bs : bytes) : gen := fun '(buf, idx) =>
  if len buf <? idx + len bs then GErr buf (BufferTooSmall (idx + len bs))
  else GOk (ztake idx buf ++ bs ++ zdrop (idx + len bs) buf) (idx + len bs).

Fixpoint r_many {A} (l : list A) (f : A -> gen) : gen := fun s =>
  match l with
  | [] => GOk s.1 s.2
  | a :: l => gbind (f a s) (r_many l f)
  end.

End CookieRef.

Definition cf_ref : CookieFactory.
Proof.
  refine {|
    gen_slice := CookieRef.r_slice;
    gen_be_u8 := fun v => CookieRef.r_slice (be_bytes 1 v);
    gen_be_u16 := fun v => CookieRef.r_slice (be_bytes 2 v);
    gen_be_u32 := fun v => CookieRef.r_slice (be_bytes 4 v);
    gen_be_u64 := fun v => CookieRef.r_slice (be_bytes 8 v);
    gen_skip := fun n '(buf, idx) =>
      if len buf <? idx + n then GErr buf (BufferTooSmall (idx + n)) else GOk buf (idx + n);
    gen_seq := fun g h s => gbind (g s) h;
    gen_label := fun k s => k s.2 s;
    gen_at_offset := fun o g '(buf, idx) => gbind (g (buf, o)) (fun s => GOk s.1 idx);
    gen_cond := fun b g s => if b then g s else GOk s.1 s.2;
    gen_many := fun A l f => CookieRef.r_many l f
  |}; try (intros; reflexivity); unfold CookieRef.r_slice.
  - intros bs pre old post Hl.
    destruct (Z.ltb_spec (len (pre ++ old ++ post)) (len pre + len bs)); [llia|].
    rewrite ztake_app by done. rewrite (app_assoc pre old), zdrop_app by llia. done.
  - intros bs buf idx Hl. by destruct (Z.ltb_spec (len buf) (idx + len bs)); [|lia].
  - intros n buf idx Hl. by destruct (Z.ltb_spec (len buf) (idx + n)); [lia|].
  - intros n buf idx Hl. by destruct (Z.ltb_spec (len buf) (idx + n)); [|lia].
Defined.
