(* ===== verification/Util.v ===== *)
(** * Helper functions: [src/util.rs]

    - [serialize], the loop that grows a buffer until a generator fits it;
    - [fmt_colon_delimited_hex];
    - [DecayingBloomFilter], the two-generation duplicate filter that the
      tunnel code feeds with reply keys and message IVs. *)

From S2P Require Import Prelude Cookie.

(** ** [serialize] *)

Module Serialize.

(** One iteration of the [loop]: a larger buffer, or the result.  A failing
    generator may have written a part of its output before it failed; the
    buffer is the one it leaves. *)
Definition serialize_step (serializer : gen) (buf : bytes) : bytes + outcome bytes :=
  match serializer (buf, 0) with
  | Ret (buf, Ok sz) => inr (Ret (ztake sz buf))
  | Ret (buf, Err (BufferTooSmall sz)) =>
      let cur_len := len buf in
      (* [sz - cur_len] on usize *)
      if sz <? cur_len then inr Panic else inl (buf ++ zeros (sz - cur_len))
  | Ret (_, Err _) => inr Panic
  | Panic => inr Panic
  end.

(** [loop] with a bound on the number of iterations: [None] when it is reached *)
Definition serialize_upto (fuel : positive) (serializer : gen) : outcome (option bytes) :=
  match iter_pos fuel (serialize_step serializer) [] with
  | inr (Ret b) => Ret (Some b)
  | inr Panic => Panic
  | inl _ => Ret None
  end.

(** Every iteration that does not end the loop makes the buffer grow, and no
    buffer has more than [2^64] bytes. *)
Definition serialize (serializer : gen) : outcome (option bytes) :=
  serialize_upto (2 ^ 64)%positive serializer.

Lemma serialize_iter_writes g bs fuel buf :
  writes g bs -> len buf <= len bs -> len bs - len buf < Z.of_nat fuel ->
  iter_nat fuel (serialize_step g) buf = inr (Ret bs).
Proof.
  intros Hg. revert buf. induction fuel as [|fuel IH]; intros buf Hle Hf; [lia|].
  cbn [iter_nat]. unfold serialize_step at 1. destruct (decide (len buf = len bs)) as [He|He].
  - pose proof (writes_ok _ _ Hg [] buf [] ltac:(lia)) as Hok.
    rewrite !app_nil_l, !app_nil_r, len_nil in Hok. rewrite Hok. cbn.
    by rewrite ztake_all.
  - destruct (writes_small _ _ Hg buf 0) as (n & b' & -> & Hb & Hn); [llia|llia|].
    cbn [GErr]. destruct (Z.ltb_spec n (len b')); [lia|].
    apply IH; rewrite len_app, len_zeros by lia; lia.
Qed.

(** The loop ends with exactly the bytes the generator describes. *)
Lemma serialize_upto_writes g bs fuel :
  writes g bs -> len bs < Zpos fuel -> serialize_upto fuel g = Ret (Some bs).
Proof.
  intros Hg Hl. unfold serialize_upto. rewrite iter_pos_nat.
  rewrite (serialize_iter_writes g bs); [done..| |].
  - rewrite len_nil. apply len_nonneg.
  - rewrite len_nil. lia.
Qed.

Lemma serialize_writes g bs : writes g bs -> len bs < 2 ^ 64 -> serialize g = Ret (Some bs).
Proof. intros. by apply serialize_upto_writes. Qed.

(** Whatever comes out is what the generator describes. *)
Lemma serialize_iter_sound g bs fuel buf b : writes g bs -> iter_nat fuel (serialize_step g) buf = inr (Ret b) -> b = bs.
Proof.
  intros Hg. revert buf. induction fuel as [|fuel IH]; intros buf; cbn [iter_nat]; [done|].
  unfold serialize_step at 1. destruct (Z.le_gt_cases (len bs) (len buf)) as [Hl|Hl].
  - destruct (split_at buf (len bs)) as (old & post & -> & Ho); [apply len_nonneg|done|].
    pose proof (writes_ok _ _ Hg [] old post ltac:(lia)) as Hok. rewrite !app_nil_l, len_nil in Hok. rewrite Hok. cbn [GOk].
    intros [= <-]. by apply ztake_app.
  - destruct (writes_small _ _ Hg buf 0) as (n & b' & -> & Hb & Hn); [llia|llia|]. cbn [GErr].
    destruct (Z.ltb_spec n (len b')); [lia|]. apply IH.
Qed.

Lemma serialize_sound g bs b : writes g bs -> serialize g = Ret (Some b) -> b = bs.
Proof.
  intros Hg. unfold serialize, serialize_upto. rewrite iter_pos_nat.
  destruct (iter_nat _ _ []) as [x|[b'|]] eqn:E; [done| |done]. intros [= <-]. by eapply serialize_iter_sound.
Qed.

(** [asks g k sz]: started at an index of at most [k] in a buffer of at most
    [sz] bytes, [g] always asks for a buffer of at most [sz] bytes. *)
Definition asks (g : gen) (k sz : Z) : Prop :=
  forall buf idx, 0 <= idx <= k -> idx <= len buf -> len buf <= sz ->
  exists b' n, g (buf, idx) = GErr b' (BufferTooSmall n) /\ len b' = len buf /\ len buf <= n <= sz.

(** Such a generator makes the loop spin: once the buffer has [sz] bytes it
    does not grow any more. *)
Lemma serialize_iter_spins g sz fuel buf :
  asks g 0 sz -> len buf <= sz -> exists b, iter_nat fuel (serialize_step g) buf = inl b.
Proof.
  intros Hg. revert buf. induction fuel as [|fuel IH]; intros buf Hl; [by exists buf|].
  cbn [iter_nat]. unfold serialize_step at 1.
  destruct (Hg buf 0) as (b' & n & -> & Hb & Hn); [lia|apply len_nonneg|done|]. cbn [GErr].
  destruct (Z.ltb_spec n (len b')); [lia|].
  apply IH. rewrite len_app, len_zeros by lia. lia.
Qed.

Lemma serialize_spins g sz fuel : asks g 0 sz -> 0 <= sz -> serialize_upto fuel g = Ret None.
Proof.
  intros Hg Hsz. unfold serialize_upto. rewrite iter_pos_nat.
  destruct (serialize_iter_spins g sz (Pos.to_nat fuel) [] Hg) as [b ->]; [by rewrite len_nil|done].
Qed.

Lemma asks_seq {cf : CookieFactory} g h bs k sz :
  writes g bs -> asks h (k + len bs) sz -> k + len bs <= sz -> asks (g >>> h) k sz.
Proof.
  intros Hg Hh Hk buf idx Hi Hl Hs. rewrite gen_seq_eq. pose proof (len_nonneg bs).
  destruct (Z.le_gt_cases (idx + len bs) (len buf)) as [H1|H1].
  - destruct (writes_room _ _ buf idx Hg) as (pre & old & post & -> & Hp & Ho & ->); [lia|done|].
    rewrite !len_app in *. cbn [gbind GOk].
    destruct (Hh (pre ++ bs ++ post) (idx + len bs)) as (b' & n & -> & Hb & Hn);
      [lia|rewrite !len_app; lia|rewrite !len_app; lia|].
    exists b', n. split; [done|]. rewrite !len_app in *. lia.
  - destruct (writes_small _ _ Hg buf idx) as (n & b' & -> & Hb & Hn); [lia|lia|].
    exists b', n. split; [done|lia].
Qed.

End Serialize.
Export Serialize.

(** ** [fmt_colon_delimited_hex] *)

Module Hex.

Definition hex_digit (d : Z) : Z := if d <? 10 then 48 + d else 87 + d.

(** [{:02x}] *)
Definition hex2 (b : Z) : bytes := [hex_digit (b / 16); hex_digit (b mod 16)].

(** the loop of the source: a colon after every byte but the last *)
Fixpoint fmt_loop (n i : Z) (l : bytes) : bytes :=
  match l with
  | [] => []
  | b :: l => hex2 b ++ (if i =? n - 1 then [] else [58]) ++ fmt_loop n (i + 1) l
  end.

Definition fmt_colon_delimited_hex (l : bytes) : bytes := fmt_loop (len l) 0 l.

Definition unhex (c : Z) : Z := if c <? 58 then c - 48 else c - 87.

(** reading the string back, three characters at a time *)
Fixpoint parse_hex (s : bytes) : bytes :=
  match s with
  | a :: b :: s' =>
      (unhex a * 16 + unhex b) :: match s' with [] => [] | _ :: s'' => parse_hex s'' end
  | _ => []
  end.

Lemma unhex_digit d : 0 <= d < 16 -> unhex (hex_digit d) = d.
Proof.
  intros. unfold unhex, hex_digit. destruct (Z.ltb_spec d 10).
  - destruct (Z.ltb_spec (48 + d) 58); lia.
  - destruct (Z.ltb_spec (87 + d) 58); lia.
Qed.

Lemma unhex_hex2 b : byte_ok b -> unhex (hex_digit (b / 16)) * 16 + unhex (hex_digit (b mod 16)) = b.
Proof.
  intros Hb. unfold byte_ok in Hb.
  rewrite !unhex_digit by (Z.div_mod_to_equations; lia).
  Z.div_mod_to_equations; lia.
Qed.

Lemma parse_fmt_loop n i l :
  bytes_ok l -> n = i + len l -> parse_hex (fmt_loop n i l) = l.
Proof.
  intros Hl. revert i. induction Hl as [|b l Hb _ IH]; intros i Hn; [done|].
  rewrite len_cons in Hn. cbn [fmt_loop hex2 app].
  destruct (Z.eqb_spec i (n - 1)) as [He|He]; cbn [app parse_hex].
  - assert (l = []) as -> by (destruct l; [done|]; rewrite len_cons in Hn; pose proof (len_nonneg l); lia).
    cbn [fmt_loop]. by rewrite unhex_hex2.
  - rewrite unhex_hex2, IH by (done || lia). done.
Qed.

Lemma parse_fmt_hex l : bytes_ok l -> parse_hex (fmt_colon_delimited_hex l) = l.
Proof. intros. by apply parse_fmt_loop. Qed.

End Hex.

(** ** [DecayingBloomFilter] *)

(** The crate [bloom-filter-rs]: a filter starts empty, has no false
    negatives, and never forgets. *)
Class BloomFilter := {
  bloom : Type;
  bf_optimal : Z -> bloom;
  bf_contains : bloom -> bytes -> bool;
  bf_insert : bloom -> bytes -> bloom;
  bf_optimal_empty : forall n x, bf_contains (bf_optimal n) x = false;
  bf_insert_same : forall f x, bf_contains (bf_insert f x) x = true;
  bf_insert_mono : forall f x y,
    bf_contains f x = true -> bf_contains (bf_insert f y) x = true;
}.

Module Decaying.
Section Filter.
Context {bf : BloomFilter}.

Record DecayingBloomFilter := mkDBF {
  current : bloom;
  previous : bloom;
  max_elements : Z
}.

Definition new (n : Z) : DecayingBloomFilter := mkDBF (bf_optimal n) (bf_optimal n) n.

Definition feed (f : DecayingBloomFilter) (x : bytes) : DecayingBloomFilter * bool :=
  if bf_contains (current f) x || bf_contains (previous f) x then (f, true)
  else (mkDBF (bf_insert (current f) x) (previous f) (max_elements f), false).

Definition decay (f : DecayingBloomFilter) : DecayingBloomFilter :=
  mkDBF (bf_optimal (max_elements f)) (current f) (max_elements f).

(** the operations a client interleaves *)
Inductive op := OFeed (x : bytes) | ODecay.

Definition step (f : DecayingBloomFilter) (o : op) : DecayingBloomFilter :=
  match o with OFeed x => (feed f x).1 | ODecay => decay f end.

Definition run (f : DecayingBloomFilter) (ops : list op) : DecayingBloomFilter :=
  foldl step f ops.

Definition decays (ops : list op) : nat := length (List.filter (fun o => match o with ODecay => true | _ => false end) ops).

Definition present (f : DecayingBloomFilter) (x : bytes) : bool :=
  bf_contains (current f) x || bf_contains (previous f) x.

Lemma feed_snd f x : (feed f x).2 = present f x.
Proof. unfold feed, present. by destruct (_ || _). Qed.

Lemma feed_present f x : present (feed f x).1 x = true.
Proof.
  unfold feed. destruct (_ || _) eqn:E; [exact E|]. unfold present. cbn.
  by rewrite bf_insert_same.
Qed.

Lemma feed_keeps_current f x y :
  bf_contains (current f) x = true -> bf_contains (current (feed f y).1) x = true.
Proof. intros H. unfold feed. destruct (_ || _); [done|]. cbn. by apply bf_insert_mono. Qed.

Lemma feed_previous f y : previous (feed f y).1 = previous f.
Proof. unfold feed. by destruct (_ || _). Qed.

Lemma feed_keeps_present f x y : present f x = true -> present (feed f y).1 x = true.
Proof.
  unfold present. intros [H|H]%orb_prop.
  - by rewrite feed_keeps_current.
  - rewrite feed_previous, H. apply orb_true_r.
Qed.

Lemma run_feeds_current f x ops :
  decays ops = O -> bf_contains (current f) x = true ->
  bf_contains (current (run f ops)) x = true.
Proof.
  revert f. induction ops as [|[y|] ops IH]; intros f Hd H; [done| |done].
  apply (IH (feed f y).1); [done|]. by apply feed_keeps_current.
Qed.

Lemma run_feeds_present f x ops :
  decays ops = O -> present f x = true -> present (run f ops) x = true.
Proof.
  revert f. induction ops as [|[y|] ops IH]; intros f Hd H; [done| |done].
  apply (IH (feed f y).1); [done|]. by apply feed_keeps_present.
Qed.

(** an element that is in the current generation survives one decay *)
Lemma run_one_decay f x ops :
  (decays ops <= 1)%nat -> bf_contains (current f) x = true -> present (run f ops) x = true.
Proof.
  revert f. induction ops as [|[y|] ops IH]; intros f Hd H.
  - unfold present. cbn. by rewrite H.
  - apply (IH (feed f y).1); [done|]. by apply feed_keeps_current.
  - apply (run_feeds_present (decay f)); [cbn in Hd; unfold decays in *; lia|].
    unfold present. cbn. rewrite H. apply orb_true_r.
Qed.

(** a fresh element goes into the current generation *)
Lemma feed_fresh_current f x : (feed f x).2 = false -> bf_contains (current (feed f x).1) x = true.
Proof.
  unfold feed. destruct (_ || _); [done|]. intros _. apply bf_insert_same.
Qed.

Lemma two_decays_empty f x : present (decay (decay f)) x = false.
Proof. unfold present. cbn. by rewrite !bf_optimal_empty. Qed.

End Filter.
End Decaying.

(** an exact implementation of the interface: the list of inserted keys *)
Definition bloom_ref : BloomFilter.
Proof.
  refine {|
    bloom := list bytes;
    bf_optimal := fun _ => [];
    bf_contains := fun f x => existsb (bytes_eqb x) f;
    bf_insert := fun f x => x :: f
  |}.
  - done.
  - intros f x. simpl. by rewrite bytes_eqb_refl.
  - intros f x y H. simpl. rewrite H. apply orb_true_r.
Defined.

(** ** Properties *)

Module UtilProps.
Import Decaying.

(** C40: [serialize] terminates with exactly the bytes a well-behaved generator
    describes, whatever its failed attempts on smaller buffers wrote: at most
    one iteration per byte is needed, so any bound above the size will do. *)
Theorem serialize_correct (g : gen) (bs : bytes) (fuel : positive) :
  writes g bs -> len bs < Zpos fuel -> serialize_upto fuel g = Ret (Some bs).
Proof. apply serialize_upto_writes. Qed.

(** The buffer grows in two steps here: the first attempt asks for four bytes. *)
Lemma serialize_correct_witness :
  serialize_upto 8 (@gen_seq cf_ref (@gen_be_u32 cf_ref 7) (@gen_be_u8 cf_ref 9))
  = Ret (Some [0; 0; 0; 7; 9]).
Proof.
  apply (serialize_correct _ (be_bytes 4 7 ++ be_bytes 1 9) 8); [|done].
  apply writes_seq; [apply writes_be_u32 | apply writes_be_u8].
Defined.

(** The duplicate filter has no false negatives within two decay periods:
    once an element has been inserted, every later query finds it as long as
    at most one decay happened in between, whatever else was fed. *)
Theorem filter_no_false_negatives {bf : BloomFilter} (f : DecayingBloomFilter) (x : bytes)
    (ops : list op) :
  (feed f x).2 = false -> (decays ops <= 1)%nat ->
  (feed (run (feed f x).1 ops) x).2 = true.
Proof.
  intros Hf Hd. rewrite feed_snd. apply run_one_decay; [done|].
  by apply feed_fresh_current.
Qed.

Lemma filter_no_false_negatives_witness :
  let f := (@feed bloom_ref (@new bloom_ref 10) [1; 2]).1 in
  (@feed bloom_ref (@run bloom_ref f [OFeed [3]; ODecay; OFeed [4]]) [1; 2]).2 = true.
Proof.
  apply (@filter_no_false_negatives bloom_ref (@new bloom_ref 10) [1; 2]
           [OFeed [3]; ODecay; OFeed [4]]); [reflexivity | cbv; lia].
Defined.

(** Two decays in a row forget everything: the filter then reports every
    element as new, so no entry outlives two decay periods. *)
Theorem filter_forgets_after_two_decays {bf : BloomFilter} (f : DecayingBloomFilter) (x : bytes) :
  (feed (decay (decay f)) x).2 = false.
Proof. rewrite feed_snd. apply two_decays_empty. Qed.

(** The colon-delimited hex rendering loses nothing: reading it back gives
    the bytes. *)
Theorem hex_roundtrip (l : bytes) :
  bytes_ok l -> Hex.parse_hex (Hex.fmt_colon_delimited_hex l) = l.
Proof. apply Hex.parse_fmt_hex. Qed.

Lemma hex_roundtrip_witness :
  Hex.parse_hex (Hex.fmt_colon_delimited_hex [0; 171; 255]) = [0; 171; 255] /\
  Hex.fmt_colon_delimited_hex [171; 255] = ascii_bytes "ab:ff".
Proof.
  split; [apply hex_roundtrip; repeat constructor; done | reflexivity].
Defined.

End UtilProps.
