(* ===== verification/Wire.v ===== *)
(** * Round trips between generators and parsers

    [rt p g a]: the generator [g] writes some bytes, and [p] reads exactly
    those bytes back as [a], whatever follows.  The rules below follow the
    combinators the frames are written with, so a round trip is proved by
    composing the round trips of the fields. *)

From S2P Require Import Prelude Nom Cookie Util.

Definition rt {A} (p : parser bytes A) (g : gen) (a : A) : Prop :=
  exists bs, writes g bs /\ parses p bs a.

(** [rt] with the bytes named *)
Definition rt_as {A} (p : parser bytes A) (g : gen) (a : A) (bs : bytes) : Prop :=
  writes g bs /\ parses p bs a.

Section Rules.
Context {nom : Nom} {cf : CookieFactory}.

(** a generator writes at most one thing *)
Lemma writes_len_le g b1 b2 : writes g b1 -> writes g b2 -> len b1 <= len b2 -> b1 = b2.
Proof.
  intros H1 H2 Hl.
  pose proof (writes_room g b1 b2 0 H1 ltac:(lia) ltac:(lia)) as (pre & old & post & -> & Hp & Ho & E1).
  destruct pre; [|rewrite len_cons in Hp; pose proof (len_nonneg pre); lia].
  rewrite app_nil_l in *.
  pose proof (writes_ok _ _ H2 [] (old ++ post) [] ltac:(lia)) as E2.
  rewrite !app_nil_l, !app_nil_r, len_nil in E2. rewrite E1 in E2.
  injection E2 as E2 E3. destruct post as [|z post].
  - by rewrite app_nil_r in E2.
  - rewrite len_app, len_cons in E3. pose proof (len_nonneg post). lia.
Qed.

Lemma writes_det g b1 b2 : writes g b1 -> writes g b2 -> b1 = b2.
Proof.
  intros H1 H2. destruct (Z.le_ge_cases (len b1) (len b2)).
  - by eapply writes_len_le.
  - symmetry. by eapply writes_len_le.
Qed.

Lemma rt_of_as {A} (p : parser bytes A) g a bs : rt_as p g a bs -> rt p g a.
Proof. intros [H1 H2]. by exists bs. Qed.

(** a round trip reads whatever its generator is known to write *)
Lemma rt_parses {A} (p : parser bytes A) g a bs : rt p g a -> writes g bs -> parses p bs a.
Proof. intros (b & Hw & Hp) Hw'. by rewrite <- (writes_det _ _ _ Hw Hw'). Qed.

Lemma rt_intro {A} (p : parser bytes A) g a bs : writes g bs -> parses p bs a -> rt p g a.
Proof. intros. by exists bs. Qed.

Lemma rt_ext {A} (p q : parser bytes A) g h a :
  (forall i, p i = q i) -> (forall s, g s = h s) -> rt q h a -> rt p g a.
Proof.
  intros Hp Hg (bs & Hw & Hq). exists bs. split; [by eapply writes_ext|].
  intros rest. rewrite Hp. apply Hq.
Qed.

Lemma rt_pair {A B} (p : parser bytes A) (q : parser bytes B) g h a b :
  rt p g a -> rt q h b -> rt (nom_pair p q) (g >>> h) (a, b).
Proof.
  intros (b1 & H1 & P1) (b2 & H2 & P2). exists (b1 ++ b2).
  split; [by apply writes_seq | by apply parses_pair].
Qed.

Lemma rt_bind {A B} (p : parser bytes A) (k : bytes -> A -> IResult bytes B) g h a b :
  rt p g a -> rt (fun i => k i a) h b -> rt (fun i => pbind (p i) k) (g >>> h) b.
Proof.
  intros (b1 & H1 & P1) (b2 & H2 & P2). exists (b1 ++ b2).
  split; [by apply writes_seq|]. by eapply parses_bind.
Qed.

(** a parser that ends a sequence with [Ok((i, v))] *)
Lemma rt_bind_ret {A B} (p : parser bytes A) (k : bytes -> A -> IResult bytes B) g a b :
  rt p g a -> (forall i, k i a = POk i b) -> rt (fun i => pbind (p i) k) g b.
Proof.
  intros (b1 & H1 & P1) Hk. exists b1. split; [done|].
  intros rest. rewrite P1. cbn. apply Hk.
Qed.

Lemma rt_map {A B} (p : parser bytes A) (f : A -> outcome B) g a b :
  rt p g a -> f a = Ret b -> rt (nom_map p f) g b.
Proof. intros (b1 & H1 & P1) Hf. exists b1. split; [done|]. by eapply parses_map. Qed.

Lemma rt_map_pure {A B} (p : parser bytes A) (f : A -> B) g a b :
  rt p g a -> f a = b -> rt (map_pure p f) g b.
Proof. intros H <-. by eapply rt_map. Qed.

Lemma rt_map_res {A B E} (p : parser bytes A) (f : A -> outcome (result B E)) g a b :
  rt p g a -> f a = Ret (Ok b) -> rt (map_res p f) g b.
Proof. intros (b1 & H1 & P1) Hf. exists b1. split; [done|]. by eapply parses_map_res. Qed.

Lemma rt_map_opt {A B} (p : parser bytes A) (f : A -> outcome (option B)) g a b :
  rt p g a -> f a = Ret (Some b) -> rt (map_opt p f) g b.
Proof. intros (b1 & H1 & P1) Hf. exists b1. split; [done|]. by eapply parses_map_opt. Qed.

Lemma rt_preceded {A B} (p : parser bytes A) (q : parser bytes B) g h a b :
  rt p g a -> rt q h b -> rt (preceded p q) (g >>> h) b.
Proof.
  intros (b1 & H1 & P1) (b2 & H2 & P2). exists (b1 ++ b2).
  split; [by apply writes_seq | by eapply parses_preceded].
Qed.

Lemma rt_terminated {A B} (p : parser bytes A) (q : parser bytes B) g h a b :
  rt p g a -> rt q h b -> rt (terminated p q) (g >>> h) a.
Proof.
  intros (b1 & H1 & P1) (b2 & H2 & P2). exists (b1 ++ b2).
  split; [by apply writes_seq | by eapply parses_terminated].
Qed.

Lemma rt_slice n bs : n = len bs -> rt (nom_take n) (gen_slice bs) bs.
Proof. intros. exists bs. split; [apply writes_slice | by apply parses_take]. Qed.

Lemma rt_be_u8 v : u8_ok v -> rt be_u8 (gen_be_u8 v) v.
Proof. intros. eexists. split; [apply writes_be_u8 | by apply parses_be_u8]. Qed.
Lemma rt_be_u16 v : u16_ok v -> rt be_u16 (gen_be_u16 v) v.
Proof. intros. eexists. split; [apply writes_be_u16 | by apply parses_be_u16]. Qed.
Lemma rt_be_u32 v : u32_ok v -> rt be_u32 (gen_be_u32 v) v.
Proof. intros. eexists. split; [apply writes_be_u32 | by apply parses_be_u32]. Qed.
Lemma rt_be_u64 v : u64_ok v -> rt be_u64 (gen_be_u64 v) v.
Proof. intros. eexists. split; [apply writes_be_u64 | by apply parses_be_u64]. Qed.

(** the [as u8] and [as u16] casts of a length that fits *)
Lemma rt_len_u8 n : u8_ok n -> rt be_u8 (gen_be_u8 (as_u8 n)) n.
Proof. intros. unfold as_u8. rewrite Z.mod_small by done. by apply rt_be_u8. Qed.
Lemma rt_len_u16 n : u16_ok n -> rt be_u16 (gen_be_u16 (as_u16 n)) n.
Proof. intros. unfold as_u16. rewrite Z.mod_small by done. by apply rt_be_u16. Qed.

Lemma rt_cond {A} (p : parser bytes A) (b : bool) (g : gen) (o : option A) :
  (b = true -> exists a, o = Some a /\ rt p g a) -> (b = false -> o = None) ->
  rt (nom_cond b p) (gen_cond b g) o.
Proof.
  intros Ht Hf. destruct b.
  - destruct (Ht eq_refl) as (a & -> & bs & H1 & P1). exists bs.
    split; [by apply writes_cond_true | by apply parses_cond_true].
  - rewrite (Hf eq_refl). exists []. split; [apply writes_cond_false | apply parses_cond_false].
Qed.

Lemma rt_count {A} (p : parser bytes A) (g : A -> gen) l n :
  n = length l -> Forall (fun a => rt p (g a) a) l -> rt (nom_count p n) (gen_many l g) l.
Proof.
  intros -> H. induction H as [|a l (b1 & H1 & P1) _ (b2 & H2 & P2)].
  - exists []. split; [apply writes_nil, gen_many_nil|]. intros rest. apply nom_count_0.
  - exists (b1 ++ b2). split.
    + eapply (writes_ext _ (g a >>> gen_many l g)); [|by apply writes_seq].
      intros s. by rewrite gen_many_cons, gen_seq_eq.
    + intros rest. simpl length. rewrite nom_count_S, <- app_assoc, P1. cbn. by rewrite P2.
Qed.

Lemma rt_length_count {A} lp lg n (p : parser bytes A) (g : A -> gen) l :
  rt lp lg n -> n = len l -> Forall (fun a => rt p (g a) a) l ->
  rt (length_count lp p) (lg >>> gen_many l g) l.
Proof.
  intros Hl -> H. eapply rt_ext; [apply length_count_eq|done|].
  eapply rt_bind; [exact Hl|]. cbn. apply rt_count; [|done]. unfold len. lia.
Qed.

(** the same with the count and the elements apart, as sequences nest to
    the right *)
Lemma rt_length_count_split {A} lp lg n (p : parser bytes A) (g : A -> gen) l :
  rt lp lg n -> n = len l -> Forall (fun a => rt p (g a) a) l ->
  exists bl bm, writes lg bl /\ writes (gen_many l g) bm /\
                parses (length_count lp p) (bl ++ bm) l.
Proof.
  intros (bl & Hl & Pl) -> H.
  destruct (rt_count p g l (length l) eq_refl H) as (bm & Hm & Pm).
  exists bl, bm. split; [done|]. split; [done|]. intros rest.
  rewrite length_count_eq, <- app_assoc, Pl. cbn. unfold len. rewrite Nat2Z.id. apply Pm.
Qed.

Lemma rt_length_data_split lp lg n bs :
  rt lp lg n -> n = len bs ->
  exists bl, writes lg bl /\ parses (length_data lp) (bl ++ bs) bs.
Proof.
  intros (bl & Hl & Pl) ->. exists bl. split; [done|]. by eapply parses_length_data.
Qed.

Lemma rt_length_data lp lg n bs :
  rt lp lg n -> n = len bs -> rt (length_data lp) (lg >>> gen_slice bs) bs.
Proof.
  intros Hl ->. eapply rt_ext; [apply length_data_eq|done|].
  eapply rt_bind; [exact Hl|]. cbn. by apply rt_slice.
Qed.

(** a patched length prefix is what [length_value] reads *)
Lemma rt_len_prefixed {A} (p : parser bytes A) g bs r a :
  writes g bs -> p bs = POk r a -> u16_ok (len bs) ->
  rt (length_value be_u16 p) (len_prefixed g) a.
Proof.
  intros Hg Hp Hl. exists (be_bytes 2 (len bs) ++ bs).
  split; [by apply writes_len_prefixed|].
  by eapply parses_length_value; [apply parses_be_u16|..].
Qed.

(** ** Size bounds *)

(** [g] writes at most [n] bytes *)
Definition writes_le (g : gen) (n : Z) : Prop := exists bs, writes g bs /\ len bs <= n.

Lemma writes_le_weaken g n m : writes_le g n -> n <= m -> writes_le g m.
Proof. intros (bs & H & Hl) Hm. exists bs. split; [done|lia]. Qed.

Lemma writes_le_of g bs n : writes g bs -> len bs <= n -> writes_le g n.
Proof. intros. by exists bs. Qed.

Lemma writes_le_seq g h n m : writes_le g n -> writes_le h m -> writes_le (g >>> h) (n + m).
Proof.
  intros (b1 & H1 & L1) (b2 & H2 & L2). exists (b1 ++ b2).
  split; [by apply writes_seq|]. rewrite len_app. lia.
Qed.

Lemma writes_le_many {A} (f : A -> gen) l n :
  0 <= n -> Forall (fun a => writes_le (f a) n) l -> writes_le (gen_many l f) (n * len l).
Proof.
  intros Hn H. induction H as [|a l Ha _ IH].
  - exists []. split; [apply writes_nil, gen_many_nil|]. unfold len. simpl. lia.
  - destruct (writes_le_seq _ _ _ _ Ha IH) as (bs & Hb & Hl). exists bs. split.
    + eapply writes_ext; [|exact Hb]. intros s. by rewrite gen_many_cons, gen_seq_eq.
    + rewrite len_cons. lia.
Qed.

Lemma writes_le_slice b : writes_le (gen_slice b) (len b).
Proof. exists b. split; [apply writes_slice|lia]. Qed.
Lemma writes_le_be_u8 v : writes_le (gen_be_u8 v) 1.
Proof. eexists. split; [apply writes_be_u8|]. by rewrite len_be_bytes. Qed.
Lemma writes_le_be_u16 v : writes_le (gen_be_u16 v) 2.
Proof. eexists. split; [apply writes_be_u16|]. by rewrite len_be_bytes. Qed.
Lemma writes_le_be_u32 v : writes_le (gen_be_u32 v) 4.
Proof. eexists. split; [apply writes_be_u32|]. by rewrite len_be_bytes. Qed.
Lemma writes_le_be_u64 v : writes_le (gen_be_u64 v) 8.
Proof. eexists. split; [apply writes_be_u64|]. by rewrite len_be_bytes. Qed.

Lemma writes_le_len_prefixed g n : writes_le g n -> writes_le (len_prefixed g) (2 + n).
Proof.
  intros (bs & H & Hl). eexists. split; [by apply writes_len_prefixed|].
  rewrite len_app, len_be_bytes. lia.
Qed.

(** A bounded generator with a round trip: [serialize] returns, and the
    parser reads the result back. *)
Lemma rt_serialize {A} (p : parser bytes A) g a n :
  rt p g a -> writes_le g n -> n < 2 ^ 64 ->
  exists bs, serialize g = Ret (Some bs) /\ writes g bs /\ parses p bs a /\ len bs <= n.
Proof.
  intros (bs & Hw & Hp) (bs' & Hw' & Hl) Hn. rewrite (writes_det _ _ _ Hw' Hw) in Hl.
  exists bs. split; [|done]. apply (serialize_writes _ _ Hw). lia.
Qed.

Lemma writes_le_serialize g n :
  writes_le g n -> n < 2 ^ 64 -> exists bs, serialize g = Ret (Some bs) /\ writes g bs.
Proof. intros (bs & Hw & Hl) Hn. exists bs. split; [apply serialize_writes; [done|lia]|done]. Qed.

End Rules.

Create HintDb wire.
#[export] Hint Resolve rt_pair rt_slice rt_be_u8 rt_be_u16 rt_be_u32 rt_be_u64
  rt_len_u8 rt_len_u16 : wire.

(** a nested sequence of generators whose parts are known *)
Ltac writes_solve :=
  eapply writes_eq;
  [ repeat first [ eassumption | apply writes_slice | apply writes_be_u8 | apply writes_be_u16
                 | apply writes_be_u32 | apply writes_be_u64 | apply writes_seq ]
  | rewrite <- ?app_assoc; reflexivity ].
