(* ===== verification/Crypto.v ===== *)
(** * Key material and signatures: [src/crypto/mod.rs], [src/crypto/frame.rs]

    Signature and encryption types with their lengths, the key and signature
    containers, and their wire format.  The signature schemes themselves are
    crates ([p256], [p384], [ed25519-dalek]); they are the class [SigCrates].
    [num-bigint] is the class [BigUintOps] over natural numbers in [Z].
    [crypto/math.rs] ([rectify]) and the DSA containers of [crypto/dsa.rs]
    are here because key parsing uses them. *)

From S2P Require Import Prelude Nom Cookie Util.

(** ** [src/constants.rs] *)

Module Constants.
Definition DSA_SHA1 := 0.
Definition ECDSA_SHA256_P256 := 1.
Definition ECDSA_SHA384_P384 := 2.
Definition ECDSA_SHA512_P521 := 3.
Definition RSA_SHA256_2048 := 4.
Definition RSA_SHA384_3072 := 5.
Definition RSA_SHA512_4096 := 6.
Definition ED25519 := 7.
Definition ELGAMAL2048 := 0.
Definition KEYCERT_SIGKEY_BYTES := 128.
Definition NULL_CERT := 0.
Definition HASH_CERT := 1.
Definition HIDDEN_CERT := 2.
Definition SIGNED_CERT := 3.
Definition MULTI_CERT := 4.
Definition KEY_CERT := 5.
End Constants.
Export Constants.

(** ** External crates *)

(** [num_bigint::BigUint]: natural numbers *)
Class BigUintOps := {
  to_bytes_be : Z -> bytes;
  modpow : Z -> Z -> Z -> Z;
  (** big-endian, without leading zeroes, and one byte for zero *)
  to_bytes_be_val : forall v, 0 <= v -> be_val (to_bytes_be v) = v;
  to_bytes_be_ok : forall v, 0 <= v -> bytes_ok (to_bytes_be v);
  to_bytes_be_zero : to_bytes_be 0 = [0];
  to_bytes_be_min : forall v b l, 0 < v -> to_bytes_be v = b :: l -> b <> 0;
  to_bytes_be_nonempty : forall v, 0 <= v -> to_bytes_be v <> [];
  modpow_eq : forall b e m, 0 <= b -> 0 <= e -> 0 < m -> modpow b e m = b ^ e mod m;
}.

(** [p256], [p384] and [ed25519_dalek]: conversions are inverse to each
    other, and a signature made with a key verifies under it. *)
Class SigCrates := {
  p256_point : Type;
  p256_vk : Type;
  p256_sig : Type;
  p256_from_untagged : bytes -> p256_point;
  p256_point_bytes : p256_point -> bytes;
  p256_vk_from_point : p256_point -> option p256_vk;
  p256_sig_try_from : bytes -> option p256_sig;
  p256_sig_to_vec : p256_sig -> bytes;
  p256_verify : p256_vk -> bytes -> p256_sig -> bool;
  p384_point : Type;
  p384_vk : Type;
  p384_sig : Type;
  p384_from_untagged : bytes -> p384_point;
  p384_point_bytes : p384_point -> bytes;
  p384_vk_from_point : p384_point -> option p384_vk;
  p384_sig_try_from : bytes -> option p384_sig;
  p384_sig_to_vec : p384_sig -> bytes;
  p384_verify : p384_vk -> bytes -> p384_sig -> bool;
  ed_pk : Type;
  ed_sig : Type;
  ed_sk : Type;
  ed_esk : Type;
  ed_pk_from_bytes : bytes -> option ed_pk;
  ed_pk_bytes : ed_pk -> bytes;
  ed_sig_from_bytes : bytes -> option ed_sig;
  ed_sig_bytes : ed_sig -> bytes;
  ed_sk_from_bytes : bytes -> option ed_sk;
  ed_sk_bytes : ed_sk -> bytes;
  ed_expand : ed_sk -> ed_esk;
  ed_public : ed_esk -> ed_pk;
  ed_sign : ed_esk -> bytes -> ed_pk -> ed_sig;
  ed_verify : ed_pk -> bytes -> ed_sig -> bool;

  (** an untagged encoding gets the tag 4 of uncompressed points *)
  p256_point_untagged : forall d, len d = 64 -> p256_point_bytes (p256_from_untagged d) = 4 :: d;
  p384_point_untagged : forall d, len d = 96 -> p384_point_bytes (p384_from_untagged d) = 4 :: d;
  p256_sig_rt : forall s, p256_sig_try_from (p256_sig_to_vec s) = Some s;
  p256_sig_len : forall s, len (p256_sig_to_vec s) = 64;
  p256_sig_inv : forall d s, p256_sig_try_from d = Some s -> p256_sig_to_vec s = d;
  p384_sig_rt : forall s, p384_sig_try_from (p384_sig_to_vec s) = Some s;
  p384_sig_len : forall s, len (p384_sig_to_vec s) = 96;
  p384_sig_inv : forall d s, p384_sig_try_from d = Some s -> p384_sig_to_vec s = d;
  ed_pk_rt : forall k, ed_pk_from_bytes (ed_pk_bytes k) = Some k;
  ed_pk_len : forall k, len (ed_pk_bytes k) = 32;
  ed_pk_inv : forall d k, ed_pk_from_bytes d = Some k -> ed_pk_bytes k = d;
  ed_sig_rt : forall s, ed_sig_from_bytes (ed_sig_bytes s) = Some s;
  ed_sig_len : forall s, len (ed_sig_bytes s) = 64;
  ed_sig_inv : forall d s, ed_sig_from_bytes d = Some s -> ed_sig_bytes s = d;
  ed_sk_rt : forall k, ed_sk_from_bytes (ed_sk_bytes k) = Some k;
  ed_sk_len : forall k, len (ed_sk_bytes k) = 32;
  ed_sign_verify : forall sk m,
    ed_verify (ed_public sk) m (ed_sign sk m (ed_public sk)) = true;
}.

(** The crates [sha1] and [sha2]: digests of 20 and of 32 bytes. *)
Class Sha1 := {
  sha1 : bytes -> bytes;
  sha1_len : forall m, len (sha1 m) = 20;
  sha1_ok : forall m, bytes_ok (sha1 m);
}.

Class Sha2 := {
  sha256 : bytes -> bytes;
  sha256_len : forall m, len (sha256 m) = 32;
  sha256_ok : forall m, bytes_ok (sha256 m);
}.

(** ** Errors, signature types, encryption types *)

Inductive CryptoError :=
| InvalidCiphertext | InvalidKey | InvalidMessage | InvalidSignature
| NoSignature | SigningFailed | TypeMismatch.

Inductive SigType :=
| DsaSha1 | EcdsaSha256P256 | EcdsaSha384P384 | EcdsaSha512P521
| Rsa2048Sha256 | Rsa3072Sha384 | Rsa4096Sha512 | Ed25519.

Inductive EncType := ElGamal2048.

#[export] Instance SigType_eq_dec : EqDecision SigType.
Proof. solve_decision. Defined.
#[export] Instance EncType_eq_dec : EqDecision EncType.
Proof. solve_decision. Defined.
#[export] Instance CryptoError_eq_dec : EqDecision CryptoError.
Proof. solve_decision. Defined.

Definition SigType_code (t : SigType) : Z :=
  match t with
  | DsaSha1 => DSA_SHA1
  | EcdsaSha256P256 => ECDSA_SHA256_P256
  | EcdsaSha384P384 => ECDSA_SHA384_P384
  | EcdsaSha512P521 => ECDSA_SHA512_P521
  | Rsa2048Sha256 => RSA_SHA256_2048
  | Rsa3072Sha384 => RSA_SHA384_3072
  | Rsa4096Sha512 => RSA_SHA512_4096
  | Ed25519 => ED25519
  end.

Definition pubkey_len (t : SigType) : Z :=
  match t with
  | DsaSha1 => 128
  | EcdsaSha256P256 => 2 * 32
  | EcdsaSha384P384 => 2 * 48
  | EcdsaSha512P521 => 132
  | Rsa2048Sha256 => 256
  | Rsa3072Sha384 => 384
  | Rsa4096Sha512 => 512
  | Ed25519 => 32
  end.

Definition privkey_len (t : SigType) : Z :=
  match t with
  | DsaSha1 => 20
  | EcdsaSha256P256 => 32
  | EcdsaSha384P384 => 48
  | EcdsaSha512P521 => 66
  | Rsa2048Sha256 => 512
  | Rsa3072Sha384 => 768
  | Rsa4096Sha512 => 1024
  | Ed25519 => 32
  end.

Definition sig_len (t : SigType) : Z :=
  match t with
  | DsaSha1 => 40
  | EcdsaSha256P256 => 2 * 32
  | EcdsaSha384P384 => 2 * 48
  | EcdsaSha512P521 => 132
  | Rsa2048Sha256 => 256
  | Rsa3072Sha384 => 384
  | Rsa4096Sha512 => 512
  | Ed25519 => 64
  end.

Definition pad_len (t : SigType) (e : EncType) : Z :=
  match e with ElGamal2048 => saturating_sub KEYCERT_SIGKEY_BYTES (pubkey_len t) end.

Definition extra_data_len (t : SigType) (e : EncType) : Z :=
  match e with ElGamal2048 => saturating_sub (pubkey_len t) KEYCERT_SIGKEY_BYTES end.

Definition EncType_code (e : EncType) : Z := match e with ElGamal2048 => ELGAMAL2048 end.

Definition enc_extra_data_len (e : EncType) (_ : SigType) : Z :=
  match e with ElGamal2048 => 0 end.

(** The padding and the excess data are what is missing from, or exceeds,
    the 128 bytes a key certificate leaves for the signing key. *)
Lemma pad_extra_balance t e :
  pad_len t e + pubkey_len t = KEYCERT_SIGKEY_BYTES + extra_data_len t e.
Proof. by destruct t, e. Qed.

Lemma pad_len_bounds t e : 0 <= pad_len t e <= 128.
Proof. by destruct t, e. Qed.

Lemma extra_data_len_nonneg t e : 0 <= extra_data_len t e.
Proof. by destruct t, e. Qed.

(** ** [crypto/math.rs] *)

Section Math.
Context {bu : BigUintOps}.

(** [rectify]: exactly [n] bytes, or a panic when the number is too big *)
Definition rectify (bi : Z) (n : Z) : outcome bytes :=
  let b := to_bytes_be bi in
  let sz := len b in
  if sz =? n then Ret b
  else if sz >? n then Panic
  else if sz =? 0 then Ret (zeros n)
  else Ret (ztake (n - len b) (zeros n) ++ b).

Lemma len_to_bytes_be v n : 0 <= v < 256 ^ n -> 1 <= n -> len (to_bytes_be v) <= n.
Proof.
  intros Hv Hn. destruct (decide (v = 0)) as [->|Hz].
  - by rewrite to_bytes_be_zero, len_cons, len_nil.
  - destruct (to_bytes_be v) as [|b l] eqn:E; [llia|].
    assert (256 ^ len l <= v).
    { rewrite <- (to_bytes_be_val v), E by lia. apply be_val_lead.
      - rewrite <- E. apply to_bytes_be_ok. lia.
      - eapply (to_bytes_be_min v); [lia|exact E]. }
    assert (len l < n) by (apply (Z.pow_lt_mono_r_iff 256); [lia..|]; lia).
    rewrite len_cons. lia.
Qed.

Lemma len_to_bytes_be_big v n : 256 ^ n <= v -> 0 <= n -> n < len (to_bytes_be v).
Proof.
  intros Hv Hn. assert (0 < 256 ^ n) by (apply Z.pow_pos_nonneg; lia).
  pose proof (be_val_bound (to_bytes_be v) (to_bytes_be_ok v ltac:(lia))) as Hb.
  rewrite to_bytes_be_val in Hb by lia.
  apply (Z.pow_lt_mono_r_iff 256); [lia|apply len_nonneg|lia].
Qed.

(** [rectify] is the fixed-width big-endian encoding *)
Lemma rectify_small v n : 0 <= v < 256 ^ n -> 1 <= n -> rectify v n = Ret (be_bytes (Z.to_nat n) v).
Proof.
  intros Hv Hn. pose proof (len_to_bytes_be v n Hv Hn) as Hl.
  assert (0 < len (to_bytes_be v)).
  { destruct (to_bytes_be v) eqn:E; [|llia]. by apply to_bytes_be_nonempty in E; [|lia]. }
  unfold rectify. destruct (Z.eqb_spec (len (to_bytes_be v)) n) as [He|He].
  - f_equal. rewrite <- (to_bytes_be_val v) at 2 by lia.
    symmetry. apply be_bytes_val; [apply to_bytes_be_ok; lia|lia].
  - destruct (Z.gtb_spec (len (to_bytes_be v)) n); [lia|].
    destruct (Z.eqb_spec (len (to_bytes_be v)) 0); [lia|]. f_equal.
    replace (ztake (n - len (to_bytes_be v)) (zeros n)) with (zeros (n - len (to_bytes_be v)))
      by (unfold ztake, zeros; rewrite take_replicate; f_equal; lia).
    set (k := n - len (to_bytes_be v)).
    rewrite <- (be_bytes_val (zeros k ++ to_bytes_be v) (Z.to_nat n)).
    + by rewrite be_val_app, be_val_zeros, to_bytes_be_val by lia.
    + apply bytes_ok_app. split; [apply zeros_ok | apply to_bytes_be_ok; lia].
    + rewrite len_app, len_zeros by lia. lia.
Qed.

Lemma rectify_big v n : 256 ^ n <= v -> 0 <= n -> rectify v n = Panic.
Proof.
  intros Hv Hn. pose proof (len_to_bytes_be_big v n Hv Hn). unfold rectify.
  destruct (Z.eqb_spec (len (to_bytes_be v)) n); [lia|].
  by destruct (Z.gtb_spec (len (to_bytes_be v)) n); [|lia].
Qed.

Lemma rectify_be_val l n :
  bytes_ok l -> len l = n -> 1 <= n -> rectify (be_val l) n = Ret l.
Proof.
  intros Hl <- Hn. rewrite rectify_small; [|by apply be_val_bound|done].
  f_equal. apply be_bytes_val; [done|lia].
Qed.

End Math.

(** ** Key material *)

Record PublicKey := mkPublicKey { pk_bytes : bytes }.
Record PrivateKey := mkPrivateKey { sk_bytes : bytes }.
Record SessionKey := mkSessionKey { key_bytes : bytes }.

Definition wf_PublicKey (k : PublicKey) : Prop := bytes_ok (pk_bytes k) /\ len (pk_bytes k) = 256.
Definition wf_PrivateKey (k : PrivateKey) : Prop := bytes_ok (sk_bytes k) /\ len (sk_bytes k) = 256.
Definition wf_SessionKey (k : SessionKey) : Prop := bytes_ok (key_bytes k) /\ len (key_bytes k) = 32.

(** [impl PartialEq for PublicKey]: an accumulated comparison *)
Definition PublicKey_eq (a b : PublicKey) : bool :=
  foldl (fun acc (xy : Z * Z) => acc && (xy.1 =? xy.2)) true (zip (pk_bytes a) (pk_bytes b)).

Lemma PublicKey_eq_spec a b :
  wf_PublicKey a -> wf_PublicKey b -> PublicKey_eq a b = true <-> a = b.
Proof.
  intros [_ Ha] [_ Hb]. destruct a as [a], b as [b]. unfold PublicKey_eq. cbn in *.
  assert (length a = length b) as Hl by (unfold len in *; lia). clear Ha Hb.
  assert (forall acc, foldl (fun acc (xy : Z * Z) => acc && (xy.1 =? xy.2)) acc (zip a b) = true
                      <-> acc = true /\ a = b) as H.
  { revert b Hl. induction a as [|x a IH]; intros [|y b] Hl acc; try done; simpl.
    - naive_solver.
    - rewrite IH by (simpl in Hl; lia). rewrite andb_true_iff, Z.eqb_eq. naive_solver. }
  rewrite H. naive_solver.
Qed.

Record DsaSignature := mkDsaSignature { rbar : bytes; sbar : bytes }.
Record DsaPublicKey := mkDsaPublicKey { dsa_bi : Z; dsa_bytes : bytes }.

Definition DsaSignature_from_bytes (data : bytes) : result DsaSignature CryptoError :=
  if len data <? 40 then Err InvalidSignature
  else Ok (mkDsaSignature (slice 0 20 data) (slice 20 40 data)).

Definition DsaSignature_to_bytes (s : DsaSignature) : bytes := rbar s ++ sbar s.

Lemma DsaSignature_from_app r s :
  len r = 20 -> len s = 20 -> DsaSignature_from_bytes (r ++ s) = Ok (mkDsaSignature r s).
Proof.
  intros Hr Hs. unfold DsaSignature_from_bytes.
  destruct (Z.ltb_spec (len (r ++ s)) 40); [llia|].
  do 2 f_equal.
  - apply (slice_app [] r s 0 20); llia.
  - rewrite <- (app_nil_r s) at 1. apply (slice_app r s [] 20 40); lia.
Qed.

Definition DsaPublicKey_from_bytes {bu : BigUintOps} (data : bytes)
  : outcome (result DsaPublicKey CryptoError) :=
  let bi := be_val data in
  let! b := rectify bi 128 in
  Ret (Ok (mkDsaPublicKey bi b)).

Section Keys.
Context {bu : BigUintOps} {sc : SigCrates}.

Inductive SigningPublicKey :=
| SpkDsaSha1 (k : DsaPublicKey)
| SpkEcdsaSha256P256 (p : p256_point) (vk : p256_vk)
| SpkEcdsaSha384P384 (p : p384_point) (vk : p384_vk)
| SpkEcdsaSha512P521
| SpkEd25519 (k : ed_pk).

Inductive SigningPrivateKey :=
| SskDsaSha1 | SskEcdsaSha256P256 | SskEcdsaSha384P384 | SskEcdsaSha512P521
| SskEd25519 (seed : ed_sk) (sk : ed_esk) (pk : ed_pk).

Inductive Signature :=
| SigDsaSha1 (s : DsaSignature)
| SigEcdsaSha256P256 (s : p256_sig)
| SigEcdsaSha384P384 (s : p384_sig)
| SigEcdsaSha512P521
| SigRsa2048Sha256 (s : bytes)
| SigRsa3072Sha384 (s : bytes)
| SigRsa4096Sha512 (s : bytes)
| SigEd25519 (s : ed_sig)
| SigUnsupported (s : bytes).

Definition spk_sig_type (k : SigningPublicKey) : SigType :=
  match k with
  | SpkDsaSha1 _ => DsaSha1
  | SpkEcdsaSha256P256 _ _ => EcdsaSha256P256
  | SpkEcdsaSha384P384 _ _ => EcdsaSha384P384
  | SpkEcdsaSha512P521 => EcdsaSha512P521
  | SpkEd25519 _ => Ed25519
  end.

(** [.map(..).map_err(|_| e)] on an optional crate result *)
Definition ok_or {A B} (o : option A) (f : A -> B) (e : CryptoError) : result B CryptoError :=
  match o with Some a => Ok (f a) | None => Err e end.

Definition spk_from_bytes (t : SigType) (data : bytes)
  : outcome (result SigningPublicKey CryptoError) :=
  match t with
  | DsaSha1 =>
      let? k := DsaPublicKey_from_bytes data in Ret (Ok (SpkDsaSha1 k))
  | EcdsaSha256P256 =>
      if len data =? pubkey_len t then
        let encoded := p256_from_untagged data in
        Ret (ok_or (p256_vk_from_point encoded) (SpkEcdsaSha256P256 encoded) InvalidKey)
      else Ret (Err InvalidKey)
  | EcdsaSha384P384 =>
      if len data =? pubkey_len t then
        let encoded := p384_from_untagged data in
        Ret (ok_or (p384_vk_from_point encoded) (SpkEcdsaSha384P384 encoded) InvalidKey)
      else Ret (Err InvalidKey)
  | EcdsaSha512P521 => Panic
  | Rsa2048Sha256 | Rsa3072Sha384 | Rsa4096Sha512 => Panic
  | Ed25519 => Ret (ok_or (ed_pk_from_bytes data) SpkEd25519 InvalidKey)
  end.

Definition spk_from_secret (k : SigningPrivateKey) : outcome (result SigningPublicKey CryptoError) :=
  match k with
  | SskEd25519 _ _ pk => Ret (Ok (SpkEd25519 pk))
  | _ => Panic
  end.

Definition spk_as_bytes (k : SigningPublicKey) : outcome bytes :=
  match k with
  | SpkDsaSha1 pk => Ret (dsa_bytes pk)
  | SpkEcdsaSha256P256 p _ => Ret (zdrop 1 (p256_point_bytes p))
  | SpkEcdsaSha384P384 p _ => Ret (zdrop 1 (p384_point_bytes p))
  | SpkEcdsaSha512P521 => Panic
  | SpkEd25519 pk => Ret (ed_pk_bytes pk)
  end.

Definition ssk_from_bytes (t : SigType) (data : bytes)
  : outcome (result SigningPrivateKey CryptoError) :=
  match t with
  | Ed25519 =>
      Ret (ok_or (ed_sk_from_bytes data)
             (fun seed => SskEd25519 seed (ed_expand seed) (ed_public (ed_expand seed))) InvalidKey)
  | _ => Panic
  end.

Definition ssk_as_bytes (k : SigningPrivateKey) : outcome bytes :=
  match k with SskEd25519 seed _ _ => Ret (ed_sk_bytes seed) | _ => Panic end.

(** [SigningPrivateKey::with_type]; [seed] is the randomly generated key *)
Definition ssk_with_type (seed : ed_sk) (t : SigType) : outcome SigningPrivateKey :=
  match t with
  | Ed25519 => Ret (SskEd25519 seed (ed_expand seed) (ed_public (ed_expand seed)))
  | _ => Panic
  end.

(** [SigningPrivateKey::new] *)
Definition ssk_new (seed : ed_sk) : outcome SigningPrivateKey := ssk_with_type seed Ed25519.

Definition ssk_sign (k : SigningPrivateKey) (msg : bytes) : outcome (result Signature CryptoError) :=
  match k with
  | SskEd25519 _ sk pk => Ret (Ok (SigEd25519 (ed_sign sk msg pk)))
  | _ => Panic
  end.

(** [impl Clone for SigningPrivateKey]: through the bytes *)
Definition ssk_clone (k : SigningPrivateKey) : outcome SigningPrivateKey :=
  let t := match k with
           | SskDsaSha1 => DsaSha1
           | SskEcdsaSha256P256 => EcdsaSha256P256
           | SskEcdsaSha384P384 => EcdsaSha384P384
           | SskEcdsaSha512P521 => EcdsaSha512P521
           | SskEd25519 _ _ _ => Ed25519
           end in
  let! b := ssk_as_bytes k in
  let! r := ssk_from_bytes t b in
  unwrap (rok r).

Definition Signature_from_bytes (t : SigType) (data : bytes)
  : outcome (result Signature CryptoError) :=
  match t with
  | DsaSha1 => Ret (rmap SigDsaSha1 (DsaSignature_from_bytes data))
  | EcdsaSha256P256 => Ret (ok_or (p256_sig_try_from data) SigEcdsaSha256P256 InvalidSignature)
  | EcdsaSha384P384 => Ret (ok_or (p384_sig_try_from data) SigEcdsaSha384P384 InvalidSignature)
  | Ed25519 => Ret (ok_or (ed_sig_from_bytes data) SigEd25519 InvalidSignature)
  | EcdsaSha512P521 | Rsa2048Sha256 | Rsa3072Sha384 | Rsa4096Sha512 =>
      (* [&data[..sig_len]] panics on a short slice *)
      if len data <? sig_len t then Panic
      else let sig := ztake (sig_len t) data in
           Ret (Ok (match t with
                    | Rsa2048Sha256 => SigRsa2048Sha256 sig
                    | Rsa3072Sha384 => SigRsa3072Sha384 sig
                    | Rsa4096Sha512 => SigRsa4096Sha512 sig
                    | _ => SigUnsupported sig
                    end))
  end.

Definition Signature_to_bytes (s : Signature) : outcome bytes :=
  match s with
  | SigDsaSha1 s => Ret (DsaSignature_to_bytes s)
  | SigEcdsaSha256P256 s => Ret (p256_sig_to_vec s)
  | SigEcdsaSha384P384 s => Ret (p384_sig_to_vec s)
  | SigEcdsaSha512P521 => Panic
  | SigRsa2048Sha256 s | SigRsa3072Sha384 s | SigRsa4096Sha512 s => Ret s
  | SigEd25519 s => Ret (ed_sig_bytes s)
  | SigUnsupported s => Ret s
  end.

(** [SigningPublicKey::verify]; [dsa_verify] is [DsaPublicKey::verify] *)
Definition spk_verify (dsa_verify : DsaPublicKey -> bytes -> DsaSignature -> bool)
    (k : SigningPublicKey) (msg : bytes) (s : Signature) : outcome (result unit CryptoError) :=
  let check (b : bool) := Ret (if b then Ok tt else Err InvalidSignature) in
  match k, s with
  | SpkDsaSha1 pk, SigDsaSha1 s => check (dsa_verify pk msg s)
  | SpkEcdsaSha256P256 _ vk, SigEcdsaSha256P256 s => check (p256_verify vk msg s)
  | SpkEcdsaSha384P384 _ vk, SigEcdsaSha384P384 s => check (p384_verify vk msg s)
  | SpkEcdsaSha512P521, SigEcdsaSha512P521 => Panic
  | SpkEd25519 pk, SigEd25519 s => check (ed_verify pk msg s)
  | _, _ => Ret (Err TypeMismatch)
  end.

(** ** Well-formed keys and signatures *)

Definition wf_spk (k : SigningPublicKey) : Prop :=
  match k with
  | SpkDsaSha1 pk => bytes_ok (dsa_bytes pk) /\ len (dsa_bytes pk) = 128 /\
                     dsa_bi pk = be_val (dsa_bytes pk)
  | SpkEcdsaSha256P256 p vk =>
      exists d, len d = 64 /\ p = p256_from_untagged d /\ p256_vk_from_point p = Some vk
  | SpkEcdsaSha384P384 p vk =>
      exists d, len d = 96 /\ p = p384_from_untagged d /\ p384_vk_from_point p = Some vk
  | SpkEcdsaSha512P521 => False
  | SpkEd25519 _ => True
  end.

Definition wf_sig (t : SigType) (s : Signature) : Prop :=
  match t, s with
  | DsaSha1, SigDsaSha1 d => len (rbar d) = 20 /\ len (sbar d) = 20
  | EcdsaSha256P256, SigEcdsaSha256P256 _ => True
  | EcdsaSha384P384, SigEcdsaSha384P384 _ => True
  | EcdsaSha512P521, SigUnsupported b => len b = 132
  | Rsa2048Sha256, SigRsa2048Sha256 b => len b = 256
  | Rsa3072Sha384, SigRsa3072Sha384 b => len b = 384
  | Rsa4096Sha512, SigRsa4096Sha512 b => len b = 512
  | Ed25519, SigEd25519 _ => True
  | _, _ => False
  end.

Definition wf_ssk (k : SigningPrivateKey) : Prop :=
  match k with
  | SskEd25519 seed sk pk => sk = ed_expand seed /\ pk = ed_public sk
  | _ => False
  end.

(** a well-formed public key has the length its type announces, and reading
    its bytes gives it back *)
Lemma spk_roundtrip k : wf_spk k ->
  exists b, spk_as_bytes k = Ret b /\ len b = pubkey_len (spk_sig_type k) /\
            spk_from_bytes (spk_sig_type k) b = Ret (Ok k).
Proof.
  destruct k as [[bi b]|p vk|p vk| |k]; cbn [wf_spk spk_as_bytes spk_sig_type dsa_bytes dsa_bi];
    intros Hwf.
  - destruct Hwf as (Hok & Hl & ->). exists b. repeat split; [done|].
    cbn. unfold DsaPublicKey_from_bytes. rewrite (rectify_be_val b 128) by done. done.
  - destruct Hwf as (d & Hd & -> & Hv). exists d. rewrite p256_point_untagged by done.
    repeat split; [done|]. cbn. rewrite Hd. cbn. by rewrite Hv.
  - destruct Hwf as (d & Hd & -> & Hv). exists d. rewrite p384_point_untagged by done.
    repeat split; [done|]. cbn. rewrite Hd. cbn. by rewrite Hv.
  - done.
  - exists (ed_pk_bytes k). repeat split; [apply ed_pk_len|]. cbn. by rewrite ed_pk_rt.
Qed.

(** whatever [from_bytes] accepts is a well-formed key of the type asked for,
    and serialises to the bytes it was read from *)
Lemma spk_from_bytes_sound t d k :
  bytes_ok d -> len d = pubkey_len t -> spk_from_bytes t d = Ret (Ok k) ->
  wf_spk k /\ spk_sig_type k = t /\ spk_as_bytes k = Ret d.
Proof.
  intros Hok Hl H. destruct t; cbn in H, Hl; try discriminate H.
  - unfold DsaPublicKey_from_bytes in H. rewrite (rectify_be_val d 128) in H by done.
    injection H as <-. done.
  - rewrite Hl in H. cbn in H. destruct (p256_vk_from_point _) eqn:E; [|done].
    injection H as <-. cbn. rewrite p256_point_untagged by done. split; [|done]. by exists d.
  - rewrite Hl in H. cbn in H. destruct (p384_vk_from_point _) eqn:E; [|done].
    injection H as <-. cbn. rewrite p384_point_untagged by done. split; [|done]. by exists d.
  - destruct (ed_pk_from_bytes d) eqn:E; [|done]. injection H as <-. cbn.
    by rewrite (ed_pk_inv _ _ E).
Qed.

Lemma sig_roundtrip t s : wf_sig t s ->
  exists b, Signature_to_bytes s = Ret b /\ len b = sig_len t /\
            Signature_from_bytes t b = Ret (Ok s).
Proof.
  destruct t, s; cbn [wf_sig]; intros Hwf; try done; cbn [Signature_to_bytes].
  - destruct s as [r s]. cbn in Hwf. destruct Hwf as [Hr Hs].
    unfold DsaSignature_to_bytes. cbn. exists (r ++ s).
    repeat split; [llia|]. by rewrite DsaSignature_from_app.
  - exists (p256_sig_to_vec s). repeat split; [apply p256_sig_len|]. cbn. by rewrite p256_sig_rt.
  - exists (p384_sig_to_vec s). repeat split; [apply p384_sig_len|]. cbn. by rewrite p384_sig_rt.
  - exists s. repeat split; [done|]. unfold Signature_from_bytes. cbn [sig_len]. rewrite Hwf. cbn.
    by rewrite ztake_all.
  - exists s. repeat split; [done|]. unfold Signature_from_bytes. cbn [sig_len]. rewrite Hwf. cbn.
    by rewrite ztake_all.
  - exists s. repeat split; [done|]. unfold Signature_from_bytes. cbn [sig_len]. rewrite Hwf. cbn.
    by rewrite ztake_all.
  - exists s. repeat split; [done|]. unfold Signature_from_bytes. cbn [sig_len]. rewrite Hwf. cbn.
    by rewrite ztake_all.
  - exists (ed_sig_bytes s). repeat split; [apply ed_sig_len|]. cbn. by rewrite ed_sig_rt.
Qed.

Lemma sig_from_bytes_sound t d s :
  len d = sig_len t -> Signature_from_bytes t d = Ret (Ok s) ->
  wf_sig t s /\ Signature_to_bytes s = Ret d.
Proof.
  intros Hl H. destruct t; cbn [sig_len] in Hl; cbn [Signature_from_bytes sig_len] in H.
  2: destruct (p256_sig_try_from d) eqn:E; cbn in H; [injection H as <-|done];
     by rewrite <- (p256_sig_inv _ _ E).
  2: destruct (p384_sig_try_from d) eqn:E; cbn in H; [injection H as <-|done];
     by rewrite <- (p384_sig_inv _ _ E).
  6: destruct (ed_sig_from_bytes d) eqn:E; cbn in H; [injection H as <-|done];
     by rewrite <- (ed_sig_inv _ _ E).
  2-5: rewrite Hl in H; cbn in H; injection H as <-; cbn; by rewrite ztake_all.
  destruct (split_at d 20) as (r & b & -> & Hr); [lia|lia|].
  rewrite DsaSignature_from_app in H by llia. injection H as <-.
  unfold DsaSignature_to_bytes. cbn. repeat split; llia.
Qed.

Lemma ssk_roundtrip k : wf_ssk k ->
  exists b, ssk_as_bytes k = Ret b /\ len b = 32 /\ ssk_from_bytes Ed25519 b = Ret (Ok k).
Proof.
  destruct k; try done. intros [-> ->]. exists (ed_sk_bytes seed). cbn.
  rewrite ed_sk_len, ed_sk_rt. done.
Qed.

(** [clone] gives the key back, or panics for the types without online keys *)
Lemma ssk_clone_id k : wf_ssk k -> ssk_clone k = Ret k.
Proof.
  intros Hwf. destruct (ssk_roundtrip k Hwf) as (b & Hb & _ & Hk).
  unfold ssk_clone. rewrite Hb. cbn. destruct k; try done. cbn in Hk. cbn. by injection Hk as ->.
Qed.

End Keys.

(** ** [src/crypto/frame.rs] *)

Section Frame.
Context {nom : Nom} {cf : CookieFactory} {bu : BigUintOps} {sc : SigCrates}.

Definition sig_type_of_code (c : Z) : option SigType :=
  if c =? DSA_SHA1 then Some DsaSha1
  else if c =? ECDSA_SHA256_P256 then Some EcdsaSha256P256
  else if c =? ECDSA_SHA384_P384 then Some EcdsaSha384P384
  else if c =? ECDSA_SHA512_P521 then Some EcdsaSha512P521
  else if c =? RSA_SHA256_2048 then Some Rsa2048Sha256
  else if c =? RSA_SHA384_3072 then Some Rsa3072Sha384
  else if c =? RSA_SHA512_4096 then Some Rsa4096Sha512
  else if c =? ED25519 then Some Ed25519
  else None.

Definition sig_type : parser bytes SigType :=
  map_opt be_u16 (fun c => Ret (sig_type_of_code c)).
Definition gen_sig_type (t : SigType) : gen := gen_be_u16 (SigType_code t).

Definition enc_type : parser bytes EncType :=
  map_opt be_u16 (fun c => Ret (if c =? ELGAMAL2048 then Some ElGamal2048 else None)).
Definition gen_enc_type (e : EncType) : gen := gen_be_u16 (EncType_code e).

Definition SigType_from_bytes (buf : bytes) : outcome (option SigType) :=
  match sig_type buf with
  | Ret (Ok (_, s)) => Ret (Some s)
  | Ret (Err (Incomplete _)) => Ret None
  | Ret (Err (Error _ _)) | Ret (Err (Failure _ _)) => Panic
  | Panic => Panic
  end.

Definition EncType_from_bytes (buf : bytes) : outcome (option EncType) :=
  match enc_type buf with
  | Ret (Ok (_, s)) => Ret (Some s)
  | Ret (Err (Incomplete _)) => Ret None
  | Ret (Err (Error _ _)) | Ret (Err (Failure _ _)) => Panic
  | Panic => Panic
  end.

Definition session_key : parser bytes SessionKey := map_pure (nom_take 32) mkSessionKey.
Definition gen_session_key (k : SessionKey) : gen := gen_slice (key_bytes k).

Definition public_key : parser bytes PublicKey := map_pure (nom_take 256) mkPublicKey.
Definition gen_public_key (k : PublicKey) : gen := gen_slice (pk_bytes k).

Definition private_key : parser bytes PrivateKey := map_pure (nom_take 256) mkPrivateKey.
Definition gen_private_key (k : PrivateKey) : gen := gen_slice (sk_bytes k).

(** [gen_slice!] of an expression that may panic *)
Definition gen_slice_of (o : outcome bytes) : gen := fun s =>
  match o with Ret b => gen_slice b s | Panic => Panic end.

Definition signing_key (t : SigType) : parser bytes SigningPublicKey :=
  map_res (nom_take (pubkey_len t)) (spk_from_bytes t).
Definition gen_signing_key (k : SigningPublicKey) : gen := gen_slice_of (spk_as_bytes k).

(** the source takes [pubkey_len], not [privkey_len], bytes *)
Definition signing_private_key (t : SigType) : parser bytes SigningPrivateKey :=
  map_res (nom_take (pubkey_len t)) (ssk_from_bytes t).
Definition gen_signing_private_key (k : SigningPrivateKey) : gen := gen_slice_of (ssk_as_bytes k).

Definition signature (t : SigType) : parser bytes Signature :=
  map_res (nom_take (sig_len t)) (Signature_from_bytes t).
Definition gen_signature (s : Signature) : gen := gen_slice_of (Signature_to_bytes s).

(** *** Round trips *)

Lemma sig_type_of_code_code t : sig_type_of_code (SigType_code t) = Some t.
Proof. by destruct t. Qed.

Lemma sig_type_of_code_inv c t : sig_type_of_code c = Some t -> SigType_code t = c.
Proof.
  unfold sig_type_of_code.
  repeat match goal with |- context [?a =? ?b] => destruct (Z.eqb_spec a b) end;
    intros [= <-]; by subst.
Qed.

Lemma parses_sig_type t : parses sig_type (be_bytes 2 (SigType_code t)) t.
Proof.
  eapply parses_map_opt; [apply parses_be_u16; by destruct t|].
  by rewrite sig_type_of_code_code.
Qed.

Lemma parses_enc_type e : parses enc_type (be_bytes 2 (EncType_code e)) e.
Proof. eapply parses_map_opt; [apply parses_be_u16; by destruct e|]. by destruct e. Qed.

Lemma sound_sig_type : sound sig_type (fun _ => True).
Proof. eapply sound_map_opt; [apply sound_be_u16|done]. Qed.
Lemma sound_enc_type : sound enc_type (fun _ => True).
Proof. eapply sound_map_opt; [apply sound_be_u16|done]. Qed.

Lemma parses_session_key k : wf_SessionKey k -> parses session_key (key_bytes k) k.
Proof. intros [_ Hl]. eapply parses_map_pure; [by apply parses_take|by destruct k]. Qed.
Lemma parses_public_key k : wf_PublicKey k -> parses public_key (pk_bytes k) k.
Proof. intros [_ Hl]. eapply parses_map_pure; [by apply parses_take|by destruct k]. Qed.
Lemma parses_private_key k : wf_PrivateKey k -> parses private_key (sk_bytes k) k.
Proof. intros [_ Hl]. eapply parses_map_pure; [by apply parses_take|by destruct k]. Qed.

Lemma sound_session_key : sound session_key wf_SessionKey.
Proof. eapply sound_map_pure; [by apply sound_take|]. done. Qed.
Lemma sound_public_key : sound public_key wf_PublicKey.
Proof. eapply sound_map_pure; [by apply sound_take|]. done. Qed.
Lemma sound_private_key : sound private_key wf_PrivateKey.
Proof. eapply sound_map_pure; [by apply sound_take|]. done. Qed.

Lemma pubkey_len_pos t : 0 <= pubkey_len t. Proof. by destruct t. Qed.
Lemma sig_len_pos t : 0 <= sig_len t. Proof. by destruct t. Qed.

Lemma parses_signing_key k b :
  wf_spk k -> spk_as_bytes k = Ret b -> parses (signing_key (spk_sig_type k)) b k.
Proof.
  intros Hwf Hb. destruct (spk_roundtrip k Hwf) as (b' & Hb' & Hl & Hf).
  rewrite Hb in Hb'. injection Hb' as <-.
  eapply parses_map_res; [by apply parses_take|done].
Qed.

Lemma sound_signing_key t : sound (signing_key t) (fun k => wf_spk k /\ spk_sig_type k = t).
Proof.
  eapply sound_map_res; [apply sound_take, pubkey_len_pos|].
  intros d k [Hok Hl] H. by destruct (spk_from_bytes_sound t d k Hok Hl H) as (? & ? & _).
Qed.

Lemma parses_signature t s b :
  wf_sig t s -> Signature_to_bytes s = Ret b -> parses (signature t) b s.
Proof.
  intros Hwf Hb. destruct (sig_roundtrip t s Hwf) as (b' & Hb' & Hl & Hf).
  rewrite Hb in Hb'. injection Hb' as <-.
  eapply parses_map_res; [by apply parses_take|done].
Qed.

Lemma sound_signature t : sound (signature t) (wf_sig t).
Proof.
  eapply sound_map_res; [apply sound_take, sig_len_pos|].
  intros d s [Hok Hl] H. by destruct (sig_from_bytes_sound t d s Hl H).
Qed.

Lemma parses_signing_private_key k b :
  wf_ssk k -> ssk_as_bytes k = Ret b -> parses (signing_private_key Ed25519) b k.
Proof.
  intros Hwf Hb. destruct (ssk_roundtrip k Hwf) as (b' & Hb' & Hl & Hf).
  rewrite Hb in Hb'. injection Hb' as <-.
  eapply parses_map_res; [by apply parses_take|done].
Qed.

Lemma writes_slice_of o b : o = Ret b -> writes (gen_slice_of o) b.
Proof. intros ->. apply writes_slice. Qed.

End Frame.

#[export] Hint Resolve parses_sig_type parses_enc_type parses_session_key parses_public_key
  parses_private_key sound_sig_type sound_enc_type sound_session_key sound_public_key
  sound_private_key sound_signing_key sound_signature : parse.
#[export] Hint Resolve writes_slice_of : gen.

(** ** Reference implementations of the crates *)

(** the number of bytes of [v] *)
Definition r_size (v : Z) : nat := S (Z.to_nat (Z.log2 v / 8)).

Lemma r_size_bound v : 0 < v -> 256 ^ (Z.of_nat (r_size v) - 1) <= v < 256 ^ Z.of_nat (r_size v).
Proof.
  intros Hv. pose proof (Z.log2_spec v Hv) as [H1 H2]. pose proof (Z.log2_nonneg v).
  unfold r_size. rewrite Nat2Z.inj_succ, Z2Nat.id by (apply Z.div_pos; lia).
  change 256 with (2 ^ 8). rewrite <- !Z.pow_mul_r by (try apply Z.le_le_succ_r; try apply Z.div_pos; Z.div_mod_to_equations; lia).
  split.
  - etrans; [apply Z.pow_le_mono_r; [lia|]|exact H1]. Z.div_mod_to_equations; lia.
  - eapply Z.lt_le_trans; [exact H2|]. apply Z.pow_le_mono_r; [lia|]. Z.div_mod_to_equations; lia.
Qed.

Definition biguint_ref : BigUintOps.
Proof.
  refine {|
    to_bytes_be := fun v => if v =? 0 then [0] else be_bytes (r_size v) v;
    modpow := fun b e m => b ^ e mod m
  |}.
  - intros v Hv. destruct (Z.eqb_spec v 0) as [->|]; [done|].
    apply be_val_be_bytes_id. pose proof (r_size_bound v). lia.
  - intros v Hv. destruct (Z.eqb_spec v 0); [repeat constructor; done | apply be_bytes_ok].
  - done.
  - intros v b l Hv. destruct (Z.eqb_spec v 0); [lia|]. unfold r_size at 1.
    rewrite be_bytes_cons. intros [= <- _].
    pose proof (r_size_bound v Hv) as [H1 H2]. unfold r_size in H1, H2.
    rewrite Nat2Z.inj_succ in H1, H2. set (k := Z.of_nat (Z.to_nat (Z.log2 v / 8))) in *.
    replace (Z.succ k - 1) with k in H1 by lia. rewrite Z.pow_succ_r in H2 by lia.
    assert (0 < 256 ^ k) by (apply Z.pow_pos_nonneg; lia).
    assert (1 <= v / 256 ^ k) by (apply Z.div_le_lower_bound; lia).
    assert (v / 256 ^ k < 256) by (apply Z.div_lt_upper_bound; lia).
    rewrite Z.mod_small by lia. lia.
  - intros v Hv. destruct (Z.eqb_spec v 0); [done|]. unfold r_size. by rewrite be_bytes_cons.
  - done.
Defined.

Definition fixed (n : Z) : Type := dsig (fun d : bytes => len d = n).

Definition to_fixed (n : Z) (d : bytes) : option (fixed n) :=
  match decide (len d = n) with left H => Some (dexist d H) | right _ => None end.

Lemma to_fixed_rt n (s : fixed n) : to_fixed n (`s) = Some s.
Proof.
  unfold to_fixed. destruct (decide _) as [H|H]; [f_equal; by apply dsig_eq|].
  by destruct (H (proj2_dsig s)).
Qed.

Lemma to_fixed_inv n d (s : fixed n) : to_fixed n d = Some s -> `s = d.
Proof. unfold to_fixed. destruct (decide _); [|done]. by intros [= <-]. Qed.

Lemma len_pad32 (v : Z) : len (be_bytes 32 v) = 32.
Proof. apply len_be_bytes. Qed.

(** a toy signature scheme: the signature spells out the key and the message *)
Definition toy_sig (pk : fixed 32) (m : bytes) : fixed 64 :=
  match decide (len (`pk ++ be_bytes 32 (be_val m)) = 64) with
  | left H => dexist (`pk ++ be_bytes 32 (be_val m)) H
  | right H => False_rect _ (H ltac:(rewrite len_app, len_pad32, (proj2_dsig pk); done))
  end.

Definition sigcrates_ref : SigCrates.
Proof.
  refine {|
    p256_point := bytes; p256_vk := bytes; p256_sig := fixed 64;
    p256_from_untagged := fun d => 4 :: d; p256_point_bytes := fun p => p;
    p256_vk_from_point := fun p => Some p;
    p256_sig_try_from := to_fixed 64; p256_sig_to_vec := fun s => `s;
    p256_verify := fun _ _ _ => false;
    p384_point := bytes; p384_vk := bytes; p384_sig := fixed 96;
    p384_from_untagged := fun d => 4 :: d; p384_point_bytes := fun p => p;
    p384_vk_from_point := fun p => Some p;
    p384_sig_try_from := to_fixed 96; p384_sig_to_vec := fun s => `s;
    p384_verify := fun _ _ _ => false;
    ed_pk := fixed 32; ed_sig := fixed 64; ed_sk := fixed 32; ed_esk := fixed 32;
    ed_pk_from_bytes := to_fixed 32; ed_pk_bytes := fun k => `k;
    ed_sig_from_bytes := to_fixed 64; ed_sig_bytes := fun s => `s;
    ed_sk_from_bytes := to_fixed 32; ed_sk_bytes := fun k => `k;
    ed_expand := fun k => k; ed_public := fun k => k;
    ed_sign := fun sk m _ => toy_sig sk m;
    ed_verify := fun pk m s => bytes_eqb (proj1_sig s) (proj1_sig (toy_sig pk m))
  |}; try done; try (intros; apply to_fixed_rt); try (intros ? ?; apply to_fixed_inv);
    try (intros s; exact (proj2_dsig s)).
  intros. apply bytes_eqb_refl.
Defined.

(** toy digests: the number spelled by the message, cut to the width *)
Definition sha1_ref : Sha1.
Proof.
  refine {| sha1 := fun m => be_bytes 20 (be_val m) |}.
  - intros. apply len_be_bytes.
  - intros. apply be_bytes_ok.
Defined.

Definition sha2_ref : Sha2.
Proof.
  refine {| sha256 := fun m => be_bytes 32 (be_val m) |}.
  - intros. apply len_be_bytes.
  - intros. apply be_bytes_ok.
Defined.

(** ** Properties *)

Module CryptoProps.

(** [rectify] returns exactly the fixed-width big-endian encoding of a
    number that fits, and panics for one that does not. *)
Theorem rectify_fixed_width {bu : BigUintOps} (v n : Z) :
  0 <= v -> 1 <= n ->
  rectify v n = if v <? 256 ^ n then Ret (be_bytes (Z.to_nat n) v) else Panic.
Proof.
  intros Hv Hn. destruct (Z.ltb_spec v (256 ^ n)).
  - by apply rectify_small.
  - apply rectify_big; lia.
Qed.

Lemma rectify_fixed_width_witness :
  @rectify biguint_ref 0xffabcdef 5 = Ret [0; 0xff; 0xab; 0xcd; 0xef] /\
  @rectify biguint_ref 0xffabcdef 3 = Panic.
Proof.
  split; [etransitivity; [apply (@rectify_fixed_width biguint_ref 0xffabcdef 5); lia | reflexivity]
         |etransitivity; [apply (@rectify_fixed_width biguint_ref 0xffabcdef 3); lia | reflexivity]].
Defined.

(** A well-formed signing key is written as [pubkey_len] bytes, and
    [signing_key] reads exactly those bytes back as the same key, whatever
    follows. *)
Theorem signing_key_roundtrip {nom : Nom} {cf : CookieFactory} {bu : BigUintOps} {sc : SigCrates}
    (k : SigningPublicKey) :
  wf_spk k ->
  exists b, writes (gen_signing_key k) b /\ len b = pubkey_len (spk_sig_type k) /\
            parses (signing_key (spk_sig_type k)) b k.
Proof.
  intros Hwf. destruct (spk_roundtrip k Hwf) as (b & Hb & Hl & _). exists b.
  split; [by apply writes_slice_of|]. split; [done|]. by apply parses_signing_key.
Qed.

Definition ref_spk : @SigningPublicKey sigcrates_ref :=
  @SpkEcdsaSha256P256 sigcrates_ref (4 :: replicate 64 9) (4 :: replicate 64 9).

Lemma signing_key_roundtrip_witness :
  exists b, writes (@gen_signing_key cf_ref sigcrates_ref ref_spk) b /\ len b = 64 /\
            parses (@signing_key nom_ref biguint_ref sigcrates_ref EcdsaSha256P256) b ref_spk.
Proof.
  apply (@signing_key_roundtrip nom_ref cf_ref biguint_ref sigcrates_ref ref_spk).
  exists (replicate 64 9). done.
Defined.

(** A well-formed signature of type [t] is written as [sig_len t] bytes and
    read back unchanged; conversely whatever [signature t] accepts is a
    well-formed signature of that type. *)
Theorem signature_roundtrip {nom : Nom} {cf : CookieFactory} {sc : SigCrates} (t : SigType) :
  (forall s, wf_sig t s ->
     exists b, writes (gen_signature s) b /\ len b = sig_len t /\ parses (signature t) b s) /\
  (forall i r s, bytes_ok i -> signature t i = POk r s -> wf_sig t s).
Proof.
  split.
  - intros s Hwf. destruct (sig_roundtrip t s Hwf) as (b & Hb & Hl & _). exists b.
    split; [by apply writes_slice_of|]. split; [done|]. by apply parses_signature.
  - intros i r s Hi H. by destruct (sound_signature t i r s Hi H).
Qed.

(** Reading a signing public key of the announced length panics for exactly
    the types without an implementation of online verification (P-521 and
    RSA); every other failure is an [Err]. *)
Theorem signing_key_panics_iff {bu : BigUintOps} {sc : SigCrates} (t : SigType) (d : bytes) :
  bytes_ok d -> len d = pubkey_len t ->
  spk_from_bytes t d = Panic <->
  t ∈ [EcdsaSha512P521; Rsa2048Sha256; Rsa3072Sha384; Rsa4096Sha512].
Proof.
  intros Hok Hl. rewrite !elem_of_cons, elem_of_nil.
  destruct t; cbn [spk_from_bytes]; split; try (intros; naive_solver);
    try (rewrite Hl; cbn [Z.eqb pubkey_len]; naive_solver).
  unfold DsaPublicKey_from_bytes. by rewrite (rectify_be_val d 128).
Qed.

Lemma signing_key_panics_iff_witness :
  @spk_from_bytes biguint_ref sigcrates_ref EcdsaSha512P521 (zeros 132) = Panic <->
  EcdsaSha512P521 ∈ [EcdsaSha512P521; Rsa2048Sha256; Rsa3072Sha384; Rsa4096Sha512].
Proof.
  apply (@signing_key_panics_iff biguint_ref sigcrates_ref EcdsaSha512P521 (zeros 132));
    [apply zeros_ok | reflexivity].
Defined.

(** A freshly generated signing key signs messages that verify under the
    public key derived from it, and survives [clone] unchanged. *)
Theorem sign_then_verify {sc : SigCrates} {bu : BigUintOps} dsa_verify (seed : ed_sk) (msg : bytes) :
  exists k pk s,
    ssk_new seed = Ret k /\ spk_from_secret k = Ret (Ok pk) /\ ssk_sign k msg = Ret (Ok s) /\
    spk_verify dsa_verify pk msg s = Ret (Ok tt) /\ ssk_clone k = Ret k.
Proof.
  eexists _, _, _. repeat (split; [reflexivity|]). split.
  - cbn. by rewrite ed_sign_verify.
  - by apply ssk_clone_id.
Qed.

End CryptoProps.
