(* ===== verification/ElGamal.v ===== *)
(** * ElGamal encryption and the DH key exchange: [src/crypto/elgamal.rs], [src/crypto/dh.rs]

    Both work in the 2048-bit MODP group of [src/constants.rs].  The model
    takes the modulus and the generator as a class, [DhGroup]; [i2p_group]
    holds the constants of the source.  Draws from [OsRng] are explicit: a
    rejection loop consumes a list of draws and returns [None] when the list
    ends before a draw is accepted. *)

From Stdlib Require Import Zpow_facts.
From S2P Require Import Prelude Nom Cookie Util Crypto.

Class DhGroup := { ELGAMAL_P : Z; ELGAMAL_G : Z }.

Definition i2p_group : DhGroup := {|
  ELGAMAL_P := 0xffffffffffffffffc90fdaa22168c234c4c6628b80dc1cd129024e088a67cc74020bbea63b139b22514a08798e3404ddef9519b3cd3a431b302b0a6df25f14374fe1356d6d51c245e485b576625e7ec6f44c42e9a637ed6b0bff5cb6f406b7edee386bfb5a899fa5ae9f24117c4b1fe649286651ece45b3dc2007cb8a163bf0598da48361c55d39a69163fa8fd24cf5f83655d23dca3ad961c62f356208552bb9ed529077096966d670c354e4abc9804f1746c08ca18217c32905e462e36ce3be39e772c180e86039b2783a2ec07a28fb5c55df06f4c52c9de2bcbf6955817183995497cea956ae515d2261898fa051015728e5a8aacaa68ffffffffffffffff;
  ELGAMAL_G := 2
|}.

(** What the arithmetic needs of the group: a modulus of at most 256 bytes
    for which Fermat's little theorem holds at the generator. *)
Record group_ok (grp : DhGroup) : Prop := {
  grp_p_lo : 2 < ELGAMAL_P;
  grp_p_hi : ELGAMAL_P < 256 ^ 256;
  grp_g : 0 <= ELGAMAL_G;
  grp_fermat : ELGAMAL_G ^ (ELGAMAL_P - 1) mod ELGAMAL_P = 1;
}.

(** a value drawn by [loop { fill; if accepted { break } }], and the draws left *)
Fixpoint draw {A} (accept : A -> bool) (draws : list A) : option (A * list A) :=
  match draws with
  | [] => None
  | d :: draws => if accept d then Some (d, draws) else draw accept draws
  end.

Lemma draw_accepted {A} accept (draws : list A) d r : draw accept draws = Some (d, r) -> accept d = true.
Proof.
  induction draws as [|x draws IH]; simpl; [done|].
  destruct (accept x) eqn:E; [by intros [= <- <-]|done].
Qed.

Lemma draw_exists {A} accept (draws : list A) :
  Exists (fun d => accept d = true) draws ->
  exists d r, draw accept draws = Some (d, r) /\ accept d = true.
Proof.
  induction 1 as [d l Hd|d l _ (x & r & IH & Hx)]; simpl.
  - rewrite Hd. by eexists _, _.
  - destruct (accept d) eqn:Hd; [by eexists _, _|eauto].
Qed.

Section ElGamal.
Context {grp : DhGroup} {bu : BigUintOps} {sha : Sha2}.

Definition ELGAMAL_PM1 : Z := ELGAMAL_P - 1.
Definition ELGAMAL_PM2 : Z := ELGAMAL_PM1 - 1.

(** ** [src/crypto/elgamal.rs] *)

(** [1 <= k <= p - 2] *)
Definition k_ok (buf : bytes) : bool :=
  let k := be_val buf in negb (k =? 0) && (k <=? ELGAMAL_PM2).

Definition gen_gamma_k (draws : list bytes) : option (Z * Z * list bytes) :=
  match draw k_ok draws with
  | None => None
  | Some (buf, draws) =>
      let k := be_val buf in
      Some (k, modpow ELGAMAL_G k ELGAMAL_P, draws)
  end.

(** [x.copy_from_slice(b)] into an array of 256 bytes *)
Definition copy_256 (b : bytes) : outcome bytes := if len b =? 256 then Ret b else Panic.

(** [KeyPairGenerator::generate] *)
Definition generate (draws : list bytes) : outcome (option (PrivateKey * PublicKey)) :=
  match gen_gamma_k draws with
  | None => Ret None
  | Some (a, alpha_a, _) =>
      let! buf := rectify a 256 in
      let! priv_key := copy_256 buf in
      let! buf := rectify alpha_a 256 in
      let! pub_key := copy_256 buf in
      Ret (Some (mkPrivateKey priv_key, mkPublicKey pub_key))
  end.

Record Encryptor := mkEncryptor { enc_key : Z }.
Definition Encryptor_from (pub_key : PublicKey) : Encryptor := mkEncryptor (be_val (pk_bytes pub_key)).

Definition encrypt_basic (e : Encryptor) (draws : list bytes) (msg : bytes)
  : option (result (Z * Z) CryptoError) :=
  let m := be_val msg in
  if m >? ELGAMAL_PM1 then Some (Err InvalidMessage)
  else
    match gen_gamma_k draws with
    | None => None
    | Some (k, gamma, _) =>
        let s := modpow (enc_key e) k ELGAMAL_P in
        let delta := (m * s) mod ELGAMAL_P in
        Some (Ok (gamma, delta))
    end.

(** [draws_b] are the draws of the nonzero byte, [draws_k] those of the
    exponent *)
Definition encrypt (e : Encryptor) (draws_b : list Z) (draws_k : list bytes) (msg : bytes)
    (include_zeroes : bool) : outcome (option (result bytes CryptoError)) :=
  if len msg >? 222 then Ret (Some (Err InvalidMessage))
  else
    let hash := sha256 msg in
    match draw (fun v => negb (v =? 0)) draws_b with
    | None => Ret None
    | Some (val, _) =>
        let data := [val] ++ hash ++ msg in
        match encrypt_basic e draws_k data with
        | None => Ret None
        | Some (Err err) => Ret (Some (Err err))
        | Some (Ok (gamma, delta)) =>
            let! gamma := rectify gamma 256 in
            let! gamma := copy_256 gamma in
            let! delta := rectify delta 256 in
            let! delta := copy_256 delta in
            Ret (Some (Ok (if include_zeroes then [0] ++ gamma ++ [0] ++ delta
                           else gamma ++ delta)))
        end
    end.

Record Decryptor := mkDecryptor { dec_key : Z }.
Definition Decryptor_from (priv_key : PrivateKey) : Decryptor :=
  mkDecryptor (be_val (sk_bytes priv_key)).

(** the subtraction of [BigUint]s panics below zero *)
Definition decrypt_basic (d : Decryptor) (gamma delta : Z) : outcome bytes :=
  if ELGAMAL_PM1 <? dec_key d then Panic
  else
    let gamma_neg_a := modpow gamma (ELGAMAL_PM1 - dec_key d) ELGAMAL_P in
    Ret (to_bytes_be ((gamma_neg_a * delta) mod ELGAMAL_P)).

Definition decrypt (d : Decryptor) (ct : bytes) (has_zeroes : bool)
  : outcome (result bytes CryptoError) :=
  let? (gamma, delta) :=
    Ret (if has_zeroes then
           if negb (len ct =? 514) then Err InvalidCiphertext
           else Ok (be_val (ztake 257 ct), be_val (zdrop 257 ct))
         else
           if negb (len ct =? 512) then Err InvalidCiphertext
           else Ok (be_val (ztake 256 ct), be_val (zdrop 256 ct))) in
  let! data := decrypt_basic d gamma delta in
  if len data <? 33 then Ret (Err InvalidCiphertext)
  else
    let msg := zdrop 33 data in
    let hash := sha256 msg in
    if bytes_eqb hash (slice 1 33 data) then Ret (Ok msg) else Ret (Err InvalidCiphertext).

(** ** [src/crypto/dh.rs] *)

Record DHSessionKeyBuilder := mkDHSessionKeyBuilder { dh_priv : Z; dh_pub : Z }.

(** [buf]: 256 random bytes *)
Definition DHSessionKeyBuilder_new (buf : bytes) : DHSessionKeyBuilder :=
  let dh_priv := be_val buf in
  mkDHSessionKeyBuilder dh_priv (modpow ELGAMAL_G dh_priv ELGAMAL_P).

Definition get_pub (b : DHSessionKeyBuilder) : outcome bytes := rectify (dh_pub b) 256.

Definition build_session_key (b : DHSessionKeyBuilder) (peer_pub : bytes) : outcome SessionKey :=
  let dh_key := modpow (be_val peer_pub) (dh_priv b) ELGAMAL_P in
  let buf := to_bytes_be dh_key in
  let! first := unwrap (head buf) in
  let buf := if negb (Z.land first 0x80 =? 0) then 0 :: buf else buf in
  let length := len buf in
  let buf := if length <? 32 then buf ++ zeros (32 - length) else buf in
  Ret (mkSessionKey (slice 0 32 buf)).

(** ** Lemmas *)

Hypothesis Hgrp : group_ok grp.

Lemma modpow_range b e : 0 <= b -> 0 <= e -> 0 <= modpow b e ELGAMAL_P < ELGAMAL_P.
Proof.
  intros. pose proof (grp_p_lo _ Hgrp). rewrite modpow_eq by lia. apply Z.mod_pos_bound. lia.
Qed.

Lemma rectify_256 v : 0 <= v < ELGAMAL_P -> rectify v 256 = Ret (be_bytes 256 v).
Proof.
  intros. pose proof (grp_p_hi _ Hgrp).
  rewrite rectify_small; [done|split; [lia|etransitivity; [|eassumption]; lia]|lia].
Qed.

Lemma be_val_256 v : 0 <= v < ELGAMAL_P -> be_val (be_bytes 256 v) = v.
Proof.
  intros. pose proof (grp_p_hi _ Hgrp). apply be_val_be_bytes_id.
  change (Z.of_nat 256) with 256. lia.
Qed.

Lemma copy_256_be v : copy_256 (be_bytes 256 v) = Ret (be_bytes 256 v).
Proof. unfold copy_256. by rewrite len_be_bytes. Qed.

(** [(g^k)^a = (g^a)^k] modulo [p] *)
Lemma pow_swap g a k p : 0 <= a -> 0 <= k -> 0 < p -> (g ^ a mod p) ^ k mod p = (g ^ k mod p) ^ a mod p.
Proof.
  intros. rewrite <- !Zpower_mod by lia. rewrite <- !Z.pow_mul_r by lia. do 2 f_equal. lia.
Qed.

(** [(g^k)^(p-1-a) * (m * (g^a)^k) = m] modulo [p] *)
Lemma elgamal_cancel a k m :
  0 <= a <= ELGAMAL_P - 1 -> 0 <= k -> 0 <= m < ELGAMAL_P ->
  ((ELGAMAL_G ^ k mod ELGAMAL_P) ^ (ELGAMAL_P - 1 - a) mod ELGAMAL_P *
   ((m * ((ELGAMAL_G ^ a mod ELGAMAL_P) ^ k mod ELGAMAL_P)) mod ELGAMAL_P)) mod ELGAMAL_P = m.
Proof.
  intros Ha Hk Hm. destruct Hgrp as [Hlo _ _ Hf]. set (p := ELGAMAL_P) in *. set (g := ELGAMAL_G) in *.
  rewrite <- !Zpower_mod by lia. rewrite <- !Z.pow_mul_r by lia.
  rewrite Z.mul_mod_idemp_r, Z.mul_mod_idemp_l by lia.
  rewrite (Z.mul_comm m), Z.mul_assoc.
  rewrite <- Z.mul_mod_idemp_l, Z.mul_mod_idemp_r, Z.mul_mod_idemp_l by lia.
  rewrite <- Z.pow_add_r by nia.
  replace (k * (p - 1 - a) + a * k) with ((p - 1) * k) by lia.
  rewrite Z.pow_mul_r by lia. rewrite <- Z.mul_mod_idemp_l by lia.
  rewrite (Zpower_mod (g ^ (p - 1))) by lia. rewrite Hf, Z.pow_1_l by lia.
  rewrite (Z.mod_small 1), Z.mul_1_l by lia. apply Z.mod_small. lia.
Qed.

Lemma k_ok_range buf : k_ok buf = true -> 1 <= be_val buf <= ELGAMAL_P - 2 \/ be_val buf < 0.
Proof.
  unfold k_ok, ELGAMAL_PM2, ELGAMAL_PM1. rewrite andb_true_iff, negb_true_iff, Z.eqb_neq, Z.leb_le. lia.
Qed.

(** a number whose first byte is not zero prints as its bytes *)
Lemma to_bytes_be_exact b l : bytes_ok (b :: l) -> b <> 0 -> to_bytes_be (be_val (b :: l)) = b :: l.
Proof.
  intros Hok Hb. pose proof (be_val_lead b l Hok Hb) as Hlo.
  pose proof (be_val_bound _ Hok) as Hhi. set (v := be_val (b :: l)) in *.
  rewrite len_cons in Hhi. pose proof (len_nonneg l).
  assert (0 < 256 ^ len l) by (apply Z.pow_pos_nonneg; lia).
  pose proof (len_to_bytes_be v (1 + len l) ltac:(lia) ltac:(lia)) as H1.
  pose proof (len_to_bytes_be_big v (len l) Hlo ltac:(lia)) as H2.
  rewrite <- (be_bytes_val (to_bytes_be v) (S (length l))).
  - rewrite to_bytes_be_val by lia. apply be_bytes_val; [done|]. rewrite len_cons. unfold len. lia.
  - apply to_bytes_be_ok. lia.
  - unfold len in *. lia.
Qed.

Lemma gen_gamma_k_ok draws :
  Forall bytes_ok draws -> Exists (fun d => k_ok d = true) draws ->
  exists k r, gen_gamma_k draws = Some (k, ELGAMAL_G ^ k mod ELGAMAL_P, r) /\ 1 <= k <= ELGAMAL_P - 2.
Proof.
  intros Hok Hex. destruct (draw_exists _ _ Hex) as (d & r & Hd & Ha).
  exists (be_val d), r. unfold gen_gamma_k. rewrite Hd.
  assert (bytes_ok d) as Hdok.
  { clear Hex Ha. induction Hok as [|x l Hx _ IH]; [done|]. simpl in Hd.
    destruct (k_ok x); [by injection Hd as <- <-|by apply IH]. }
  pose proof (be_val_bound d Hdok). pose proof (k_ok_range d Ha).
  pose proof (grp_p_lo _ Hgrp). pose proof (grp_g _ Hgrp).
  split; [|lia]. by rewrite modpow_eq by lia.
Qed.

Lemma draw_Forall {A} accept (P : A -> Prop) draws d r :
  Forall P draws -> draw accept draws = Some (d, r) -> P d.
Proof.
  induction 1 as [|x l Hx _ IH]; simpl; [done|].
  destruct (accept x); [by intros [= <- <-]|done].
Qed.

Lemma generate_ok draws :
  Forall bytes_ok draws -> Exists (fun d => k_ok d = true) draws ->
  exists a, 1 <= a <= ELGAMAL_P - 2 /\
    generate draws = Ret (Some (mkPrivateKey (be_bytes 256 a),
                                mkPublicKey (be_bytes 256 (ELGAMAL_G ^ a mod ELGAMAL_P)))).
Proof.
  intros Hok Hex. destruct (gen_gamma_k_ok _ Hok Hex) as (a & r & Hg & Ha).
  exists a. split; [done|]. unfold generate. rewrite Hg. pose proof (grp_p_lo _ Hgrp).
  rewrite rectify_256 by lia. cbn [obind]. rewrite copy_256_be. cbn [obind].
  rewrite rectify_256 by (apply Z.mod_pos_bound; lia). cbn [obind]. by rewrite copy_256_be.
Qed.

(** the plaintext block fits below the modulus *)
Lemma plaintext_range v h msg :
  byte_ok v -> len h = 32 -> bytes_ok h -> bytes_ok msg -> 256 ^ (33 + len msg) <= ELGAMAL_P ->
  bytes_ok (v :: h ++ msg) /\ 0 <= be_val (v :: h ++ msg) < ELGAMAL_P.
Proof.
  intros Hv Hl Hh Hm Hp.
  assert (bytes_ok (v :: h ++ msg)) as Hok by (constructor; [done|]; by apply bytes_ok_app).
  split; [done|]. pose proof (be_val_bound _ Hok) as Hb.
  rewrite len_cons, len_app, Hl in Hb. replace (1 + (32 + len msg)) with (33 + len msg) in Hb by lia. lia.
Qed.

(** splitting a ciphertext gives its two numbers back *)
Lemma split_ciphertext (z : bool) g d :
  0 <= g < ELGAMAL_P -> 0 <= d < ELGAMAL_P ->
  let ct := if z then [0] ++ be_bytes 256 g ++ [0] ++ be_bytes 256 d
            else be_bytes 256 g ++ be_bytes 256 d in
  let n := if z then 257 else 256 in
  len ct = n + n /\ be_val (ztake n ct) = g /\ be_val (zdrop n ct) = d.
Proof.
  intros Hg Hd. cbv zeta.
  assert (forall v, 0 <= v < ELGAMAL_P -> be_val ([0] ++ be_bytes 256 v) = v) as H0.
  { intros v Hv. rewrite be_val_app. change (be_val [0]) with 0. by rewrite be_val_256. }
  destruct z.
  - rewrite app_assoc. rewrite ztake_app, zdrop_app by (rewrite len_app, len_be_bytes; done).
    rewrite !H0 by done. rewrite !len_app, !len_be_bytes. done.
  - rewrite ztake_app, zdrop_app by (by rewrite len_be_bytes).
    rewrite !be_val_256 by done. rewrite !len_app, !len_be_bytes. done.
Qed.

Lemma decrypt_cancel a k m :
  0 <= a <= ELGAMAL_P - 2 -> 0 <= k -> 0 <= m < ELGAMAL_P ->
  decrypt_basic (mkDecryptor a) (ELGAMAL_G ^ k mod ELGAMAL_P)
    ((m * ((ELGAMAL_G ^ a mod ELGAMAL_P) ^ k mod ELGAMAL_P)) mod ELGAMAL_P) = Ret (to_bytes_be m).
Proof.
  intros Ha Hk Hm. pose proof (grp_p_lo _ Hgrp).
  assert (0 <= ELGAMAL_G ^ k mod ELGAMAL_P) by (apply Z.mod_pos_bound; lia).
  unfold decrypt_basic, ELGAMAL_PM1. cbn [dec_key]. destruct (Z.ltb_spec (ELGAMAL_P - 1) a); [lia|].
  rewrite modpow_eq by lia. by rewrite elgamal_cancel by lia.
Qed.

Lemma decrypt_encrypted a k v msg (z : bool) :
  0 <= a <= ELGAMAL_P - 2 -> 0 <= k -> byte_ok v -> v <> 0 -> bytes_ok msg ->
  256 ^ (33 + len msg) <= ELGAMAL_P ->
  let g := ELGAMAL_G ^ k mod ELGAMAL_P in
  let d := (be_val (v :: sha256 msg ++ msg) * ((ELGAMAL_G ^ a mod ELGAMAL_P) ^ k mod ELGAMAL_P)) mod ELGAMAL_P in
  decrypt (mkDecryptor a)
    (if z then [0] ++ be_bytes 256 g ++ [0] ++ be_bytes 256 d else be_bytes 256 g ++ be_bytes 256 d) z
  = Ret (Ok msg).
Proof.
  intros Ha Hk Hv Hv0 Hm Hp g d. pose proof (grp_p_lo _ Hgrp).
  destruct (plaintext_range v (sha256 msg) msg Hv (sha256_len _) (sha256_ok _) Hm Hp) as [Hok Hr].
  destruct (split_ciphertext z g d) as (Hl & Hg & Hd); [apply Z.mod_pos_bound; lia..|].
  unfold decrypt. set (ct := if z then _ else _) in *.
  assert ((if z then if negb (len ct =? 514) then Err InvalidCiphertext
                     else Ok (be_val (ztake 257 ct), be_val (zdrop 257 ct))
           else if negb (len ct =? 512) then Err InvalidCiphertext
                else Ok (be_val (ztake 256 ct), be_val (zdrop 256 ct))) = @Ok _ CryptoError (g, d)) as ->.
  { destruct z; rewrite Hl, Hg, Hd; done. }
  cbn [rok obind]. unfold g, d. rewrite decrypt_cancel by done. cbn [obind].
  rewrite to_bytes_be_exact by done.
  destruct (Z.ltb_spec (len (v :: sha256 msg ++ msg)) 33) as [Hlt|_].
  { rewrite len_cons, len_app, sha256_len in Hlt. pose proof (len_nonneg msg). lia. }
  change (v :: sha256 msg ++ msg) with ([v] ++ sha256 msg ++ msg).
  rewrite (slice_app [v] (sha256 msg) msg) by (by rewrite ?sha256_len).
  rewrite app_assoc, zdrop_app by (rewrite len_app, sha256_len; done).
  by rewrite bytes_eqb_refl.
Qed.

Lemma encrypt_ok a (dk : list bytes) (db : list Z) msg (z : bool) :
  1 <= a <= ELGAMAL_P - 2 -> 256 ^ (33 + len msg) <= ELGAMAL_P ->
  Forall bytes_ok dk -> Forall byte_ok db ->
  Exists (fun d => k_ok d = true) dk -> Exists (fun v => negb (v =? 0) = true) db ->
  bytes_ok msg -> len msg <= 222 ->
  exists ct,
    encrypt (mkEncryptor (ELGAMAL_G ^ a mod ELGAMAL_P)) db dk msg z = Ret (Some (Ok ct)) /\
    len ct = (if z then 514 else 512) /\ decrypt (mkDecryptor a) ct z = Ret (Ok msg) /\ bytes_ok ct.
Proof.
  intros Ha Hp Hdk Hdb Hek Heb Hm Hl. pose proof (grp_p_lo _ Hgrp).
  destruct (gen_gamma_k_ok dk Hdk Hek) as (k & r & Hk & Hkr).
  destruct (draw_exists _ _ Heb) as (v & rb & Hv & Hv0).
  pose proof (draw_Forall _ _ _ _ _ Hdb Hv) as Hvb.
  apply negb_true_iff, Z.eqb_neq in Hv0.
  destruct (plaintext_range v (sha256 msg) msg Hvb (sha256_len _) (sha256_ok _) Hm Hp) as [_ Hr].
  pose proof (decrypt_encrypted a k v msg z ltac:(lia) ltac:(lia) Hvb Hv0 Hm Hp) as Hd.
  eexists. split; [|split; [|split; [exact Hd|]]].
  - unfold encrypt. destruct (Z.gtb_spec (len msg) 222); [lia|]. rewrite Hv. cbn [app].
    unfold encrypt_basic, ELGAMAL_PM1.
    destruct (Z.gtb_spec (be_val (v :: sha256 msg ++ msg)) (ELGAMAL_P - 1)); [lia|]. rewrite Hk.
    cbn [enc_key]. pose proof (Z.mod_pos_bound (ELGAMAL_G ^ a) ELGAMAL_P).
    rewrite (modpow_eq (ELGAMAL_G ^ a mod ELGAMAL_P)) by lia.
    rewrite !rectify_256 by (apply Z.mod_pos_bound; lia). cbn [obind]. rewrite copy_256_be.
    cbn [obind]. rewrite copy_256_be. reflexivity.
  - destruct z; cbn [app]; llia.
  - assert (forall n v (l : bytes), bytes_ok l -> bytes_ok (be_bytes n v ++ l)) as Hb
      by (intros; apply bytes_ok_app; split; [apply be_bytes_ok|done]).
    assert (forall l : bytes, bytes_ok l -> bytes_ok ([0] ++ l)) as H0 by (intros; by constructor).
    destruct z; [apply H0, Hb, H0, be_bytes_ok|apply Hb, be_bytes_ok].
Qed.

(** the bytes of a DH value, with its sign byte, padded or cut to 32 *)
Lemma session_key_of_dh v :
  0 <= v ->
  let key (v : Z) :=
    let buf := to_bytes_be v in
    let! first := unwrap (head buf) in
    let buf := if negb (Z.land first 0x80 =? 0) then 0 :: buf else buf in
    let length := len buf in
    let buf := if length <? 32 then buf ++ zeros (32 - length) else buf in
    Ret (mkSessionKey (slice 0 32 buf)) in
  exists k, key v = Ret k /\ key v = Ret k /\ wf_SessionKey k.
Proof.
  intros Hv key. unfold key. destruct (to_bytes_be v) as [|b l] eqn:E; [by apply to_bytes_be_nonempty in E|].
  cbn [head unwrap obind]. eexists. split; [reflexivity|]. split; [reflexivity|].
  assert (forall m : bytes, bytes_ok m -> wf_SessionKey (mkSessionKey (slice 0 32
            (if len m <? 32 then m ++ zeros (32 - len m) else m)))) as H.
  { intros m Hm. set (m' := if len m <? 32 then _ else _).
    assert (bytes_ok m' /\ 32 <= len m') as [Hok Hl].
    { unfold m'. destruct (Z.ltb_spec (len m) 32); [|done]. rewrite len_app, len_zeros by lia.
      split; [apply bytes_ok_app; split; [done|apply zeros_ok]|lia]. }
    split; cbn [key_bytes]; unfold slice; change (zdrop 0 m') with m'; [by apply bytes_ok_ztake|].
    apply len_ztake; lia. }
  assert (bytes_ok (b :: l)) as Hok by (rewrite <- E; by apply to_bytes_be_ok).
  apply H. destruct (Z.land b 128 =? 0); cbn [negb]; [done|by constructor].
Qed.

(** the two ends of an exchange agree on the key *)
Lemma dh_agrees (ra rb : bytes) : bytes_ok ra -> bytes_ok rb ->
  exists pa pb k,
    get_pub (DHSessionKeyBuilder_new ra) = Ret pa /\ get_pub (DHSessionKeyBuilder_new rb) = Ret pb /\
    (len pa = 256 /\ bytes_ok pa) /\ (len pb = 256 /\ bytes_ok pb) /\
    build_session_key (DHSessionKeyBuilder_new ra) pb = Ret k /\
    build_session_key (DHSessionKeyBuilder_new rb) pa = Ret k /\ wf_SessionKey k.
Proof.
  intros Ha Hb. pose proof (grp_p_lo _ Hgrp). pose proof (grp_g _ Hgrp).
  pose proof (be_val_bound ra Ha) as [Ha0 _]. pose proof (be_val_bound rb Hb) as [Hb0 _].
  assert (forall x, 0 <= x -> 0 <= ELGAMAL_G ^ x mod ELGAMAL_P < ELGAMAL_P) as Hr
    by (intros; apply Z.mod_pos_bound; lia).
  pose proof (Hr _ Ha0). pose proof (Hr _ Hb0).
  eexists _, _. unfold get_pub, DHSessionKeyBuilder_new. cbn [dh_pub].
  rewrite !modpow_eq, !rectify_256 by lia.
  enough (exists k, build_session_key (mkDHSessionKeyBuilder (be_val ra) (ELGAMAL_G ^ be_val ra mod ELGAMAL_P))
                      (be_bytes 256 (ELGAMAL_G ^ be_val rb mod ELGAMAL_P)) = Ret k /\
                    build_session_key (mkDHSessionKeyBuilder (be_val rb) (ELGAMAL_G ^ be_val rb mod ELGAMAL_P))
                      (be_bytes 256 (ELGAMAL_G ^ be_val ra mod ELGAMAL_P)) = Ret k /\ wf_SessionKey k)
    as (k & ? & ? & ?).
  { exists k. rewrite !len_be_bytes. pose proof (be_bytes_ok 256). by split_and!. }
  unfold build_session_key. cbn [dh_priv]. rewrite !be_val_256 by lia. rewrite !modpow_eq by lia.
  rewrite (pow_swap ELGAMAL_G (be_val rb) (be_val ra)) by lia.
  apply session_key_of_dh. apply Z.mod_pos_bound. lia.
Qed.

End ElGamal.

(** a small instance of the group for which Fermat's little theorem is easy:
    [2^2047 = 1] modulo [2^2047 - 1], and [2047] divides [2^2047 - 2] *)
Definition mersenne_group : DhGroup := {| ELGAMAL_P := 2 ^ 2047 - 1; ELGAMAL_G := 2 |}.

Lemma mersenne_group_ok : group_ok mersenne_group.
Proof.
  split; cbn [ELGAMAL_P ELGAMAL_G mersenne_group].
  - apply Z.lt_add_lt_sub_r. vm_compute. reflexivity.
  - transitivity (2 ^ 2047); [lia|]. change 256 with (2 ^ 8) at 1.
    rewrite <- Z.pow_mul_r by lia. apply Z.pow_lt_mono_r; lia.
  - lia.
  - replace (2 ^ 2047 - 1 - 1) with (2047 * ((2 ^ 2047 - 2) / 2047)) by (vm_compute; reflexivity).
    rewrite Z.pow_mul_r by (try lia; vm_compute; discriminate).
    rewrite Zpower_mod by (vm_compute; reflexivity).
    assert (2 ^ 2047 mod (2 ^ 2047 - 1) = 1) as ->.
    { replace (2 ^ 2047) with (1 + 1 * (2 ^ 2047 - 1)) at 1 by lia.
      rewrite Z.mod_add by (vm_compute; discriminate). apply Z.mod_small. split; [lia|].
      vm_compute. reflexivity. }
    rewrite Z.pow_1_l by (vm_compute; discriminate). apply Z.mod_small. split; [lia|].
    vm_compute. reflexivity.
Qed.

(** ** Properties *)

Module ElGamalProps.

(** C36: ElGamal decryption inverts encryption.  For a group in which
    Fermat's little theorem holds at the generator, once the random draws
    contain acceptable values, a key pair is generated, every message of at
    most 222 bytes that fits the modulus encrypts to a ciphertext of 514 (or
    512, without zeroes) bytes, and the private key decrypts it. *)
Theorem elgamal_roundtrip {grp : DhGroup} {bu : BigUintOps} {sha : Sha2}
    (da dk : list bytes) (db : list Z) (msg : bytes) (zeroes : bool) :
  group_ok grp -> 256 ^ (33 + len msg) <= ELGAMAL_P ->
  Forall bytes_ok da -> Forall bytes_ok dk -> Forall byte_ok db ->
  Exists (fun d => k_ok d = true) da -> Exists (fun d => k_ok d = true) dk ->
  Exists (fun v => negb (v =? 0) = true) db ->
  bytes_ok msg -> len msg <= 222 ->
  exists sk pk ct,
    generate da = Ret (Some (sk, pk)) /\
    encrypt (Encryptor_from pk) db dk msg zeroes = Ret (Some (Ok ct)) /\
    len ct = (if zeroes then 514 else 512) /\
    decrypt (Decryptor_from sk) ct zeroes = Ret (Ok msg).
Proof.
  intros Hgrp Hp Hda Hdk Hdb Hea Hek Heb Hm Hl. pose proof (grp_p_lo _ Hgrp).
  destruct (generate_ok Hgrp da Hda Hea) as (a & Ha & Hgen).
  destruct (encrypt_ok Hgrp a dk db msg zeroes Ha Hp Hdk Hdb Hek Heb Hm Hl) as (ct & He & Hc & Hd & _).
  eexists _, _, ct. split; [exact Hgen|]. unfold Encryptor_from, Decryptor_from. cbn [pk_bytes sk_bytes].
  assert (0 <= ELGAMAL_G ^ a mod ELGAMAL_P < ELGAMAL_P) by (apply Z.mod_pos_bound; lia).
  by rewrite !(be_val_256 Hgrp) by lia.
Qed.

Lemma elgamal_roundtrip_witness :
  exists sk pk ct,
    @generate mersenne_group biguint_ref [[0]; [7]] = Ret (Some (sk, pk)) /\
    @encrypt mersenne_group biguint_ref sha2_ref (Encryptor_from pk) [0; 5] [[3]] [1; 2; 3] true
      = Ret (Some (Ok ct)) /\
    len ct = 514 /\
    @decrypt mersenne_group biguint_ref sha2_ref (Decryptor_from sk) ct true = Ret (Ok [1; 2; 3]).
Proof.
  apply (@elgamal_roundtrip mersenne_group biguint_ref sha2_ref [[0]; [7]] [[3]] [0; 5] [1; 2; 3] true).
  - exact mersenne_group_ok.
  - vm_compute. discriminate.
  - repeat constructor; done.
  - repeat constructor; done.
  - repeat constructor; done.
  - apply Exists_cons_tl, Exists_cons_hd. vm_compute. reflexivity.
  - apply Exists_cons_hd. vm_compute. reflexivity.
  - apply Exists_cons_tl, Exists_cons_hd. reflexivity.
  - repeat constructor; done.
  - vm_compute. discriminate.
Defined.

(** The two ends of a DH exchange agree: with the public values each
    builder publishes (256 bytes), both build the same session key, of 32
    bytes. *)
Theorem dh_agreement {grp : DhGroup} {bu : BigUintOps} (ra rb : bytes) :
  group_ok grp -> bytes_ok ra -> bytes_ok rb ->
  exists pa pb k,
    get_pub (DHSessionKeyBuilder_new ra) = Ret pa /\ get_pub (DHSessionKeyBuilder_new rb) = Ret pb /\
    len pa = 256 /\ len pb = 256 /\
    build_session_key (DHSessionKeyBuilder_new ra) pb = Ret k /\
    build_session_key (DHSessionKeyBuilder_new rb) pa = Ret k /\ wf_SessionKey k.
Proof.
  intros Hgrp Ha Hb. destruct (dh_agrees Hgrp ra rb Ha Hb) as (pa & pb & k & H1 & H2 & [H3 _] & [H4 _] & H5).
  exists pa, pb, k. do 4 (split; [done|]). exact H5.
Qed.

Lemma dh_agreement_witness :
  exists pa pb k,
    @get_pub biguint_ref (@DHSessionKeyBuilder_new mersenne_group biguint_ref [5]) = Ret pa /\
    @get_pub biguint_ref (@DHSessionKeyBuilder_new mersenne_group biguint_ref [9]) = Ret pb /\
    len pa = 256 /\ len pb = 256 /\
    @build_session_key mersenne_group biguint_ref (@DHSessionKeyBuilder_new mersenne_group biguint_ref [5]) pb = Ret k /\
    @build_session_key mersenne_group biguint_ref (@DHSessionKeyBuilder_new mersenne_group biguint_ref [9]) pa = Ret k /\
    wf_SessionKey k.
Proof.
  apply (@dh_agreement mersenne_group biguint_ref [5] [9]);
    [exact mersenne_group_ok | by repeat constructor | by repeat constructor].
Defined.

End ElGamalProps.
