(* ===== verification/Dsa.v ===== *)
(** * DSA signatures: [src/crypto/dsa.rs]

    The 1024-bit DSA of I2P.  The domain parameters are the class
    [DsaGroup], instantiated by the constants of [src/constants.rs];
    [SHA-1] is the class [Sha1].  The containers are in [Crypto]. *)

From Stdlib Require Import Zpow_facts.
From S2P Require Import Prelude Nom Cookie Util Crypto ElGamal.

Class DsaGroup := { DSA_P : Z; DSA_Q : Z; DSA_G : Z }.

Definition i2p_dsa : DsaGroup := {|
  DSA_P := 0x9c05b2aa960d9b97b8931963c9cc9e8c3026e9b8ed92fad0a69cc886d5bf8015fcadae31a0ad18fab3f01b00a358de237655c4964afaa2b337e96ad316b9fb1cc564b5aec5b69a9ff6c3e4548707fef8503d91dd8602e867e6d35d2235c1869ce2479c3b9d5401de04e0727fb33d6511285d4cf29538d9e3b6051f5b22cc1c93;
  DSA_Q := 0xa5dfc28fef4ca1e286744cd8eed9d29d684046b7;
  DSA_G := 0x0c1f4d27d40093b429e962d7223824e0bbc47e7c832a39236fc683af84889581075ff9082ed32353d4374d7301cda1d23c431f4698599dda02451824ff369752593647cc3ddc197de985e43d136cdcfc6bd5409cd2f450821142a5e6f8eb1c3ab5d0484b8129fcf17bce4f7f33321c3cb3dbb14a905e7b2b3e93be4708cbcc82
|}.

(** What the arithmetic needs: the generator has order [q], and Fermat's
    little theorem holds modulo [q]. *)
Record dsa_ok (grp : DsaGroup) : Prop := {
  dsa_p_lo : 1 < DSA_P;
  dsa_p_hi : DSA_P < 256 ^ 128;
  dsa_q_lo : 2 <= DSA_Q;
  dsa_q_hi : DSA_Q < 256 ^ 20;
  dsa_g : 0 <= DSA_G;
  dsa_order : DSA_G ^ DSA_Q mod DSA_P = 1;
  dsa_fermat : forall k, 0 < k < DSA_Q -> k ^ (DSA_Q - 1) mod DSA_Q = 1;
}.

Section Dsa.
Context {grp : DsaGroup} {bu : BigUintOps} {sha : Sha1}.

Definition DSA_QM2 : Z := DSA_Q - 1 - 1.

Record DsaPrivateKey := mkDsaPrivateKey { dsa_a : Z }.

(** [0 < a < q] *)
Definition q_ok (buf : bytes) : bool := let a := be_val buf in negb (a =? 0) && (a <? DSA_Q).

Definition DsaPrivateKey_new (draws : list bytes) : option DsaPrivateKey :=
  match draw q_ok draws with
  | None => None
  | Some (buf, _) => Some (mkDsaPrivateKey (be_val buf))
  end.

(** [x.copy_from_slice(b)] into an array of 20 bytes *)
Definition copy_20 (b : bytes) : outcome bytes := if len b =? 20 then Ret b else Panic.

Definition DsaPrivateKey_sign (sk : DsaPrivateKey) (draws : list bytes) (msg : bytes)
  : outcome (option DsaSignature) :=
  match draw q_ok draws with
  | None => Ret None
  | Some (buf, _) =>
      let k := be_val buf in
      let r := modpow DSA_G k DSA_P mod DSA_Q in
      let km1 := modpow k DSA_QM2 DSA_Q in
      let hm := be_val (sha1 msg) in
      let s := (km1 * (hm + dsa_a sk * r)) mod DSA_Q in
      let! r := rectify r 20 in
      let! rbar := copy_20 r in
      let! s := rectify s 20 in
      let! sbar := copy_20 s in
      Ret (Some (mkDsaSignature rbar sbar))
  end.

Definition DsaPublicKey_from_private (sk : DsaPrivateKey) : outcome DsaPublicKey :=
  let y := modpow DSA_G (dsa_a sk) DSA_P in
  let! bytes := rectify y 128 in
  Ret (mkDsaPublicKey y bytes).

Definition DsaPublicKey_verify (pk : DsaPublicKey) (msg : bytes) (sig : DsaSignature) : bool :=
  let p := DSA_P in
  let q := DSA_Q in
  let r := be_val (rbar sig) in
  let s := be_val (sbar sig) in
  if (r =? 0) || (r >=? DSA_Q) || (s =? 0) || (s >=? DSA_Q) then false
  else
    let w := modpow s DSA_QM2 q in
    let hm := be_val (sha1 msg) in
    let u1 := (w * hm) mod q in
    let u2 := (r * w) mod q in
    let v := ((modpow DSA_G u1 p * modpow (dsa_bi pk) u2 p) mod p) mod q in
    v =? r.

(** ** Lemmas *)

Hypothesis Hgrp : dsa_ok grp.

(** exponents of the generator count modulo [q] *)
Lemma pow_order x : 0 <= x -> DSA_G ^ x mod DSA_P = DSA_G ^ (x mod DSA_Q) mod DSA_P.
Proof.
  intros Hx. destruct Hgrp as [Hp _ Hq _ _ Ho _].
  rewrite (Z.div_mod x DSA_Q) at 1 by lia.
  assert (0 <= x mod DSA_Q < DSA_Q) by (apply Z.mod_pos_bound; lia). assert (0 <= x / DSA_Q) by (apply Z.div_pos; lia).
  rewrite Z.pow_add_r, Z.pow_mul_r by nia.
  rewrite <- Z.mul_mod_idemp_l by lia. rewrite (Zpower_mod (DSA_G ^ DSA_Q)) by lia.
  rewrite Ho, Z.pow_1_l, (Z.mod_small 1), Z.mul_1_l by lia. done.
Qed.

(** [x^(q-2)] is the inverse of [x] *)
Lemma inverse_mod x : 0 < x < DSA_Q -> (x * (x ^ DSA_QM2 mod DSA_Q)) mod DSA_Q = 1.
Proof.
  intros Hx. rewrite Z.mul_mod_idemp_r by lia. rewrite <- Z.pow_succ_r by (unfold DSA_QM2; lia).
  unfold DSA_QM2. replace (Z.succ (DSA_Q - 1 - 1)) with (DSA_Q - 1) by lia. by apply dsa_fermat.
Qed.

(** the exponent the verifier recovers is the signer's [k] *)
Lemma dsa_exponent k r h a :
  0 < k < DSA_Q -> 0 <= r -> 0 <= h -> 0 <= a ->
  let s := ((k ^ DSA_QM2 mod DSA_Q) * (h + a * r)) mod DSA_Q in
  0 < s ->
  let w := s ^ DSA_QM2 mod DSA_Q in
  ((w * h) mod DSA_Q + a * ((r * w) mod DSA_Q)) mod DSA_Q = k.
Proof.
  intros Hk Hr Hh Ha s Hs w. pose proof (dsa_q_lo _ Hgrp).
  assert (s < DSA_Q) as Hs' by (apply Z.mod_pos_bound; lia).
  rewrite Z.add_mod_idemp_l by lia.
  rewrite <- Z.add_mod_idemp_r, Z.mul_mod_idemp_r, Z.add_mod_idemp_r by lia.
  replace (w * h + a * (r * w)) with (w * (h + a * r)) by lia.
  assert ((h + a * r) mod DSA_Q = (k * s) mod DSA_Q) as He.
  { unfold s. rewrite Z.mul_mod_idemp_r by lia. rewrite Z.mul_assoc.
    rewrite <- Z.mul_mod_idemp_l, inverse_mod, Z.mul_1_l by lia. done. }
  rewrite <- Z.mul_mod_idemp_r, He, Z.mul_mod_idemp_r by lia.
  replace (w * (k * s)) with ((s * w) * k) by lia.
  rewrite <- Z.mul_mod_idemp_l by lia. unfold w. rewrite inverse_mod by lia.
  rewrite Z.mul_1_l. apply Z.mod_small. lia.
Qed.

(** what the verifier computes is the signer's [r] *)
Lemma dsa_value k r h a :
  0 < k < DSA_Q -> 0 <= r -> 0 <= h -> 0 <= a ->
  let s := ((k ^ DSA_QM2 mod DSA_Q) * (h + a * r)) mod DSA_Q in
  0 < s ->
  let w := s ^ DSA_QM2 mod DSA_Q in
  ((DSA_G ^ ((w * h) mod DSA_Q) mod DSA_P) *
   ((DSA_G ^ a mod DSA_P) ^ ((r * w) mod DSA_Q) mod DSA_P)) mod DSA_P = DSA_G ^ k mod DSA_P.
Proof.
  intros Hk Hr Hh Ha s Hs w. pose proof (dsa_q_lo _ Hgrp). pose proof (dsa_p_lo _ Hgrp).
  assert (0 <= (w * h) mod DSA_Q < DSA_Q) by (apply Z.mod_pos_bound; lia).
  assert (0 <= (r * w) mod DSA_Q < DSA_Q) by (apply Z.mod_pos_bound; lia).
  rewrite <- Zpower_mod by lia. rewrite <- Z.pow_mul_r by lia.
  rewrite <- Z.mul_mod by lia. rewrite <- Z.pow_add_r by nia.
  rewrite pow_order by nia. unfold w, s in *. by rewrite dsa_exponent.
Qed.

Lemma rectify_20 v : 0 <= v < DSA_Q -> rectify v 20 = Ret (be_bytes 20 v).
Proof. intros. pose proof (dsa_q_hi _ Hgrp). rewrite rectify_small; [done|lia|lia]. Qed.

Lemma copy_20_be v : copy_20 (be_bytes 20 v) = Ret (be_bytes 20 v).
Proof. unfold copy_20. by rewrite len_be_bytes. Qed.

Lemma be_val_20 v : 0 <= v < DSA_Q -> be_val (be_bytes 20 v) = v.
Proof.
  intros. pose proof (dsa_q_hi _ Hgrp). apply be_val_be_bytes_id.
  change (Z.of_nat 20) with 20. lia.
Qed.

Lemma q_ok_range draws buf rest :
  Forall bytes_ok draws -> draw q_ok draws = Some (buf, rest) -> 0 < be_val buf < DSA_Q.
Proof.
  intros Hok Hd. pose proof (draw_Forall _ _ _ _ _ Hok Hd) as Hb.
  pose proof (draw_accepted _ _ _ _ Hd) as Ha. pose proof (be_val_bound _ Hb).
  unfold q_ok in Ha. rewrite andb_true_iff, negb_true_iff, Z.eqb_neq, Z.ltb_lt in Ha. lia.
Qed.

End Dsa.

(** a toy instance: [4] has order 11 modulo 23 *)
Definition toy_dsa : DsaGroup := {| DSA_P := 23; DSA_Q := 11; DSA_G := 4 |}.

Lemma toy_dsa_ok : dsa_ok toy_dsa.
Proof.
  split; cbn [DSA_P DSA_Q DSA_G toy_dsa]; try lia; try reflexivity.
  intros k Hk. assert (k ∈ [1; 2; 3; 4; 5; 6; 7; 8; 9; 10]) as Hin by (set_unfold; lia).
  by repeat (apply elem_of_cons in Hin as [->|Hin]; [reflexivity|]); apply elem_of_nil in Hin.
Qed.

(** ** Properties *)

Module DsaProps.

(** A DSA signature made with a private key verifies under the derived
    public key, unless one of its two numbers is zero, and then it is
    rejected (the signer does not draw again in that case). *)
Theorem dsa_sign_then_verify {grp : DsaGroup} {bu : BigUintOps} {sha : Sha1}
    (da dk : list bytes) (sk : DsaPrivateKey) (msg : bytes) :
  dsa_ok grp -> Forall bytes_ok da -> Forall bytes_ok dk -> DsaPrivateKey_new da = Some sk ->
  Exists (fun d => q_ok d = true) dk ->
  exists pk sig,
    DsaPublicKey_from_private sk = Ret pk /\ DsaPrivateKey_sign sk dk msg = Ret (Some sig) /\
    DsaPublicKey_verify pk msg sig =
      negb (be_val (rbar sig) =? 0) && negb (be_val (sbar sig) =? 0).
Proof.
  intros Hgrp Hda Hdk Hnew Hex.
  unfold DsaPrivateKey_new in Hnew. destruct (draw q_ok da) as [[ba ra]|] eqn:Ea; [|done].
  injection Hnew as <-. pose proof (q_ok_range _ _ _ Hda Ea) as Ha.
  destruct (draw_exists _ _ Hex) as (bk & rk & Ek & _).
  pose proof (q_ok_range _ _ _ Hdk Ek) as Hk.
  pose proof Hgrp as [Hp Hph Hq Hqh Hg _ _].
  unfold DsaPublicKey_from_private, DsaPrivateKey_sign. cbn [dsa_a]. rewrite Ek.
  set (a := be_val ba) in *. set (k := be_val bk) in *. set (h := be_val (sha1 msg)).
  assert (0 <= h) as Hh by apply (be_val_bound _ (sha1_ok msg)).
  rewrite !modpow_eq by (unfold DSA_QM2; lia).
  assert (forall x, 0 <= x mod DSA_P < DSA_P) as Hmp by (intros; apply Z.mod_pos_bound; lia).
  assert (forall x, 0 <= x mod DSA_Q < DSA_Q) as Hmq by (intros; apply Z.mod_pos_bound; lia).
  pose proof (Hmp (DSA_G ^ a)).
  set (r := (DSA_G ^ k mod DSA_P) mod DSA_Q). set (s := (_ * _) mod DSA_Q).
  assert (0 <= r < DSA_Q) as Hr by apply Hmq. assert (0 <= s < DSA_Q) as Hs by apply Hmq.
  rewrite rectify_small by lia. rewrite !(rectify_20 Hgrp) by done. cbn [obind].
  rewrite copy_20_be. cbn [obind]. rewrite copy_20_be. cbn [obind].
  eexists _, _. split; [reflexivity|]. split; [reflexivity|].
  unfold DsaPublicKey_verify. cbn [rbar sbar dsa_bi]. rewrite !(be_val_20 Hgrp) by done.
  destruct (Z.geb_spec r DSA_Q); [lia|]. destruct (Z.geb_spec s DSA_Q); [lia|].
  destruct (Z.eqb_spec r 0); [done|]. destruct (Z.eqb_spec s 0); [done|]. cbn [orb negb andb].
  apply Z.eqb_eq. fold h.
  rewrite (modpow_eq s) by (unfold DSA_QM2; lia).
  rewrite !modpow_eq by first [lia | apply Hmq].
  unfold s. rewrite (dsa_value Hgrp) by (done || lia || (fold s; lia)). done.
Qed.

Lemma dsa_sign_then_verify_witness :
  exists pk sig,
    @DsaPublicKey_from_private toy_dsa biguint_ref (mkDsaPrivateKey 3) = Ret pk /\
    @DsaPrivateKey_sign toy_dsa biguint_ref sha1_ref (mkDsaPrivateKey 3) [[0]; [7]] [1; 2] = Ret (Some sig) /\
    @DsaPublicKey_verify toy_dsa biguint_ref sha1_ref pk [1; 2] sig =
      negb (be_val (rbar sig) =? 0) && negb (be_val (sbar sig) =? 0).
Proof.
  apply (@dsa_sign_then_verify toy_dsa biguint_ref sha1_ref [[12]; [3]] [[0]; [7]] (mkDsaPrivateKey 3) [1; 2]).
  - exact toy_dsa_ok.
  - by repeat constructor.
  - by repeat constructor.
  - reflexivity.
  - apply Exists_cons_tl, Exists_cons_hd. reflexivity.
Defined.

End DsaProps.
