(* ===== verification/Aes.v ===== *)
(** * AES-256 in CBC mode: [Aes256] of [src/crypto/mod.rs]

    The block cipher (crate [aes]) and the CBC chaining (crate [cbc]) are the
    class [AesCrate].  [Aes256] keeps one chaining value per direction; its
    operations work in place on a buffer and leave an incomplete last block
    alone. *)

From S2P Require Import Prelude Nom Cookie Util Crypto.

Definition AES_BLOCK_SIZE : Z := 16.

Definition xor_bytes (a b : bytes) : bytes := zip_with Z.lxor a b.

Class AesCrate := {
  aes_encrypt_block : bytes -> bytes -> bytes;
  aes_decrypt_block : bytes -> bytes -> bytes;
  (** [encrypt_blocks_mut]: the buffer and the chaining value after it *)
  cbc_encrypt : bytes -> bytes -> bytes -> bytes * bytes;
  cbc_decrypt : bytes -> bytes -> bytes -> bytes * bytes;

  aes_enc_len : forall k b, len k = 32 -> len b = 16 -> len (aes_encrypt_block k b) = 16;
  aes_dec_len : forall k b, len k = 32 -> len b = 16 -> len (aes_decrypt_block k b) = 16;
  aes_enc_ok : forall k b, bytes_ok k -> bytes_ok b -> bytes_ok (aes_encrypt_block k b);
  aes_dec_ok : forall k b, bytes_ok k -> bytes_ok b -> bytes_ok (aes_decrypt_block k b);
  aes_dec_enc : forall k b, len k = 32 -> len b = 16 -> bytes_ok k -> bytes_ok b ->
    aes_decrypt_block k (aes_encrypt_block k b) = b;
  aes_enc_dec : forall k b, len k = 32 -> len b = 16 -> bytes_ok k -> bytes_ok b ->
    aes_encrypt_block k (aes_decrypt_block k b) = b;
  cbc_encrypt_nil : forall k iv, cbc_encrypt k iv [] = ([], iv);
  cbc_encrypt_cons : forall k iv b rest, len b = 16 ->
    cbc_encrypt k iv (b ++ rest) =
      let c := aes_encrypt_block k (xor_bytes b iv) in
      let '(o, iv') := cbc_encrypt k c rest in (c ++ o, iv');
  cbc_decrypt_nil : forall k iv, cbc_decrypt k iv [] = ([], iv);
  cbc_decrypt_cons : forall k iv c rest, len c = 16 ->
    cbc_decrypt k iv (c ++ rest) =
      let p := xor_bytes (aes_decrypt_block k c) iv in
      let '(o, iv') := cbc_decrypt k c rest in (p ++ o, iv');
}.

Record Aes256 := mkAes256 { aes_key : SessionKey; iv_enc : bytes; iv_dec : bytes }.

Definition wf_iv (iv : bytes) : Prop := bytes_ok iv /\ len iv = 16.
Definition wf_Aes256 (a : Aes256) : Prop :=
  wf_SessionKey (aes_key a) /\ wf_iv (iv_enc a) /\ wf_iv (iv_dec a).

(** [xor_bytes] with equal lengths *)
Lemma len_xor a b : len a = len b -> len (xor_bytes a b) = len a.
Proof. intros H. unfold xor_bytes, len in *. rewrite length_zip_with. lia. Qed.

Lemma lxor_byte x y : byte_ok x -> byte_ok y -> byte_ok (Z.lxor x y).
Proof.
  unfold byte_ok. intros Hx Hy.
  assert (0 <= Z.lxor x y) as H0 by (apply Z.lxor_nonneg; lia).
  split; [done|]. destruct (Z.eq_dec (Z.lxor x y) 0) as [->|Hne]; [lia|].
  assert (forall z, 0 <= z < 256 -> Z.log2 z < 8) as Hlog.
  { intros z Hz. destruct (Z.eq_dec z 0) as [->|]; [done|]. apply (proj1 (Z.log2_lt_pow2 z 8 ltac:(lia))). lia. }
  apply (proj2 (Z.log2_lt_pow2 (Z.lxor x y) 8 ltac:(lia))).
  eapply Z.le_lt_trans; [apply Z.log2_lxor; lia|]. apply Z.max_lub_lt; by apply Hlog.
Qed.

Lemma xor_ok a b : bytes_ok a -> bytes_ok b -> bytes_ok (xor_bytes a b).
Proof.
  intros Ha. revert b. induction Ha as [|x a Hx _ IH]; intros b Hb; [constructor|].
  destruct Hb as [|y b Hy Hb]; [constructor|]. constructor; [by apply lxor_byte|by apply IH].
Qed.

Lemma xor_cancel a b : len a = len b -> xor_bytes (xor_bytes a b) b = a.
Proof.
  revert b. induction a as [|x a IH]; intros [|y b] H; try done.
  cbn. f_equal; [by rewrite Z.lxor_assoc, Z.lxor_nilpotent, Z.lxor_0_r|].
  apply IH. rewrite !len_cons in H. lia.
Qed.

Section Aes.
Context {aes : AesCrate}.

(** [Aes256::new]; a key or an IV of the wrong length fails the [expect] *)
Definition Aes256_new (key : SessionKey) (iv_enc iv_dec : bytes) : outcome Aes256 :=
  if (len (key_bytes key) =? 32) && (len iv_enc =? 16) && (len iv_dec =? 16)
  then Ret (mkAes256 key iv_enc iv_dec) else Panic.

(** the cipher and the buffer after the call, and the number of bytes done *)
Definition encrypt_blocks (a : Aes256) (buf : bytes) : Aes256 * bytes * option Z :=
  if len buf <? AES_BLOCK_SIZE then (a, buf, None)
  else
    let end_ := len buf / AES_BLOCK_SIZE * AES_BLOCK_SIZE in
    let '(out, iv) := cbc_encrypt (key_bytes (aes_key a)) (iv_enc a) (ztake end_ buf) in
    (mkAes256 (aes_key a) iv (iv_dec a), out ++ zdrop end_ buf, Some end_).

Definition decrypt_blocks (a : Aes256) (buf : bytes) : Aes256 * bytes * option Z :=
  if len buf <? AES_BLOCK_SIZE then (a, buf, None)
  else
    let end_ := len buf / AES_BLOCK_SIZE * AES_BLOCK_SIZE in
    let '(out, iv) := cbc_decrypt (key_bytes (aes_key a)) (iv_dec a) (ztake end_ buf) in
    (mkAes256 (aes_key a) (iv_enc a) iv, out ++ zdrop end_ buf, Some end_).

(** ** Lemmas *)

Section Cbc.
Context (k : bytes) (Hk : bytes_ok k) (Hkl : len k = 32).

(** CBC decryption inverts encryption from the same chaining value, and both
    end with the same one *)
Lemma cbc_dec_enc (n : nat) iv d :
  len d = 16 * Z.of_nat n -> bytes_ok d -> wf_iv iv ->
  forall o iv', cbc_encrypt k iv d = (o, iv') ->
  len o = len d /\ bytes_ok o /\ wf_iv iv' /\ cbc_decrypt k iv o = (d, iv').
Proof.
  revert iv d. induction n as [|n IH]; intros iv d Hl Hd Hiv o iv' He.
  - destruct d; [|rewrite len_cons in Hl; pose proof (len_nonneg d); lia].
    rewrite cbc_encrypt_nil in He. injection He as <- <-.
    rewrite cbc_decrypt_nil. split_and!; done || apply Hiv.
  - destruct (split_at d 16) as (b & rest & -> & Hb); [lia|lia|].
    apply bytes_ok_app in Hd as [Hbo Hro]. rewrite len_app in Hl. destruct Hiv as [Hivo Hivl].
    rewrite cbc_encrypt_cons in He by done. cbv zeta in He.
    set (c := aes_encrypt_block k (xor_bytes b iv)) in *.
    assert (len (xor_bytes b iv) = 16) as Hx by (rewrite len_xor; lia).
    assert (wf_iv c) as Hc by (split; [apply aes_enc_ok, xor_ok; done|by apply aes_enc_len]).
    destruct (cbc_encrypt k c rest) as [o' iv''] eqn:E. injection He as <- <-.
    destruct (IH c rest ltac:(lia) Hro Hc _ _ E) as (H1 & H2 & H3 & H4).
    rewrite !len_app. destruct Hc as [Hco Hcl]. split; [lia|].
    split; [by apply bytes_ok_app|]. split; [done|].
    rewrite cbc_decrypt_cons, H4 by done. unfold c.
    rewrite aes_dec_enc by (done || by apply xor_ok). rewrite xor_cancel by lia. done.
Qed.

Lemma cbc_enc_dec (n : nat) iv d :
  len d = 16 * Z.of_nat n -> bytes_ok d -> wf_iv iv ->
  forall o iv', cbc_decrypt k iv d = (o, iv') ->
  len o = len d /\ bytes_ok o /\ wf_iv iv' /\ cbc_encrypt k iv o = (d, iv').
Proof.
  revert iv d. induction n as [|n IH]; intros iv d Hl Hd Hiv o iv' He.
  - destruct d; [|rewrite len_cons in Hl; pose proof (len_nonneg d); lia].
    rewrite cbc_decrypt_nil in He. injection He as <- <-.
    rewrite cbc_encrypt_nil. split_and!; done || apply Hiv.
  - destruct (split_at d 16) as (c & rest & -> & Hc); [lia|lia|].
    apply bytes_ok_app in Hd as [Hco Hro]. rewrite len_app in Hl. destruct Hiv as [Hivo Hivl].
    rewrite cbc_decrypt_cons in He by done. cbv zeta in He.
    assert (len (aes_decrypt_block k c) = 16) as Hx by (by apply aes_dec_len).
    destruct (cbc_decrypt k c rest) as [o' iv''] eqn:E. injection He as <- <-.
    destruct (IH c rest ltac:(lia) Hro (conj Hco Hc) _ _ E) as (H1 & H2 & H3 & H4).
    rewrite !len_app, len_xor by lia. split; [lia|].
    split; [apply bytes_ok_app; split; [apply xor_ok; [by apply aes_dec_ok|done]|done]|]. split; [done|].
    rewrite cbc_encrypt_cons by (rewrite len_xor; lia). cbv zeta.
    rewrite xor_cancel by lia. rewrite aes_enc_dec, H4 by done. done.
Qed.

End Cbc.

(** the whole blocks of a buffer *)
Lemma blocks_len (buf : bytes) :
  0 <= len buf / AES_BLOCK_SIZE * AES_BLOCK_SIZE <= len buf /\
  len (ztake (len buf / AES_BLOCK_SIZE * AES_BLOCK_SIZE) buf) = 16 * Z.of_nat (Z.to_nat (len buf / 16)).
Proof.
  pose proof (len_nonneg buf). unfold AES_BLOCK_SIZE.
  assert (0 <= len buf / 16 * 16 <= len buf) as Hb by (Z.div_mod_to_equations; lia).
  split; [done|]. rewrite len_ztake by lia. rewrite Z2Nat.id; Z.div_mod_to_equations; lia.
Qed.

(** the receiver's chaining value is the sender's *)
Definition in_sync (a b : Aes256) : Prop := aes_key a = aes_key b /\ iv_enc a = iv_dec b.

Lemma encrypt_decrypt_blocks a b buf :
  wf_Aes256 a -> in_sync a b -> bytes_ok buf ->
  forall a' ct r, encrypt_blocks a buf = (a', ct, r) ->
  len ct = len buf /\ bytes_ok ct /\ wf_Aes256 a' /\ iv_dec a' = iv_dec a /\
  exists b', decrypt_blocks b ct = (b', buf, r) /\ in_sync a' b' /\ iv_enc b' = iv_enc b.
Proof.
  intros ([Hk Hkl] & Hiv & Hivd) [Ekey Eiv] Hbuf a' ct r. unfold encrypt_blocks, decrypt_blocks.
  destruct (Z.ltb_spec (len buf) AES_BLOCK_SIZE) as [Hs|Hs].
  { intros [= <- <- <-]. rewrite (proj2 (Z.ltb_lt _ _) Hs).
    split_and!; try done. by exists b. }
  destruct (blocks_len buf) as [Hb Hn]. set (e := len buf / _ * _) in *.
  destruct (cbc_encrypt _ _ (ztake e buf)) as [out iv] eqn:E.
  intros [= <- <- <-].
  destruct (cbc_dec_enc _ Hk Hkl _ _ _ Hn ltac:(by apply bytes_ok_ztake) Hiv _ _ E) as (Hl & Ho & Hiv' & Hd).
  assert (len (out ++ zdrop e buf) = len buf) as Hct.
  { rewrite len_app, Hl, len_ztake, len_zdrop by lia. lia. }
  split; [done|]. split; [apply bytes_ok_app; split; [done|by apply bytes_ok_zdrop]|].
  split; [by split_and!|]. split; [done|].
  rewrite Hct, (proj2 (Z.ltb_ge _ _) Hs). fold e.
  rewrite len_ztake in Hl by lia. rewrite ztake_app, zdrop_app by lia.
  rewrite <- Ekey, <- Eiv, Hd. eexists. split; [by rewrite ztake_zdrop|done].
Qed.

Lemma decrypt_encrypt_blocks a b buf :
  wf_Aes256 a -> in_sync b a -> bytes_ok buf ->
  forall a' pt r, decrypt_blocks a buf = (a', pt, r) ->
  len pt = len buf /\ bytes_ok pt /\ exists b', encrypt_blocks b pt = (b', buf, r).
Proof.
  intros ([Hk Hkl] & Hiv & Hivd) [Ekey Eiv] Hbuf a' pt r. unfold encrypt_blocks, decrypt_blocks.
  destruct (Z.ltb_spec (len buf) AES_BLOCK_SIZE) as [Hs|Hs].
  { intros [= <- <- <-]. rewrite (proj2 (Z.ltb_lt _ _) Hs). split_and!; try done. by exists b. }
  destruct (blocks_len buf) as [Hb Hn]. set (e := len buf / _ * _) in *.
  destruct (cbc_decrypt _ _ (ztake e buf)) as [out iv] eqn:E.
  intros [= <- <- <-].
  destruct (cbc_enc_dec _ Hk Hkl _ _ _ Hn ltac:(by apply bytes_ok_ztake) Hivd _ _ E) as (Hl & Ho & Hiv' & Hd).
  assert (len (out ++ zdrop e buf) = len buf) as Hct.
  { rewrite len_app, Hl, len_ztake, len_zdrop by lia. lia. }
  split; [done|]. split; [apply bytes_ok_app; split; [done|by apply bytes_ok_zdrop]|].
  rewrite Hct, (proj2 (Z.ltb_ge _ _) Hs). fold e.
  rewrite len_ztake in Hl by lia. rewrite ztake_app, zdrop_app by lia.
  rewrite Ekey, Eiv, Hd. eexists. by rewrite ztake_zdrop.
Qed.

(** a whole number of blocks is processed entirely *)
Lemma blocks_whole (n : Z) (buf : bytes) : 0 < n -> len buf = 16 * n ->
  (len buf <? AES_BLOCK_SIZE) = false /\ len buf / AES_BLOCK_SIZE * AES_BLOCK_SIZE = len buf.
Proof.
  intros Hn Hl. unfold AES_BLOCK_SIZE. split; [apply Z.ltb_ge; lia|].
  rewrite Hl, (Z.mul_comm 16 n), Z.div_mul by lia. lia.
Qed.

Lemma encrypt_blocks_whole n a buf : 0 < n -> len buf = 16 * n ->
  exists a' ct, encrypt_blocks a buf = (a', ct, Some (16 * n)).
Proof.
  intros Hn Hl. destruct (blocks_whole n buf Hn Hl) as [H1 H2]. unfold encrypt_blocks.
  rewrite H1, H2, Hl. destruct (cbc_encrypt _ _ _) as [o iv]. eauto.
Qed.

Lemma decrypt_blocks_whole n a buf : 0 < n -> len buf = 16 * n ->
  exists a' pt, decrypt_blocks a buf = (a', pt, Some (16 * n)).
Proof.
  intros Hn Hl. destruct (blocks_whole n buf Hn Hl) as [H1 H2]. unfold decrypt_blocks.
  rewrite H1, H2, Hl. destruct (cbc_decrypt _ _ _) as [o iv]. eauto.
Qed.

(** decryption goes on where it stopped *)
Lemma cbc_decrypt_app k (n : nat) iv a b : len k = 32 -> wf_iv iv -> bytes_ok a -> len a = 16 * Z.of_nat n ->
  exists o1 iv1, cbc_decrypt k iv a = (o1, iv1) /\ len o1 = len a /\ len iv1 = 16 /\ bytes_ok iv1 /\
    cbc_decrypt k iv (a ++ b) = (let '(o2, iv2) := cbc_decrypt k iv1 b in (o1 ++ o2, iv2)).
Proof.
  intros Hk. revert iv a. induction n as [|n IH]; intros iv a [Hivo Hiv] Ha Hl.
  - destruct a; [|rewrite len_cons in Hl; pose proof (len_nonneg a); lia].
    exists [], iv. rewrite cbc_decrypt_nil. split_and!; try done. cbn [app]. by destruct (cbc_decrypt k iv b).
  - destruct (split_at a 16) as (c & a' & -> & Hc); [lia|lia|]. rewrite len_app in Hl.
    apply bytes_ok_app in Ha as [Hco Ha].
    destruct (IH c a' (conj Hco Hc) Ha ltac:(lia)) as (o1 & iv1 & E & H1 & H2 & H3 & H4).
    rewrite <- app_assoc, !cbc_decrypt_cons by done. rewrite E, H4. cbv zeta.
    assert (len (xor_bytes (aes_decrypt_block k c) iv) = 16) as Hx by (by rewrite len_xor; rewrite aes_dec_len).
    eexists _, _. split; [done|]. rewrite !len_app, Hx. split; [lia|]. split_and!; try done.
    destruct (cbc_decrypt k iv1 b). by rewrite <- app_assoc.
Qed.

(** the whole blocks of a buffer are decrypted, the rest is left *)
Lemma decrypt_blocks_split a buf : len (key_bytes (aes_key a)) = 32 -> wf_iv (iv_dec a) -> bytes_ok buf ->
  exists w rest o a', buf = w ++ rest /\ len w mod 16 = 0 /\ len rest < 16 /\ len o = len w /\
    decrypt_blocks a buf = (a', o ++ rest, if len w =? 0 then None else Some (len w)) /\
    aes_key a' = aes_key a /\ wf_iv (iv_dec a') /\
    forall b, cbc_decrypt (key_bytes (aes_key a)) (iv_dec a) (w ++ b) =
      (let '(o2, iv2) := cbc_decrypt (key_bytes (aes_key a)) (iv_dec a') b in (o ++ o2, iv2)).
Proof.
  intros Hk Hiv Hb. destruct (blocks_len buf) as [Hr Hn]. unfold decrypt_blocks. pose proof (len_nonneg buf).
  destruct (Z.ltb_spec (len buf) AES_BLOCK_SIZE) as [Hs|Hs].
  { exists [], buf, [], a. split_and!; try done. intros b. cbn [app]. by destruct (cbc_decrypt _ _ b). }
  set (e := len buf / AES_BLOCK_SIZE * AES_BLOCK_SIZE) in *.
  destruct (cbc_decrypt_app (key_bytes (aes_key a)) _ (iv_dec a) (ztake e buf) [] Hk Hiv (bytes_ok_ztake e buf Hb) Hn)
    as (o1 & iv1 & E & Hl & H1 & H2 & _).
  assert (len (ztake e buf) = e) as He by (apply len_ztake; lia).
  exists (ztake e buf), (zdrop e buf), o1, (mkAes256 (aes_key a) (iv_enc a) iv1).
  rewrite E. rewrite !He. rewrite He in Hl. unfold AES_BLOCK_SIZE in *.
  split; [by rewrite ztake_zdrop|]. split; [unfold e; rewrite Z.mul_comm; apply Z_mod_mult_l || (Z.div_mod_to_equations; lia)|].
  split; [rewrite len_zdrop by lia; unfold e; Z.div_mod_to_equations; lia|]. split; [done|].
  split; [rewrite (proj2 (Z.eqb_neq _ _)); [done|]; unfold e; Z.div_mod_to_equations; lia|]. split; [done|]. split; [done|].
  intros b. destruct (cbc_decrypt_app (key_bytes (aes_key a)) _ (iv_dec a) (ztake e buf) b Hk Hiv (bytes_ok_ztake e buf Hb) Hn)
    as (o2 & iv2 & E2 & _ & _ & _ & H3).
  rewrite E in E2. injection E2 as <- <-. exact H3.
Qed.

End Aes.

(** ** A reference implementation: the identity as block cipher *)

Module AesRef.

Fixpoint cbc (enc : bool) (n : nat) (iv d : bytes) : bytes * bytes :=
  match n with
  | O => ([], iv)
  | S n =>
      match d with
      | [] => ([], iv)
      | _ =>
          let b := ztake 16 d in
          let x := xor_bytes b iv in
          let '(o, iv') := cbc enc n (if enc then x else b) (zdrop 16 d) in (x ++ o, iv')
      end
  end.

Lemma cbc_cons enc b rest iv n : len b = 16 -> (length rest <= n)%nat ->
  cbc enc (16 + n) iv (b ++ rest) =
  let x := xor_bytes b iv in
  let '(o, iv') := cbc enc (15 + n) (if enc then x else b) rest in (x ++ o, iv').
Proof.
  intros Hb Hn. assert (b ++ rest <> []) as Hne.
  { intros [-> _]%app_nil. done. }
  change (16 + n)%nat with (S (15 + n)). cbn [cbc].
  destruct (b ++ rest) eqn:E; [done|]. rewrite <- E. rewrite ztake_app, zdrop_app by done. done.
Qed.

Lemma cbc_fuel enc n m iv d : (length d <= n)%nat -> (length d <= m)%nat ->
  cbc enc n iv d = cbc enc m iv d.
Proof.
  revert m iv d. induction n as [|n IH]; intros m iv d Hn Hm.
  - destruct d; [|simpl in Hn; lia]. by destruct m.
  - destruct m as [|m]; [destruct d; [done|simpl in Hm; lia]|].
    destruct d as [|z d]; [done|]. cbn [cbc].
    rewrite (IH m); [done| |]; unfold zdrop; rewrite length_drop; simpl in *; lia.
Qed.

End AesRef.

Definition aes_ref : AesCrate.
Proof.
  refine {|
    aes_encrypt_block := fun _ b => b;
    aes_decrypt_block := fun _ b => b;
    cbc_encrypt := fun _ iv d => AesRef.cbc true (length d) iv d;
    cbc_decrypt := fun _ iv d => AesRef.cbc false (length d) iv d
  |}; try done.
  - intros k iv b rest Hb. rewrite (AesRef.cbc_fuel _ _ (16 + length rest)).
    + rewrite AesRef.cbc_cons by done. cbv zeta.
      by rewrite (AesRef.cbc_fuel _ (length rest) (15 + length rest)) by lia.
    + done.
    + rewrite length_app. unfold len in Hb. lia.
  - intros k iv b rest Hb. rewrite (AesRef.cbc_fuel _ _ (16 + length rest)).
    + rewrite AesRef.cbc_cons by done. cbv zeta.
      by rewrite (AesRef.cbc_fuel _ (length rest) (15 + length rest)) by lia.
    + done.
    + rewrite length_app. unfold len in Hb. lia.
Defined.

(** ** Properties *)

Module AesProps.

(** what a peer sends, and what the other side makes of it, call by call *)
Fixpoint send_all {aes : AesCrate} (a : Aes256) (bufs : list bytes) : Aes256 * list bytes :=
  match bufs with
  | [] => (a, [])
  | b :: bufs =>
      let '(a, ct, _) := encrypt_blocks a b in
      let '(a, cts) := send_all a bufs in (a, ct :: cts)
  end.

Fixpoint recv_all {aes : AesCrate} (a : Aes256) (cts : list bytes) : Aes256 * list bytes :=
  match cts with
  | [] => (a, [])
  | c :: cts =>
      let '(a, b, _) := decrypt_blocks a c in
      let '(a, bufs) := recv_all a cts in (a, b :: bufs)
  end.

(** Two [Aes256] states that share a key and a chaining value stay in sync
    over any sequence of buffers: decrypting, in order, what the other side
    encrypted gives back every buffer (also the ones with an incomplete last
    block), every ciphertext has the length of its buffer, and the two ends
    agree on the chaining value afterwards. *)
Theorem aes_stream_roundtrip {aes : AesCrate} (a b : Aes256) (bufs : list bytes) :
  wf_Aes256 a -> in_sync a b -> Forall bytes_ok bufs ->
  let '(a', cts) := send_all a bufs in
  let '(b', bufs') := recv_all b cts in
  bufs' = bufs /\ map len cts = map len bufs /\ in_sync a' b'.
Proof.
  intros Ha Hs Hb. revert a b Ha Hs. induction Hb as [|d bufs Hd _ IH]; intros a b Ha Hs; [done|].
  cbn [send_all]. destruct (encrypt_blocks a d) as [[a1 ct] r] eqn:E.
  destruct (encrypt_decrypt_blocks a b d Ha Hs Hd _ _ _ E) as (Hl & _ & Ha1 & _ & b1 & E1 & Hs1 & _).
  specialize (IH a1 b1 Ha1 Hs1). destruct (send_all a1 bufs) as [a2 cts].
  cbn [recv_all]. rewrite E1. destruct (recv_all b1 cts) as [b2 bufs'].
  destruct IH as (-> & IHl & IHs). cbn [map]. rewrite Hl, IHl. done.
Qed.

Lemma aes_stream_roundtrip_witness :
  let a := mkAes256 (mkSessionKey (zeros 32)) (replicate 16 7) (zeros 16) in
  let b := mkAes256 (mkSessionKey (zeros 32)) (zeros 16) (replicate 16 7) in
  let '(a', cts) := @send_all aes_ref a [replicate 20 1; [5]; replicate 32 2] in
  let '(b', bufs') := @recv_all aes_ref b cts in
  bufs' = [replicate 20 1; [5]; replicate 32 2] /\
  map len cts = map len [replicate 20 1; [5]; replicate 32 2] /\ in_sync a' b'.
Proof.
  apply (@aes_stream_roundtrip aes_ref
    (mkAes256 (mkSessionKey (zeros 32)) (replicate 16 7) (zeros 16))
    (mkAes256 (mkSessionKey (zeros 32)) (zeros 16) (replicate 16 7))
    [replicate 20 1; [5]; replicate 32 2]).
  - split_and!; split; cbn; try done; repeat constructor; done.
  - done.
  - repeat constructor; done.
Defined.

End AesProps.
