(* ===== verification/Data.v ===== *)
(** * Common structures: [src/data/mod.rs] and [src/data/frame.rs]

    Hashes, dates, strings, mappings, certificates, router identities and
    router infos, with the parsers and generators of their wire format. *)

From S2P Require Import Prelude Nom Cookie Wire Util Crypto ElGamal.

(** ** Simple data types *)

Inductive ReadError :=
| FileIo (e : bytes)
| RIncomplete (n : Needed)
| RParser.

(** [impl From<nom::Err<T>> for ReadError] *)
Definition ReadError_from {I} (e : NomErr I) : ReadError :=
  match e with Incomplete n => RIncomplete n | _ => RParser end.

Record Hash := mkHash { hash_bytes : bytes }.
Record I2PDate := mkI2PDate { date_ms : Z }.
Record I2PString := mkI2PString { str : bytes }.
Record SessionTag := mkSessionTag { tag_bytes : bytes }.
Record TunnelId := mkTunnelId { tid_val : Z }.

#[export] Instance Hash_eq_dec : EqDecision Hash.
Proof. solve_decision. Defined.
#[export] Instance Hash_countable : Countable Hash.
Proof. by apply (inj_countable' hash_bytes mkHash); intros []. Defined.
#[export] Instance I2PString_eq_dec : EqDecision I2PString.
Proof. solve_decision. Defined.
#[export] Instance I2PString_countable : Countable I2PString.
Proof. by apply (inj_countable' str mkI2PString); intros []. Defined.
#[export] Instance TunnelId_eq_dec : EqDecision TunnelId.
Proof. solve_decision. Defined.
#[export] Instance TunnelId_countable : Countable TunnelId.
Proof. by apply (inj_countable' tid_val mkTunnelId); intros []. Defined.
#[export] Instance I2PDate_eq_dec : EqDecision I2PDate.
Proof. solve_decision. Defined.

Definition wf_Hash (h : Hash) : Prop := bytes_ok (hash_bytes h) /\ len (hash_bytes h) = 32.
Definition wf_I2PDate (d : I2PDate) : Prop := u64_ok (date_ms d).
Definition wf_SessionTag (t : SessionTag) : Prop := bytes_ok (tag_bytes t) /\ len (tag_bytes t) = 32.
Definition wf_TunnelId (t : TunnelId) : Prop := u32_ok (tid_val t).

(** a string that fits its one-byte length *)
Definition wf_I2PString (s : I2PString) : Prop :=
  bytes_ok (str s) /\ utf8_ok (str s) = true /\ u8_ok (len (str s)).

Definition Hash_digest {sha : Sha2} (buf : bytes) : Hash := mkHash (sha256 buf).

(** [Hash::xor]: byte by byte *)
Definition Hash_xor (a b : Hash) : Hash :=
  mkHash (zip_with Z.lxor (hash_bytes a) (hash_bytes b)).

(** Time is the number of nanoseconds since the Unix epoch.
    [from_system_time] maps anything before the epoch to zero. *)
Definition I2PDate_from_system_time (t : Z) : I2PDate :=
  let d := if t <? 0 then 0 else t in
  mkI2PDate (d / 10 ^ 9 * 1000 + (d mod 10 ^ 9) / 10 ^ 6).

Definition I2PDate_to_system_time (d : I2PDate) : Z := date_ms d * 10 ^ 6.

(** [I2PString::to_csv]: [split(',')], which never returns an empty list *)
Fixpoint split_comma (acc l : bytes) : list bytes :=
  match l with
  | [] => [rev acc]
  | c :: l => if c =? 44 then rev acc :: split_comma [] l else split_comma (c :: acc) l
  end.
Definition to_csv (s : I2PString) : list I2PString := map mkI2PString (split_comma [] (str s)).

(** [&str] literals *)
Definition i2p_str (s : string) : I2PString := mkI2PString (ascii_bytes s).

Definition OPT_NET_ID : I2PString := i2p_str "netId".
Definition OPT_ROUTER_VERSION : I2PString := i2p_str "router.version".
Definition OPT_CAPS : I2PString := i2p_str "caps".
Definition NET_ID : I2PString := i2p_str "2".
Definition ROUTER_VERSION : I2PString := i2p_str "0.9.37".
Definition CAPS : I2PString := i2p_str "KU".

Record Mapping := mkMapping { entries : gmap I2PString I2PString }.

(** ** Certificates *)

Record KeyCertificate := mkKeyCertificate {
  kc_sig_type : SigType;
  kc_enc_type : EncType;
  kc_sig_data : bytes;
  kc_enc_data : bytes
}.

Inductive Certificate :=
| CertNull
| CertHashCash (payload : bytes)
| CertHidden
| CertSigned (payload : bytes)
| CertMultiple (payload : bytes)
| CertKey (kc : KeyCertificate).

Definition Certificate_code (c : Certificate) : Z :=
  match c with
  | CertNull => NULL_CERT
  | CertHashCash _ => HASH_CERT
  | CertHidden => HIDDEN_CERT
  | CertSigned _ => SIGNED_CERT
  | CertMultiple _ => MULTI_CERT
  | CertKey _ => KEY_CERT
  end.

Definition wf_KeyCertificate (kc : KeyCertificate) : Prop :=
  bytes_ok (kc_sig_data kc) /\ bytes_ok (kc_enc_data kc) /\
  len (kc_sig_data kc) = extra_data_len (kc_sig_type kc) (kc_enc_type kc) /\
  len (kc_enc_data kc) = enc_extra_data_len (kc_enc_type kc) (kc_sig_type kc).

Definition wf_Certificate (c : Certificate) : Prop :=
  match c with
  | CertNull | CertHidden => True
  | CertHashCash p | CertSigned p | CertMultiple p => bytes_ok p /\ u16_ok (len p)
  | CertKey kc => wf_KeyCertificate kc
  end.

Record Padding := mkPadding { padding_bytes : bytes }.

(** ** Simple frames: [src/data/frame.rs] *)

Section SimpleFrames.
Context {nom : Nom} {cf : CookieFactory}.

Definition hash : parser bytes Hash := map_pure (nom_take 32) mkHash.
Definition gen_hash (h : Hash) : gen := gen_slice (hash_bytes h).

Definition i2p_date : parser bytes I2PDate := map_pure be_u64 mkI2PDate.
Definition gen_i2p_date (d : I2PDate) : gen := gen_be_u64 (date_ms d).

Definition short_expiry : parser bytes I2PDate :=
  map_pure be_u32 (fun seconds => mkI2PDate (seconds * 1000)).
Definition gen_short_expiry (d : I2PDate) : gen := gen_be_u32 (date_ms d / 1000).

Definition i2p_string : parser bytes I2PString :=
  map_res (length_data be_u8)
    (fun s => Ret (if utf8_ok s then Ok (mkI2PString s) else Err tt)).
Definition gen_i2p_string (s : I2PString) : gen :=
  let buf := str s in gen_be_u8 (as_u8 (len buf)) >>> gen_slice buf.

(** [pairs.into_iter().collect()]: later duplicates win *)
Definition collect_pairs (pairs : list (I2PString * I2PString)) : gmap I2PString I2PString :=
  foldl (fun m p => <[p.1 := p.2]> m) ∅ pairs.

Definition mapping_pair : parser bytes (I2PString * I2PString) :=
  terminated (separated_pair i2p_string (nom_tag (ascii_bytes "=")) i2p_string)
             (nom_tag (ascii_bytes ";")).

Definition mapping : parser bytes Mapping :=
  map_pure (length_value be_u16 (many0 (complete mapping_pair)))
    (fun pairs => mkMapping (collect_pairs pairs)).

Definition gen_mapping_pair (p : I2PString * I2PString) : gen :=
  gen_i2p_string p.1 >>> gen_slice (ascii_bytes "=") >>>
  gen_i2p_string p.2 >>> gen_slice (ascii_bytes ";").

(** the order of [String]s: lexicographic on bytes *)
Fixpoint bytes_leb (a b : bytes) : bool :=
  match a, b with
  | [], _ => true
  | _ :: _, [] => false
  | x :: a, y :: b => (x <? y) || ((x =? y) && bytes_leb a b)
  end.

(** the order of key-value pairs *)
Definition pair_leb (p q : I2PString * I2PString) : bool :=
  if bytes_eqb (str p.1) (str q.1) then bytes_leb (str p.2) (str q.2)
  else bytes_leb (str p.1) (str q.1).

Definition pair_le (p q : I2PString * I2PString) : Prop := pair_leb p q = true.

#[export] Instance pair_le_dec : RelDecision pair_le.
Proof. intros p q. unfold pair_le. apply _. Defined.

(** [m.0.iter().sorted()] *)
Definition sorted_entries (m : Mapping) : list (I2PString * I2PString) :=
  merge_sort pair_le (map_to_list (entries m)).

Definition gen_mapping (m : Mapping) : gen :=
  len_prefixed (gen_many (sorted_entries m) gen_mapping_pair).

Definition session_tag : parser bytes SessionTag := map_pure (nom_take 32) mkSessionTag.
Definition gen_session_tag (t : SessionTag) : gen := gen_slice (tag_bytes t).

Definition tunnel_id : parser bytes TunnelId := map_pure be_u32 mkTunnelId.
Definition gen_tunnel_id (t : TunnelId) : gen := gen_be_u32 (tid_val t).

(** *** Round trips *)

Lemma rt_hash h : wf_Hash h -> rt hash (gen_hash h) h.
Proof. intros [_ Hl]. eapply rt_map_pure; [by apply rt_slice|by destruct h]. Qed.
Lemma sound_hash : sound hash wf_Hash.
Proof. eapply sound_map_pure; [by apply sound_take|done]. Qed.

Lemma rt_i2p_date d : wf_I2PDate d -> rt i2p_date (gen_i2p_date d) d.
Proof. intros H. eapply rt_map_pure; [by apply rt_be_u64|by destruct d]. Qed.
Lemma sound_i2p_date : sound i2p_date wf_I2PDate.
Proof. eapply sound_map_pure; [apply sound_be_u64|done]. Qed.

Lemma rt_session_tag t : wf_SessionTag t -> rt session_tag (gen_session_tag t) t.
Proof. intros [_ Hl]. eapply rt_map_pure; [by apply rt_slice|by destruct t]. Qed.
Lemma sound_session_tag : sound session_tag wf_SessionTag.
Proof. eapply sound_map_pure; [by apply sound_take|done]. Qed.

Lemma rt_tunnel_id t : wf_TunnelId t -> rt tunnel_id (gen_tunnel_id t) t.
Proof. intros H. eapply rt_map_pure; [by apply rt_be_u32|by destruct t]. Qed.
Lemma sound_tunnel_id : sound tunnel_id wf_TunnelId.
Proof. eapply sound_map_pure; [apply sound_be_u32|done]. Qed.

(** A short expiry keeps whole seconds below [2^32]; what the generator
    drops is the milliseconds. *)
Lemma rt_short_expiry d :
  0 <= date_ms d < 1000 * 2 ^ 32 ->
  rt short_expiry (gen_short_expiry d) (mkI2PDate (date_ms d / 1000 * 1000)).
Proof.
  intros H. eapply rt_map_pure; [apply rt_be_u32|done].
  unfold u32_ok. Z.div_mod_to_equations. lia.
Qed.
Lemma sound_short_expiry : sound short_expiry (fun d => wf_I2PDate d /\ date_ms d mod 1000 = 0).
Proof.
  eapply sound_map_pure; [apply sound_be_u32|]. intros s Hs. cbn.
  unfold wf_I2PDate, u64_ok, u32_ok in *. cbn. rewrite Z.mod_mul by lia. lia.
Qed.

Lemma rt_session_key k : wf_SessionKey k -> rt session_key (gen_session_key k) k.
Proof. intros H. exists (key_bytes k). split; [apply writes_slice | by apply parses_session_key]. Qed.

(** the bytes of a string: its length and its contents *)
Definition enc_string (s : I2PString) : bytes := be_bytes 1 (len (str s)) ++ str s.

Lemma writes_i2p_string s : u8_ok (len (str s)) -> writes (gen_i2p_string s) (enc_string s).
Proof.
  intros Hl. unfold gen_i2p_string, enc_string, as_u8. rewrite Z.mod_small by done.
  apply writes_seq; [apply writes_be_u8 | apply writes_slice].
Qed.

Lemma parses_i2p_string s : wf_I2PString s -> parses i2p_string (enc_string s) s.
Proof.
  intros (_ & Hu & Hl). eapply parses_map_res.
  - by eapply parses_length_data; [by apply parses_be_u8|].
  - rewrite Hu. by destruct s.
Qed.

Lemma sound_i2p_string : sound i2p_string wf_I2PString.
Proof.
  eapply sound_map_res; [apply sound_length_data; [apply sound_be_u8|by intros ? []]|].
  intros d s [Hok Hl] H. destruct (utf8_ok d) eqn:E; [|done]. by injection H as <-.
Qed.

Definition enc_pair (p : I2PString * I2PString) : bytes :=
  enc_string p.1 ++ ascii_bytes "=" ++ enc_string p.2 ++ ascii_bytes ";".

Definition wf_pair (p : I2PString * I2PString) : Prop := wf_I2PString p.1 /\ wf_I2PString p.2.

Lemma writes_mapping_pair p : wf_pair p -> writes (gen_mapping_pair p) (enc_pair p).
Proof.
  intros [(_ & _ & H1) (_ & _ & H2)].
  repeat first [by apply writes_i2p_string | apply writes_slice | apply writes_seq].
Qed.

Lemma parses_mapping_pair p : wf_pair p -> parses mapping_pair (enc_pair p) p.
Proof.
  intros [H1 H2]. destruct p as [k v]. unfold enc_pair. cbn [fst snd] in *.
  rewrite (app_assoc (ascii_bytes "=")), (app_assoc (enc_string k)).
  eapply parses_terminated; [|apply parses_tag].
  eapply parses_separated_pair; [by apply parses_i2p_string|apply parses_tag|by apply parses_i2p_string].
Qed.

Lemma sound_mapping_pair : sound mapping_pair wf_pair.
Proof.
  eapply sound_terminated; [|apply sound_tag].
  eapply sound_separated_pair; [apply sound_i2p_string|apply sound_tag|apply sound_i2p_string].
Qed.

(** the bytes of a mapping, without the length *)
Definition enc_entries (m : Mapping) : bytes := concat (map enc_pair (sorted_entries m)).

Definition wf_entries (m : Mapping) : Prop :=
  map_Forall (fun k v => wf_I2PString k /\ wf_I2PString v) (entries m).

Definition wf_Mapping (m : Mapping) : Prop := wf_entries m /\ u16_ok (len (enc_entries m)).

Lemma sorted_entries_perm m : sorted_entries m ≡ₚ map_to_list (entries m).
Proof. apply merge_sort_Permutation. Qed.

Lemma sorted_entries_wf m : wf_entries m -> Forall wf_pair (sorted_entries m).
Proof.
  intros H. rewrite sorted_entries_perm. apply Forall_forall. intros [k v] Hin.
  apply elem_of_map_to_list in Hin. by apply H in Hin.
Qed.

Lemma collect_pairs_list l : NoDup l.*1 -> collect_pairs l = list_to_map l.
Proof.
  intros Hnd. unfold collect_pairs. rewrite <- (reverse_involutive l) at 1.
  transitivity (list_to_map (M := gmap I2PString I2PString) (reverse l)).
  - generalize (reverse l) as l'. intros l'.
    induction l' as [|[k v] l' IH]; [done|].
    rewrite reverse_cons, foldl_app, IH. done.
  - symmetry. apply list_to_map_proper; [done|]. symmetry. apply reverse_Permutation.
Qed.

(** sorting and collecting gives the map back *)
Lemma collect_sorted m : collect_pairs (sorted_entries m) = entries m.
Proof.
  rewrite collect_pairs_list.
  - etrans; [|apply list_to_map_to_list].
    apply list_to_map_proper; [|apply sorted_entries_perm].
    rewrite sorted_entries_perm. apply NoDup_fst_map_to_list.
  - rewrite sorted_entries_perm. apply NoDup_fst_map_to_list.
Qed.

Lemma mapping_pair_nil : exists k, mapping_pair [] = PErr (Incomplete k).
Proof.
  destruct (be_u8_short []) as [k Hk]; [done|]. exists k.
  unfold mapping_pair. rewrite terminated_eq, separated_pair_eq.
  unfold i2p_string. by rewrite map_res_eq, length_data_eq, Hk.
Qed.

Lemma enc_pair_len p : 0 < len (enc_pair p).
Proof.
  unfold enc_pair, enc_string. rewrite !len_app, !len_be_bytes.
  pose proof (len_nonneg (str p.1)). pose proof (len_nonneg (str p.2)).
  unfold len in *. simpl. lia.
Qed.

Lemma writes_mapping m : wf_entries m ->
  writes (gen_mapping m) (be_bytes 2 (len (enc_entries m)) ++ enc_entries m).
Proof.
  intros Hwf. apply writes_len_prefixed, writes_many.
  eapply Forall_impl; [by apply sorted_entries_wf|]. apply writes_mapping_pair.
Qed.

Lemma rt_mapping m : wf_Mapping m -> rt mapping (gen_mapping m) m.
Proof.
  intros [Hwf Hl]. destruct mapping_pair_nil as [k Hk].
  eapply rt_map_pure.
  - eapply rt_len_prefixed; [| |exact Hl].
    + apply writes_many. eapply Forall_impl; [by apply sorted_entries_wf|]. apply writes_mapping_pair.
    + eapply many0_complete_all; [|exact Hk].
      eapply Forall_impl; [by apply sorted_entries_wf|]. intros p Hp.
      split; [by apply parses_mapping_pair | apply enc_pair_len].
  - rewrite collect_sorted. by destruct m.
Qed.

Lemma collect_pairs_wf l : Forall wf_pair l -> wf_entries (mkMapping (collect_pairs l)).
Proof.
  intros H. unfold wf_entries, collect_pairs. cbn.
  assert (forall m : gmap I2PString I2PString, map_Forall (fun k v => wf_I2PString k /\ wf_I2PString v) m ->
    map_Forall (fun k v => wf_I2PString k /\ wf_I2PString v)
      (foldl (fun m p => <[p.1 := p.2]> m) m l)) as Hg; [|apply Hg; by apply map_Forall_empty].
  induction H as [|p l Hp _ IH]; intros m Hm; [done|].
  simpl. apply IH. by apply map_Forall_insert_2.
Qed.

Lemma sound_mapping : sound mapping wf_entries.
Proof.
  eapply sound_map_pure; [|apply collect_pairs_wf].
  eapply sound_length_value; [apply sound_be_u16|by intros ? []|].
  apply sound_many0, sound_complete, sound_mapping_pair.
Qed.

End SimpleFrames.

#[export] Hint Resolve rt_hash rt_i2p_date rt_session_tag rt_tunnel_id rt_session_key rt_mapping : wire.
#[export] Hint Resolve sound_hash sound_i2p_date sound_session_tag sound_tunnel_id
  sound_i2p_string sound_mapping : parse.

(** ** Certificates and identities: [src/data/frame.rs] *)

Section Frames.
Context {nom : Nom} {cf : CookieFactory} {bu : BigUintOps} {sc : SigCrates}.

Definition split_signing_key (base_data : bytes) (cert : Certificate)
  : outcome (result SigningPublicKey CryptoError) :=
  match cert with
  | CertKey kc =>
      if extra_data_len (kc_sig_type kc) (kc_enc_type kc) >? 0 then
        spk_from_bytes (kc_sig_type kc) (base_data ++ kc_sig_data kc)
      else
        let pad := pad_len (kc_sig_type kc) (kc_enc_type kc) in
        spk_from_bytes (kc_sig_type kc) (zdrop pad base_data)
  | _ => spk_from_bytes DsaSha1 base_data
  end.

Definition gen_truncated_signing_key (key : SigningPublicKey) : gen :=
  gen_slice_of (let! b := spk_as_bytes key in
                Ret (if len b >? KEYCERT_SIGKEY_BYTES then slice 0 KEYCERT_SIGKEY_BYTES b else b)).

Definition keycert_padding (base_data : bytes) (cert : Certificate) : option Padding :=
  let n := match cert with
           | CertKey kc => Some (pad_len (kc_sig_type kc) (kc_enc_type kc))
           | _ => None
           end in
  match n with
  | Some n => if n >? 0 then Some (mkPadding (slice 0 n base_data)) else None
  | None => None
  end.

Definition key_certificate : parser bytes KeyCertificate := fun i =>
  let_p (i, (st, et)) := nom_pair sig_type enc_type i in
  map_pure (nom_pair (nom_take (extra_data_len st et)) (nom_take (enc_extra_data_len et st)))
    (fun '(sig_data, enc_data) => mkKeyCertificate st et sig_data enc_data) i.

Definition gen_key_certificate (kc : KeyCertificate) : gen :=
  gen_sig_type (kc_sig_type kc) >>> gen_enc_type (kc_enc_type kc) >>>
  gen_slice (kc_sig_data kc) >>> gen_slice (kc_enc_data kc).

Definition certificate : parser bytes Certificate := fun i =>
  let_p (i, cert_type) := be_u8 i in
  if cert_type =? NULL_CERT then map_pure (nom_tag [0; 0]) (fun _ => CertNull) i
  else if cert_type =? HASH_CERT then map_pure (length_data be_u16) CertHashCash i
  else if cert_type =? HIDDEN_CERT then map_pure (nom_tag [0; 0]) (fun _ => CertHidden) i
  else if cert_type =? SIGNED_CERT then map_pure (length_data be_u16) CertSigned i
  else if cert_type =? MULTI_CERT then map_pure (length_data be_u16) CertMultiple i
  else if cert_type =? KEY_CERT then map_pure (length_value be_u16 key_certificate) CertKey i
  else PErr (Error i KSwitch).

Definition gen_certificate (cert : Certificate) : gen :=
  match cert with
  | CertNull => gen_be_u8 NULL_CERT >>> gen_be_u16 0
  | CertHashCash payload =>
      gen_be_u8 HASH_CERT >>> gen_be_u16 (as_u16 (len payload)) >>> gen_slice payload
  | CertHidden => gen_be_u8 HIDDEN_CERT >>> gen_be_u16 0
  | CertSigned payload =>
      gen_be_u8 SIGNED_CERT >>> gen_be_u16 (as_u16 (len payload)) >>> gen_slice payload
  | CertMultiple payload =>
      gen_be_u8 MULTI_CERT >>> gen_be_u16 (as_u16 (len payload)) >>> gen_slice payload
  | CertKey kc => gen_be_u8 KEY_CERT >>> len_prefixed (gen_key_certificate kc)
  end.

Record RouterIdentity := mkRouterIdentity {
  public_key_ : PublicKey;
  padding : option Padding;
  signing_key_ : SigningPublicKey;
  certificate_ : Certificate
}.

Definition router_identity : parser bytes RouterIdentity :=
  map_res (nom_pair public_key (nom_pair (nom_take KEYCERT_SIGKEY_BYTES) certificate))
    (fun '(pk, (signing_data, cert)) =>
       let pad := keycert_padding signing_data cert in
       let! r := split_signing_key signing_data cert in
       Ret (rmap (fun sk => mkRouterIdentity pk pad sk cert) r)).

Definition is_some {A} (o : option A) : bool := match o with Some _ => true | None => false end.

Definition gen_router_identity (rid : RouterIdentity) : gen :=
  gen_public_key (public_key_ rid) >>>
  gen_cond (is_some (padding rid)) (gen_unwrap (padding rid) (fun p => gen_slice (padding_bytes p))) >>>
  gen_truncated_signing_key (signing_key_ rid) >>>
  gen_certificate (certificate_ rid).

Record RouterSecretKeys := mkRouterSecretKeys {
  rid_ : RouterIdentity;
  private_key_ : PrivateKey;
  signing_private_key_ : SigningPrivateKey
}.

Definition router_secret_keys : parser bytes RouterSecretKeys := fun i =>
  let_p (i, (rid, pk)) := nom_pair router_identity private_key i in
  let_p (i, spk) := signing_private_key (spk_sig_type (signing_key_ rid)) i in
  POk i (mkRouterSecretKeys rid pk spk).

Definition gen_router_secret_keys (rsk : RouterSecretKeys) : gen :=
  gen_router_identity (rid_ rsk) >>> gen_private_key (private_key_ rsk) >>>
  gen_signing_private_key (signing_private_key_ rsk).

Record RouterAddress := mkRouterAddress {
  cost : Z;
  expiration : I2PDate;
  transport_style : I2PString;
  options : Mapping
}.

Definition router_address : parser bytes RouterAddress :=
  map_pure (nom_pair be_u8 (nom_pair i2p_date (nom_pair i2p_string mapping)))
    (fun '(c, (e, (t, o))) => mkRouterAddress c e t o).

Definition gen_router_address (addr : RouterAddress) : gen :=
  gen_be_u8 (cost addr) >>> gen_i2p_date (expiration addr) >>>
  gen_i2p_string (transport_style addr) >>> gen_mapping (options addr).

Record RouterInfo := mkRouterInfo {
  router_id : RouterIdentity;
  published : I2PDate;
  addresses : list RouterAddress;
  peers : list Hash;
  ri_options : Mapping;
  ri_signature : option Signature
}.

Definition router_info : parser bytes RouterInfo := fun i =>
  let_p (i, rid) := router_identity i in
  let_p (i, (published, (addresses, (peers, (options, sig))))) :=
    nom_pair i2p_date
      (nom_pair (length_count be_u8 router_address)
        (nom_pair (length_count be_u8 hash)
          (nom_pair mapping (signature (spk_sig_type (signing_key_ rid)))))) i in
  POk i (mkRouterInfo rid published addresses peers options (Some sig)).

Definition gen_router_info_minus_sig (ri : RouterInfo) : gen :=
  gen_router_identity (router_id ri) >>>
  gen_i2p_date (published ri) >>>
  gen_be_u8 (as_u8 (len (addresses ri))) >>>
  gen_many (addresses ri) gen_router_address >>>
  gen_be_u8 (as_u8 (len (peers ri))) >>>
  gen_many (peers ri) gen_hash >>>
  gen_mapping (ri_options ri).

Definition gen_router_info (ri : RouterInfo) : gen :=
  match ri_signature ri with
  | Some s => gen_router_info_minus_sig ri >>> gen_signature s
  | None => gen_fail (CustomError 1)
  end.

(** *** Well-formedness *)

(** The certificate says what the signing key is; what the key leaves of its
    128 bytes is padding. *)
Definition wf_identity_parts (pad : option Padding) (k : SigningPublicKey) (c : Certificate) : Prop :=
  wf_spk k /\ wf_Certificate c /\
  match c with
  | CertKey kc =>
      kc_sig_type kc = spk_sig_type k /\
      match pad with
      | Some p => bytes_ok (padding_bytes p) /\ len (padding_bytes p) = pad_len (kc_sig_type kc) (kc_enc_type kc)
                  /\ 0 < len (padding_bytes p)
      | None => pad_len (kc_sig_type kc) (kc_enc_type kc) = 0
      end
  | _ => spk_sig_type k = DsaSha1 /\ pad = None
  end.

Definition wf_RouterIdentity (rid : RouterIdentity) : Prop :=
  wf_PublicKey (public_key_ rid) /\
  wf_identity_parts (padding rid) (signing_key_ rid) (certificate_ rid).

Definition wf_RouterSecretKeys (rsk : RouterSecretKeys) : Prop :=
  wf_RouterIdentity (rid_ rsk) /\ wf_PrivateKey (private_key_ rsk) /\
  wf_ssk (signing_private_key_ rsk) /\ spk_sig_type (signing_key_ (rid_ rsk)) = Ed25519.

Definition wf_RouterAddress (a : RouterAddress) : Prop :=
  u8_ok (cost a) /\ wf_I2PDate (expiration a) /\ wf_I2PString (transport_style a) /\
  wf_Mapping (options a).

(** everything but the signature *)
Definition wf_ri_body (ri : RouterInfo) : Prop :=
  wf_RouterIdentity (router_id ri) /\ wf_I2PDate (published ri) /\
  Forall wf_RouterAddress (addresses ri) /\ u8_ok (len (addresses ri)) /\
  Forall wf_Hash (peers ri) /\ u8_ok (len (peers ri)) /\
  wf_Mapping (ri_options ri).

Definition wf_RouterInfo (ri : RouterInfo) : Prop :=
  wf_ri_body ri /\
  match ri_signature ri with
  | Some s => wf_sig (spk_sig_type (signing_key_ (router_id ri))) s
  | None => False
  end.

(** *** Round trips *)

Lemma rt_i2p_string s : wf_I2PString s -> rt i2p_string (gen_i2p_string s) s.
Proof.
  intros H. exists (enc_string s).
  split; [apply writes_i2p_string; apply H | by apply parses_i2p_string].
Qed.

Lemma rt_sig_type t : rt sig_type (gen_sig_type t) t.
Proof. eapply rt_intro; [apply writes_be_u16 | apply parses_sig_type]. Qed.
Lemma rt_enc_type e : rt enc_type (gen_enc_type e) e.
Proof. eapply rt_intro; [apply writes_be_u16 | apply parses_enc_type]. Qed.
Lemma rt_public_key k : wf_PublicKey k -> rt public_key (gen_public_key k) k.
Proof. intros H. eapply rt_intro; [apply writes_slice | by apply parses_public_key]. Qed.
Lemma rt_private_key k : wf_PrivateKey k -> rt private_key (gen_private_key k) k.
Proof. intros H. eapply rt_intro; [apply writes_slice | by apply parses_private_key]. Qed.
Lemma rt_signature t s : wf_sig t s -> rt (signature t) (gen_signature s) s.
Proof.
  intros H. destruct (sig_roundtrip t s H) as (b & Hb & _ & _). exists b.
  split; [by apply writes_slice_of | by apply parses_signature].
Qed.
Lemma rt_signing_key k : wf_spk k -> rt (signing_key (spk_sig_type k)) (gen_signing_key k) k.
Proof.
  intros H. destruct (spk_roundtrip k H) as (b & Hb & _ & _). exists b.
  split; [by apply writes_slice_of | by apply parses_signing_key].
Qed.

Definition enc_key_certificate (kc : KeyCertificate) : bytes :=
  be_bytes 2 (SigType_code (kc_sig_type kc)) ++ be_bytes 2 (EncType_code (kc_enc_type kc)) ++
  kc_sig_data kc ++ kc_enc_data kc.

Lemma writes_key_certificate kc : writes (gen_key_certificate kc) (enc_key_certificate kc).
Proof.
  repeat first [apply writes_be_u16 | apply writes_slice | apply writes_seq].
Qed.

Lemma parses_key_certificate kc : wf_KeyCertificate kc ->
  parses key_certificate (enc_key_certificate kc) kc.
Proof.
  intros (_ & _ & Hs & He). unfold enc_key_certificate. rewrite app_assoc.
  eapply parses_bind; [apply parses_pair; [apply parses_sig_type|apply parses_enc_type]|].
  cbv beta iota. intros rest. apply (parses_map_pure _ _ (kc_sig_data kc ++ kc_enc_data kc)
    (kc_sig_data kc, kc_enc_data kc)).
  - apply parses_pair; by apply parses_take.
  - by destruct kc.
Qed.

Lemma len_key_certificate kc : wf_KeyCertificate kc -> u16_ok (len (enc_key_certificate kc)).
Proof.
  intros (_ & _ & Hs & He). unfold enc_key_certificate. rewrite !len_app, !len_be_bytes, Hs, He.
  by destruct kc as [[] [] ? ?].
Qed.

Lemma rt_payload_cert (C : bytes -> Certificate) payload (k : bytes -> IResult bytes Certificate) :
  u16_ok (len payload) -> (forall i, k i = map_pure (length_data be_u16) C i) ->
  rt k (gen_be_u16 (as_u16 (len payload)) >>> gen_slice payload) (C payload).
Proof.
  intros Hl Hk. eapply rt_ext; [exact Hk|done|].
  eapply rt_map_pure; [|done]. eapply rt_length_data; [by apply rt_len_u16|done].
Qed.

Lemma rt_empty_cert (c : Certificate) (k : bytes -> IResult bytes Certificate) :
  (forall i, k i = map_pure (nom_tag [0; 0]) (fun _ => c) i) -> rt k (gen_be_u16 0) c.
Proof.
  intros Hk. eapply rt_ext; [exact Hk|done|].
  eapply rt_map_pure; [|done]. eapply rt_intro; [apply writes_be_u16 | apply parses_tag].
Qed.

Lemma rt_certificate c : wf_Certificate c -> rt certificate (gen_certificate c) c.
Proof.
  intros Hwf. unfold certificate.
  destruct c; cbn [gen_certificate wf_Certificate] in *;
    (eapply rt_bind; [by apply rt_be_u8|]; cbn -[nom_tag length_data length_value]).
  - by apply rt_empty_cert.
  - by apply rt_payload_cert; [apply Hwf|].
  - by apply rt_empty_cert.
  - by apply rt_payload_cert; [apply Hwf|].
  - by apply rt_payload_cert; [apply Hwf|].
  - eapply rt_map_pure; [|done].
    eapply rt_len_prefixed; [apply writes_key_certificate| |by apply len_key_certificate].
    by apply parses_exact, parses_key_certificate.
Qed.


Lemma spk_len_le k b : wf_spk k -> spk_as_bytes k = Ret b -> len b <= 128.
Proof.
  intros Hwf Hb. destruct (spk_roundtrip k Hwf) as (b' & Hb' & Hl & _).
  rewrite Hb in Hb'. injection Hb' as <-. rewrite Hl. by destruct k.
Qed.

Lemma writes_truncated_signing_key k b :
  wf_spk k -> spk_as_bytes k = Ret b -> writes (gen_truncated_signing_key k) b.
Proof.
  intros Hwf Hb. apply writes_slice_of. rewrite Hb. cbn.
  pose proof (spk_len_le k b Hwf Hb).
  by destruct (Z.gtb_spec (len b) KEYCERT_SIGKEY_BYTES); [unfold KEYCERT_SIGKEY_BYTES in *; lia|].
Qed.

(** no key type with an implementation needs excess data *)
Lemma wf_spk_no_extra k e : wf_spk k -> extra_data_len (spk_sig_type k) e = 0.
Proof. by destruct k, e. Qed.

(** the 128 bytes before the certificate: padding, then the key *)
Definition pad_bytes (pad : option Padding) : bytes := from_option padding_bytes [] pad.

Lemma identity_signing_data pad k c b :
  wf_identity_parts pad k c -> spk_as_bytes k = Ret b ->
  len (pad_bytes pad ++ b) = KEYCERT_SIGKEY_BYTES /\
  keycert_padding (pad_bytes pad ++ b) c = pad /\
  split_signing_key (pad_bytes pad ++ b) c = Ret (Ok k).
Proof.
  intros (Hk & Hc & Hm) Hb. destruct (spk_roundtrip k Hk) as (b' & Hb' & Hl & Hf).
  rewrite Hb in Hb'. injection Hb' as <-.
  destruct c as [|p| |p|p|kc].
  1-5: destruct Hm as [Ht ->]; rewrite Ht in Hl, Hf;
       cbn [pad_bytes from_option app keycert_padding split_signing_key]; by rewrite Hl, Hf.
  destruct Hm as [Ht Hp]. cbn [keycert_padding split_signing_key].
  rewrite Ht in *. rewrite wf_spk_no_extra by done. cbn [Z.gtb Z.compare].
  pose proof (pad_extra_balance (spk_sig_type k) (kc_enc_type kc)) as Hbal.
  rewrite wf_spk_no_extra in Hbal by done.
  destruct pad as [[p]|]; cbn in *.
  - destruct Hp as (Hpo & Hpl & Hpos). split; [rewrite len_app; lia|].
    destruct (Z.gtb_spec (pad_len (spk_sig_type k) (kc_enc_type kc)) 0); [|lia]. split.
    + do 2 f_equal. apply (slice_app [] p b); llia.
    + rewrite zdrop_app by lia. done.
  - rewrite Hp in *. cbn. split; [lia|]. split; [done|]. exact Hf.
Qed.

Lemma writes_padding pad :
  writes (gen_cond (is_some pad) (gen_unwrap pad (fun p => gen_slice (padding_bytes p))))
         (pad_bytes pad).
Proof.
  destruct pad as [p|]; cbn.
  - apply writes_cond_true, writes_unwrap, writes_slice.
  - apply writes_cond_false.
Qed.

Lemma rt_router_identity rid :
  wf_RouterIdentity rid -> rt router_identity (gen_router_identity rid) rid.
Proof.
  intros [Hpk Hparts]. destruct (spk_roundtrip (signing_key_ rid)) as (b & Hb & _ & _); [apply Hparts|].
  destruct (identity_signing_data _ _ _ b Hparts Hb) as (Hl & Hpad & Hkey).
  destruct (rt_public_key _ Hpk) as (b1 & W1 & P1).
  destruct (rt_certificate (certificate_ rid)) as (b3 & W3 & P3); [apply Hparts|].
  exists (b1 ++ (pad_bytes (padding rid) ++ b) ++ b3). split.
  - pose proof (writes_padding (padding rid)).
    pose proof (writes_truncated_signing_key _ b (proj1 Hparts) Hb).
    unfold gen_router_identity. writes_solve.
  - eapply parses_map_res.
    + apply parses_pair; [exact P1|]. apply parses_pair; [by apply parses_take|exact P3].
    + cbn. rewrite Hpad, Hkey. cbn. by destruct rid.
Qed.

(** a certificate or an identity that has not arrived whole is waited for *)
Lemma waits_certificate c b : wf_Certificate c -> writes (gen_certificate c) b -> waits certificate b.
Proof.
  intros Hwf Hw. unfold certificate.
  assert (forall (C : bytes -> Certificate) payload, u16_ok (len payload) ->
    waits (map_pure (length_data be_u16) C) (be_bytes 2 (as_u16 (len payload)) ++ payload)) as Hpay.
  { intros C payload Hl. unfold as_u16. rewrite Z.mod_small by done.
    eapply waits_map_pure, waits_length_data; [by apply parses_be_u16|apply waits_be_u16|done]. }
  assert (forall d : Certificate, waits (map_pure (nom_tag [0; 0]) (fun _ : bytes => d)) (be_bytes 2 0)) as Htag
    by (intros d; apply waits_map_pure, (waits_tag [0; 0])).
  destruct c as [|p| |p|p|kc]; cbn [gen_certificate wf_Certificate] in *.
  1,3: rewrite (writes_det _ _ _ Hw (writes_seq _ _ _ _ (writes_be_u8 _) (writes_be_u16 _)));
    eapply waits_bind; [by apply parses_be_u8|apply waits_be_u8|apply Htag].
  1-3: rewrite (writes_det _ _ _ Hw (writes_seq _ _ _ _ (writes_be_u8 _) (writes_seq _ _ _ _ (writes_be_u16 _) (writes_slice _))));
    eapply waits_bind; [by apply parses_be_u8|apply waits_be_u8|apply Hpay, Hwf].
  rewrite (writes_det _ _ _ Hw (writes_seq _ _ _ _ (writes_be_u8 _) (writes_len_prefixed _ _ (writes_key_certificate kc)))).
  eapply waits_bind; [by apply parses_be_u8|apply waits_be_u8|].
  eapply waits_map_pure, waits_length_value; [apply parses_be_u16; by apply len_key_certificate|apply waits_be_u16|done].
Qed.

Lemma waits_router_identity rid b : wf_RouterIdentity rid -> writes (gen_router_identity rid) b -> waits router_identity b.
Proof.
  intros [Hpk Hparts] Hw. destruct (spk_roundtrip (signing_key_ rid)) as (bk & Hb & _ & _); [apply Hparts|].
  destruct (identity_signing_data _ _ _ bk Hparts Hb) as (Hl & _).
  destruct (rt_certificate (certificate_ rid)) as (b3 & W3 & P3); [apply Hparts|].
  pose proof (writes_padding (padding rid)) as Wp. pose proof (writes_truncated_signing_key _ bk (proj1 Hparts) Hb) as Wk.
  assert (writes (gen_router_identity rid) (pk_bytes (public_key_ rid) ++ (pad_bytes (padding rid) ++ bk) ++ b3)) as Hw'.
  { clear Hw. unfold gen_router_identity, gen_public_key. writes_solve. }
  rewrite (writes_det _ _ _ Hw Hw').
  eapply waits_map_res, waits_pair; [by apply parses_public_key|apply waits_map_pure, waits_take; symmetry; apply Hpk|].
  eapply waits_pair; [by apply parses_take|by apply waits_take|]. apply waits_certificate with (c := certificate_ rid); [apply Hparts|done].
Qed.

Lemma rt_router_secret_keys rsk :
  wf_RouterSecretKeys rsk -> rt router_secret_keys (gen_router_secret_keys rsk) rsk.
Proof.
  intros (Hr & Hp & Hs & Ht).
  destruct (rt_router_identity _ Hr) as (b1 & W1 & P1).
  destruct (rt_private_key _ Hp) as (b2 & W2 & P2).
  destruct (ssk_roundtrip _ Hs) as (b3 & Hb3 & _ & _).
  exists (b1 ++ b2 ++ b3). split.
  - repeat (apply writes_seq; [done|]). by apply writes_slice_of.
  - rewrite app_assoc. eapply parses_bind; [apply parses_pair; [exact P1|exact P2]|].
    cbv beta iota. intros rest. rewrite Ht.
    rewrite (parses_signing_private_key _ b3 Hs Hb3). cbn. by destruct rsk.
Qed.

Lemma rt_router_address a : wf_RouterAddress a -> rt router_address (gen_router_address a) a.
Proof.
  intros (Hc & He & Ht & Ho). eapply rt_map_pure.
  - apply rt_pair; [by apply rt_be_u8|]. apply rt_pair; [by apply rt_i2p_date|].
    apply rt_pair; [by apply rt_i2p_string|by apply rt_mapping].
  - by destruct a.
Qed.

Lemma rt_router_info ri : wf_RouterInfo ri -> rt router_info (gen_router_info ri) ri.
Proof.
  intros ((Hr & Hp & Ha & Hal & Hh & Hhl & Ho) & Hs). unfold gen_router_info.
  destruct (ri_signature ri) as [sig|] eqn:Esig; [|done].
  destruct (rt_router_identity _ Hr) as (b1 & W1 & P1).
  destruct (rt_i2p_date _ Hp) as (b2 & W2 & P2).
  destruct (rt_length_count_split be_u8 _ _ router_address gen_router_address (addresses ri)
              (rt_len_u8 _ Hal) eq_refl) as (b3 & b3' & W3 & W3' & P3);
    [by eapply Forall_impl; [exact Ha|apply rt_router_address]|].
  destruct (rt_length_count_split be_u8 _ _ hash gen_hash (peers ri)
              (rt_len_u8 _ Hhl) eq_refl) as (b4 & b4' & W4 & W4' & P4);
    [by eapply Forall_impl; [exact Hh|apply rt_hash]|].
  destruct (rt_mapping _ Ho) as (b5 & W5 & P5).
  destruct (rt_signature _ _ Hs) as (b6 & W6 & P6).
  exists (b1 ++ b2 ++ (b3 ++ b3') ++ (b4 ++ b4') ++ b5 ++ b6). split; [writes_solve|].
  eapply parses_bind; [exact P1|]. cbv beta. intros rest.
  rewrite (parses_pair _ _ _ _ _ _ P2 (parses_pair _ _ _ _ _ _ P3 (parses_pair _ _ _ _ _ _ P4
            (parses_pair _ _ _ _ _ _ P5 P6)))).
  cbn. rewrite <- Esig. by destruct ri.
Qed.

End Frames.

#[export] Hint Resolve rt_i2p_string rt_sig_type rt_enc_type rt_public_key rt_private_key
  rt_signature rt_certificate rt_router_identity rt_router_address rt_router_info : wire.

(** ** What the parsers accept is well-formed *)

Section Sound.
Context {nom : Nom} {cf : CookieFactory} {bu : BigUintOps} {sc : SigCrates}.

Lemma exact_i2p_string : exact i2p_string enc_string.
Proof.
  intros i r s Hi. unfold i2p_string. rewrite map_res_eq, length_data_eq.
  destruct (be_u8 i) as [[[i1 n]|]|] eqn:E1; [|done..]. cbn.
  pose proof (exact_be_u8 _ _ _ Hi E1) as ->.
  apply bytes_ok_app in Hi as [_ Hi1].
  destruct (sound_be_u8 _ _ _ (proj2 (bytes_ok_app _ _) (conj (be_bytes_ok 1 n) Hi1)) E1) as [Hn _].
  destruct (nom_take n i1) as [[[i2 b]|]|] eqn:E2; [|done..]. cbn.
  pose proof (exact_take n (proj1 Hn) _ _ _ Hi1 E2) as ->.
  destruct (sound_take n (proj1 Hn) _ _ _ Hi1 E2) as [[_ Hl] _].
  destruct (utf8_ok b); [|done]. intros [= <- <-].
  unfold enc_string. cbn [str]. by rewrite Hl.
Qed.

Lemma exact_mapping_pair : exact mapping_pair enc_pair.
Proof.
  intros i r p Hi. unfold mapping_pair. rewrite terminated_eq, separated_pair_eq. intros H.
  destruct (i2p_string i) as [[[i1 k]|]|] eqn:E1; [|done..]. cbn in H.
  destruct (sound_suffix_ok _ _ _ _ _ sound_i2p_string Hi E1) as [_ H1].
  destruct (nom_tag _ i1) as [[[i2 t1]|]|] eqn:E2; [|done..]. cbn in H.
  destruct (sound_suffix_ok _ _ _ _ _ (sound_tag _) H1 E2) as [_ H2].
  destruct (i2p_string i2) as [[[i3 v]|]|] eqn:E3; [|done..]. cbn in H.
  destruct (sound_suffix_ok _ _ _ _ _ sound_i2p_string H2 E3) as [_ H3].
  destruct (nom_tag _ i3) as [[[i4 t2]|]|] eqn:E4; [|done..]. cbn in H.
  injection H as <- <-.
  rewrite (exact_i2p_string _ _ _ Hi E1), (exact_tag _ _ _ _ H1 E2),
    (exact_i2p_string _ _ _ H2 E3), (exact_tag _ _ _ _ H3 E4).
  unfold enc_pair. cbn [fst snd]. by rewrite <- !app_assoc.
Qed.

(** the bytes a list of pairs takes *)
Definition enc_pairs (l : list (I2PString * I2PString)) : bytes := concat (map enc_pair l).

Lemma len_enc_pairs_perm l k : l ≡ₚ k -> len (enc_pairs l) = len (enc_pairs k).
Proof.
  unfold enc_pairs. induction 1; cbn [map concat]; rewrite ?len_app; lia.
Qed.

Lemma len_enc_insert (m : gmap I2PString I2PString) k v :
  len (enc_pairs (map_to_list (<[k:=v]> m))) <= len (enc_pairs (map_to_list m)) + len (enc_pair (k, v)).
Proof.
  destruct (m !! k) as [v'|] eqn:E.
  - rewrite <- insert_delete_eq.
    rewrite (len_enc_pairs_perm _ _ (map_to_list_insert (delete k m) k v (lookup_delete_eq _ _))).
    rewrite <- (insert_id m k v' E) at 2. rewrite <- (insert_delete_eq m k v').
    rewrite (len_enc_pairs_perm _ _ (map_to_list_insert (delete k m) k v' (lookup_delete_eq _ _))).
    unfold enc_pairs. cbn [map concat]. rewrite !len_app. pose proof (len_nonneg (enc_pair (k, v'))). lia.
  - rewrite (len_enc_pairs_perm _ _ (map_to_list_insert m k v E)).
    unfold enc_pairs. cbn [map concat]. rewrite len_app. lia.
Qed.

(** collecting pairs into a map never makes the encoding longer *)
Lemma len_enc_collect l :
  len (enc_entries (mkMapping (collect_pairs l))) <= len (enc_pairs l).
Proof.
  unfold enc_entries. fold (enc_pairs (sorted_entries (mkMapping (collect_pairs l)))).
  rewrite (len_enc_pairs_perm _ _ (sorted_entries_perm _)). cbn [entries].
  unfold collect_pairs.
  assert (forall m, len (enc_pairs (map_to_list (foldl (fun m p => <[p.1:=p.2]> m) m l)))
                    <= len (enc_pairs (map_to_list m)) + len (enc_pairs l)) as H.
  { induction l as [|[k v] l IH]; intros m; cbn [foldl fst snd]; [unfold enc_pairs; cbn [map concat]; llia|].
    etrans; [apply IH|]. pose proof (len_enc_insert m k v).
    change (enc_pairs ((k, v) :: l)) with (enc_pair (k, v) ++ enc_pairs l). rewrite len_app. lia. }
  etrans; [apply (H ∅)|]. rewrite map_to_list_empty. unfold enc_pairs at 1. simpl. llia.
Qed.

Lemma sound_mapping_wf : sound mapping wf_Mapping.
Proof.
  intros i r m Hi H. destruct (sound_mapping _ _ _ Hi H) as [Hwf Hsuf].
  split; [|done]. split; [done|]. clear Hwf Hsuf. revert H.
  unfold mapping, map_pure. rewrite nom_map_eq, length_value_eq.
  destruct (be_u16 i) as [[[i1 n]|]|] eqn:E1; [|done..]. cbn.
  destruct (sound_suffix_ok _ _ _ _ _ sound_be_u16 Hi E1) as [Hn Hi1].
  destruct (nom_take n i1) as [[[i2 b]|]|] eqn:E2; [|done..]. cbn.
  destruct (sound_take n (proj1 Hn) _ _ _ Hi1 E2) as [[Hb Hl] _].
  destruct (many0 (complete mapping_pair) b) as [[[r' l]|[]]|] eqn:E3; try done.
  cbn. intros [= _ <-].
  pose proof (exact_many0 _ _ exact_mapping_pair _ _ _ Hb E3) as Hb'.
  pose proof (len_enc_collect l) as Hc. unfold enc_pairs in Hc.
  rewrite Hb', len_app in Hl. pose proof (len_nonneg r').
  unfold u16_ok in *. pose proof (len_nonneg (enc_entries (mkMapping (collect_pairs l)))). lia.
Qed.

Lemma sound_key_certificate : sound key_certificate wf_KeyCertificate.
Proof.
  eapply sound_bind; [apply sound_pair; [apply sound_sig_type|apply sound_enc_type]|].
  intros [st et] _. cbv beta iota.
  eapply sound_map_pure; [apply sound_pair; apply sound_take|].
  - apply extra_data_len_nonneg.
  - by destruct et.
  - by intros [a b] [[? ?] [? ?]].
Qed.

Lemma sound_cert_payload (C : bytes -> Certificate) :
  (forall p, bytes_ok p /\ u16_ok (len p) -> wf_Certificate (C p)) ->
  sound (map_pure (length_data be_u16) C) wf_Certificate.
Proof.
  intros H. eapply sound_map_pure; [apply sound_length_data; [apply sound_be_u16|by intros ? []]|].
  exact H.
Qed.

Lemma sound_certificate : sound certificate wf_Certificate.
Proof.
  eapply sound_bind; [apply sound_be_u8|]. intros c _.
  repeat match goal with |- context [c =? ?k] => destruct (c =? k) end.
  - eapply sound_map_pure; [apply sound_tag|done].
  - by apply sound_cert_payload.
  - eapply sound_map_pure; [apply sound_tag|done].
  - by apply sound_cert_payload.
  - by apply sound_cert_payload.
  - eapply sound_map_pure; [|by intros kc Hkc].
    eapply sound_length_value; [apply sound_be_u16|by intros ? []|apply sound_key_certificate].
  - apply (sound_err _ (fun i => Error i KSwitch)).
Qed.

(** splitting the 128 bytes gives consistent parts *)
Lemma split_signing_key_sound d c k :
  bytes_ok d -> len d = KEYCERT_SIGKEY_BYTES -> wf_Certificate c ->
  split_signing_key d c = Ret (Ok k) -> wf_identity_parts (keycert_padding d c) k c.
Proof.
  unfold KEYCERT_SIGKEY_BYTES. intros Hok Hl Hc H.
  destruct c as [|p| |p|p|kc]; cbn [split_signing_key keycert_padding] in *.
  1-5: destruct (spk_from_bytes_sound DsaSha1 d k Hok Hl H) as (? & ? & _); done.
  pose proof (pad_extra_balance (kc_sig_type kc) (kc_enc_type kc)) as Hbal.
  pose proof (pad_len_bounds (kc_sig_type kc) (kc_enc_type kc)) as Hpb.
  pose proof (extra_data_len_nonneg (kc_sig_type kc) (kc_enc_type kc)) as He.
  unfold KEYCERT_SIGKEY_BYTES in Hbal.
  destruct (Z.gtb_spec (extra_data_len (kc_sig_type kc) (kc_enc_type kc)) 0) as [Hx|Hx].
  { exfalso. destruct kc as [[] [] ? ?]; cbn in H; first [discriminate H | by vm_compute in Hx]. }
  destruct (spk_from_bytes_sound (kc_sig_type kc) (zdrop (pad_len (kc_sig_type kc) (kc_enc_type kc)) d) k)
    as (Hk & Ht & _); [by apply bytes_ok_zdrop|rewrite len_zdrop; lia|done|].
  split; [done|]. split; [done|]. split; [done|].
  destruct (Z.gtb_spec (pad_len (kc_sig_type kc) (kc_enc_type kc)) 0); [|lia].
  cbn [padding_bytes]. unfold slice. rewrite Z.sub_0_r. change (zdrop 0 d) with d.
  rewrite len_ztake by lia. repeat split; [by apply bytes_ok_ztake|lia].
Qed.

Lemma sound_router_identity : sound router_identity wf_RouterIdentity.
Proof.
  eapply sound_map_res.
  - apply sound_pair; [apply sound_public_key|].
    apply sound_pair; [by apply sound_take|apply sound_certificate].
  - intros [pk [d c]] rid [Hpk [[Hd Hl] Hc]] H. cbn in *.
    destruct (split_signing_key d c) as [[k|]|] eqn:E; try discriminate H.
    injection H as <-. split; [done|]. by apply split_signing_key_sound.
Qed.

Lemma sound_router_address : sound router_address wf_RouterAddress.
Proof.
  eapply sound_map_pure.
  - apply sound_pair; [apply sound_be_u8|]. apply sound_pair; [apply sound_i2p_date|].
    apply sound_pair; [apply sound_i2p_string|apply sound_mapping_wf].
  - by intros (c & e & t & o) (? & ? & ? & ?).
Qed.

Lemma sound_count_u8 {A} (p : parser bytes A) P :
  sound p P -> sound (length_count be_u8 p) (fun l => Forall P l /\ u8_ok (len l)).
Proof.
  intros Hp. eapply sound_weaken; [apply sound_length_count; [apply sound_be_u8|exact Hp]|].
  intros l [Hl (n & Hn & He)]. split; [done|]. unfold len. rewrite He.
  unfold u8_ok in *. lia.
Qed.

Lemma sound_router_info : sound router_info wf_RouterInfo.
Proof.
  eapply sound_bind; [apply sound_router_identity|]. intros rid Hrid. cbv beta.
  eapply sound_bind.
  - apply sound_pair; [apply sound_i2p_date|].
    apply sound_pair; [apply sound_count_u8, sound_router_address|].
    apply sound_pair; [apply sound_count_u8, sound_hash|].
    apply sound_pair; [apply sound_mapping_wf|apply sound_signature].
  - intros (pub & addrs & prs & opts & sig) (Hp & [Ha Hal] & [Hh Hhl] & Ho & Hs).
    apply sound_ret. unfold wf_RouterInfo, wf_ri_body. cbn in *. by split_and!.
Qed.

End Sound.

#[export] Hint Resolve sound_mapping_wf sound_certificate sound_router_identity
  sound_router_address sound_router_info : parse.

(** ** Size bounds *)

Section Bounds.
Context {nom : Nom} {cf : CookieFactory} {bu : BigUintOps} {sc : SigCrates}.

Lemma writes_le_i2p_string s : wf_I2PString s -> writes_le (gen_i2p_string s) 256.
Proof.
  intros (_ & _ & Hl). eapply writes_le_of; [by apply writes_i2p_string|].
  unfold enc_string. rewrite len_app, len_be_bytes. unfold u8_ok in Hl. lia.
Qed.

Lemma writes_le_mapping m : wf_Mapping m -> writes_le (gen_mapping m) 65537.
Proof.
  intros [Hwf Hl]. eapply writes_le_of; [by apply writes_mapping|].
  rewrite len_app, len_be_bytes. unfold u16_ok in Hl. lia.
Qed.

Lemma writes_le_payload c p :
  u16_ok (len p) ->
  writes_le (gen_be_u8 c >>> gen_be_u16 (as_u16 (len p)) >>> gen_slice p) 65538.
Proof.
  intros H. eapply writes_le_weaken.
  - apply writes_le_seq; [apply writes_le_be_u8|].
    apply writes_le_seq; [apply writes_le_be_u16|apply writes_le_slice].
  - unfold u16_ok in H. lia.
Qed.

Lemma writes_le_certificate c : wf_Certificate c -> writes_le (gen_certificate c) 65538.
Proof.
  intros Hwf. destruct c; cbn [gen_certificate wf_Certificate] in *;
    try (by apply writes_le_payload, Hwf);
    try (eapply writes_le_weaken; [apply writes_le_seq; [apply writes_le_be_u8|apply writes_le_be_u16]|lia]).
  eapply writes_le_weaken.
  - apply writes_le_seq; [apply writes_le_be_u8|].
    apply writes_le_len_prefixed. eapply writes_le_of; [apply writes_key_certificate|reflexivity].
  - pose proof (len_key_certificate kc Hwf) as H. unfold u16_ok in H. lia.
Qed.

Lemma writes_le_router_identity rid :
  wf_RouterIdentity rid -> writes_le (gen_router_identity rid) 66050.
Proof.
  intros [[_ Hpk] Hparts]. destruct (spk_roundtrip (signing_key_ rid)) as (b & Hb & _ & _); [apply Hparts|].
  destruct (identity_signing_data _ _ _ b Hparts Hb) as (Hl & _ & _).
  rewrite len_app in Hl. unfold KEYCERT_SIGKEY_BYTES in Hl.
  pose proof (len_nonneg (pad_bytes (padding rid))). pose proof (len_nonneg b).
  eapply writes_le_weaken.
  - apply writes_le_seq; [apply writes_le_slice|].
    apply writes_le_seq; [eapply writes_le_of; [apply writes_padding|reflexivity]|].
    apply writes_le_seq; [eapply writes_le_of; [by apply writes_truncated_signing_key; [apply Hparts|]|reflexivity]|].
    apply writes_le_certificate, Hparts.
  - lia.
Qed.

Lemma writes_le_router_address a : wf_RouterAddress a -> writes_le (gen_router_address a) 65802.
Proof.
  intros (_ & _ & Ht & Ho). eapply writes_le_weaken.
  - apply writes_le_seq; [apply writes_le_be_u8|].
    apply writes_le_seq; [apply writes_le_be_u64|].
    apply writes_le_seq; [by apply writes_le_i2p_string|by apply writes_le_mapping].
  - lia.
Qed.

Lemma writes_le_hash h : wf_Hash h -> writes_le (gen_hash h) 32.
Proof. intros [_ Hl]. eapply writes_le_weaken; [apply writes_le_slice|lia]. Qed.

Lemma writes_le_router_info_minus_sig ri :
  wf_ri_body ri -> writes_le (gen_router_info_minus_sig ri) (2 ^ 25).
Proof.
  intros (Hr & _ & Ha & Hal & Hh & Hhl & Ho). eapply writes_le_weaken.
  - apply writes_le_seq; [by apply writes_le_router_identity|].
    apply writes_le_seq; [apply writes_le_be_u64|].
    apply writes_le_seq; [apply writes_le_be_u8|].
    apply writes_le_seq; [apply (writes_le_many _ _ 65802); [lia|]|].
    { eapply Forall_impl; [exact Ha|apply writes_le_router_address]. }
    apply writes_le_seq; [apply writes_le_be_u8|].
    apply writes_le_seq; [apply (writes_le_many _ _ 32); [lia|]|by apply writes_le_mapping].
    eapply Forall_impl; [exact Hh|apply writes_le_hash].
  - unfold u8_ok in *. lia.
Qed.

Lemma writes_le_signature t s : wf_sig t s -> writes_le (gen_signature s) 512.
Proof.
  intros H. destruct (sig_roundtrip t s H) as (b & Hb & Hl & _).
  eapply writes_le_of; [by apply writes_slice_of|]. rewrite Hl. by destruct t.
Qed.

Lemma writes_le_router_info ri : wf_RouterInfo ri -> writes_le (gen_router_info ri) (2 ^ 26).
Proof.
  intros [Hb Hs]. unfold gen_router_info. destruct (ri_signature ri) as [s|]; [|done].
  eapply writes_le_weaken;
    [apply writes_le_seq; [by apply writes_le_router_info_minus_sig|by eapply writes_le_signature]|lia].
Qed.

Lemma writes_le_router_secret_keys rsk :
  wf_RouterSecretKeys rsk -> writes_le (gen_router_secret_keys rsk) (2 ^ 20).
Proof.
  intros (Hr & [_ Hp] & Hs & Ht). destruct (ssk_roundtrip _ Hs) as (b & Hb & Hl & _).
  eapply writes_le_weaken.
  - apply writes_le_seq; [by apply writes_le_router_identity|].
    apply writes_le_seq; [apply writes_le_slice|].
    eapply writes_le_of; [by apply writes_slice_of|reflexivity].
  - rewrite Hl, Hp. cbn. lia.
Qed.

End Bounds.

(** ** Operations: [src/data/mod.rs] *)

Section Ops.
Context {nom : Nom} {cf : CookieFactory} {bu : BigUintOps} {sc : SigCrates} {sha : Sha2}.
Context {grp : DhGroup}.
Variable dsa_verify : DsaPublicKey -> bytes -> DsaSignature -> bool.

(** [rng]: what [OsRng] fills a buffer of the given size with *)
Definition cert_and_padding_from_keys (rng : Z -> bytes) (_public_key : PublicKey)
    (signing_key : SigningPublicKey) : outcome (Certificate * option Padding) :=
  let! certificate :=
    match spk_sig_type signing_key with
    | DsaSha1 => Ret CertNull
    | Ed25519 => Ret (CertKey (mkKeyCertificate Ed25519 ElGamal2048 [] []))
    | _ => Panic
    end in
  let sz := pad_len (spk_sig_type signing_key) ElGamal2048 in
  let padding := if sz =? 0 then None else Some (mkPadding (rng sz)) in
  Ret (certificate, padding).

Definition RouterIdentity_from_keys (rng : Z -> bytes) (public_key : PublicKey)
    (signing_key : SigningPublicKey) : outcome RouterIdentity :=
  let! (certificate, padding) := cert_and_padding_from_keys rng public_key signing_key in
  Ret (mkRouterIdentity public_key padding signing_key certificate).

(** [None]: [serialize] never returns *)
Definition RouterIdentity_to_bytes (rid : RouterIdentity) : outcome (option bytes) :=
  serialize (gen_router_identity rid).

Definition RouterIdentity_hash (rid : RouterIdentity) : outcome (option Hash) :=
  let! b := RouterIdentity_to_bytes rid in Ret (Hash_digest <$> b).

(** the [?] after a parser: [from_file] without the file *)
Definition read_with {A} (p : parser bytes A) (data : bytes) : outcome (result A ReadError) :=
  let! r := p data in
  Ret (match r with Ok (_, a) => Ok a | Err e => Err (ReadError_from e) end).

Definition RouterIdentity_from_file := read_with router_identity.
Definition RouterSecretKeys_from_file := read_with router_secret_keys.
Definition RouterInfo_from_file := read_with router_info.

(** [draws] are the draws of the ElGamal key, [seed] the Ed25519 seed *)
Definition RouterSecretKeys_new (draws : list bytes) (seed : ed_sk) (rng : Z -> bytes)
  : outcome (option RouterSecretKeys) :=
  let! kp := generate draws in
  match kp with
  | None => Ret None
  | Some (private_key, public_key) =>
      let! signing_private_key := ssk_new seed in
      let! sk := spk_from_secret signing_private_key in
      let! signing_key := unwrap (rok sk) in
      let! rid := RouterIdentity_from_keys rng public_key signing_key in
      Ret (Some (mkRouterSecretKeys rid private_key signing_private_key))
  end.

Definition RouterSecretKeys_to_bytes (rsk : RouterSecretKeys) : outcome (option bytes) :=
  serialize (gen_router_secret_keys rsk).

Definition RouterAddress_option (a : RouterAddress) (key : I2PString) : option I2PString :=
  entries (options a) !! key.

Definition RouterAddress_set_option (a : RouterAddress) (key value : I2PString) : RouterAddress :=
  mkRouterAddress (cost a) (expiration a) (transport_style a)
    (mkMapping (<[key := value]> (entries (options a)))).

(** [now]: [SystemTime::now()] *)
Definition RouterInfo_new (now : Z) (rid : RouterIdentity) : RouterInfo :=
  let options := <[OPT_CAPS := CAPS]> (<[OPT_ROUTER_VERSION := ROUTER_VERSION]>
                   (<[OPT_NET_ID := NET_ID]> ∅)) in
  mkRouterInfo rid (I2PDate_from_system_time now) [] [] (mkMapping options) None.

Definition set_addresses (ri : RouterInfo) (addrs : list RouterAddress) : RouterInfo :=
  mkRouterInfo (router_id ri) (published ri) addrs (peers ri) (ri_options ri) None.

Definition network_id (ri : RouterInfo) : option I2PString := entries (ri_options ri) !! OPT_NET_ID.

Definition is_floodfill (ri : RouterInfo) : bool :=
  match entries (ri_options ri) !! OPT_CAPS with
  | Some caps => existsb (fun c => c =? 102) (str caps)
  | None => false
  end.

Definition RouterInfo_to_bytes (ri : RouterInfo) : outcome (option bytes) :=
  serialize (gen_router_info ri).

Definition signature_bytes (ri : RouterInfo) : outcome (option bytes) :=
  serialize (gen_router_info_minus_sig ri).

Definition RouterInfo_sign (ri : RouterInfo) (spk : SigningPrivateKey) : outcome (option RouterInfo) :=
  let! sig_msg := signature_bytes ri in
  match sig_msg with
  | None => Ret None
  | Some sig_msg =>
      let! r := ssk_sign spk sig_msg in
      let! sig := unwrap (rok r) in
      Ret (Some (mkRouterInfo (router_id ri) (published ri) (addresses ri) (peers ri)
                   (ri_options ri) (Some sig)))
  end.

Definition RouterInfo_verify (ri : RouterInfo) : outcome (option (result unit CryptoError)) :=
  match ri_signature ri with
  | Some s =>
      let! sig_msg := signature_bytes ri in
      match sig_msg with
      | None => Ret None
      | Some sig_msg =>
          let! r := spk_verify dsa_verify (signing_key_ (router_id ri)) sig_msg s in
          Ret (Some r)
      end
  | None => Ret (Some (Err NoSignature))
  end.

(** *** Lemmas *)

(** a key pair for signing: the public half is the one the identity carries *)
Definition key_matches (rid : RouterIdentity) (spk : SigningPrivateKey) : Prop :=
  wf_ssk spk /\ spk_from_secret spk = Ret (Ok (signing_key_ rid)).

Lemma from_keys_ok (rng : Z -> bytes) pk (k : ed_pk) :
  wf_PublicKey pk -> (forall n, 0 <= n -> bytes_ok (rng n) /\ len (rng n) = n) ->
  exists rid, RouterIdentity_from_keys rng pk (SpkEd25519 k) = Ret rid /\
    wf_RouterIdentity rid /\ signing_key_ rid = SpkEd25519 k.
Proof.
  intros Hpk Hrng. destruct (Hrng 96 ltac:(lia)) as [Hr1 Hr2].
  eexists. split; [reflexivity|]. split; [|done].
  split; [done|]. split; [done|]. split; [repeat split; constructor|]. split; [done|].
  change (bytes_ok (rng 96) /\ len (rng 96) = 96 /\ 0 < len (rng 96)). by rewrite Hr2.
Qed.

Lemma generate_wf draws sk pk :
  group_ok grp -> Forall bytes_ok draws -> Exists (fun d => k_ok d = true) draws ->
  generate draws = Ret (Some (sk, pk)) -> wf_PrivateKey sk /\ wf_PublicKey pk.
Proof.
  intros Hg Hd He H. destruct (generate_ok Hg draws Hd He) as (a & _ & Ha).
  assert (forall v, wf_PrivateKey (mkPrivateKey (be_bytes 256 v)) /\ wf_PublicKey (mkPublicKey (be_bytes 256 v)))
    as Hwf by (intros; split; split; [apply be_bytes_ok|apply len_be_bytes|apply be_bytes_ok|apply len_be_bytes]).
  rewrite Ha in H. pose proof (Hwf a) as [H1 _]. pose proof (Hwf (ELGAMAL_G ^ a mod ELGAMAL_P)) as [_ H2].
  revert H H1 H2. generalize (be_bytes 256 a), (be_bytes 256 (ELGAMAL_G ^ a mod ELGAMAL_P)).
  by intros ? ? [= <- <-].
Qed.

Lemma secret_keys_new_ok draws seed (rng : Z -> bytes) :
  group_ok grp -> Forall bytes_ok draws -> Exists (fun d => k_ok d = true) draws ->
  (forall n, 0 <= n -> bytes_ok (rng n) /\ len (rng n) = n) ->
  exists rsk, RouterSecretKeys_new draws seed rng = Ret (Some rsk) /\
    wf_RouterSecretKeys rsk /\ key_matches (rid_ rsk) (signing_private_key_ rsk).
Proof.
  intros Hg Hd He Hrng. destruct (generate_ok Hg draws Hd He) as (a & _ & Hgen).
  destruct (generate_wf _ _ _ Hg Hd He Hgen) as [Hsk Hpk]. revert Hgen Hsk Hpk.
  generalize (mkPrivateKey (be_bytes 256 a)).
  generalize (mkPublicKey (be_bytes 256 (ELGAMAL_G ^ a mod ELGAMAL_P))). intros pk sk Hgen Hsk Hpk.
  destruct (from_keys_ok rng pk (ed_public (ed_expand seed)) Hpk Hrng) as (rid & Hrid & Hwf & Hk).
  exists (mkRouterSecretKeys rid sk (SskEd25519 seed (ed_expand seed) (ed_public (ed_expand seed)))).
  unfold RouterSecretKeys_new. rewrite Hgen. cbn [obind ssk_new ssk_with_type spk_from_secret unwrap rok].
  rewrite Hrid. split; [done|]. unfold wf_RouterSecretKeys, key_matches.
  cbn [rid_ private_key_ signing_private_key_]. rewrite Hk. by split_and!.
Qed.

(** signing changes nothing but the signature *)
Lemma sign_ok ri spk :
  wf_ri_body ri -> key_matches (router_id ri) spk ->
  exists bs sig ri', signature_bytes ri = Ret (Some bs) /\
    RouterInfo_sign ri spk = Ret (Some ri') /\
    ri' = mkRouterInfo (router_id ri) (published ri) (addresses ri) (peers ri) (ri_options ri) (Some sig) /\
    wf_sig (spk_sig_type (signing_key_ (router_id ri))) sig /\
    spk_verify dsa_verify (signing_key_ (router_id ri)) bs sig = Ret (Ok tt).
Proof.
  intros Hwf [Hs Hk]. destruct spk; try done. destruct Hs as [-> ->]. injection Hk as Hk.
  destruct (writes_le_serialize _ _ (writes_le_router_info_minus_sig ri Hwf)) as (bs & Hb & _); [lia|].
  eexists bs, _, _. split; [exact Hb|]. unfold RouterInfo_sign, signature_bytes. rewrite Hb. cbn.
  split; [reflexivity|]. split; [reflexivity|]. rewrite <- Hk. cbn.
  by rewrite ed_sign_verify.
Qed.

(** what signing a well-formed router info gives *)
Lemma signed_ok ri spk :
  wf_ri_body ri -> key_matches (router_id ri) spk ->
  exists ri' bs,
    RouterInfo_sign ri spk = Ret (Some ri') /\
    RouterInfo_verify ri' = Ret (Some (Ok tt)) /\
    (exists sig, ri' = mkRouterInfo (router_id ri) (published ri) (addresses ri) (peers ri) (ri_options ri) (Some sig)) /\
    RouterInfo_to_bytes ri' = Ret (Some bs) /\ router_info bs = POk [] ri'.
Proof.
  intros Hwf Hk. destruct (sign_ok ri spk Hwf Hk) as (m & sig & ri' & Hm & Hs & -> & Hsig & Hv).
  set (ri' := mkRouterInfo _ _ _ _ _ _) in *.
  assert (wf_RouterInfo ri') as Hwf' by done.
  destruct (rt_serialize _ _ _ _ (rt_router_info ri' Hwf') (writes_le_router_info ri' Hwf'))
    as (bs & Hb & _ & Hp & _); [lia|].
  exists ri', bs. split; [done|]. split.
  { unfold RouterInfo_verify. cbn [ri_signature ri' router_id].
    assert (signature_bytes ri' = signature_bytes ri) as -> by (unfold signature_bytes; by f_equal).
    rewrite Hm. cbn [obind]. by rewrite Hv. }
  split; [by exists sig|]. split; [done|]. by apply parses_exact.
Qed.

(** a system time loses what is below a millisecond *)
Lemma date_rounds t :
  I2PDate_to_system_time (I2PDate_from_system_time t) <= Z.max 0 t <
    I2PDate_to_system_time (I2PDate_from_system_time t) + 10 ^ 6.
Proof.
  unfold I2PDate_from_system_time, I2PDate_to_system_time. cbn [date_ms].
  destruct (Z.ltb_spec t 0); Z.div_mod_to_equations; lia.
Qed.

(** a well-formed identity has a hash *)
Lemma hash_returns rid : wf_RouterIdentity rid -> exists h, RouterIdentity_hash rid = cret h.
Proof.
  intros Hwf. destruct (rt_serialize _ _ _ _ (rt_router_identity rid Hwf) (writes_le_router_identity rid Hwf))
    as (bs & Hs & _); [lia|].
  exists (Hash_digest bs). unfold RouterIdentity_hash, RouterIdentity_to_bytes. by rewrite Hs.
Qed.

Lemma hash_wf ri h : RouterIdentity_hash ri = cret h -> wf_Hash h.
Proof.
  unfold RouterIdentity_hash. destruct (RouterIdentity_to_bytes ri) as [[b|]|]; cbn; try done.
  intros [= <-]. split; [apply sha256_ok|apply sha256_len].
Qed.

End Ops.

(** the order of the entries is total, so sorting sorts *)
Lemma bytes_leb_total a b : bytes_leb a b = true \/ bytes_leb b a = true.
Proof.
  revert b. induction a as [|x a IH]; intros [|y b]; cbn; [by left..|by right|].
  destruct (Z.lt_trichotomy x y) as [H|[->|H]].
  - left. by rewrite (proj2 (Z.ltb_lt x y) H).
  - rewrite Z.ltb_irrefl, Z.eqb_refl. apply IH.
  - right. by rewrite (proj2 (Z.ltb_lt y x) H).
Qed.

#[export] Instance pair_le_total : Total pair_le.
Proof.
  intros p q. unfold pair_le, pair_leb.
  destruct (bytes_eqb (str p.1) (str q.1)) eqn:E.
  - apply bytes_eqb_eq in E. rewrite E, bytes_eqb_refl. apply bytes_leb_total.
  - destruct (bytes_eqb (str q.1) (str p.1)) eqn:E'; [|apply bytes_leb_total].
    apply bytes_eqb_eq in E'. rewrite E', bytes_eqb_refl in E. done.
Qed.

(** literals are well-formed, and so are the options of a new router info *)
Lemma i2p_str_wf s :
  bytes_okb (ascii_bytes s) = true ->
  utf8_ok (ascii_bytes s) = true -> len (ascii_bytes s) < 256 -> wf_I2PString (i2p_str s).
Proof.
  intros Hb Hu Hl. split; [by apply bytes_okb_ok|]. split; [done|]. split; [apply len_nonneg|done].
Qed.

Lemma new_options_wf {sc : SigCrates} now rid : wf_Mapping (ri_options (RouterInfo_new now rid)).
Proof.
  split.
  - repeat (apply map_Forall_insert_2; [split; by apply i2p_str_wf|]). apply map_Forall_empty.
  - vm_compute. split; [discriminate|reflexivity].
Qed.

(** a new router info with its addresses *)
Lemma new_ri_wf {sc : SigCrates} now rid addrs :
  wf_RouterIdentity rid -> now < 2 ^ 64 * 10 ^ 6 ->
  Forall wf_RouterAddress addrs -> u8_ok (len addrs) ->
  wf_ri_body (set_addresses (RouterInfo_new now rid) addrs).
Proof.
  intros Hrid Hnow Ha Hl. split; [done|]. split.
  { pose proof (date_rounds now) as Hr. unfold wf_I2PDate, u64_ok, I2PDate_to_system_time in *. cbn. cbn in Hr.
    destruct (Z.ltb_spec now 0); [done|]. Z.div_mod_to_equations. lia. }
  split; [done|]. split; [done|]. split; [constructor|]. split; [done|]. exact (new_options_wf now rid).
Qed.

(** ** Samples *)

Module DataSamples.

Definition ref_ed_pk : @ed_pk sigcrates_ref := dexist (P := fun d : bytes => len d = 32) (zeros 32) eq_refl.

Definition ref_rid : @RouterIdentity sigcrates_ref :=
  @mkRouterIdentity sigcrates_ref (mkPublicKey (zeros 256)) (Some (mkPadding (replicate 96 1)))
    (@SpkEd25519 sigcrates_ref ref_ed_pk) (CertKey (mkKeyCertificate Ed25519 ElGamal2048 [] [])).

Lemma replicate_ok n b : byte_ok b -> bytes_ok (replicate n b).
Proof. intros. by apply Forall_replicate. Qed.

Lemma ref_rid_wf : @wf_RouterIdentity sigcrates_ref ref_rid.
Proof.
  split; [by split; [apply zeros_ok|]|]. split; [done|].
  split; [repeat split; constructor|]. split; [done|].
  split; [by apply replicate_ok|]. by split.
Qed.

Definition ref_mapping : Mapping :=
  mkMapping (<[i2p_str "port" := i2p_str "7654"]> (<[i2p_str "host" := i2p_str "::1"]> ∅)).

Lemma ref_mapping_wf : wf_Mapping ref_mapping.
Proof.
  split.
  - apply map_Forall_insert_2; [split; by apply i2p_str_wf|].
    apply map_Forall_insert_2; [split; by apply i2p_str_wf|]. apply map_Forall_empty.
  - vm_compute. split; [discriminate|reflexivity].
Qed.

Definition ref_ri : @RouterInfo sigcrates_ref := @RouterInfo_new sigcrates_ref (10 ^ 18) ref_rid.

Lemma ref_options_wf : wf_Mapping (ri_options ref_ri).
Proof. exact (new_options_wf (10 ^ 18) ref_rid). Qed.

Lemma ref_ri_wf : wf_ri_body ref_ri.
Proof.
  split; [apply ref_rid_wf|]. split; [by vm_compute|]. split; [constructor|]. split; [done|].
  split; [constructor|]. split; [done|apply ref_options_wf].
Qed.

Definition ref_ssk : @SigningPrivateKey sigcrates_ref := @SskEd25519 sigcrates_ref ref_ed_pk ref_ed_pk ref_ed_pk.

(** the same, signed *)
Definition ref_signed_ri : @RouterInfo sigcrates_ref :=
  mkRouterInfo (router_id ref_ri) (published ref_ri) (addresses ref_ri) (peers ref_ri) (ri_options ref_ri)
    (Some (@SigEd25519 sigcrates_ref (toy_sig ref_ed_pk []))).

Lemma ref_signed_ri_wf : wf_RouterInfo ref_signed_ri.
Proof. split; [exact ref_ri_wf|exact I]. Qed.

(** a router info on the wire: a DSA identity, no addresses, no peers, no options *)
Definition ref_ri_bytes : bytes :=
  zeros 256 ++ replicate 128 1 ++ [0; 0; 0] ++
  be_bytes 8 1000 ++ [0; 0] ++ [0; 0] ++ replicate 40 3.

Definition ref_parsed : @RouterInfo sigcrates_ref :=
  match @router_info nom_ref biguint_ref sigcrates_ref ref_ri_bytes with
  | Ret (Ok (_, ri)) => ri
  | _ => ref_ri
  end.

End DataSamples.
Export DataSamples.

(** ** Properties *)

Module DataProps.

Section Props.
Context {nom : Nom} {cf : CookieFactory} {bu : BigUintOps} {sc : SigCrates} {sha : Sha2}.

(** A mapping whose encoding fits the two-byte length is written with its
    entries in the order of their keys, whatever order the hash map iterates
    in, and [mapping] reads exactly those bytes back as the same mapping. *)
Theorem mapping_roundtrip (m : Mapping) :
  wf_Mapping m ->
  Sorted pair_le (sorted_entries m) /\
  writes (gen_mapping m) (be_bytes 2 (len (enc_entries m)) ++ enc_entries m) /\
  parses mapping (be_bytes 2 (len (enc_entries m)) ++ enc_entries m) m.
Proof.
  intros Hwf. pose proof (writes_mapping m (proj1 Hwf)) as Hw.
  destruct (rt_mapping m Hwf) as (bs & Hw' & Hp). rewrite (writes_det _ _ _ Hw' Hw) in Hp.
  split; [|done]. apply Sorted_merge_sort, _.
Qed.

(** A well-formed router identity serialises (the loop ends, nothing
    panics) to at most 66050 bytes, which parse back to the same identity;
    and every identity the parser accepts is well-formed, so it can be
    serialised and hashed again. *)
Theorem router_identity_roundtrip :
  (forall rid, wf_RouterIdentity rid ->
     exists bs, RouterIdentity_to_bytes rid = Ret (Some bs) /\ len bs <= 66050 /\
       RouterIdentity_hash rid = Ret (Some (Hash_digest bs)) /\ parses router_identity bs rid) /\
  (forall i r rid, bytes_ok i -> router_identity i = POk r rid -> wf_RouterIdentity rid).
Proof.
  split.
  - intros rid Hwf.
    destruct (rt_serialize _ _ _ _ (rt_router_identity rid Hwf) (writes_le_router_identity rid Hwf))
      as (bs & Hs & _ & Hp & Hl); [lia|].
    exists bs. unfold RouterIdentity_hash, RouterIdentity_to_bytes. rewrite Hs. done.
  - intros i r rid Hi H. by destruct (sound_router_identity i r rid Hi H).
Qed.

(** Any router info the parser accepts is well-formed and can be sent on:
    it serialises without panicking, and what is sent parses back to the same
    router info, whatever follows it. *)
Theorem router_info_reserialize (i r : bytes) (ri : RouterInfo) :
  bytes_ok i -> router_info i = POk r ri ->
  wf_RouterInfo ri /\
  exists bs, RouterInfo_to_bytes ri = Ret (Some bs) /\ parses router_info bs ri.
Proof.
  intros Hi H. destruct (sound_router_info i r ri Hi H) as [Hwf _]. split; [done|].
  destruct (rt_serialize _ _ _ _ (rt_router_info ri Hwf) (writes_le_router_info ri Hwf))
    as (bs & Hs & _ & Hp & _); [lia|]. by exists bs.
Qed.

(** Signing a well-formed router info with the key of its identity
    succeeds; the result verifies, changes nothing but the signature,
    serialises, and still verifies after a parse.  Replacing the addresses
    drops the signature, so the router info no longer verifies. *)
Theorem router_info_sign_verify dsa_verify (ri : RouterInfo) (spk : SigningPrivateKey) addrs :
  wf_ri_body ri -> key_matches (router_id ri) spk ->
  exists ri' bs,
    RouterInfo_sign ri spk = Ret (Some ri') /\
    RouterInfo_verify dsa_verify ri' = Ret (Some (Ok tt)) /\
    (router_id ri', addresses ri', ri_options ri') = (router_id ri, addresses ri, ri_options ri) /\
    RouterInfo_to_bytes ri' = Ret (Some bs) /\ router_info bs = POk [] ri' /\
    RouterInfo_verify dsa_verify (set_addresses ri' addrs) = Ret (Some (Err NoSignature)).
Proof.
  intros Hwf Hk. destruct (signed_ok dsa_verify ri spk Hwf Hk) as (ri' & bs & Hs & Hv & [sig ->] & Hb & Hp).
  by eexists _, bs.
Qed.

(** Freshly generated secret keys are consistent: the identity is
    well-formed and carries the public half of the signing key, and the keys
    survive being written to a file and read back. *)
Theorem secret_keys_roundtrip {grp : DhGroup} (draws : list bytes) (seed : ed_sk) (rng : Z -> bytes) :
  group_ok grp -> Forall bytes_ok draws -> Exists (fun d => k_ok d = true) draws ->
  (forall n, 0 <= n -> bytes_ok (rng n) /\ len (rng n) = n) ->
  exists rsk bs,
    RouterSecretKeys_new draws seed rng = Ret (Some rsk) /\
    wf_RouterSecretKeys rsk /\ key_matches (rid_ rsk) (signing_private_key_ rsk) /\
    RouterSecretKeys_to_bytes rsk = Ret (Some bs) /\
    RouterSecretKeys_from_file bs = Ret (Ok rsk).
Proof.
  intros Hg Hd He Hrng. destruct (secret_keys_new_ok draws seed rng Hg Hd He Hrng) as (rsk & Hnew & Hrsk & Hk).
  destruct (rt_serialize _ _ _ _ (rt_router_secret_keys rsk Hrsk) (writes_le_router_secret_keys rsk Hrsk))
    as (bs & Hb & _ & Hp & _); [lia|].
  exists rsk, bs. split_and!; try done.
  unfold RouterSecretKeys_from_file, read_with. by rewrite (parses_exact _ _ _ Hp).
Qed.

End Props.

Lemma mapping_roundtrip_witness :
  Sorted pair_le (sorted_entries ref_mapping) /\
  writes (@gen_mapping cf_ref ref_mapping) (be_bytes 2 (len (enc_entries ref_mapping)) ++ enc_entries ref_mapping) /\
  parses (@mapping nom_ref) (be_bytes 2 (len (enc_entries ref_mapping)) ++ enc_entries ref_mapping) ref_mapping.
Proof. apply (@mapping_roundtrip nom_ref cf_ref ref_mapping). exact ref_mapping_wf. Defined.

Lemma router_info_reserialize_witness :
  @router_info nom_ref biguint_ref sigcrates_ref ref_ri_bytes = POk [] ref_parsed /\
  wf_RouterInfo ref_parsed /\
  exists bs, @RouterInfo_to_bytes cf_ref sigcrates_ref ref_parsed = Ret (Some bs) /\
    parses (@router_info nom_ref biguint_ref sigcrates_ref) bs ref_parsed.
Proof.
  assert (@router_info nom_ref biguint_ref sigcrates_ref ref_ri_bytes = POk [] ref_parsed) as H
    by (vm_cast_no_check (@eq_refl (IResult bytes (@RouterInfo sigcrates_ref)) (POk [] ref_parsed))).
  split; [exact H|]. apply (@router_info_reserialize nom_ref cf_ref biguint_ref sigcrates_ref ref_ri_bytes []).
  - apply bytes_okb_ok. vm_compute. reflexivity.
  - exact H.
Defined.

Lemma router_info_sign_verify_witness :
  exists ri' bs,
    @RouterInfo_sign cf_ref sigcrates_ref ref_ri ref_ssk = Ret (Some ri') /\
    @RouterInfo_verify cf_ref sigcrates_ref (fun _ _ _ => false) ri' = Ret (Some (Ok tt)) /\
    (router_id ri', addresses ri', ri_options ri') = (router_id ref_ri, addresses ref_ri, ri_options ref_ri) /\
    @RouterInfo_to_bytes cf_ref sigcrates_ref ri' = Ret (Some bs) /\
    @router_info nom_ref biguint_ref sigcrates_ref bs = POk [] ri' /\
    @RouterInfo_verify cf_ref sigcrates_ref (fun _ _ _ => false) (set_addresses ri' []) =
      Ret (Some (Err NoSignature)).
Proof.
  apply (@router_info_sign_verify nom_ref cf_ref biguint_ref sigcrates_ref (fun _ _ _ => false) ref_ri ref_ssk []).
  - exact ref_ri_wf.
  - split; [split; reflexivity|reflexivity].
Defined.

Lemma secret_keys_roundtrip_witness :
  exists rsk bs,
    @RouterSecretKeys_new biguint_ref sigcrates_ref mersenne_group [[9]] ref_ed_pk zeros = Ret (Some rsk) /\
    wf_RouterSecretKeys rsk /\ key_matches (rid_ rsk) (signing_private_key_ rsk) /\
    @RouterSecretKeys_to_bytes cf_ref sigcrates_ref rsk = Ret (Some bs) /\
    @RouterSecretKeys_from_file nom_ref biguint_ref sigcrates_ref bs = Ret (Ok rsk).
Proof.
  apply (@secret_keys_roundtrip nom_ref cf_ref biguint_ref sigcrates_ref mersenne_group [[9]] ref_ed_pk zeros).
  - exact mersenne_group_ok.
  - by repeat constructor.
  - apply Exists_cons_hd. vm_compute. reflexivity.
  - intros n Hn. split; [apply zeros_ok|by apply len_zeros].
Defined.

(** Dates survive the conversion to system time and back, and the
    conversion from system time rounds down to the millisecond; a time before
    the epoch becomes zero. *)
Theorem date_system_time (t : Z) (d : I2PDate) :
  0 <= date_ms d ->
  I2PDate_from_system_time (I2PDate_to_system_time d) = d /\
  I2PDate_to_system_time (I2PDate_from_system_time t) <= Z.max 0 t <
    I2PDate_to_system_time (I2PDate_from_system_time t) + 10 ^ 6.
Proof.
  intros Hd. split; [|apply date_rounds]. unfold I2PDate_from_system_time, I2PDate_to_system_time.
  destruct (Z.ltb_spec (date_ms d * 10 ^ 6) 0); [lia|]. destruct d as [ms]. cbn [date_ms] in *.
  f_equal. Z.div_mod_to_equations. lia.
Qed.

Lemma date_system_time_witness :
  I2PDate_from_system_time (I2PDate_to_system_time (mkI2PDate 86400000)) = mkI2PDate 86400000 /\
  I2PDate_to_system_time (I2PDate_from_system_time 1234567) <= Z.max 0 1234567 <
    I2PDate_to_system_time (I2PDate_from_system_time 1234567) + 10 ^ 6.
Proof. apply (date_system_time 1234567 (mkI2PDate 86400000)). cbn. lia. Defined.

End DataProps.
