(* ===== verification/Address.v ===== *)
(** * Socket addresses in router addresses

    [RouterAddress::new], [RouterAddress::addr] and [RouterInfo::address] of
    [src/data/mod.rs]: a transport publishes where it listens as the text
    options [host] and [port], and peers read them back.  The text form of IP
    addresses (the standard library's, with its many forms of IPv6 addresses) is
    the class [IpText]; that of ports is defined. *)

From S2P Require Import Prelude Nom Cookie Util Wire Crypto Data.

Inductive IpAddr := V4 (octets : bytes) | V6 (segments : list Z).
Record SocketAddr := mkSocketAddr { ip : IpAddr; port : Z }.

#[export] Instance IpAddr_eq_dec : EqDecision IpAddr.
Proof. solve_decision. Defined.

Definition wf_IpAddr (i : IpAddr) : Prop :=
  match i with V4 o => bytes_ok o /\ len o = 4 | V6 s => Forall u16_ok s /\ len s = 8 end.
Definition wf_SocketAddr (a : SocketAddr) : Prop := wf_IpAddr (ip a) /\ u16_ok (port a).

Definition is_ipv4 (a : SocketAddr) : bool := match ip a with V4 _ => true | V6 _ => false end.

(** [str::parse::<IpAddr>] and [IpAddr::to_string] *)
Class IpText := {
  parse_ip : bytes -> option IpAddr;
  show_ip : IpAddr -> bytes;
  parse_show_ip : forall i, wf_IpAddr i -> parse_ip (show_ip i) = Some i;
  parse_ip_wf : forall s i, parse_ip s = Some i -> wf_IpAddr i
}.

(** ** Ports *)

(** one digit more, if the number still fits [u16] *)
Definition dec_step (acc : option Z) (c : Z) : option Z :=
  match acc with
  | Some v => if (48 <=? c) && (c <=? 57) && (v * 10 + (c - 48) <? 2 ^ 16) then Some (v * 10 + (c - 48)) else None
  | None => None
  end.

(** [str::parse::<u16>] *)
Definition parse_u16 (s : bytes) : option Z :=
  let digits := match s with 43 :: s => s | _ => s end in
  match digits with [] => None | _ => foldl dec_step (Some 0) digits end.

(** [u16::to_string]; five digits are enough *)
Fixpoint show_dec (fuel : nat) (v : Z) : bytes :=
  match fuel with
  | S fuel => (if v <? 10 then [] else show_dec fuel (v / 10)) ++ [48 + v mod 10]
  | O => []
  end.
Definition show_u16 (v : Z) : bytes := show_dec 5 v.

Lemma show_dec_parse fuel v : 0 <= v < 10 ^ Z.of_nat fuel -> v < 2 ^ 16 -> (0 < fuel)%nat ->
  foldl dec_step (Some 0) (show_dec fuel v) = Some v.
Proof.
  revert v. induction fuel as [|fuel IH]; intros v Hv Hlt Hf; [lia|]. cbn [show_dec]. rewrite foldl_snoc.
  assert (0 <= v mod 10 < 10) as Hm by (apply Z.mod_pos_bound; lia).
  assert (foldl dec_step (Some 0) (if v <? 10 then [] else show_dec fuel (v / 10)) = Some (v / 10)) as ->.
  { destruct (Z.ltb_spec v 10) as [H|H]; [cbn; by rewrite Z.div_small by lia|].
    rewrite Nat2Z.inj_succ, Z.pow_succ_r in Hv by lia.
    apply IH; [split; [apply Z.div_pos; lia|apply Z.div_lt_upper_bound; lia]|apply Z.div_lt_upper_bound; lia|].
    destruct fuel; [cbn in Hv; lia|lia]. }
  cbn [dec_step]. replace (v / 10 * 10 + (48 + v mod 10 - 48)) with v by (Z.div_mod_to_equations; lia).
  rewrite (proj2 (Z.leb_le 48 _)), (proj2 (Z.leb_le _ 57)), (proj2 (Z.ltb_lt _ _)) by lia. done.
Qed.

(** the digits are digits, so no sign is taken off *)
Lemma show_dec_head fuel v : 0 <= v -> (0 < fuel)%nat -> exists c l, show_dec fuel v = c :: l /\ 48 <= c.
Proof.
  revert v. induction fuel as [|fuel IH]; intros v Hv Hf; [lia|]. cbn [show_dec].
  assert (0 <= v mod 10 < 10) as Hm by (apply Z.mod_pos_bound; lia).
  destruct (v <? 10); [exists (48 + v mod 10), []; split; [done|lia]|].
  destruct fuel as [|fuel]; [exists (48 + v mod 10), []; split; [done|lia]|].
  destruct (IH (v / 10)) as (c & l & -> & Hc); [apply Z.div_pos; lia|lia|]. by exists c, (l ++ [48 + v mod 10]).
Qed.

Lemma parse_show_u16 v : u16_ok v -> parse_u16 (show_u16 v) = Some v.
Proof.
  intros Hv. unfold u16_ok in Hv. unfold parse_u16, show_u16.
  pose proof (show_dec_parse 5 v) as H. destruct (show_dec_head 5 v) as (c & l & E & Hc); [lia|lia|].
  rewrite E in *. assert (match c :: l with 43 :: s => s | _ => c :: l end = c :: l) as ->.
  { destruct c as [|p|p]; try done. do 6 (destruct p as [p|p|]; try done); lia. }
  apply H; cbn; lia.
Qed.

(** ** Router addresses *)

Section Address.
Context {txt : IpText}.

Definition OPT_HOST : I2PString := i2p_str "host".
Definition OPT_PORT : I2PString := i2p_str "port".

Definition RouterAddress_new (style : I2PString) (addr : SocketAddr) : RouterAddress :=
  mkRouterAddress 0 (mkI2PDate 0) style
    (mkMapping (<[OPT_PORT := mkI2PString (show_u16 (port addr))]> (<[OPT_HOST := mkI2PString (show_ip (ip addr))]> ∅))).

Definition addr (a : RouterAddress) : option SocketAddr :=
  match entries (options a) !! OPT_HOST, entries (options a) !! OPT_PORT with
  | Some host, Some port =>
      match parse_ip (str host), parse_u16 (str port) with
      | Some ip, Some port => Some (mkSocketAddr ip port)
      | _, _ => None
      end
  | _, _ => None
  end.

(** the address has a socket address, of IPv4 *)
Definition reachable (a : RouterAddress) : bool :=
  match addr a with Some addr => is_ipv4 addr | None => false end.

Definition address {sc : SigCrates} (ri : RouterInfo) (style : I2PString) (f : RouterAddress -> bool) : option RouterAddress :=
  List.find f (filter (fun a => Is_true (reachable a)) (filter (fun a => transport_style a = style) (addresses ri))).

(** ** Lemmas *)

Lemma address_some {sc : SigCrates} ri style f a :
  address ri style f = Some a ->
  a ∈ addresses ri /\ transport_style a = style /\ reachable a = true /\ f a = true.
Proof.
  unfold address. intros H. apply List.find_some in H as [Hin Hf]. apply list_elem_of_In in Hin.
  apply list_elem_of_filter in Hin as [Hr Hin]. apply list_elem_of_filter in Hin as [Hs Hin].
  split_and!; try done. by apply Is_true_true.
Qed.

Lemma address_none {sc : SigCrates} ri style f a :
  address ri style f = None -> a ∈ addresses ri -> transport_style a = style -> reachable a = true -> f a = false.
Proof.
  unfold address. intros H Hin Hs Hr. apply (List.find_none _ _ H). apply list_elem_of_In.
  apply list_elem_of_filter. split; [by apply Is_true_true|]. by apply list_elem_of_filter.
Qed.

Lemma reachable_addr a : reachable a = true -> exists o p, addr a = Some (mkSocketAddr (V4 o) p).
Proof. unfold reachable. destruct (addr a) as [[[o|s] p]|]; [eauto|done..]. Qed.

Lemma new_addr style a : wf_SocketAddr a -> addr (RouterAddress_new style a) = Some a.
Proof.
  intros [Hi Hp]. unfold addr, RouterAddress_new. cbn [options entries].
  rewrite lookup_insert_ne by done. rewrite !lookup_insert_eq. cbn [str].
  rewrite parse_show_ip, parse_show_u16 by done. by destruct a.
Qed.

End Address.

(** ** An implementation of the laws: the version and the octets or groups *)
Definition ip_ref : IpText.
Proof.
  refine {|
    parse_ip := fun s => match s with
                         | 4 :: o => if bytes_okb o && (len o =? 4) then Some (V4 o) else None
                         | 6 :: g => if forallb (fun x => (0 <=? x) && (x <? 2 ^ 16)) g && (len g =? 8) then Some (V6 g) else None
                         | _ => None
                         end;
    show_ip := fun i => match i with V4 o => 4 :: o | V6 g => 6 :: g end
  |}.
  - intros [o|g] [H1 H2].
    + rewrite H2. replace (bytes_okb o) with true; [done|]. symmetry. apply forallb_forall. intros x Hx.
      apply (proj1 (List.Forall_forall _ _) H1) in Hx as [H3 H4]. by rewrite (proj2 (Z.leb_le _ _) H3), (proj2 (Z.ltb_lt _ _) H4).
    + rewrite H2. replace (forallb _ g) with true; [done|]. symmetry. apply forallb_forall. intros x Hx.
      apply (proj1 (List.Forall_forall _ _) H1) in Hx as [H3 H4]. by rewrite (proj2 (Z.leb_le _ _) H3), (proj2 (Z.ltb_lt _ _) H4).
  - intros s i. destruct s as [|[|p|p] s]; try done. do 3 (destruct p as [p|p|]; try done).
    + destruct (forallb _ s) eqn:E; [|done]. destruct (Z.eqb_spec (len s) 8) as [Hl|]; [|done]. intros [= <-]. split; [|done].
      apply List.Forall_forall. intros x Hx. apply (proj1 (forallb_forall _ _) E) in Hx. apply andb_true_iff in Hx as [H1 H2].
      split; [by apply Z.leb_le|by apply Z.ltb_lt].
    + destruct (bytes_okb s) eqn:E; [|done]. destruct (Z.eqb_spec (len s) 4) as [Hl|]; [|done]. intros [= <-].
      split; [by apply bytes_okb_ok|done].
Defined.

(** ** Properties *)
Module AddressProps.
Section Props.
Context {txt : IpText} {sc : SigCrates}.

(** A router address made for a socket address gives that socket address
    back, port digits included; in a router info it is found under its style by
    a filter that accepts it exactly when it is an IPv4 one, unless an earlier
    address of that style is found first. *)
Theorem router_address_roundtrip (style : I2PString) (a : SocketAddr) (ri : RouterInfo) (f : RouterAddress -> bool) :
  wf_SocketAddr a -> f (RouterAddress_new style a) = true ->
  addr (RouterAddress_new style a) = Some a /\
  (is_ipv4 a = true -> address (set_addresses ri [RouterAddress_new style a]) style f = Some (RouterAddress_new style a)) /\
  (is_ipv4 a = false -> address (set_addresses ri [RouterAddress_new style a]) style f = None).
Proof.
  intros Ha Hf. pose proof (new_addr style a Ha) as E. split; [done|].
  unfold address, set_addresses. cbn [addresses]. rewrite filter_cons_True by done. rewrite filter_nil.
  unfold reachable. split; intros Hv.
  - rewrite filter_cons_True by (by cbv beta; rewrite E, Hv). cbn [List.find]. by rewrite Hf.
  - rewrite filter_cons_False by (by cbv beta; rewrite E, Hv; intros []). done.
Qed.

End Props.

#[local] Existing Instances sigcrates_ref ip_ref.

Lemma router_address_roundtrip_witness :
  addr (RouterAddress_new (i2p_str "NTCP") (mkSocketAddr (V4 [127; 0; 0; 1]) 9001)) = Some (mkSocketAddr (V4 [127; 0; 0; 1]) 9001).
Proof.
  assert (wf_SocketAddr (mkSocketAddr (V4 [127; 0; 0; 1]) 9001)) as Hw.
  { split; [split; [apply bytes_okb_ok; reflexivity|reflexivity]|split; [discriminate|reflexivity]]. }
  exact (proj1 (router_address_roundtrip (i2p_str "NTCP") (mkSocketAddr (V4 [127; 0; 0; 1]) 9001)
    DataSamples.ref_ri (fun _ => true) Hw eq_refl)).
Defined.

End AddressProps.
