(* ===== verification/Dest.v ===== *)
(** * Destinations and lease sets: [src/data/dest.rs], [src/data/dest/frame.rs]

    A destination has the same layout as a router identity; the lemmas on
    identities are reused through [dest_rid]. *)

From S2P Require Import Prelude Nom Cookie Util Wire Crypto ElGamal Data.

Section Dest.
Context {nom : Nom} {cf : CookieFactory} {bu : BigUintOps} {sc : SigCrates} {sha : Sha2}.
Context {grp : DhGroup}.
Variable dsa_verify : DsaPublicKey -> bytes -> DsaSignature -> bool.

Record Destination := mkDestination {
  d_public_key : PublicKey;
  d_padding : option Padding;
  d_signing_key : SigningPublicKey;
  d_certificate : Certificate
}.

Definition destination : parser bytes Destination :=
  map_res (nom_pair public_key (nom_pair (nom_take KEYCERT_SIGKEY_BYTES) certificate))
    (fun '(pk, (signing_data, cert)) =>
       let padding := keycert_padding signing_data cert in
       let! r := split_signing_key signing_data cert in
       Ret (rmap (fun sk => mkDestination pk padding sk cert) r)).

Definition gen_destination (dest : Destination) : gen :=
  gen_public_key (d_public_key dest) >>>
  gen_cond (is_some (d_padding dest)) (gen_unwrap (d_padding dest) (fun p => gen_slice (padding_bytes p))) >>>
  gen_truncated_signing_key (d_signing_key dest) >>>
  gen_certificate (d_certificate dest).

Definition Destination_from_keys (rng : Z -> bytes) (public_key : PublicKey)
    (signing_key : SigningPublicKey) : outcome Destination :=
  let! (certificate, padding) := cert_and_padding_from_keys rng public_key signing_key in
  Ret (mkDestination public_key padding signing_key certificate).

Definition Destination_to_bytes (dest : Destination) : outcome (option bytes) :=
  serialize (gen_destination dest).

Definition Destination_hash (dest : Destination) : outcome (option Hash) :=
  let! b := Destination_to_bytes dest in Ret (Hash_digest <$> b).

Record DestinationSecretKeys := mkDestinationSecretKeys {
  dsk_dest : Destination;
  dsk_private_key : PrivateKey;
  dsk_signing_private_key : SigningPrivateKey
}.

Definition DestinationSecretKeys_new (draws : list bytes) (seed : ed_sk) (rng : Z -> bytes)
  : outcome (option DestinationSecretKeys) :=
  let! kp := generate draws in
  match kp with
  | None => Ret None
  | Some (private_key, public_key) =>
      let! signing_private_key := ssk_new seed in
      let! sk := spk_from_secret signing_private_key in
      let! signing_key := unwrap (rok sk) in
      let! dest := Destination_from_keys rng public_key signing_key in
      Ret (Some (mkDestinationSecretKeys dest private_key signing_private_key))
  end.

Record Lease := mkLease { tunnel_gw : Hash; lease_tid : TunnelId; end_date : I2PDate }.

Definition lease : parser bytes Lease :=
  map_pure (nom_pair hash (nom_pair tunnel_id i2p_date)) (fun '(gw, (tid, ed)) => mkLease gw tid ed).

Definition gen_lease (l : Lease) : gen :=
  gen_hash (tunnel_gw l) >>> gen_tunnel_id (lease_tid l) >>> gen_i2p_date (end_date l).

Record LeaseSet := mkLeaseSet {
  ls_dest : Destination;
  ls_enc_key : PublicKey;
  ls_sig_key : SigningPublicKey;
  leases : list Lease;
  ls_signature : option Signature
}.

Definition lease_set : parser bytes LeaseSet := fun i =>
  let_p (i, dest) := destination i in
  let_p (i, (enc_key, (sig_key, (leases, sig)))) :=
    nom_pair public_key
      (nom_pair (signing_key (spk_sig_type (d_signing_key dest)))
        (nom_pair (length_count be_u8 lease)
          (signature (spk_sig_type (d_signing_key dest))))) i in
  POk i (mkLeaseSet dest enc_key sig_key leases (Some sig)).

Definition gen_lease_set_minus_sig (ls : LeaseSet) : gen :=
  gen_destination (ls_dest ls) >>> gen_public_key (ls_enc_key ls) >>> gen_signing_key (ls_sig_key ls) >>>
  gen_be_u8 (as_u8 (len (leases ls))) >>> gen_many (leases ls) gen_lease.

Definition gen_lease_set (ls : LeaseSet) : gen :=
  gen_lease_set_minus_sig ls >>> gen_unwrap (ls_signature ls) gen_signature.

Definition LeaseSet_new (dest : Destination) (enc_key : PublicKey) (sig_key : SigningPublicKey) : LeaseSet :=
  mkLeaseSet dest enc_key sig_key [] None.

Definition add_lease (ls : LeaseSet) (l : Lease) : LeaseSet :=
  mkLeaseSet (ls_dest ls) (ls_enc_key ls) (ls_sig_key ls) (leases ls ++ [l]) (ls_signature ls).

Definition LeaseSet_sign (ls : LeaseSet) (sk : SigningPrivateKey)
  : outcome (option (result LeaseSet CryptoError)) :=
  let! sig_bytes := serialize (gen_lease_set_minus_sig ls) in
  match sig_bytes with
  | None => Ret None
  | Some sig_bytes =>
      let! r := ssk_sign sk sig_bytes in
      Ret (Some (rmap (fun s => mkLeaseSet (ls_dest ls) (ls_enc_key ls) (ls_sig_key ls) (leases ls) (Some s)) r))
  end.

Definition LeaseSet_verify (ls : LeaseSet) : outcome (option (result unit CryptoError)) :=
  match ls_signature ls with
  | Some s =>
      let! sig_bytes := serialize (gen_lease_set_minus_sig ls) in
      match sig_bytes with
      | None => Ret None
      | Some sig_bytes =>
          let! r := spk_verify dsa_verify (d_signing_key (ls_dest ls)) sig_bytes s in Ret (Some r)
      end
  | None => Ret (Some (Err NoSignature))
  end.

(** the latest end date, starting from [I2PDate(1)] *)
Definition latest_end (ls : LeaseSet) : Z :=
  foldl (fun expiry l => if date_ms (end_date l) >? expiry then date_ms (end_date l) else expiry) 1 (leases ls).

(** [now]: [SystemTime::now()] *)
Definition is_current (now : Z) (ls : LeaseSet) : bool :=
  latest_end ls <? date_ms (I2PDate_from_system_time now).

(** ** Well-formedness *)

Definition dest_rid (d : Destination) : RouterIdentity :=
  mkRouterIdentity (d_public_key d) (d_padding d) (d_signing_key d) (d_certificate d).
Definition rid_dest (r : RouterIdentity) : Destination :=
  mkDestination (public_key_ r) (padding r) (signing_key_ r) (certificate_ r).

Definition wf_Destination (d : Destination) : Prop := wf_RouterIdentity (dest_rid d).

Definition wf_Lease (l : Lease) : Prop :=
  wf_Hash (tunnel_gw l) /\ wf_TunnelId (lease_tid l) /\ wf_I2PDate (end_date l).

(** everything but the signature: the revocation key has the type of the
    destination's *)
Definition wf_ls_body (ls : LeaseSet) : Prop :=
  wf_Destination (ls_dest ls) /\ wf_PublicKey (ls_enc_key ls) /\
  (wf_spk (ls_sig_key ls) /\ spk_sig_type (ls_sig_key ls) = spk_sig_type (d_signing_key (ls_dest ls))) /\
  Forall wf_Lease (leases ls) /\ u8_ok (len (leases ls)).

Definition wf_LeaseSet (ls : LeaseSet) : Prop :=
  wf_ls_body ls /\
  match ls_signature ls with
  | Some s => wf_sig (spk_sig_type (d_signing_key (ls_dest ls))) s
  | None => False
  end.

(** ** Lemmas *)

Lemma destination_eq i :
  destination i = pbind (router_identity i) (fun i r => POk i (rid_dest r)).
Proof.
  unfold destination, router_identity. rewrite !map_res_eq.
  destruct (nom_pair _ _ i) as [[[i' [pk [d c]]]|]|]; [|done..]. cbn [pbind].
  by destruct (split_signing_key d c) as [[k|]|].
Qed.

Lemma rt_destination d : wf_Destination d -> rt destination (gen_destination d) d.
Proof.
  intros Hwf. eapply rt_ext; [apply destination_eq|reflexivity|].
  eapply rt_bind_ret; [exact (rt_router_identity _ Hwf)|]. intros i. by destruct d.
Qed.

Lemma sound_destination : sound destination wf_Destination.
Proof.
  eapply sound_ext; [apply destination_eq|].
  eapply sound_bind; [apply sound_router_identity|]. intros r Hr. apply sound_ret.
  destruct r. exact Hr.
Qed.

Lemma rt_lease l : wf_Lease l -> rt lease (gen_lease l) l.
Proof.
  intros (Hg & Ht & He). eapply rt_map_pure.
  - apply rt_pair; [by apply rt_hash|]. apply rt_pair; [by apply rt_tunnel_id|by apply rt_i2p_date].
  - by destruct l.
Qed.

Lemma sound_lease : sound lease wf_Lease.
Proof.
  eapply sound_map_pure.
  - apply sound_pair; [apply sound_hash|]. apply sound_pair; [apply sound_tunnel_id|apply sound_i2p_date].
  - by intros [gw [tid ed]] (? & ? & ?).
Qed.

Lemma rt_lease_set ls : wf_LeaseSet ls -> rt lease_set (gen_lease_set ls) ls.
Proof.
  intros ((Hd & He & [Hk Ht] & Hl & Hn) & Hs). unfold gen_lease_set.
  destruct (ls_signature ls) as [sig|] eqn:Esig; [|done].
  destruct (rt_destination _ Hd) as (b1 & W1 & P1).
  destruct (rt_public_key _ He) as (b2 & W2 & P2).
  destruct (rt_signing_key _ Hk) as (b3 & W3 & P3). rewrite Ht in P3.
  destruct (rt_length_count_split be_u8 _ _ lease gen_lease (leases ls)
              (rt_len_u8 _ Hn) eq_refl) as (b4 & b4' & W4 & W4' & P4);
    [by eapply Forall_impl; [exact Hl|apply rt_lease]|].
  destruct (rt_signature _ _ Hs) as (b5 & W5 & P5).
  exists (b1 ++ b2 ++ b3 ++ (b4 ++ b4') ++ b5). split; [writes_solve|].
  eapply parses_bind; [exact P1|]. cbv beta. intros rest.
  rewrite (parses_pair _ _ _ _ _ _ P2 (parses_pair _ _ _ _ _ _ P3 (parses_pair _ _ _ _ _ _ P4 P5))).
  cbn. rewrite <- Esig. by destruct ls.
Qed.

Lemma sound_lease_set : sound lease_set wf_LeaseSet.
Proof.
  eapply sound_bind; [apply sound_destination|]. intros d Hd. cbv beta.
  eapply sound_bind.
  - apply sound_pair; [apply sound_public_key|]. apply sound_pair; [apply sound_signing_key|].
    apply sound_pair; [apply sound_count_u8, sound_lease|apply sound_signature].
  - intros (ek & sk & ls & sig) (He & [Hk Ht] & [Hl Hn] & Hs).
    apply sound_ret. unfold wf_LeaseSet, wf_ls_body. cbn in *. by split_and!.
Qed.

Lemma writes_le_lease l : wf_Lease l -> writes_le (gen_lease l) 44.
Proof.
  intros (Hg & _ & _). eapply writes_le_weaken.
  - apply writes_le_seq; [by apply writes_le_hash|].
    apply writes_le_seq; [apply writes_le_be_u32|apply writes_le_be_u64].
  - lia.
Qed.

Lemma writes_le_lease_set_minus_sig ls :
  wf_ls_body ls -> writes_le (gen_lease_set_minus_sig ls) (2 ^ 17).
Proof.
  intros (Hd & [_ He] & [Hk _] & Hl & Hn). destruct (spk_roundtrip _ Hk) as (b & Hb & Hbl & _).
  eapply writes_le_weaken.
  - apply writes_le_seq; [exact (writes_le_router_identity _ Hd)|].
    apply writes_le_seq; [apply writes_le_slice|].
    apply writes_le_seq; [eapply writes_le_of; [by apply writes_slice_of|reflexivity]|].
    apply writes_le_seq; [apply writes_le_be_u8|].
    apply (writes_le_many _ _ 44); [lia|]. eapply Forall_impl; [exact Hl|apply writes_le_lease].
  - unfold u8_ok in Hn. pose proof (spk_len_le _ _ Hk Hb). lia.
Qed.

Lemma writes_le_lease_set ls : wf_LeaseSet ls -> writes_le (gen_lease_set ls) (2 ^ 18).
Proof.
  intros [Hb Hs]. unfold gen_lease_set. destruct (ls_signature ls) as [s|]; [|done].
  eapply writes_le_weaken;
    [apply writes_le_seq; [by apply writes_le_lease_set_minus_sig|by eapply writes_le_signature]|lia].
Qed.

(** the fold computes the maximum *)
Lemma latest_end_spec ls e :
  latest_end ls < e <-> 1 < e /\ Forall (fun l => date_ms (end_date l) < e) (leases ls).
Proof.
  unfold latest_end. generalize 1 as m. induction (leases ls) as [|l k IH]; intros m; cbn [foldl].
  - split; [by intros; split|by intros []].
  - rewrite IH. rewrite Forall_cons. destruct (Z.gtb_spec (date_ms (end_date l)) m); split.
    + intros [? ?]. split_and!; [lia|done|done].
    + by intros (? & ? & ?).
    + intros [? ?]. split_and!; [done|lia|done].
    + by intros (? & ? & ?).
Qed.

Lemma lease_set_sign_ok ls spk :
  wf_ls_body ls -> key_matches (dest_rid (ls_dest ls)) spk ->
  exists bs sig, serialize (gen_lease_set_minus_sig ls) = Ret (Some bs) /\
    LeaseSet_sign ls spk = Ret (Some (Ok (mkLeaseSet (ls_dest ls) (ls_enc_key ls) (ls_sig_key ls)
                                            (leases ls) (Some sig)))) /\
    wf_sig (spk_sig_type (d_signing_key (ls_dest ls))) sig /\
    spk_verify dsa_verify (d_signing_key (ls_dest ls)) bs sig = Ret (Ok tt).
Proof.
  intros Hwf [Hs Hk]. destruct spk; try done. destruct Hs as [-> ->]. injection Hk as Hk.
  destruct (writes_le_serialize _ _ (writes_le_lease_set_minus_sig ls Hwf)) as (bs & Hb & _); [lia|].
  eexists bs, _. split; [exact Hb|]. unfold LeaseSet_sign. rewrite Hb. cbn.
  split; [reflexivity|]. rewrite <- Hk. cbn. by rewrite ed_sign_verify.
Qed.

End Dest.

#[export] Hint Resolve rt_destination rt_lease rt_lease_set : wire.
#[export] Hint Resolve sound_destination sound_lease sound_lease_set : parse.

(** ** Samples *)

Module DestSamples.

Definition ref_dest : @Destination sigcrates_ref := rid_dest ref_rid.

Definition ref_lease (ms : Z) : Lease := mkLease (mkHash (zeros 32)) (mkTunnelId 7) (mkI2PDate ms).

Definition ref_ls : @LeaseSet sigcrates_ref :=
  add_lease (LeaseSet_new ref_dest (mkPublicKey (zeros 256)) (@SpkEd25519 sigcrates_ref ref_ed_pk))
    (ref_lease 5000).

Lemma ref_ls_wf : wf_ls_body ref_ls.
Proof.
  split; [exact ref_rid_wf|]. split; [by split; [apply zeros_ok|]|]. split; [done|].
  split; [|done]. constructor; [|constructor]. split_and!; [by split; [apply zeros_ok|]|done|done].
Qed.

End DestSamples.
Export DestSamples.

(** ** Properties *)

Module DestProps.

Section Props.
Context {nom : Nom} {cf : CookieFactory} {bu : BigUintOps} {sc : SigCrates} {sha : Sha2}.

(** Lease sets and their destinations survive the wire: a well-formed one
    serialises (no panic, the loop ends) and parses back to itself, and every
    lease set the parser accepts is well-formed, so it can be sent on. *)
Theorem lease_set_roundtrip :
  (forall ls, wf_LeaseSet ls ->
     exists bs, serialize (gen_lease_set ls) = Ret (Some bs) /\ len bs <= 2 ^ 18 /\
       parses lease_set bs ls) /\
  (forall i r ls, bytes_ok i -> lease_set i = POk r ls -> wf_LeaseSet ls) /\
  (forall d, wf_Destination d ->
     exists bs, Destination_to_bytes d = Ret (Some bs) /\ parses destination bs d /\
       Destination_hash d = Ret (Some (Hash_digest bs))).
Proof.
  split_and!.
  - intros ls Hwf. destruct (rt_serialize _ _ _ _ (rt_lease_set ls Hwf) (writes_le_lease_set ls Hwf))
      as (bs & Hs & _ & Hp & Hl); [lia|]. by exists bs.
  - intros i r ls Hi H. by destruct (sound_lease_set i r ls Hi H).
  - intros d Hwf. destruct (rt_serialize _ _ _ _ (rt_destination d Hwf) (writes_le_router_identity _ Hwf))
      as (bs & Hs & _ & Hp & _); [lia|]. exists bs.
    unfold Destination_hash, Destination_to_bytes. by rewrite Hs.
Qed.

(** Signing a well-formed lease set with the key of its destination
    succeeds and the result verifies; before that the lease set has no
    signature to verify. *)
Theorem lease_set_sign_verify dsa_verify (ls : LeaseSet) (spk : SigningPrivateKey) :
  wf_ls_body ls -> key_matches (dest_rid (ls_dest ls)) spk ->
  exists ls', LeaseSet_sign ls spk = Ret (Some (Ok ls')) /\
    LeaseSet_verify dsa_verify ls' = Ret (Some (Ok tt)) /\ leases ls' = leases ls /\ wf_LeaseSet ls'.
Proof.
  intros Hwf Hk. destruct (lease_set_sign_ok dsa_verify ls spk Hwf Hk) as (bs & sig & Hb & Hs & Hsig & Hv).
  eexists. split; [exact Hs|]. split; [|done]. unfold LeaseSet_verify. cbn [ls_signature ls_dest].
  assert (forall g, g = gen_lease_set_minus_sig ls -> serialize g = Ret (Some bs)) as Hg by (by intros ? ->).
  rewrite Hg by reflexivity. cbn [obind]. by rewrite Hv.
Qed.

End Props.

Lemma lease_set_sign_verify_witness :
  exists ls', @LeaseSet_sign cf_ref sigcrates_ref ref_ls ref_ssk = Ret (Some (Ok ls')) /\
    @LeaseSet_verify cf_ref sigcrates_ref (fun _ _ _ => true) ls' = Ret (Some (Ok tt)) /\
    leases ls' = leases ref_ls /\ wf_LeaseSet ls'.
Proof.
  apply (@lease_set_sign_verify cf_ref biguint_ref sigcrates_ref (fun _ _ _ => true) ref_ls ref_ssk).
  - exact ref_ls_wf.
  - split; [split; reflexivity|reflexivity].
Defined.

(** [is_current] holds exactly when every lease has already ended (and the
    clock is past the second millisecond of the epoch): it reports the
    opposite of what its name says, and [expire_lease_sets], which keeps the
    lease sets for which it holds, keeps the expired ones. *)
Theorem is_current_iff_expired {sc : SigCrates} (now : Z) (ls : LeaseSet) :
  is_current now ls = true <->
  1 < date_ms (I2PDate_from_system_time now) /\
  Forall (fun l => date_ms (end_date l) < date_ms (I2PDate_from_system_time now)) (leases ls).
Proof. unfold is_current. rewrite Z.ltb_lt. apply latest_end_spec. Qed.

End DestProps.
