(* ===== verification/I2np.v ===== *)
(** * I2NP records and payloads: [src/i2np/mod.rs], [src/i2np/frame.rs]

    Tunnel build records and every message payload that does not itself
    contain messages.  Garlic messages and the message framing are in
    [Message].  The crate [flate2] (gzip) is the class [Flate2]. *)

From S2P Require Import Prelude Nom Cookie Util Wire Crypto ElGamal Data Dest.

(** ** Bit fields of one byte *)

Section Bits.
Context {nom : Nom}.

Lemma bits_byte {A} (p : parser bit_input A) b i v :
  p (b :: i, 0) = POk (i, 0) v -> nom_bits p (b :: i) = POk i v.
Proof. intros H. by rewrite nom_bits_eq, H. Qed.

Lemma bits_nil {A} (p : parser bit_input A) k :
  p ([], 0) = PErr (Incomplete k) -> exists k', nom_bits p [] = PErr (Incomplete k').
Proof. apply nom_bits_short. Qed.

(** a parser of one byte's bits *)
Lemma sound_bits {A} (p : parser bit_input A) (f : Z -> A) P :
  (forall b i, p (b :: i, 0) = POk (i, 0) (f b)) -> (exists k, p ([], 0) = PErr (Incomplete k)) ->
  (forall b, byte_ok b -> P (f b)) -> sound (nom_bits p) P.
Proof.
  intros Hp [k Hk] HP [|b i] r a Hi H.
  - destruct (bits_nil p k Hk) as [k' Hk']. rewrite Hk' in H. discriminate H.
  - rewrite (bits_byte p b i _ (Hp b i)) in H. injection H as <- <-.
    apply Forall_cons in Hi as [Hb _]. split; [by apply HP|]. by exists [b].
Qed.

Lemma be_bytes_1 b : byte_ok b -> be_bytes 1 b = [b].
Proof. intros Hb. cbn. by rewrite Z.mod_small. Qed.

End Bits.

(** ** Build records *)

Inductive ParticipantType := InboundGateway | Intermediate | OutboundEndpoint.

#[export] Instance ParticipantType_eq_dec : EqDecision ParticipantType.
Proof. solve_decision. Defined.

Record BuildRequestRecord := mkBuildRequestRecord {
  receive_tid : TunnelId;
  our_ident : Hash;
  next_tid : TunnelId;
  next_ident : Hash;
  layer_key : SessionKey;
  iv_key : SessionKey;
  reply_key : SessionKey;
  reply_iv : bytes;
  hop_type : ParticipantType;
  request_time : Z;
  send_msg_id : Z
}.

Record BuildResponseRecord := mkBuildResponseRecord { reply : Z }.

Inductive BuildRequestError :=
| BreCrypto (e : CryptoError)
| BreRead (e : ReadError)
| BreInvalid
| BreDuplicate.

Definition wf_BuildRequestRecord (r : BuildRequestRecord) : Prop :=
  wf_TunnelId (receive_tid r) /\ wf_Hash (our_ident r) /\ wf_TunnelId (next_tid r) /\
  wf_Hash (next_ident r) /\ wf_SessionKey (layer_key r) /\ wf_SessionKey (iv_key r) /\
  wf_SessionKey (reply_key r) /\ (bytes_ok (reply_iv r) /\ len (reply_iv r) = 16) /\
  u32_ok (request_time r) /\ u32_ok (send_msg_id r).

Section Records.
Context {nom : Nom} {cf : CookieFactory} {bu : BigUintOps} {sha : Sha2} {grp : DhGroup}.

Definition iv : parser bytes bytes := fun input =>
  let_p (i, x) := nom_take 16 input in POk i x.

(** the two top bits of the flag byte; both set is refused *)
Definition hop_flags : parser bytes ParticipantType :=
  nom_map
    (nom_verify
      (map_pure
        (nom_bits (terminated (nom_pair (take_bits 1) (take_bits 1)) (take_bits 6)))
        (fun '(ibgw, obep) => (ibgw >? 0, obep >? 0)))
      (fun '(ibgw, obep) => negb (ibgw && obep)))
    (fun '(ibgw, obep) =>
       match ibgw, obep with
       | false, false => Ret Intermediate
       | true, false => Ret InboundGateway
       | false, true => Ret OutboundEndpoint
       | true, true => Panic
       end).

Definition build_request_record : parser bytes BuildRequestRecord :=
  map_pure
    (terminated
      (nom_pair tunnel_id (nom_pair hash (nom_pair tunnel_id (nom_pair hash
        (nom_pair session_key (nom_pair session_key (nom_pair session_key
          (nom_pair iv (nom_pair hop_flags (nom_pair be_u32 be_u32))))))))))
      (nom_take 29))
    (fun '(rt, (oi, (nt, (ni, (lk, (ik, (rk, (ri, (ht, (tm, mid)))))))))) =>
       mkBuildRequestRecord rt oi nt ni lk ik rk ri ht tm mid).

Definition hop_flag_byte (t : ParticipantType) : Z :=
  match t with Intermediate => 0 | InboundGateway => 128 | OutboundEndpoint => 64 end.

(** [padding]: 29 random bytes *)
Definition gen_build_request_record (padding : bytes) (brr : BuildRequestRecord) : gen :=
  let flags := hop_flag_byte (hop_type brr) in
  gen_tunnel_id (receive_tid brr) >>> gen_hash (our_ident brr) >>>
  gen_tunnel_id (next_tid brr) >>> gen_hash (next_ident brr) >>>
  gen_session_key (layer_key brr) >>> gen_session_key (iv_key brr) >>>
  gen_session_key (reply_key brr) >>> gen_slice (reply_iv brr) >>>
  gen_be_u8 flags >>> gen_be_u32 (request_time brr) >>> gen_be_u32 (send_msg_id brr) >>>
  gen_slice padding.

Definition calculate_build_response_record_hash (padding : bytes) (reply : Z) : bytes :=
  sha256 (padding ++ [reply]).

Definition build_response_record : parser bytes BuildResponseRecord :=
  map_opt (nom_pair hash (nom_pair (nom_take 495) be_u8))
    (fun '(h, (padding, reply)) =>
       let res := calculate_build_response_record_hash padding reply in
       Ret (if bytes_eqb (hash_bytes h) res then Some (mkBuildResponseRecord reply) else None)).

(** [padding]: 495 random bytes *)
Definition gen_build_response_record (padding : bytes) (brr : BuildResponseRecord) : gen :=
  let hash := calculate_build_response_record_hash padding (reply brr) in
  gen_slice hash >>> gen_slice padding >>> gen_be_u8 (reply brr).

(** [BuildRequestRecord::new]: the keys are drawn, the time is in hours *)
Definition BuildRequestRecord_new (rng_iv rng_layer rng_ivk rng_reply : bytes) (now_secs : Z)
    (receive_tid : TunnelId) (our_ident : Hash) (next_tid : TunnelId) (next_ident : Hash)
    (hop_type : ParticipantType) : BuildRequestRecord :=
  mkBuildRequestRecord receive_tid our_ident next_tid next_ident
    (mkSessionKey rng_layer) (mkSessionKey rng_ivk) (mkSessionKey rng_reply) rng_iv
    hop_type (as_u32 (now_secs / 3600)) 0.

(** [BuildRequestRecord::encrypt]: into a 222-byte plaintext, then ElGamal *)
Definition BuildRequestRecord_encrypt (padding : bytes) (draws_b : list Z) (draws_k : list bytes)
    (brr : BuildRequestRecord) (encryptor : Encryptor) : outcome (option bytes) :=
  let! (pt, r) := gen_build_request_record padding brr (zeros 222, 0) in
  let! _ := unwrap (rok r) in
  let! e := encrypt encryptor draws_b draws_k pt false in
  match e with
  | None => Ret None
  | Some e =>
      let! ct := unwrap (rok e) in
      Ret (Some (slice 0 16 (hash_bytes (our_ident brr)) ++ ct))
  end.

(** [BuildRequestRecord::decrypt]; slicing a record below 16 bytes panics *)
Definition BuildRequestRecord_decrypt (ct : bytes) (decryptor : Decryptor)
  : outcome (result BuildRequestRecord BuildRequestError) :=
  if len ct <? 16 then Panic
  else
    let! pt := decrypt decryptor (zdrop 16 ct) false in
    match pt with
    | Err e => Ret (Err (BreCrypto e))
    | Ok pt =>
        let! r := build_request_record pt in
        match r with
        | Err e => Ret (Err (BreRead (ReadError_from e)))
        | Ok (_, brr) =>
            if bytes_eqb (slice 0 16 ct) (slice 0 16 (hash_bytes (our_ident brr)))
            then Ret (Ok brr) else Ret (Err BreInvalid)
        end
    end.

(** *** Lemmas *)

Lemma hop_bits b i :
  terminated (nom_pair (take_bits 1) (take_bits 1)) (take_bits 6) (b :: i, 0) =
  POk (i, 0) (b / 2 ^ 7 mod 2 ^ 1, b / 2 ^ 6 mod 2 ^ 1).
Proof.
  rewrite terminated_eq, nom_pair_eq, (take_bits_in 1 0) by lia. cbn [pbind POk].
  rewrite (take_bits_in 1 (0 + 1)) by lia. cbn [pbind POk]. by rewrite take_bits_end by lia.
Qed.

Lemma rt_hop_flags t : rt hop_flags (gen_be_u8 (hop_flag_byte t)) t.
Proof.
  eapply rt_intro; [apply writes_be_u8|]. rewrite be_bytes_1 by (by destruct t).
  eapply parses_map; [apply parses_verify|].
  - eapply parses_map_pure; [|reflexivity]. intros rest. apply bits_byte, hop_bits.
  - by destruct t.
  - by destruct t.
Qed.

Lemma sound_hop_flags : sound hop_flags (fun _ => True).
Proof.
  eapply (sound_map _ _ (fun _ => True)); [|done].
  eapply sound_weaken; [apply (sound_verify _ _ (fun _ => True))|done].
  eapply (sound_map_pure _ _ (fun _ => True)); [|done].
  eapply (sound_bits _ (fun b => (b / 2 ^ 7 mod 2 ^ 1, b / 2 ^ 6 mod 2 ^ 1))); [apply hop_bits| |done].
  destruct (take_bits_short 1) as [k Hk]; [lia|]. exists k.
  by rewrite terminated_eq, nom_pair_eq, Hk.
Qed.

Lemma rt_iv b : len b = 16 -> rt iv (gen_slice b) b.
Proof. intros H. eapply rt_bind_ret; [by apply rt_slice|done]. Qed.
Lemma sound_iv : sound iv (fun b => bytes_ok b /\ len b = 16).
Proof. eapply sound_bind; [by apply sound_take|]. intros b Hb. by apply sound_ret. Qed.

(** the record's 222 bytes: 193 of fields, and the padding *)
Definition enc_build_request_record (padding : bytes) (brr : BuildRequestRecord) : bytes :=
  (be_bytes 4 (tid_val (receive_tid brr)) ++ hash_bytes (our_ident brr) ++
   be_bytes 4 (tid_val (next_tid brr)) ++ hash_bytes (next_ident brr) ++
   key_bytes (layer_key brr) ++ key_bytes (iv_key brr) ++ key_bytes (reply_key brr) ++
   reply_iv brr ++ be_bytes 1 (hop_flag_byte (hop_type brr)) ++
   be_bytes 4 (request_time brr) ++ be_bytes 4 (send_msg_id brr)) ++ padding.

Lemma writes_build_request_record padding brr :
  writes (gen_build_request_record padding brr) (enc_build_request_record padding brr).
Proof. unfold gen_build_request_record, enc_build_request_record. writes_solve. Qed.

Lemma parses_build_request_record padding brr :
  wf_BuildRequestRecord brr -> len padding = 29 ->
  parses build_request_record (enc_build_request_record padding brr) brr.
Proof.
  intros (H1 & H2 & H3 & H4 & H5 & H6 & H7 & [_ H8] & H9 & H10) Hp.
  eapply parses_map_pure.
  - eapply parses_terminated; [|by apply parses_take].
    repeat (apply parses_pair;
      [first [by eapply parses_map_pure; [apply parses_be_u32|] | by eapply parses_map_pure; [by apply parses_take; symmetry; apply H2|]
             | by eapply parses_map_pure; [by apply parses_take; symmetry; apply H4|]
             | by apply parses_session_key
             | by apply (rt_parses _ _ _ _ (rt_iv _ H8) (writes_slice _))
             | by apply (rt_parses _ _ _ _ (rt_hop_flags _) (writes_be_u8 _))
             | by apply parses_be_u32] |]).
    by apply parses_be_u32.
  - by destruct brr as [[] [] [] [] ? ? ? ? ? ? ?].
Qed.

Lemma len_build_request_record padding brr :
  wf_BuildRequestRecord brr -> len padding = 29 -> len (enc_build_request_record padding brr) = 222.
Proof.
  intros (_ & [_ H2] & _ & [_ H4] & [_ H5] & [_ H6] & [_ H7] & [_ H8] & _) Hp.
  unfold enc_build_request_record. rewrite !len_app, !len_be_bytes, Hp, H2, H4, H5, H6, H7, H8. done.
Qed.

Lemma bytes_build_request_record padding brr :
  wf_BuildRequestRecord brr -> bytes_ok padding -> bytes_ok (enc_build_request_record padding brr).
Proof.
  intros (_ & [H2 _] & _ & [H4 _] & [H5 _] & [H6 _] & [H7 _] & [H8 _] & _) Hp.
  unfold enc_build_request_record. bytes_solve.
Qed.

Lemma sound_build_request_record : sound build_request_record wf_BuildRequestRecord.
Proof.
  eapply sound_map_pure.
  - eapply sound_terminated; [|by apply (sound_take 29)].
    repeat first [apply sound_tunnel_id | apply sound_hash | apply sound_session_key | apply sound_iv
                 | apply sound_hop_flags | apply sound_be_u32 | apply sound_pair].
  - intros (rt & oi & nt & ni & lk & ik & rk & ri & ht & tm & mid). unfold wf_BuildRequestRecord. cbn. tauto.
Qed.

Lemma rt_build_response_record padding brr :
  bytes_ok padding -> len padding = 495 -> u8_ok (reply brr) ->
  rt build_response_record (gen_build_response_record padding brr) brr.
Proof.
  intros Hpo Hp Hr. eapply rt_map_opt.
  - apply rt_pair.
    + apply (rt_hash (mkHash (calculate_build_response_record_hash padding (reply brr)))).
      split; [apply sha256_ok|apply sha256_len].
    + apply rt_pair; [by apply rt_slice|by apply rt_be_u8].
  - cbn. rewrite bytes_eqb_refl. by destruct brr.
Qed.

End Records.

(** ** Payloads *)

(** The crate [flate2]: [gz_decode] is [GzDecoder] read to its end;
    [gz_write] and [gz_finish] are the encoder's [write] (how much it took)
    and [finish]. *)
Class Flate2 := {
  gz_decode : bytes -> option bytes;
  gz_write : bytes -> option Z;
  gz_finish : bytes -> option bytes;
  gz_decode_ok : forall z b, gz_decode z = Some b -> bytes_ok b;
  gz_roundtrip : forall b z, bytes_ok b -> gz_finish b = Some z -> gz_decode z = Some b;
}.

Record ReplyPath := mkReplyPath { rp_token : Z; rp_tid : TunnelId; rp_gateway : Hash }.

Section StoreTypes.
Context {sc : SigCrates}.

Inductive DatabaseStoreData :=
| DsRI (ri : RouterInfo)
| DsLS (ls : LeaseSet).

Record DatabaseStore := mkDatabaseStore {
  ds_key : Hash;
  ds_type : Z;
  ds_reply : option ReplyPath;
  ds_data : DatabaseStoreData
}.

End StoreTypes.

Inductive DatabaseLookupType := LtAny | LtLeaseSet | LtRouterInfo | LtExploratory.

#[export] Instance DatabaseLookupType_eq_dec : EqDecision DatabaseLookupType.
Proof. solve_decision. Defined.

Record DatabaseLookupFlags := mkDatabaseLookupFlags {
  fl_delivery : bool;
  fl_encryption : bool;
  fl_lookup_type : DatabaseLookupType
}.

Record DatabaseLookup := mkDatabaseLookup {
  dl_key : Hash;
  dl_from : Hash;
  dl_lookup_type : DatabaseLookupType;
  dl_reply_tid : option TunnelId;
  dl_excluded_peers : list Hash;
  dl_reply_enc : option (SessionKey * list SessionTag)
}.

Record DatabaseSearchReply := mkDatabaseSearchReply {
  dsr_key : Hash;
  dsr_peers : list Hash;
  dsr_from : Hash
}.

Record DeliveryStatus := mkDeliveryStatus { dst_msg_id : Z; dst_time_stamp : I2PDate }.

Record GarlicCloveDeliveryInstructions := mkGcdi {
  gc_encrypted : bool;
  gc_delivery_type : Z;
  gc_delay_set : bool;
  gc_session_key : option SessionKey;
  gc_to_hash : option Hash;
  gc_tid : option TunnelId;
  gc_delay : option Z
}.

Record TunnelData := mkTunnelData { td_tid : TunnelId; td_data : bytes }.
Record TunnelGateway := mkTunnelGateway { tg_tid : TunnelId; tg_data : bytes }.

Section Payloads.
Context {nom : Nom} {cf : CookieFactory} {bu : BigUintOps} {sc : SigCrates} {sha : Sha2} {fl : Flate2}.

(** *** DatabaseStore *)

Definition compressed_ri : parser bytes RouterInfo := fun input =>
  let_p (i, payload) := length_data be_u16 input in
  match gz_decode payload with
  | Some buf =>
      match router_info buf with
      | Ret (Ok (_, ri)) => POk i ri
      | Ret (Err (Incomplete n)) => PErr (Incomplete n)
      | Ret (Err (Error _ code)) => PErr (Error input code)
      | Ret (Err (Failure _ code)) => PErr (Failure input code)
      | Panic => Panic
      end
  | None => PErr (Error input KEof)
  end.

(** the router info is generated into an empty [Vec] *)
Definition gen_compressed_ri (ri : RouterInfo) : gen := fun '(out, idx) =>
  match gen_router_info ri ([], 0) with
  | Ret (buf, Ok _) =>
      match gz_write buf with
      | Some n =>
          if n <? len buf then GErr out (CustomError 1)
          else
            match gz_finish buf with
            | Some payload => (gen_be_u16 (len payload) >>> gen_slice payload) (out, idx)
            | None => GErr out (CustomError 1)
            end
      | None => GErr out (CustomError 1)
      end
  | Ret (_, Err e) => GErr out e
  | Panic => Panic
  end.

Definition reply_path : parser bytes (option ReplyPath) := fun i =>
  let_p (i, reply_tok) := be_u32 i in
  nom_cond (reply_tok >? 0)
    (map_pure (nom_pair tunnel_id hash) (fun '(tid, gw) => mkReplyPath reply_tok tid gw)) i.

Definition gen_reply_path (r : option ReplyPath) : gen :=
  match r with
  | Some path => gen_be_u32 (rp_token path) >>> gen_tunnel_id (rp_tid path) >>> gen_hash (rp_gateway path)
  | None => gen_be_u32 0
  end.

Definition database_store : parser bytes DatabaseStore := fun i =>
  let_p (i, (key, ds_type)) := nom_pair hash be_u8 i in
  let_p (i, reply) := reply_path i in
  let_p (i, data) :=
    (if ds_type =? 0 then map_pure compressed_ri DsRI i
     else if ds_type =? 1 then map_pure lease_set DsLS i
     else Panic) in
  POk i (mkDatabaseStore key ds_type reply data).

Definition gen_database_store_data (d : DatabaseStoreData) : gen :=
  match d with
  | DsRI ri => gen_compressed_ri ri
  | DsLS ls => gen_lease_set ls
  end.

Definition gen_database_store (ds : DatabaseStore) : gen :=
  gen_hash (ds_key ds) >>> gen_be_u8 (ds_type ds) >>> gen_reply_path (ds_reply ds) >>>
  gen_database_store_data (ds_data ds).

(** [DatabaseStore::from_ri] and [from_ls]: keyed under the hash *)
Definition DatabaseStore_from_ri (ri : RouterInfo) (reply : option ReplyPath) : outcome (option DatabaseStore) :=
  let! key := RouterIdentity_hash (router_id ri) in
  Ret ((fun key => mkDatabaseStore key 0 reply (DsRI ri)) <$> key).

Definition DatabaseStore_from_ls (ls : LeaseSet) (reply : option ReplyPath) : outcome (option DatabaseStore) :=
  let! key := Destination_hash (ls_dest ls) in
  Ret ((fun key => mkDatabaseStore key 1 reply (DsLS ls)) <$> key).

(** *** DatabaseLookup *)

Definition lookup_type_of (c : Z) : outcome DatabaseLookupType :=
  if c =? 0 then Ret LtAny
  else if c =? 1 then Ret LtLeaseSet
  else if c =? 2 then Ret LtRouterInfo
  else if c =? 3 then Ret LtExploratory
  else Panic.

Definition database_lookup_flags : parser bytes DatabaseLookupFlags :=
  nom_map
    (nom_bits (preceded (take_bits 4)
                 (nom_pair (take_bits 2) (nom_pair (take_bits 1) (take_bits 1)))))
    (fun '(lookup_type, (encryption, delivery)) =>
       let! lt := lookup_type_of lookup_type in
       Ret (mkDatabaseLookupFlags (delivery >? 0) (encryption >? 0) lt)).

Definition lookup_type_code (t : DatabaseLookupType) : Z :=
  match t with LtAny => 0 | LtLeaseSet => 1 | LtRouterInfo => 2 | LtExploratory => 3 end.

Definition lookup_flags_byte (fl : DatabaseLookupFlags) : Z :=
  let x := 0 in
  let x := if fl_delivery fl then Z.lor x 1 else x in
  let x := if fl_encryption fl then Z.lor x 2 else x in
  Z.lor x (Z.land (as_u8 (Z.shiftl (lookup_type_code (fl_lookup_type fl)) 2)) 12).

Definition gen_database_lookup_flags (fl : DatabaseLookupFlags) : gen := gen_be_u8 (lookup_flags_byte fl).

Definition database_lookup : parser bytes DatabaseLookup := fun i =>
  let_p (i, (key, (from, flags))) := nom_pair hash (nom_pair hash database_lookup_flags) i in
  let_p (i, (reply_tid, (excluded_peers, reply_enc))) :=
    nom_pair (nom_cond (fl_delivery flags) tunnel_id)
      (nom_pair (length_count be_u16 hash)
        (nom_cond (fl_encryption flags)
          (nom_pair session_key (length_count be_u8 session_tag)))) i in
  POk i (mkDatabaseLookup key from (fl_lookup_type flags) reply_tid excluded_peers reply_enc).

Definition gen_database_lookup (dl : DatabaseLookup) : gen :=
  let flags := mkDatabaseLookupFlags (is_some (dl_reply_tid dl)) (is_some (dl_reply_enc dl))
                 (dl_lookup_type dl) in
  gen_hash (dl_key dl) >>>
  gen_hash (dl_from dl) >>>
  gen_database_lookup_flags flags >>>
  gen_cond (fl_delivery flags) (gen_unwrap (dl_reply_tid dl) gen_tunnel_id) >>>
  gen_be_u16 (as_u16 (len (dl_excluded_peers dl))) >>>
  gen_many (dl_excluded_peers dl) gen_hash >>>
  gen_cond (fl_encryption flags)
    (gen_unwrap (dl_reply_enc dl) (fun enc =>
       gen_session_key enc.1 >>> gen_be_u8 (as_u8 (len enc.2)) >>> gen_many enc.2 gen_session_tag)).

(** *** DatabaseSearchReply, DeliveryStatus *)

Definition database_search_reply : parser bytes DatabaseSearchReply :=
  map_pure (nom_pair hash (nom_pair (length_count be_u8 hash) hash))
    (fun '(key, (peers, from)) => mkDatabaseSearchReply key peers from).

Definition gen_database_search_reply (dsr : DatabaseSearchReply) : gen :=
  gen_hash (dsr_key dsr) >>> gen_be_u8 (as_u8 (len (dsr_peers dsr))) >>>
  gen_many (dsr_peers dsr) gen_hash >>> gen_hash (dsr_from dsr).

Definition delivery_status : parser bytes DeliveryStatus :=
  map_pure (nom_pair be_u32 i2p_date) (fun '(msg_id, ts) => mkDeliveryStatus msg_id ts).

Definition gen_delivery_status (ds : DeliveryStatus) : gen :=
  gen_be_u32 (dst_msg_id ds) >>> gen_i2p_date (dst_time_stamp ds).

(** *** Garlic clove delivery instructions *)

Definition garlic_clove_delivery_instructions : parser bytes GarlicCloveDeliveryInstructions := fun i =>
  let_p (i, (encrypted, (delivery_type, delay_set))) :=
    map_pure
      (nom_bits (terminated (nom_pair (take_bits 1) (nom_pair (take_bits 2) (take_bits 1))) (take_bits 4)))
      (fun '(encrypted, (delivery_type, delay_set)) => (encrypted >? 0, (delivery_type, delay_set >? 0))) i in
  map_pure
    (nom_pair (nom_cond encrypted session_key)
      (nom_pair (nom_cond (negb (delivery_type =? 0)) hash)
        (nom_pair (nom_cond (delivery_type =? 3) tunnel_id) (nom_cond delay_set be_u32))))
    (fun '(session_key, (to_hash, (tid, delay))) =>
       mkGcdi encrypted delivery_type delay_set session_key to_hash tid delay) i.

Definition gcdi_flags (g : GarlicCloveDeliveryInstructions) : Z :=
  let flags := 0 in
  let flags := if gc_encrypted g then Z.lor flags 128 else flags in
  let flags := Z.lor flags (Z.land (as_u8 (Z.shiftl (gc_delivery_type g) 5)) 96) in
  if gc_delay_set g then Z.lor flags 16 else flags.

Definition gen_garlic_clove_delivery_instructions (g : GarlicCloveDeliveryInstructions) : gen :=
  gen_be_u8 (gcdi_flags g) >>>
  gen_cond (gc_encrypted g) (gen_unwrap (gc_session_key g) gen_session_key) >>>
  gen_cond (negb (gc_delivery_type g =? 0)) (gen_unwrap (gc_to_hash g) gen_hash) >>>
  gen_cond (gc_delivery_type g =? 3) (gen_unwrap (gc_tid g) gen_tunnel_id) >>>
  gen_cond (gc_delay_set g) (gen_unwrap (gc_delay g) gen_be_u32).

(** *** TunnelData, TunnelGateway, Data *)

Definition tunnel_data : parser bytes TunnelData :=
  map_pure (nom_pair tunnel_id (nom_take 1024)) (fun '(tid, data) => mkTunnelData tid data).
Definition gen_tunnel_data (td : TunnelData) : gen :=
  gen_tunnel_id (td_tid td) >>> gen_slice (td_data td).

Definition tunnel_gateway : parser bytes TunnelGateway :=
  map_pure (nom_pair tunnel_id (length_data be_u16)) (fun '(tid, data) => mkTunnelGateway tid data).
(** no length is written *)
Definition gen_tunnel_gateway (tg : TunnelGateway) : gen :=
  gen_tunnel_id (tg_tid tg) >>> gen_slice (tg_data tg).

Definition data : parser bytes bytes := length_data be_u32.
Definition gen_data (d : bytes) : gen := gen_be_u32 (len d) >>> gen_slice d.

(** *** TunnelBuild and its variants: records of 528 bytes *)

Definition tunnel_build : parser bytes (list bytes) := fun input =>
  let_p (i, r) := nom_count (nom_take 528) 8 input in POk i r.

Definition gen_tunnel_build (tb : list bytes) : gen :=
  gen_slice (nth 0 tb []) >>> gen_slice (nth 1 tb []) >>> gen_slice (nth 2 tb []) >>>
  gen_slice (nth 3 tb []) >>> gen_slice (nth 4 tb []) >>> gen_slice (nth 5 tb []) >>>
  gen_slice (nth 6 tb []) >>> gen_slice (nth 7 tb []).

Definition tunnel_build_reply : parser bytes (list bytes) := fun input =>
  let_p (i, r) := nom_count (nom_take 528) 8 input in POk i r.

Definition gen_tunnel_build_reply (tb : list bytes) : gen :=
  gen_slice (nth 0 tb []) >>> gen_slice (nth 1 tb []) >>> gen_slice (nth 2 tb []) >>>
  gen_slice (nth 3 tb []) >>> gen_slice (nth 4 tb []) >>> gen_slice (nth 5 tb []) >>>
  gen_slice (nth 6 tb []) >>> gen_slice (nth 7 tb []).

Definition variable_tunnel_build : parser bytes (list bytes) := fun input =>
  let_p (i, r) := length_count be_u8 (nom_take 528) input in POk i r.

(** [for record in tb { x = gen_slice!(x, record)?; }] *)
Fixpoint gen_records (tb : list bytes) : gen := fun x =>
  match tb with
  | [] => GOk x.1 x.2
  | record :: tb => gbind (gen_slice record x) (gen_records tb)
  end.

Definition gen_variable_tunnel_build (tb : list bytes) : gen := fun input =>
  gbind (gen_be_u8 (as_u8 (len tb)) input) (gen_records tb).

Definition variable_tunnel_build_reply : parser bytes (list bytes) := fun input =>
  let_p (i, r) := length_count be_u8 (nom_take 528) input in POk i r.

Definition gen_variable_tunnel_build_reply (tbr : list bytes) : gen := fun input =>
  gbind (gen_be_u8 (as_u8 (len tbr)) input) (gen_records tbr).

(** *** Well-formedness *)

Definition wf_ReplyPath (r : ReplyPath) : Prop :=
  (u32_ok (rp_token r) /\ 0 < rp_token r) /\ wf_TunnelId (rp_tid r) /\ wf_Hash (rp_gateway r).

Definition wf_opt {A} (P : A -> Prop) (o : option A) : Prop :=
  match o with Some a => P a | None => True end.

Definition wf_DatabaseStore (ds : DatabaseStore) : Prop :=
  wf_Hash (ds_key ds) /\ wf_opt wf_ReplyPath (ds_reply ds) /\
  match ds_data ds with
  | DsRI ri => ds_type ds = 0 /\ wf_RouterInfo ri
  | DsLS ls => ds_type ds = 1 /\ wf_LeaseSet ls
  end.

Definition wf_DatabaseLookup (dl : DatabaseLookup) : Prop :=
  wf_Hash (dl_key dl) /\ wf_Hash (dl_from dl) /\ wf_opt wf_TunnelId (dl_reply_tid dl) /\
  (Forall wf_Hash (dl_excluded_peers dl) /\ u16_ok (len (dl_excluded_peers dl))) /\
  wf_opt (fun enc => wf_SessionKey enc.1 /\ Forall wf_SessionTag enc.2 /\ u8_ok (len enc.2))
         (dl_reply_enc dl).

Definition wf_DatabaseSearchReply (d : DatabaseSearchReply) : Prop :=
  wf_Hash (dsr_key d) /\ (Forall wf_Hash (dsr_peers d) /\ u8_ok (len (dsr_peers d))) /\
  wf_Hash (dsr_from d).

Definition wf_DeliveryStatus (d : DeliveryStatus) : Prop :=
  u32_ok (dst_msg_id d) /\ wf_I2PDate (dst_time_stamp d).

(** the optional fields are there exactly when the flags say so *)
Definition wf_Gcdi (g : GarlicCloveDeliveryInstructions) : Prop :=
  0 <= gc_delivery_type g < 4 /\
  (is_some (gc_session_key g) = gc_encrypted g /\ wf_opt wf_SessionKey (gc_session_key g)) /\
  (is_some (gc_to_hash g) = negb (gc_delivery_type g =? 0) /\ wf_opt wf_Hash (gc_to_hash g)) /\
  (is_some (gc_tid g) = (gc_delivery_type g =? 3) /\ wf_opt wf_TunnelId (gc_tid g)) /\
  (is_some (gc_delay g) = gc_delay_set g /\ wf_opt u32_ok (gc_delay g)).

Definition wf_TunnelData (td : TunnelData) : Prop :=
  wf_TunnelId (td_tid td) /\ bytes_ok (td_data td) /\ len (td_data td) = 1024.

Definition wf_TunnelGateway (tg : TunnelGateway) : Prop :=
  wf_TunnelId (tg_tid tg) /\ bytes_ok (tg_data tg) /\ u16_ok (len (tg_data tg)).

Definition wf_record (r : bytes) : Prop := bytes_ok r /\ len r = 528.

(** *** Round trips *)

(** an optional field whose flag is whether it is there *)
Lemma rt_cond_opt {A} (p : parser bytes A) (g : A -> gen) (P : A -> Prop) b (o : option A) :
  is_some o = b -> wf_opt P o -> (forall a, P a -> rt p (g a) a) ->
  rt (nom_cond b p) (gen_cond b (gen_unwrap o g)) o.
Proof.
  intros <- Ho Hr. apply rt_cond; destruct o as [a|]; try done. intros _. exists a. split; [done|].
  destruct (Hr a Ho) as (bs & Hw & Hp). exists bs. split; [by apply writes_unwrap|done].
Qed.

Lemma sound_cond_opt {A} (p : parser bytes A) (P : A -> Prop) b :
  sound p P -> sound (nom_cond b p) (fun o => is_some o = b /\ wf_opt P o).
Proof.
  intros Hp. eapply sound_weaken; [by apply sound_cond|]. intros [a|]; cbn; [by intros [-> ?]|by intros ->].
Qed.

Lemma rt_reply_path r : wf_opt wf_ReplyPath r -> rt reply_path (gen_reply_path r) r.
Proof.
  intros Hr. destruct r as [[tok tid gw]|].
  - destruct Hr as ([Ht Hpos] & Htid & Hgw). cbn in *.
    eapply rt_bind; [by apply rt_be_u32|]. cbv beta.
    destruct (Z.gtb_spec tok 0); [|lia].
    eapply rt_ext; [intros i; apply nom_cond_eq|reflexivity|].
    eapply rt_bind_ret; [|reflexivity]. eapply rt_map_pure.
    + apply rt_pair; [by apply rt_tunnel_id|by apply rt_hash].
    + done.
  - eapply rt_bind_ret; [by apply rt_be_u32|]. intros i. by rewrite nom_cond_eq.
Qed.

Lemma sound_reply_path : sound reply_path (wf_opt wf_ReplyPath).
Proof.
  eapply sound_bind; [apply sound_be_u32|]. intros tok Htok. cbv beta.
  eapply sound_weaken; [apply sound_cond|].
  - eapply (sound_map_pure _ _ _ (fun r => rp_token r = tok /\ wf_TunnelId (rp_tid r) /\ wf_Hash (rp_gateway r))).
    + apply sound_pair; [apply sound_tunnel_id|apply sound_hash].
    + by intros [tid gw] [? ?].
  - intros [r|]; cbn; [|done]. intros [Hg (He & Ht & Hh)]. split; [|done].
    rewrite He. split; [done|]. lia.
Qed.

(** a lease set is the only thing [gen_database_store] can write *)
Lemma rt_database_store ds :
  wf_DatabaseStore ds -> (exists ls, ds_data ds = DsLS ls) -> rt database_store (gen_database_store ds) ds.
Proof.
  intros (Hk & Hr & Hd) [ls Els]. rewrite Els in Hd. destruct Hd as [Ht Hls].
  destruct (rt_hash _ Hk) as (b1 & W1 & P1).
  destruct (rt_be_u8 (ds_type ds)) as (b2 & W2 & P2); [by rewrite Ht|].
  destruct (rt_reply_path _ Hr) as (b3 & W3 & P3).
  destruct (rt_lease_set _ Hls) as (b4 & W4 & P4).
  exists ((b1 ++ b2) ++ b3 ++ b4). unfold gen_database_store. rewrite Els. cbn [gen_database_store_data].
  split; [writes_solve|].
  eapply parses_bind; [apply parses_pair; [exact P1|exact P2]|]. cbv beta iota. intros rest.
  rewrite <- app_assoc, P3. cbn [pbind POk]. rewrite Ht. cbn [Z.eqb].
  rewrite (parses_map_pure _ DsLS _ _ _ P4 eq_refl). cbn. rewrite <- Els, <- Ht. by destruct ds.
Qed.

Lemma lookup_bits b i :
  preceded (take_bits 4) (nom_pair (take_bits 2) (nom_pair (take_bits 1) (take_bits 1))) (b :: i, 0) =
  POk (i, 0) (b / 2 ^ 2 mod 2 ^ 2, (b / 2 ^ 1 mod 2 ^ 1, b mod 2 ^ 1)).
Proof.
  rewrite preceded_eq, (take_bits_in 4 0) by lia. cbn [pbind POk].
  rewrite nom_pair_eq, (take_bits_in 2 (0 + 4)) by lia. cbn [pbind POk].
  rewrite nom_pair_eq, (take_bits_in 1 (0 + 4 + 2)) by lia. cbn [pbind POk].
  by rewrite take_bits_end by lia.
Qed.

Lemma rt_database_lookup_flags f : rt database_lookup_flags (gen_database_lookup_flags f) f.
Proof.
  eapply rt_intro; [apply writes_be_u8|].
  rewrite be_bytes_1 by (by destruct f as [[] [] []]).
  eapply parses_map; [intros rest; apply bits_byte, lookup_bits|]. by destruct f as [[] [] []].
Qed.

Lemma sound_database_lookup_flags : sound database_lookup_flags (fun _ => True).
Proof.
  eapply (sound_map _ _ (fun _ => True)); [|done].
  eapply (sound_bits _ _ _ lookup_bits); [|done].
  destruct (take_bits_short 4) as [k Hk]; [lia|]. exists k. by rewrite preceded_eq, Hk.
Qed.

Lemma rt_enc_reply (enc : SessionKey * list SessionTag) :
  wf_SessionKey enc.1 /\ Forall wf_SessionTag enc.2 /\ u8_ok (len enc.2) ->
  rt (nom_pair session_key (length_count be_u8 session_tag))
     (gen_session_key enc.1 >>> gen_be_u8 (as_u8 (len enc.2)) >>> gen_many enc.2 gen_session_tag) enc.
Proof.
  intros (Hk & Ht & Hl). destruct enc as [k ts]. cbn in *. apply rt_pair; [by apply rt_session_key|].
  eapply rt_length_count; [by apply rt_len_u8|done|]. eapply Forall_impl; [exact Ht|apply rt_session_tag].
Qed.

Lemma rt_database_lookup dl : wf_DatabaseLookup dl -> rt database_lookup (gen_database_lookup dl) dl.
Proof.
  intros (Hk & Hf & Ht & [Hx Hxl] & He).
  set (flags := mkDatabaseLookupFlags (is_some (dl_reply_tid dl)) (is_some (dl_reply_enc dl)) (dl_lookup_type dl)).
  destruct (rt_hash _ Hk) as (b1 & W1 & P1). destruct (rt_hash _ Hf) as (b2 & W2 & P2).
  destruct (rt_database_lookup_flags flags) as (b3 & W3 & P3).
  destruct (rt_cond_opt tunnel_id gen_tunnel_id _ _ _ eq_refl Ht rt_tunnel_id) as (b4 & W4 & P4).
  destruct (rt_length_count_split be_u16 _ _ hash gen_hash (dl_excluded_peers dl)
              (rt_len_u16 _ Hxl) eq_refl) as (b5 & b5' & W5 & W5' & P5);
    [by eapply Forall_impl; [exact Hx|apply rt_hash]|].
  destruct (rt_cond_opt _ _ _ _ _ eq_refl He rt_enc_reply) as (b6 & W6 & P6).
  exists ((b1 ++ b2 ++ b3) ++ b4 ++ (b5 ++ b5') ++ b6). split; [unfold gen_database_lookup; writes_solve|].
  eapply parses_bind; [apply parses_pair; [exact P1|apply parses_pair; [exact P2|exact P3]]|].
  cbv beta iota. intros rest. unfold flags. cbn [fl_delivery fl_encryption fl_lookup_type].
  rewrite (parses_pair _ _ _ _ _ _ P4 (parses_pair _ _ _ _ _ _ P5 P6)). cbn. by destruct dl.
Qed.

Lemma sound_count_u16 {A} (p : parser bytes A) P :
  sound p P -> sound (length_count be_u16 p) (fun l => Forall P l /\ u16_ok (len l)).
Proof.
  intros Hp. eapply sound_weaken; [apply sound_length_count; [apply sound_be_u16|exact Hp]|].
  intros l [Hl (n & Hn & He)]. split; [done|]. unfold len. rewrite He. unfold u16_ok in *. lia.
Qed.

Lemma sound_database_lookup : sound database_lookup wf_DatabaseLookup.
Proof.
  eapply sound_bind.
  - apply sound_pair; [apply sound_hash|].
    apply sound_pair; [apply sound_hash|apply sound_database_lookup_flags].
  - intros (k & f & fl') (Hk & Hf & _). cbv beta iota. eapply sound_bind.
    + apply sound_pair; [apply sound_cond_opt, sound_tunnel_id|].
      apply sound_pair; [apply sound_count_u16, sound_hash|].
      apply sound_cond_opt, sound_pair; [apply sound_session_key|apply sound_count_u8, sound_session_tag].
    + intros (t & x & e) ([_ Ht] & Hx & [_ He]). apply sound_ret. unfold wf_DatabaseLookup. cbn in *. tauto.
Qed.

Lemma rt_database_search_reply d :
  wf_DatabaseSearchReply d -> rt database_search_reply (gen_database_search_reply d) d.
Proof.
  intros (Hk & [Hp Hl] & Hf).
  destruct (rt_hash _ Hk) as (b1 & W1 & P1).
  destruct (rt_length_count_split be_u8 _ _ hash gen_hash (dsr_peers d)
              (rt_len_u8 _ Hl) eq_refl) as (b2 & b2' & W2 & W2' & P2);
    [by eapply Forall_impl; [exact Hp|apply rt_hash]|].
  destruct (rt_hash _ Hf) as (b3 & W3 & P3).
  exists (b1 ++ (b2 ++ b2') ++ b3). split; [unfold gen_database_search_reply; writes_solve|].
  eapply parses_map_pure; [apply parses_pair; [exact P1|apply parses_pair; [exact P2|exact P3]]|by destruct d].
Qed.

Lemma sound_database_search_reply : sound database_search_reply wf_DatabaseSearchReply.
Proof.
  eapply sound_map_pure.
  - apply sound_pair; [apply sound_hash|].
    apply sound_pair; [apply sound_count_u8, sound_hash|apply sound_hash].
  - by intros (? & ? & ?) (? & ? & ?).
Qed.

Lemma rt_delivery_status d : wf_DeliveryStatus d -> rt delivery_status (gen_delivery_status d) d.
Proof.
  intros [H1 H2]. eapply rt_map_pure; [apply rt_pair; [by apply rt_be_u32|by apply rt_i2p_date]|by destruct d].
Qed.

Lemma sound_delivery_status : sound delivery_status wf_DeliveryStatus.
Proof.
  eapply sound_map_pure; [apply sound_pair; [apply sound_be_u32|apply sound_i2p_date]|by intros [] []].
Qed.

Lemma gcdi_bits b i :
  terminated (nom_pair (take_bits 1) (nom_pair (take_bits 2) (take_bits 1))) (take_bits 4) (b :: i, 0) =
  POk (i, 0) (b / 2 ^ 7 mod 2 ^ 1, (b / 2 ^ 5 mod 2 ^ 2, b / 2 ^ 4 mod 2 ^ 1)).
Proof.
  rewrite terminated_eq, nom_pair_eq, (take_bits_in 1 0) by lia. cbn [pbind POk].
  rewrite nom_pair_eq, (take_bits_in 2 (0 + 1)) by lia. cbn [pbind POk].
  rewrite (take_bits_in 1 (0 + 1 + 2)) by lia. cbn [pbind POk]. by rewrite take_bits_end by lia.
Qed.

(** the flag byte spells the three fields *)
Lemma gcdi_flags_spec (e : bool) t (d : bool) k h ti dl :
  0 <= t < 4 ->
  let b := gcdi_flags (mkGcdi e t d k h ti dl) in
  byte_ok b /\ (b / 2 ^ 7 mod 2 ^ 1 >? 0) = e /\ b / 2 ^ 5 mod 2 ^ 2 = t /\ (b / 2 ^ 4 mod 2 ^ 1 >? 0) = d.
Proof.
  intros Ht. assert (t = 0 \/ t = 1 \/ t = 2 \/ t = 3) as [->|[->|[->| ->]]] by lia; by destruct e, d.
Qed.

Lemma rt_gcdi g :
  wf_Gcdi g -> rt garlic_clove_delivery_instructions (gen_garlic_clove_delivery_instructions g) g.
Proof.
  destruct g as [e t d k h ti dl]. intros (Ht & [Hk1 Hk] & [Hh1 Hh] & [Hi1 Hi] & [Hd1 Hd]). cbn in Ht.
  destruct (gcdi_flags_spec e t d k h ti dl Ht) as (Hb & He & Hty & Hds).
  eapply rt_bind.
  - eapply rt_intro; [apply writes_be_u8|]. rewrite be_bytes_1 by done.
    eapply parses_map_pure; [intros rest; apply bits_byte, gcdi_bits|reflexivity].
  - cbv beta iota. rewrite He, Hty, Hds. eapply (rt_map_pure _ _ _ (k, (h, (ti, dl)))); [|reflexivity].
    cbn [gc_encrypted gc_delivery_type gc_delay_set gc_session_key gc_to_hash gc_tid gc_delay].
    apply rt_pair; [by eapply rt_cond_opt; [done|exact Hk|apply rt_session_key]|].
    apply rt_pair; [by eapply rt_cond_opt; [done|exact Hh|apply rt_hash]|].
    apply rt_pair; [by eapply rt_cond_opt; [done|exact Hi|apply rt_tunnel_id]|].
    by eapply rt_cond_opt; [done|exact Hd|apply rt_be_u32].
Qed.

Lemma sound_gcdi : sound garlic_clove_delivery_instructions wf_Gcdi.
Proof.
  eapply sound_bind.
  - eapply (sound_map_pure _ _ (fun v => 0 <= v.2.1 < 4) (fun v => 0 <= v.2.1 < 4)); [|by intros (? & ? & ?)].
    eapply (sound_bits _ _ _ gcdi_bits).
    + destruct (take_bits_short 1) as [k Hk]; [lia|]. exists k. by rewrite terminated_eq, nom_pair_eq, Hk.
    + intros b Hb. cbn [fst snd]. apply (Z.mod_pos_bound _ 4). lia.
  - intros (e & t & d) Ht. cbv beta iota. cbn in Ht. eapply sound_map_pure.
    + apply sound_pair; [apply sound_cond_opt, sound_session_key|].
      apply sound_pair; [apply sound_cond_opt, sound_hash|].
      apply sound_pair; [apply sound_cond_opt, sound_tunnel_id|apply sound_cond_opt, sound_be_u32].
    + intros (k & h & ti & dl) H. unfold wf_Gcdi. cbn in *. tauto.
Qed.

Lemma rt_tunnel_data td : wf_TunnelData td -> rt tunnel_data (gen_tunnel_data td) td.
Proof.
  intros (H1 & _ & H2). eapply rt_map_pure; [apply rt_pair; [by apply rt_tunnel_id|by apply rt_slice]|by destruct td].
Qed.

Lemma sound_tunnel_data : sound tunnel_data wf_TunnelData.
Proof.
  eapply sound_map_pure; [apply sound_pair; [apply sound_tunnel_id|by apply sound_take]|].
  by intros [] [? []].
Qed.

(** what [gen_tunnel_gateway] writes, and what [tunnel_gateway] reads *)
Lemma writes_tunnel_gateway tg :
  writes (gen_tunnel_gateway tg) (be_bytes 4 (tid_val (tg_tid tg)) ++ tg_data tg).
Proof. apply writes_seq; [apply writes_be_u32|apply writes_slice]. Qed.

Lemma parses_tunnel_gateway tg : wf_TunnelGateway tg ->
  parses tunnel_gateway (be_bytes 4 (tid_val (tg_tid tg)) ++ be_bytes 2 (len (tg_data tg)) ++ tg_data tg) tg.
Proof.
  intros (H1 & _ & H2). eapply (parses_map_pure _ _ _ (tg_tid tg, tg_data tg)); [apply parses_pair|by destruct tg].
  - exact (rt_parses _ _ _ _ (rt_tunnel_id _ H1) (writes_be_u32 _)).
  - by eapply parses_length_data; [by apply parses_be_u16|].
Qed.

Lemma sound_tunnel_gateway : sound tunnel_gateway wf_TunnelGateway.
Proof.
  eapply sound_map_pure.
  - apply sound_pair; [apply sound_tunnel_id|].
    apply sound_length_data; [apply sound_be_u16|by intros ? []].
  - by intros [] [? []].
Qed.

Lemma rt_data d : bytes_ok d -> u32_ok (len d) -> rt data (gen_data d) d.
Proof. intros _ H. eapply rt_length_data; [by apply rt_be_u32|done]. Qed.

Lemma sound_data : sound data (fun d => bytes_ok d /\ u32_ok (len d)).
Proof. apply sound_length_data; [apply sound_be_u32|by intros ? []]. Qed.

Lemma rt_tunnel_build tb : length tb = 8%nat -> Forall wf_record tb -> rt tunnel_build (gen_tunnel_build tb) tb.
Proof.
  intros Hl Hr. eapply rt_bind_ret; [|reflexivity].
  assert (Forall (fun b => parses (nom_take 528) b b) tb) as Hp.
  { eapply Forall_impl; [exact Hr|]. intros b [_ Hb]. by apply parses_take. }
  exists (concat (map (fun b => b) tb)). split; [|by apply (parses_count _ (fun b => b))].
  do 9 (destruct tb as [|? tb]; try discriminate Hl). cbn [map concat].
  unfold gen_tunnel_build. cbn [nth]. rewrite app_nil_r. repeat (apply writes_seq; [apply writes_slice|]).
  apply writes_slice.
Qed.

Lemma sound_tunnel_build : sound tunnel_build (fun tb => Forall wf_record tb /\ length tb = 8%nat).
Proof.
  eapply sound_bind; [apply (sound_count _ wf_record 8), sound_take; lia|].
  intros tb H. by apply sound_ret.
Qed.

Lemma writes_records tb : writes (gen_records tb) (concat tb).
Proof.
  induction tb as [|r tb IH]; cbn [concat].
  - by apply writes_nil.
  - apply (writes_ext _ (gen_slice r >>> gen_records tb)); [intros s; by rewrite gen_seq_eq|].
    apply writes_seq; [apply writes_slice|exact IH].
Qed.

Lemma rt_variable_tunnel_build tb :
  u8_ok (len tb) -> Forall wf_record tb -> rt variable_tunnel_build (gen_variable_tunnel_build tb) tb.
Proof.
  intros Hl Hr. eapply rt_bind_ret; [|reflexivity].
  destruct (rt_len_u8 _ Hl) as (bl & Wl & Pl). exists (bl ++ concat (map (fun b => b) tb)). split.
  - apply (writes_ext _ (gen_be_u8 (as_u8 (len tb)) >>> gen_records tb)); [intros s; by rewrite gen_seq_eq|].
    apply writes_seq; [exact Wl|]. rewrite map_id. apply writes_records.
  - eapply parses_length_count; [exact Pl|done|].
    eapply Forall_impl; [exact Hr|]. intros b [_ Hb]. by apply parses_take.
Qed.

Lemma sound_variable_tunnel_build :
  sound variable_tunnel_build (fun tb => Forall wf_record tb /\ u8_ok (len tb)).
Proof.
  eapply sound_bind; [apply (sound_count_u8 _ wf_record), sound_take; lia|].
  intros tb H. by apply sound_ret.
Qed.

Lemma sound_compressed_ri : sound compressed_ri wf_RouterInfo.
Proof.
  intros i r ri Hi. unfold compressed_ri.
  destruct (length_data be_u16 i) as [[[i1 pl]|]|] eqn:E; [|done..]. cbn [pbind].
  destruct (sound_length_data be_u16 u16_ok sound_be_u16 ltac:(by intros ? []) _ _ _ Hi E) as [[Hpl _] Hs].
  destruct (gz_decode pl) as [b|] eqn:Eg; [|done].
  destruct (router_info b) as [[[? ri']|[]]|] eqn:Er; try done. intros [= <- <-].
  split; [|done]. by destruct (sound_router_info b _ _ (gz_decode_ok _ _ Eg) Er).
Qed.

Lemma sound_database_store : sound database_store wf_DatabaseStore.
Proof.
  eapply sound_bind; [apply sound_pair; [apply sound_hash|apply sound_be_u8]|].
  intros [key ty] [Hk Ht]. cbv beta iota.
  eapply sound_bind; [apply sound_reply_path|]. intros rp Hrp. cbv beta.
  eapply (sound_bind _ _ (fun d => match d with DsRI ri => ty = 0 /\ wf_RouterInfo ri
                                          | DsLS ls => ty = 1 /\ wf_LeaseSet ls end)).
  - destruct (Z.eqb_spec ty 0) as [->|]; [eapply sound_map_pure; [apply sound_compressed_ri|done]|].
    destruct (Z.eqb_spec ty 1) as [->|]; [eapply sound_map_pure; [apply sound_lease_set|done]|].
    apply sound_panic.
  - intros d Hd. by apply sound_ret.
Qed.

End Payloads.

(** a toy gzip: the identity, for buffers that are bytes *)
Definition flate_ref : Flate2.
Proof.
  refine {|
    gz_decode := fun z => if bytes_okb z then Some z else None;
    gz_write := fun b => Some (len b);
    gz_finish := fun b => Some b
  |}.
  - intros z b. destruct (bytes_okb z) eqn:E; [|done]. intros [= <-]. by apply bytes_okb_ok.
  - intros b z Hb [= <-]. assert (bytes_okb b = true) as ->; [|done].
    unfold bytes_okb. induction Hb as [|x l Hx _ IH]; [done|]. cbn. rewrite IH. unfold byte_ok in Hx. lia.
Defined.

(** ** Encrypted records *)

Lemma record_encrypt_decrypt {nom : Nom} {cf : CookieFactory} {bu : BigUintOps} {sha : Sha2}
    {grp : DhGroup} (da dk : list bytes) (db : list Z) (padding : bytes) (brr : BuildRequestRecord)
    (sk : PrivateKey) (pk : PublicKey) :
  group_ok grp -> 256 ^ 255 <= ELGAMAL_P ->
  Forall bytes_ok da -> Forall bytes_ok dk -> Forall byte_ok db ->
  Exists (fun d => k_ok d = true) da -> Exists (fun d => k_ok d = true) dk ->
  Exists (fun v => negb (v =? 0) = true) db ->
  generate da = Ret (Some (sk, pk)) ->
  wf_BuildRequestRecord brr -> bytes_ok padding -> len padding = 29 ->
  exists ct,
    BuildRequestRecord_encrypt padding db dk brr (Encryptor_from pk) = Ret (Some ct) /\
    len ct = 528 /\ bytes_ok ct /\
    BuildRequestRecord_decrypt ct (Decryptor_from sk) = Ret (Ok brr) /\
    (forall ident, len ident = 16 -> ident <> ztake 16 ct ->
       BuildRequestRecord_decrypt (ident ++ zdrop 16 ct) (Decryptor_from sk) = Ret (Err BreInvalid)).
Proof.
  intros Hgrp Hp Hda Hdk Hdb Hea Hek Heb Hgen Hwf Hpad Hpl. pose proof (grp_p_lo _ Hgrp).
  destruct (generate_ok Hgrp da Hda Hea) as (a & Ha & Hgen'). rewrite Hgen' in Hgen.
  pose proof (len_build_request_record padding brr Hwf Hpl) as Hl.
  pose proof (bytes_build_request_record padding brr Hwf Hpad) as Hok.
  destruct (encrypt_ok Hgrp a dk db (enc_build_request_record padding brr) false Ha)
    as (ct & He & Hc & Hd & Hco); try done; [by rewrite Hl|by rewrite Hl|].
  assert (Encryptor_from pk = mkEncryptor (ELGAMAL_G ^ a mod ELGAMAL_P) /\
          Decryptor_from sk = mkDecryptor a) as [-> ->].
  { revert Hgen. pose proof (be_val_256 Hgrp a ltac:(lia)) as E1.
    pose proof (be_val_256 Hgrp (ELGAMAL_G ^ a mod ELGAMAL_P)) as E2. revert E1 E2.
    generalize (be_bytes 256 a), (be_bytes 256 (ELGAMAL_G ^ a mod ELGAMAL_P)).
    intros x y E1 E2 [= <- <-]. unfold Encryptor_from, Decryptor_from. cbn [pk_bytes sk_bytes].
    by rewrite E1, E2 by (apply Z.mod_pos_bound; lia). }
  assert (len (slice 0 16 (hash_bytes (our_ident brr))) = 16) as Hi.
  { unfold slice. change (zdrop 0 ?x) with x. rewrite len_ztake; [done|lia|].
    destruct Hwf as (_ & [_ Hh] & _). change (Z.sub 16 0) with 16. lia. }
  assert (forall ident, len ident = 16 ->
    BuildRequestRecord_decrypt (ident ++ ct) (mkDecryptor a) =
    if bytes_eqb ident (slice 0 16 (hash_bytes (our_ident brr))) then Ret (Ok brr) else Ret (Err BreInvalid)) as Hdec.
  { intros ident Hid. unfold BuildRequestRecord_decrypt.
    destruct (Z.ltb_spec (len (ident ++ ct)) 16) as [Hlt|_]; [rewrite len_app in Hlt; lia|].
    rewrite zdrop_app, Hd by done. cbn [obind].
    rewrite (parses_exact _ _ _ (parses_build_request_record padding brr Hwf Hpl)). cbn [obind POk].
    by rewrite (slice_app [] ident ct) by (by rewrite ?Hid). }
  exists (slice 0 16 (hash_bytes (our_ident brr)) ++ ct). split; [|split; [|split; [|split]]].
  - unfold BuildRequestRecord_encrypt.
    pose proof (writes_ok _ _ (writes_build_request_record padding brr) [] (zeros 222) []) as Hw.
    rewrite !app_nil_l, !app_nil_r in Hw. change (len []) with 0 in Hw.
    rewrite Hw by (by rewrite Hl). cbn [obind GOk rok unwrap]. rewrite He. cbn. done.
  - rewrite len_app, Hi, Hc. done.
  - apply bytes_ok_app. split; [|done]. unfold slice. apply bytes_ok_ztake, Hwf.
  - rewrite Hdec by done. by rewrite bytes_eqb_refl.
  - intros ident Hid Hne. rewrite zdrop_app by done. rewrite ztake_app in Hne by done. rewrite Hdec by done.
    destruct (bytes_eqb ident _) eqn:E; [|done]. by apply bytes_eqb_eq in E.
Qed.

(** ** Properties *)

Module I2npProps.

(** C22: A tunnel build request survives its encryption: for a generated key
    pair, the record encrypts to 528 bytes that start with the hop's ident,
    and the hop decrypts and parses exactly the record that was sent.  The
    same ciphertext under another ident is refused. *)
Theorem build_request_roundtrip {nom : Nom} {cf : CookieFactory} {bu : BigUintOps} {sha : Sha2}
    {grp : DhGroup} (da dk : list bytes) (db : list Z) (padding : bytes) (brr : BuildRequestRecord)
    (sk : PrivateKey) (pk : PublicKey) :
  group_ok grp -> 256 ^ 255 <= ELGAMAL_P ->
  Forall bytes_ok da -> Forall bytes_ok dk -> Forall byte_ok db ->
  Exists (fun d => k_ok d = true) da -> Exists (fun d => k_ok d = true) dk ->
  Exists (fun v => negb (v =? 0) = true) db ->
  generate da = Ret (Some (sk, pk)) ->
  wf_BuildRequestRecord brr -> bytes_ok padding -> len padding = 29 ->
  exists ct,
    BuildRequestRecord_encrypt padding db dk brr (Encryptor_from pk) = Ret (Some ct) /\
    len ct = 528 /\
    BuildRequestRecord_decrypt ct (Decryptor_from sk) = Ret (Ok brr) /\
    (forall ident, len ident = 16 -> ident <> ztake 16 ct ->
       BuildRequestRecord_decrypt (ident ++ zdrop 16 ct) (Decryptor_from sk) = Ret (Err BreInvalid)).
Proof.
  intros. edestruct (record_encrypt_decrypt da dk db padding brr sk pk) as (ct & ? & ? & _ & ? & ?); try done.
  by exists ct.
Qed.

Definition ref_brr : BuildRequestRecord :=
  mkBuildRequestRecord (mkTunnelId 7) (mkHash (replicate 32 3)) (mkTunnelId 9) (mkHash (replicate 32 4))
    (mkSessionKey (replicate 32 5)) (mkSessionKey (replicate 32 6)) (mkSessionKey (replicate 32 7))
    (replicate 16 8) InboundGateway 400000 12.

(** the key pair drawn from [9] *)
Definition ref_keys : PrivateKey * PublicKey :=
  (mkPrivateKey (be_bytes 256 9), mkPublicKey (be_bytes 256 (2 ^ 9 mod (2 ^ 2047 - 1)))).

Lemma ref_brr_wf : wf_BuildRequestRecord ref_brr.
Proof.
  unfold wf_BuildRequestRecord, wf_Hash, wf_SessionKey.
  split_and!; try done; by apply bytes_okb_ok.
Qed.

Lemma build_request_roundtrip_witness :
  exists ct,
    @BuildRequestRecord_encrypt cf_ref biguint_ref sha2_ref mersenne_group (zeros 29) [1] [[3]] ref_brr
      (Encryptor_from ref_keys.2) = Ret (Some ct) /\
    len ct = 528 /\
    @BuildRequestRecord_decrypt nom_ref biguint_ref sha2_ref mersenne_group ct (Decryptor_from ref_keys.1)
      = Ret (Ok ref_brr) /\
    (forall ident, len ident = 16 -> ident <> ztake 16 ct ->
       @BuildRequestRecord_decrypt nom_ref biguint_ref sha2_ref mersenne_group (ident ++ zdrop 16 ct)
         (Decryptor_from ref_keys.1) = Ret (Err BreInvalid)).
Proof.
  apply (@build_request_roundtrip nom_ref cf_ref biguint_ref sha2_ref mersenne_group
           [[9]] [[3]] [1] (zeros 29) ref_brr ref_keys.1 ref_keys.2).
  - exact mersenne_group_ok.
  - vm_compute. discriminate.
  - by repeat constructor.
  - by repeat constructor.
  - by repeat constructor.
  - apply Exists_cons_hd. vm_compute. reflexivity.
  - apply Exists_cons_hd. vm_compute. reflexivity.
  - apply Exists_cons_hd. reflexivity.
  - vm_compute. reflexivity.
  - exact ref_brr_wf.
  - apply zeros_ok.
  - reflexivity.
Defined.

(** A build response is accepted exactly when its first 32 bytes are the
    SHA-256 of the remaining 496; the generated response always is, and
    gives back the reply byte. *)
Theorem build_response_integrity {nom : Nom} {cf : CookieFactory} {sha : Sha2} (i : bytes) :
  bytes_ok i -> len i = 528 ->
  (build_response_record i =
     if bytes_eqb (ztake 32 i) (sha256 (zdrop 32 i))
     then POk [] (mkBuildResponseRecord (be_val (zdrop 527 i)))
     else PErr (Error i KMapOpt)) /\
  (forall padding brr, bytes_ok padding -> len padding = 495 -> u8_ok (reply brr) ->
     rt build_response_record (gen_build_response_record padding brr) brr).
Proof.
  intros Hi Hl. split; [|intros; by apply rt_build_response_record].
  destruct (split_at i 32) as (h & r & -> & Hh); [lia|lia|].
  destruct (split_at r 495) as (p & z & -> & Hp); [lia|llia|].
  rewrite !len_app in Hl. destruct z as [|b [|c z]]; [llia| |rewrite !len_cons in Hl; pose proof (len_nonneg z); lia].
  apply bytes_ok_app in Hi as [Hho [_ Hz]%bytes_ok_app]. apply Forall_cons in Hz as [Hb _].
  unfold build_response_record. rewrite map_opt_eq, nom_pair_eq.
  rewrite (rt_parses hash _ (mkHash h) h (rt_hash (mkHash h) (conj Hho Hh)) (writes_slice h)). cbn [pbind POk].
  rewrite nom_pair_eq, (parses_take 495 p) by done. cbn [pbind POk].
  rewrite <- (be_bytes_1 b Hb) at 1. rewrite <- (app_nil_r (be_bytes 1 b)), parses_be_u8 by done. cbn [pbind POk].
  unfold calculate_build_response_record_hash. cbn [obind hash_bytes].
  rewrite ztake_app, (zdrop_app h) by done.
  rewrite (app_assoc h p), zdrop_app by (rewrite len_app; lia).
  by destruct (bytes_eqb h (sha256 (p ++ [b]))).
Qed.

Lemma build_response_integrity_witness :
  (@build_response_record nom_ref sha2_ref (zeros 528) =
     if bytes_eqb (ztake 32 (zeros 528)) (@sha256 sha2_ref (zdrop 32 (zeros 528)))
     then POk [] (mkBuildResponseRecord (be_val (zdrop 527 (zeros 528))))
     else PErr (Error (zeros 528) KMapOpt)) /\
  (forall padding brr, bytes_ok padding -> len padding = 495 -> u8_ok (reply brr) ->
     rt (@build_response_record nom_ref sha2_ref) (@gen_build_response_record cf_ref sha2_ref padding brr) brr).
Proof.
  apply (@build_response_integrity nom_ref cf_ref sha2_ref (zeros 528)); [apply zeros_ok|reflexivity].
Defined.

(** [gen_tunnel_gateway] does not write the length that [tunnel_gateway]
    reads: parsing what was generated for a tunnel gateway message never
    gives that message back. *)
Theorem tunnel_gateway_not_roundtrip {nom : Nom} {cf : CookieFactory} (tg : TunnelGateway) :
  wf_TunnelGateway tg ->
  exists bs, writes (gen_tunnel_gateway tg) bs /\ forall r, tunnel_gateway bs <> POk r tg.
Proof.
  intros (Ht & Hd & Hl). eexists. split; [apply writes_tunnel_gateway|]. intros r H.
  unfold tunnel_gateway, map_pure in H. rewrite nom_map_eq, nom_pair_eq in H.
  rewrite (rt_parses _ _ _ _ (rt_tunnel_id _ Ht) (writes_be_u32 _)) in H. cbn [pbind POk] in H.
  destruct (length_data be_u16 (tg_data tg)) as [[[i1 d]|]|] eqn:E; try discriminate H.
  injection H as _ H. rewrite length_data_eq in E.
  destruct (be_u16 (tg_data tg)) as [[[i2 n]|]|] eqn:E1; try discriminate E. cbn [pbind] in E.
  pose proof (exact_be_u16 _ _ _ Hd E1) as Hn. rewrite Hn in Hd. apply bytes_ok_app in Hd as [_ Hi2].
  assert (0 <= n) as Hn0 by (destruct (sound_be_u16 _ _ _ (proj2 (bytes_ok_app _ _) (conj (be_bytes_ok 2 n) Hi2))
    ltac:(rewrite <- Hn; exact E1)) as [[? _] _]; done).
  pose proof (exact_take n Hn0 _ _ _ Hi2 E) as Hx. apply (f_equal tg_data) in H. cbn in H.
  rewrite Hx, H in Hn. apply (f_equal len) in Hn. rewrite !len_app, len_be_bytes in Hn.
  pose proof (len_nonneg i1). lia.
Qed.

Lemma tunnel_gateway_not_roundtrip_witness :
  exists bs, writes (@gen_tunnel_gateway cf_ref (mkTunnelGateway (mkTunnelId 5) [0; 1; 2])) bs /\
    forall r, @tunnel_gateway nom_ref bs <> POk r (mkTunnelGateway (mkTunnelId 5) [0; 1; 2]).
Proof.
  apply (@tunnel_gateway_not_roundtrip nom_ref cf_ref (mkTunnelGateway (mkTunnelId 5) [0; 1; 2])).
  split; [done|]. split; [by apply bytes_okb_ok|done].
Defined.

End I2npProps.
