(* ===== verification/Message.v ===== *)
(** * Garlic messages and I2NP framing: [src/i2np/mod.rs], [src/i2np/frame.rs]

    A garlic payload contains messages, so the message parser is recursive.
    The parser takes fuel; every level of nesting reads a 16-byte header, so
    a fuel above the length of the input is never used up
    ([message_fuel_enough]). *)

From S2P Require Import Prelude Nom Cookie Util Wire Crypto ElGamal Data Dest I2np.

Section Types.
Context {sc : SigCrates}.

Inductive Message :=
| mkMessage (id : Z) (expiration : I2PDate) (payload : MessagePayload)
with MessagePayload :=
| MDatabaseStore (ds : DatabaseStore)
| MDatabaseLookup (dl : DatabaseLookup)
| MDatabaseSearchReply (dsr : DatabaseSearchReply)
| MDeliveryStatus (ds : DeliveryStatus)
| MGarlic (g : Garlic)
| MTunnelData (td : TunnelData)
| MTunnelGateway (tg : TunnelGateway)
| MData (d : bytes)
| MTunnelBuild (tb : list bytes)
| MTunnelBuildReply (tb : list bytes)
| MVariableTunnelBuild (tb : list bytes)
| MVariableTunnelBuildReply (tb : list bytes)
with Garlic :=
| mkGarlic (cloves : list GarlicClove) (cert : Certificate) (msg_id : Z) (expiration : I2PDate)
with GarlicClove :=
| mkGarlicClove (delivery_instructions : GarlicCloveDeliveryInstructions) (msg : Message)
    (clove_id : Z) (expiration : I2PDate) (cert : Certificate).

Definition msg_id (m : Message) : Z := match m with mkMessage id _ _ => id end.
Definition msg_expiration (m : Message) : I2PDate := match m with mkMessage _ e _ => e end.
Definition msg_payload (m : Message) : MessagePayload := match m with mkMessage _ _ p => p end.

End Types.

Section Frames.
Context {nom : Nom} {cf : CookieFactory} {bu : BigUintOps} {sc : SigCrates} {sha : Sha2} {fl : Flate2}.

(** ** Parsers *)

Definition garlic_clove (message : parser bytes Message) : parser bytes GarlicClove :=
  map_pure
    (nom_pair garlic_clove_delivery_instructions
      (nom_pair message (nom_pair be_u32 (nom_pair i2p_date certificate))))
    (fun '(di, (msg, (clove_id, (expiration, cert)))) => mkGarlicClove di msg clove_id expiration cert).

Definition garlic (message : parser bytes Message) : parser bytes Garlic :=
  map_pure
    (nom_pair (length_count be_u8 (garlic_clove message))
      (nom_pair certificate (nom_pair be_u32 i2p_date)))
    (fun '(cloves, (cert, (msg_id, expiration))) => mkGarlic cloves cert msg_id expiration).

(** the first byte of the SHA-256 *)
Definition checksum (buf : bytes) : Z := nth 0 (sha256 buf) 0.

Definition header : parser bytes (Z * (Z * (I2PDate * (Z * Z)))) :=
  nom_pair be_u8 (nom_pair be_u32 (nom_pair i2p_date (nom_pair be_u16 be_u8))).

Definition ntcp2_header : parser bytes (Z * (Z * I2PDate)) :=
  nom_pair be_u8 (nom_pair be_u32 short_expiry).

Definition payload (message : parser bytes Message) (msg_type : Z) : parser bytes MessagePayload := fun i =>
  if msg_type =? 1 then map_pure database_store MDatabaseStore i
  else if msg_type =? 2 then map_pure database_lookup MDatabaseLookup i
  else if msg_type =? 3 then map_pure database_search_reply MDatabaseSearchReply i
  else if msg_type =? 10 then map_pure delivery_status MDeliveryStatus i
  else if msg_type =? 11 then map_pure (garlic message) MGarlic i
  else if msg_type =? 18 then map_pure tunnel_data MTunnelData i
  else if msg_type =? 19 then map_pure tunnel_gateway MTunnelGateway i
  else if msg_type =? 20 then map_pure data MData i
  else if msg_type =? 21 then map_pure tunnel_build MTunnelBuild i
  else if msg_type =? 22 then map_pure tunnel_build_reply MTunnelBuildReply i
  else if msg_type =? 23 then map_pure variable_tunnel_build MVariableTunnelBuild i
  else if msg_type =? 24 then map_pure variable_tunnel_build_reply MVariableTunnelBuildReply i
  else Panic.

(** one level of [message], given the parser for the nested ones *)
Definition message_step (message : parser bytes Message) : parser bytes Message := fun i =>
  let_p (i, (msg_type, (id, (expiration, (size, cs))))) := header i in
  map_pure
    (preceded (nom_peek (nom_verify (nom_take size) (fun buf => checksum buf =? cs)))
       (payload message msg_type))
    (fun payload => mkMessage id expiration payload) i.

(** [fuel] bounds the nesting; the last line is not reached *)
Fixpoint message_f (fuel : nat) : parser bytes Message :=
  match fuel with
  | S fuel => message_step (message_f fuel)
  | O => fun i => PErr (Failure i KCount)
  end.

Definition message : parser bytes Message := fun i => message_f (S (length i)) i.

Definition ntcp2_message : parser bytes Message := fun i0 =>
  let_p (i, hdr) := ntcp2_header i0 in
  let_p (i, payload) := payload (message_f (S (length i0))) hdr.1 i in
  POk i (mkMessage hdr.2.1 hdr.2.2 payload).

(** ** Generators *)

Definition message_type (p : MessagePayload) : Z :=
  match p with
  | MDatabaseStore _ => 1
  | MDatabaseLookup _ => 2
  | MDatabaseSearchReply _ => 3
  | MDeliveryStatus _ => 10
  | MGarlic _ => 11
  | MTunnelData _ => 18
  | MTunnelGateway _ => 19
  | MData _ => 20
  | MTunnelBuild _ => 21
  | MTunnelBuildReply _ => 22
  | MVariableTunnelBuild _ => 23
  | MVariableTunnelBuildReply _ => 24
  end.

Definition gen_message_type (p : MessagePayload) : gen := gen_be_u8 (message_type p).

(** reads the buffer it writes to *)
Definition gen_checksum (start end_ : Z) : gen := fun '(buf, idx) =>
  gen_be_u8 (checksum (slice start end_ buf)) (buf, idx).

(** the size and the checksum are patched in once the payload is there *)
Definition gen_checked (g : gen) : gen :=
  label size : gen_skip 2 >>>
  label cs : gen_skip 1 >>>
  label start : g >>>
  gen_label (fun end_ =>
    gen_at_offset size (gen_be_u16 (end_ - start)) >>>
    gen_at_offset cs (gen_checksum start end_)).

Fixpoint gen_message (m : Message) : gen :=
  match m with
  | mkMessage id expiration p =>
      gen_message_type p >>> gen_be_u32 id >>> gen_i2p_date expiration >>>
      gen_checked (gen_payload p)
  end
with gen_payload (p : MessagePayload) : gen :=
  match p with
  | MDatabaseStore ds => gen_database_store ds
  | MDatabaseLookup dl => gen_database_lookup dl
  | MDatabaseSearchReply dsr => gen_database_search_reply dsr
  | MDeliveryStatus ds => gen_delivery_status ds
  | MGarlic g => gen_garlic g
  | MTunnelData td => gen_tunnel_data td
  | MTunnelGateway tg => gen_tunnel_gateway tg
  | MData d => gen_data d
  | MTunnelBuild tb => gen_tunnel_build tb
  | MTunnelBuildReply tb => gen_tunnel_build_reply tb
  | MVariableTunnelBuild tb => gen_variable_tunnel_build tb
  | MVariableTunnelBuildReply tb => gen_variable_tunnel_build_reply tb
  end
with gen_garlic (g : Garlic) : gen :=
  match g with
  | mkGarlic cloves cert msg_id expiration =>
      gen_be_u8 (as_u8 (len cloves)) >>>
      (* [gen_many!(&g.cloves, gen_garlic_clove)] *)
      gen_many (map gen_garlic_clove cloves) (fun g => g) >>>
      gen_certificate cert >>> gen_be_u32 msg_id >>> gen_i2p_date expiration
  end
with gen_garlic_clove (c : GarlicClove) : gen :=
  match c with
  | mkGarlicClove di msg clove_id expiration cert =>
      gen_garlic_clove_delivery_instructions di >>> gen_message msg >>>
      gen_be_u32 clove_id >>> gen_i2p_date expiration >>> gen_certificate cert
  end.

Definition gen_ntcp2_message (m : Message) : gen :=
  gen_message_type (msg_payload m) >>> gen_be_u32 (msg_id m) >>>
  gen_short_expiry (msg_expiration m) >>> gen_payload (msg_payload m).

(** ** Operations *)

Definition MESSAGE_EXPIRATION_MS : Z := 60 * 1000.

(** [rand_id]: the drawn message id; [now]: nanoseconds *)
Definition Message_from_payload (rand_id now : Z) (p : MessagePayload) : Message :=
  mkMessage rand_id (I2PDate_from_system_time (now + MESSAGE_EXPIRATION_MS * 10 ^ 6)) p.

Definition dummy_data : Message :=
  mkMessage 0 (mkI2PDate 0x123456787c0) (MData [0; 1; 2; 3; 4; 5; 6; 7; 8; 9]).

Definition Message_size (m : Message) : outcome (option Z) :=
  let! b := serialize (gen_message m) in Ret (len <$> b).
Definition Message_ntcp2_size (m : Message) : outcome (option Z) :=
  let! b := serialize (gen_ntcp2_message m) in Ret (len <$> b).

(** [DatabaseLookup::create_msg] *)
Definition DatabaseLookup_create_msg (rand_id now : Z) (key from : Hash) (lt : DatabaseLookupType) : Message :=
  Message_from_payload rand_id now (MDatabaseLookup (mkDatabaseLookup key from lt None [] None)).

(** ** Well-formedness *)

(** what the parser guarantees of a payload, given what it guarantees of the
    nested messages *)
Definition wf_clove (W : Message -> Prop) (c : GarlicClove) : Prop :=
  match c with
  | mkGarlicClove di msg clove_id expiration cert =>
      wf_Gcdi di /\ W msg /\ u32_ok clove_id /\ wf_I2PDate expiration /\ wf_Certificate cert
  end.

Definition wf_Garlic (W : Message -> Prop) (g : Garlic) : Prop :=
  match g with
  | mkGarlic cloves cert msg_id expiration =>
      (Forall (wf_clove W) cloves /\ u8_ok (len cloves)) /\ wf_Certificate cert /\
      u32_ok msg_id /\ wf_I2PDate expiration
  end.

Definition wf_payload (W : Message -> Prop) (p : MessagePayload) : Prop :=
  match p with
  | MDatabaseStore ds => wf_DatabaseStore ds
  | MDatabaseLookup dl => wf_DatabaseLookup dl
  | MDatabaseSearchReply dsr => wf_DatabaseSearchReply dsr
  | MDeliveryStatus ds => wf_DeliveryStatus ds
  | MGarlic g => wf_Garlic W g
  | MTunnelData td => wf_TunnelData td
  | MTunnelGateway tg => wf_TunnelGateway tg
  | MData d => bytes_ok d /\ u32_ok (len d)
  | MTunnelBuild tb | MTunnelBuildReply tb => Forall wf_record tb /\ length tb = 8%nat
  | MVariableTunnelBuild tb | MVariableTunnelBuildReply tb => Forall wf_record tb /\ u8_ok (len tb)
  end.

Fixpoint wf_message_f (depth : nat) (m : Message) : Prop :=
  match depth with
  | S depth => u32_ok (msg_id m) /\ wf_I2PDate (msg_expiration m) /\
               wf_payload (wf_message_f depth) (msg_payload m)
  | O => False
  end.

Definition wf_Message (m : Message) : Prop := exists depth, wf_message_f depth m.

(** the payloads that the generators write the way the parsers read them *)
Definition sendable (p : MessagePayload) : Prop :=
  match p with
  | MDatabaseStore ds => exists ls, ds_data ds = DsLS ls
  | MTunnelGateway _ => False
  | _ => True
  end.

(** a message that can be sent: well-formed, every payload at most 65535
    bytes, nested at most [depth] levels *)
Fixpoint sendable_f (depth : nat) (m : Message) : Prop :=
  match depth with
  | S depth =>
      u32_ok (msg_id m) /\ wf_I2PDate (msg_expiration m) /\
      wf_payload (sendable_f depth) (msg_payload m) /\ sendable (msg_payload m) /\
      writes_le (gen_payload (msg_payload m)) 65535
  | O => False
  end.

(** ** Round trips *)

Lemma checksum_ok b : u8_ok (checksum b).
Proof.
  unfold checksum. pose proof (sha256_ok b) as Hok. pose proof (sha256_len b) as Hl.
  destruct (sha256 b) as [|x l]; [done|]. by apply Forall_cons in Hok as [Hx _].
Qed.

Lemma gen_checksum_at start end_ pre old post buf :
  len old = 1 -> buf = pre ++ old ++ post ->
  gen_checksum start end_ (buf, len pre) =
  GOk (pre ++ be_bytes 1 (checksum (slice start end_ buf)) ++ post) (len pre + 1).
Proof.
  intros Hl ->. unfold gen_checksum.
  rewrite (writes_ok _ _ (writes_be_u8 _)) by (rewrite len_be_bytes; lia). by rewrite len_be_bytes.
Qed.

(** patching the size and the checksum gives them as a prefix *)
Lemma writes_checked g bs :
  writes g bs -> writes (gen_checked g) (be_bytes 2 (len bs) ++ be_bytes 1 (checksum bs) ++ bs).
Proof.
  intros Hg. unfold gen_checked. split.
  - intros pre old post Hl. rewrite !len_app, !len_be_bytes in Hl.
    destruct (split_at old 2) as (o1 & o' & -> & H1); [lia|llia|].
    destruct (split_at o' 1) as (o2 & o3 & -> & H2); [lia|llia|].
    rewrite gen_label_eq, gen_seq_eq, gen_skip_ok by (cbn; llia). cbn [gbind GOk].
    rewrite gen_label_eq, gen_seq_eq, gen_skip_ok by (cbn; llia). cbn [gbind GOk snd].
    rewrite gen_label_eq, gen_seq_eq. cbn [snd].
    replace (pre ++ (o1 ++ o2 ++ o3) ++ post) with ((pre ++ o1 ++ o2) ++ o3 ++ post) by (by rewrite <- !app_assoc).
    rewrite (writes_at _ _ (pre ++ o1 ++ o2) o3 post _ Hg) by llia. cbn [gbind GOk].
    rewrite gen_label_eq, gen_seq_eq, gen_at_offset_eq. cbn [snd].
    replace (len (pre ++ o1 ++ o2) + len bs - (len pre + 2 + 1)) with (len bs) by llia.
    rewrite <- !app_assoc.
    rewrite (writes_at _ _ pre o1 (o2 ++ bs ++ post) _ (writes_be_u16 (len bs))) by llia.
    cbn [gbind GOk fst]. rewrite gen_at_offset_eq.
    replace (len pre + 2) with (len (pre ++ be_bytes 2 (len bs))) by llia.
    rewrite (gen_checksum_at _ _ _ o2 (bs ++ post)) by (done || by rewrite <- !app_assoc).
    cbn [gbind GOk fst]. unfold GOk. rewrite <- !app_assoc.
    assert (slice (len (pre ++ be_bytes 2 (len bs)) + 1) (len (pre ++ o1 ++ o2) + len bs)
              (pre ++ be_bytes 2 (len bs) ++ o2 ++ bs ++ post) = bs) as ->.
    { replace (pre ++ be_bytes 2 (len bs) ++ o2 ++ bs ++ post)
        with ((pre ++ be_bytes 2 (len bs) ++ o2) ++ bs ++ post) by (by rewrite <- !app_assoc).
      apply slice_app; llia. }
    do 3 f_equal. llia.
  - intros buf idx Hi Hl. rewrite !len_app, !len_be_bytes in Hl. rewrite gen_label_eq, gen_seq_eq. cbn [snd].
    destruct (Z.le_gt_cases (idx + 2) (len buf)) as [H2|H2].
    2: { rewrite gen_skip_small by lia. cbn. exists (idx + 2), buf. split; [done|llia]. }
    rewrite gen_skip_ok by done. cbn [gbind GOk]. rewrite gen_label_eq, gen_seq_eq. cbn [snd].
    destruct (Z.le_gt_cases (idx + 3) (len buf)) as [H3|H3].
    2: { rewrite gen_skip_small by lia. cbn. exists (idx + 2 + 1), buf. split; [done|llia]. }
    rewrite gen_skip_ok by lia. cbn [gbind GOk]. rewrite gen_label_eq, gen_seq_eq. cbn [snd].
    destruct (writes_small _ _ Hg buf (idx + 2 + 1)) as (n & b' & -> & Hb & Hn); [llia|llia|].
    cbn. exists n, b'. split; [done|llia].
Qed.

(** a round trip for a parser with fuel: enough fuel is at most the number of
    bytes written *)
Definition rt_fuel {A} (p : nat -> parser bytes A) (g : gen) (a : A) : Prop :=
  exists d bs, writes g bs /\ (d <= length bs)%nat /\ forall fuel, (d <= fuel)%nat -> parses (p fuel) bs a.

Lemma rtf_const {A} (p : parser bytes A) g a : rt p g a -> rt_fuel (fun _ => p) g a.
Proof. intros (bs & H1 & H2). exists 0%nat, bs. split; [done|]. split; [lia|done]. Qed.

Lemma rtf_pair {A B} (p : nat -> parser bytes A) (q : nat -> parser bytes B) g h a b :
  rt_fuel p g a -> rt_fuel q h b -> rt_fuel (fun f => nom_pair (p f) (q f)) (g >>> h) (a, b).
Proof.
  intros (d1 & b1 & W1 & L1 & P1) (d2 & b2 & W2 & L2 & P2). exists (d1 `max` d2)%nat, (b1 ++ b2).
  split; [by apply writes_seq|]. split; [rewrite length_app; lia|].
  intros f Hf. apply parses_pair; [apply P1|apply P2]; lia.
Qed.

Lemma rtf_map {A B} (p : nat -> parser bytes A) (k : A -> B) g a b :
  rt_fuel p g a -> k a = b -> rt_fuel (fun f => map_pure (p f) k) g b.
Proof.
  intros (d & bs & W & L & P) <-. exists d, bs. split; [done|]. split; [done|].
  intros f Hf. eapply parses_map_pure; [by apply P|done].
Qed.

Lemma rtf_count {A} (p : nat -> parser bytes A) (g : A -> gen) l :
  Forall (fun a => rt_fuel p (g a) a) l ->
  rt_fuel (fun f => nom_count (p f) (length l)) (gen_many (map g l) (fun x => x)) l.
Proof.
  induction 1 as [|a l (d1 & b1 & W1 & L1 & P1) _ (d2 & b2 & W2 & L2 & P2)].
  - exists 0%nat, []. split; [apply writes_nil, gen_many_nil|]. split; [done|].
    intros f _ rest. apply nom_count_0.
  - exists (d1 `max` d2)%nat, (b1 ++ b2). split; [|split; [rewrite length_app; lia|]].
    + eapply (writes_ext _ (g a >>> gen_many (map g l) (fun x => x))); [|by apply writes_seq].
      intros s. cbn [map]. by rewrite gen_many_cons, gen_seq_eq.
    + intros f Hf rest. cbn [length]. rewrite nom_count_S, <- app_assoc, P1 by lia. cbn.
      by rewrite P2 by lia.
Qed.

Lemma rtf_garlic_clove (W : Message -> Prop) c :
  (forall m, W m -> rt_fuel message_f (gen_message m) m) -> wf_clove W c ->
  rt_fuel (fun f => garlic_clove (message_f f)) (gen_garlic_clove c) c.
Proof.
  destruct c as [di m cid ex cert]. intros HW (H1 & H2 & H3 & H4 & H5). cbn [gen_garlic_clove].
  eapply rtf_map.
  - apply rtf_pair; [by apply rtf_const, rt_gcdi|].
    apply rtf_pair; [by apply HW|].
    apply rtf_const. apply rt_pair; [by apply rt_be_u32|].
    apply rt_pair; [by apply rt_i2p_date|by apply rt_certificate].
  - done.
Qed.

Lemma rtf_garlic (W : Message -> Prop) g :
  (forall m, W m -> rt_fuel message_f (gen_message m) m) -> wf_Garlic W g ->
  rt_fuel (fun f => garlic (message_f f)) (gen_garlic g) g.
Proof.
  destruct g as [cs cert mid ex]. intros HW ([Hc Hl] & H2 & H3 & H4). cbn [gen_garlic].
  destruct (rtf_count (fun f => garlic_clove (message_f f)) gen_garlic_clove cs) as (d & b & Wb & Lb & Pb).
  { eapply Forall_impl; [exact Hc|]. intros c. by apply rtf_garlic_clove. }
  destruct (rt_len_u8 _ Hl) as (bl & Wl & Pl).
  assert (rt (nom_pair certificate (nom_pair be_u32 i2p_date))
            (gen_certificate cert >>> gen_be_u32 mid >>> gen_i2p_date ex) (cert, (mid, ex)))
    as (bt & Wt & Pt).
  { apply rt_pair; [by apply rt_certificate|]. apply rt_pair; [by apply rt_be_u32|by apply rt_i2p_date]. }
  exists d, (bl ++ b ++ bt). split; [by repeat apply writes_seq|]. split; [rewrite !length_app; lia|].
  intros f Hf. rewrite app_assoc. eapply parses_map_pure; [apply parses_pair; [|exact Pt]|done].
  intros rest. rewrite length_count_eq, <- app_assoc, Pl. cbn [pbind POk].
  unfold len. rewrite Nat2Z.id. by apply Pb.
Qed.

Lemma rtf_payload (W : Message -> Prop) p :
  (forall m, W m -> rt_fuel message_f (gen_message m) m) -> wf_payload W p -> sendable p ->
  rt_fuel (fun f => payload (message_f f) (message_type p)) (gen_payload p) p.
Proof.
  intros HW Hwf Hs. destruct p; cbn [wf_payload sendable] in Hwf, Hs; try done;
    cbn [gen_payload message_type]; unfold payload; cbn [Z.eqb Pos.eqb].
  - eapply rtf_map; [|done]. by apply rtf_const, rt_database_store.
  - eapply rtf_map; [|done]. by apply rtf_const, rt_database_lookup.
  - eapply rtf_map; [|done]. by apply rtf_const, rt_database_search_reply.
  - eapply rtf_map; [|done]. by apply rtf_const, rt_delivery_status.
  - eapply rtf_map; [|done]. by eapply rtf_garlic.
  - eapply rtf_map; [|done]. by apply rtf_const, rt_tunnel_data.
  - eapply rtf_map; [|done]. apply rtf_const, rt_data; apply Hwf.
  - eapply rtf_map; [|done]. apply rtf_const, rt_tunnel_build; apply Hwf.
  - eapply rtf_map; [|done]. apply rtf_const, rt_tunnel_build; apply Hwf.
  - eapply rtf_map; [|done]. apply rtf_const, rt_variable_tunnel_build; apply Hwf.
  - eapply rtf_map; [|done]. apply rtf_const, rt_variable_tunnel_build; apply Hwf.
Qed.

(** [Message] again, its payload's size and checksum in front *)
Lemma parses_message_step (msg : parser bytes Message) id ex p bs :
  u32_ok id -> wf_I2PDate ex -> u16_ok (len bs) -> u8_ok (message_type p) ->
  parses (payload msg (message_type p)) bs p ->
  parses (message_step msg)
    ((be_bytes 1 (message_type p) ++ be_bytes 4 id ++ be_bytes 8 (date_ms ex) ++
      be_bytes 2 (len bs) ++ be_bytes 1 (checksum bs)) ++ bs) (mkMessage id ex p).
Proof.
  intros Hid Hex Hl Ht Hp. eapply parses_bind.
  - apply parses_pair; [by apply parses_be_u8|]. apply parses_pair; [by apply parses_be_u32|].
    apply parses_pair; [exact (rt_parses _ _ _ _ (rt_i2p_date _ Hex) (writes_be_u64 _))|].
    apply parses_pair; [by apply parses_be_u16|]. apply parses_be_u8, checksum_ok.
  - cbv beta iota. intros rest.
    unfold map_pure. rewrite nom_map_eq, preceded_eq, nom_peek_eq.
    rewrite (parses_verify (nom_take (len bs)) _ bs bs); [|by apply parses_take|by rewrite Z.eqb_refl].
    cbn [pbind POk]. by rewrite Hp.
Qed.

Lemma message_type_u8 p : u8_ok (message_type p).
Proof. by destruct p. Qed.

Lemma writes_message id ex p bs :
  writes (gen_payload p) bs ->
  writes (gen_message (mkMessage id ex p))
    ((be_bytes 1 (message_type p) ++ be_bytes 4 id ++ be_bytes 8 (date_ms ex) ++
      be_bytes 2 (len bs) ++ be_bytes 1 (checksum bs)) ++ bs).
Proof. intros H. pose proof (writes_checked _ _ H). cbn [gen_message]. unfold gen_message_type, gen_i2p_date. writes_solve. Qed.

Lemma rtf_message depth m : sendable_f depth m -> rt_fuel message_f (gen_message m) m.
Proof.
  revert m. induction depth as [|depth IH]; intros m Hm; [done|]. destruct m as [id ex p].
  destruct Hm as (Hid & Hex & Hwf & Hs & (bs' & Wb & Lb)).
  destruct (rtf_payload _ p IH Hwf Hs) as (d & bs & W & L & P).
  rewrite (writes_det _ _ _ Wb W) in Lb. cbn [msg_id msg_expiration msg_payload] in *.
  eexists (S d), _. split; [by apply writes_message|]. split.
  - rewrite !length_app. pose proof (len_be_bytes 1 (message_type p)) as Hb. unfold len in Hb. lia.
  - intros [|f] Hf; [lia|]. cbn [message_f]. apply parses_message_step; try done.
    + split; [apply len_nonneg|lia].
    + apply message_type_u8.
    + apply P. lia.
Qed.

Lemma rt_message depth m : sendable_f depth m -> rt message (gen_message m) m.
Proof.
  intros Hm. destruct (rtf_message depth m Hm) as (d & bs & W & L & P).
  exists bs. split; [done|]. intros rest. unfold message.
  apply P. rewrite length_app. lia.
Qed.

(** ** What the parser accepts *)

Lemma sound_garlic_clove (msg : parser bytes Message) W :
  sound msg W -> sound (garlic_clove msg) (wf_clove W).
Proof.
  intros Hm. eapply sound_map_pure.
  - apply sound_pair; [apply sound_gcdi|]. apply sound_pair; [exact Hm|].
    apply sound_pair; [apply sound_be_u32|]. apply sound_pair; [apply sound_i2p_date|apply sound_certificate].
  - by intros (? & ? & ? & ? & ?).
Qed.

Lemma sound_garlic (msg : parser bytes Message) W : sound msg W -> sound (garlic msg) (wf_Garlic W).
Proof.
  intros Hm. eapply sound_map_pure.
  - apply sound_pair; [apply sound_count_u8, sound_garlic_clove, Hm|].
    apply sound_pair; [apply sound_certificate|]. apply sound_pair; [apply sound_be_u32|apply sound_i2p_date].
  - by intros (? & ? & ? & ?).
Qed.

Lemma sound_payload (msg : parser bytes Message) W t : sound msg W -> sound (payload msg t) (wf_payload W).
Proof.
  intros Hm. unfold payload.
  repeat match goal with |- context [t =? ?k] => destruct (t =? k) end;
    (eapply sound_map_pure; [|by intros ? H; exact H]) || apply sound_panic.
  - apply sound_database_store.
  - apply sound_database_lookup.
  - apply sound_database_search_reply.
  - apply sound_delivery_status.
  - by apply sound_garlic.
  - apply sound_tunnel_data.
  - apply sound_tunnel_gateway.
  - apply sound_data.
  - apply sound_tunnel_build.
  - apply sound_tunnel_build.
  - apply sound_variable_tunnel_build.
  - apply sound_variable_tunnel_build.
Qed.

Lemma sound_header :
  sound header (fun h => u8_ok h.1 /\ u32_ok h.2.1 /\ wf_I2PDate h.2.2.1 /\ u16_ok h.2.2.2.1 /\ u8_ok h.2.2.2.2).
Proof.
  eapply sound_weaken.
  - apply sound_pair; [apply sound_be_u8|]. apply sound_pair; [apply sound_be_u32|].
    apply sound_pair; [apply sound_i2p_date|]. apply sound_pair; [apply sound_be_u16|apply sound_be_u8].
  - by intros (? & ? & ? & ? & ?).
Qed.

Lemma sound_message_step (msg : parser bytes Message) W :
  sound msg W ->
  sound (message_step msg) (fun m => u32_ok (msg_id m) /\ wf_I2PDate (msg_expiration m) /\
                                     wf_payload W (msg_payload m)).
Proof.
  intros Hm. eapply sound_bind; [apply sound_header|].
  intros (t & id & ex & size & cs) (Ht & Hid & Hex & Hsz & Hcs). cbn in *.
  eapply sound_map_pure; [|by intros p Hp].
  eapply sound_preceded; [|by apply sound_payload].
  apply sound_peek, sound_verify, sound_take. apply Hsz.
Qed.

Lemma sound_message_f fuel : sound (message_f fuel) (wf_message_f fuel).
Proof.
  induction fuel as [|fuel IH]; [apply (sound_err _ (fun i => Failure i KCount))|].
  exact (sound_message_step _ _ IH).
Qed.

Lemma sound_message : sound message wf_Message.
Proof.
  intros i r m Hi H. destruct (sound_message_f _ i r m Hi H) as [Hw Hs]. split; [by eexists|done].
Qed.

(** ** Enough fuel *)

(** two parsers that agree on inputs of at most [n] bytes *)
Definition agree {A} (n : nat) (p q : parser bytes A) : Prop :=
  forall i, bytes_ok i -> (length i <= n)%nat -> p i = q i.

Lemma sound_len {A} (p : parser bytes A) P i r a :
  sound p P -> bytes_ok i -> p i = POk r a -> bytes_ok r /\ (length r <= length i)%nat.
Proof.
  intros Hs Hi H. destruct (Hs _ _ _ Hi H) as [_ [c ->]]. apply bytes_ok_app in Hi as [_ Hr].
  split; [done|]. rewrite length_app. lia.
Qed.

Lemma agree_pair {A B} n (p p' : parser bytes A) (q q' : parser bytes B) P :
  agree n p p' -> sound p P -> agree n q q' -> agree n (nom_pair p q) (nom_pair p' q').
Proof.
  intros Hp Hs Hq i Hi Hl. rewrite !nom_pair_eq, <- Hp by done.
  destruct (p i) as [[[i1 a]|]|] eqn:E; [|done..]. cbn [pbind].
  destruct (sound_len _ _ _ _ _ Hs Hi E). by rewrite Hq by (done || lia).
Qed.

Lemma agree_map {A B} n (p p' : parser bytes A) (k : A -> B) :
  agree n p p' -> agree n (map_pure p k) (map_pure p' k).
Proof. intros Hp i Hi Hl. unfold map_pure. by rewrite !nom_map_eq, Hp. Qed.

Lemma agree_count {A} n (p p' : parser bytes A) P k :
  agree n p p' -> sound p P -> agree n (nom_count p k) (nom_count p' k).
Proof.
  intros Hp Hs. induction k as [|k IH]; intros i Hi Hl; [by rewrite !nom_count_0|].
  rewrite !nom_count_S, <- Hp by done.
  destruct (p i) as [[[i1 a]|]|] eqn:E; [|done..]. cbn [pbind].
  destruct (sound_len _ _ _ _ _ Hs Hi E). by rewrite IH by (done || lia).
Qed.

Lemma agree_refl {A} n (p : parser bytes A) : agree n p p.
Proof. by intros i _ _. Qed.

Lemma agree_garlic n (m m' : parser bytes Message) W :
  agree n m m' -> sound m W -> agree n (garlic m) (garlic m').
Proof.
  intros Hm Hs. apply agree_map. eapply agree_pair; [|by apply sound_count_u8, sound_garlic_clove|apply agree_refl].
  intros i Hi Hl. rewrite !length_count_eq. destruct (be_u8 i) as [[[i1 k]|]|] eqn:E; [|done..]. cbn [pbind].
  destruct (sound_len _ _ _ _ _ sound_be_u8 Hi E).
  eapply (agree_count n); [|by apply sound_garlic_clove|done|lia].
  apply agree_map. eapply agree_pair; [apply agree_refl|apply sound_gcdi|].
  eapply agree_pair; [exact Hm|exact Hs|apply agree_refl].
Qed.

Lemma agree_payload n (m m' : parser bytes Message) W t :
  agree n m m' -> sound m W -> agree n (payload m t) (payload m' t).
Proof.
  intros Hm Hs i Hi Hl. unfold payload.
  repeat match goal with |- context [t =? ?k] => destruct (t =? k) end; try done.
  apply (agree_map n); [by eapply agree_garlic|done|done].
Qed.

Lemma be_u8_shorter i r a : be_u8 i = POk r a -> (length r < length i)%nat.
Proof.
  intros H. destruct (Z.le_gt_cases 1 (len i)) as [Hl|Hl].
  - rewrite be_u8_ok in H by done. injection H as <- <-. unfold zdrop, len in *. rewrite length_drop. lia.
  - destruct (be_u8_short i) as [k Hk]; [lia|]. rewrite Hk in H. discriminate H.
Qed.

Lemma header_shorter i r h : bytes_ok i -> header i = POk r h -> bytes_ok r /\ (length r < length i)%nat.
Proof.
  intros Hi. unfold header. rewrite nom_pair_eq.
  destruct (be_u8 i) as [[[i1 t]|]|] eqn:E; [|done..]. cbn [pbind].
  destruct (sound_len _ _ _ _ _ sound_be_u8 Hi E) as [Hi1 _]. pose proof (be_u8_shorter _ _ _ E).
  set (rest := nom_pair be_u32 _). assert (exists Q, sound rest Q) as [Q HQ].
  { eexists. apply sound_pair; [apply sound_be_u32|]. apply sound_pair; [apply sound_i2p_date|].
    apply sound_pair; [apply sound_be_u16|apply sound_be_u8]. }
  destruct (rest i1) as [[[i2 v]|]|] eqn:E2; [|done..]. cbn. intros [= <- _].
  destruct (sound_len _ _ _ _ _ HQ Hi1 E2). split; [done|lia].
Qed.

Lemma message_f_agree n : forall f f', (n < f)%nat -> (n < f')%nat -> agree n (message_f f) (message_f f').
Proof.
  induction n as [n IH] using lt_wf_ind. intros [|f] [|f'] Hf Hf' i Hi Hl; try lia.
  cbn [message_f]. unfold message_step. destruct (header i) as [[[i1 h]|]|] eqn:E; [|done..].
  destruct (header_shorter _ _ _ Hi E) as [Hi1 Hl1]. cbn [pbind]. destruct h as (t & id & ex & size & cs).
  unfold map_pure. rewrite !nom_map_eq, !preceded_eq. f_equal.
  rewrite !nom_peek_eq. destruct (nom_verify _ _ i1) as [[[i2 b]|]|]; [|done..]. cbn [pbind POk].
  eapply (agree_payload (length i1)); [|apply sound_message_f|done|done].
  apply IH; lia.
Qed.

(** ** NTCP2 framing *)

(** the expiration loses its milliseconds *)
Definition short_expiration (m : Message) : Message :=
  mkMessage (msg_id m) (mkI2PDate (date_ms (msg_expiration m) / 1000 * 1000)) (msg_payload m).

Lemma rt_ntcp2_message depth m :
  sendable_f depth m -> date_ms (msg_expiration m) < 1000 * 2 ^ 32 ->
  exists bs, writes (gen_ntcp2_message m) bs /\ parses ntcp2_message bs (short_expiration m) /\ len bs <= 65544.
Proof.
  destruct depth as [|depth]; [done|]. destruct m as [id ex p].
  intros (Hid & Hex & Hwf & Hs & (bs' & Wb & Lb)) Hms. cbn [msg_id msg_expiration msg_payload] in *.
  destruct (rtf_payload _ p (rtf_message depth) Hwf Hs) as (d & bs & W & L & P).
  rewrite (writes_det _ _ _ Wb W) in Lb.
  assert (0 <= date_ms ex) as Hpos by apply Hex.
  destruct (rt_short_expiry ex) as (b3 & W3 & P3); [lia|].
  destruct (rt_be_u8 _ (message_type_u8 p)) as (b1 & W1 & P1).
  destruct (rt_be_u32 _ Hid) as (b2 & W2 & P2).
  exists ((b1 ++ b2 ++ b3) ++ bs). split; [|split].
  - unfold gen_ntcp2_message, gen_message_type. cbn [msg_id msg_expiration msg_payload]. writes_solve.
  - intros rest. unfold ntcp2_message. rewrite <- (app_assoc _ bs rest).
    unfold ntcp2_header.
    rewrite (parses_pair _ _ _ _ _ _ P1 (parses_pair _ _ _ _ _ _ P2 P3)). cbn [pbind POk fst snd].
    rewrite P by (rewrite !length_app; lia). done.
  - rewrite (writes_det _ _ _ W1 (writes_be_u8 _)), (writes_det _ _ _ W2 (writes_be_u32 _)),
      (writes_det _ _ _ W3 (writes_be_u32 _)). llia.
Qed.

(** ** Generators that never fit *)

Lemma asks_checked g k sz : asks g (k + 3) sz -> k + 3 <= sz -> asks (gen_checked g) k sz.
Proof.
  intros Hg Hk buf idx Hi Hl Hs. unfold gen_checked. rewrite gen_label_eq, gen_seq_eq. cbn [snd].
  destruct (Z.le_gt_cases (idx + 2) (len buf)) as [H2|H2].
  2: { rewrite gen_skip_small by lia. cbn. eexists _, _. split; [done|lia]. }
  rewrite gen_skip_ok by done. cbn [gbind GOk]. rewrite gen_label_eq, gen_seq_eq. cbn [snd].
  destruct (Z.le_gt_cases (idx + 3) (len buf)) as [H3|H3].
  2: { rewrite gen_skip_small by lia. cbn. eexists _, _. split; [done|lia]. }
  rewrite gen_skip_ok by lia. cbn [gbind GOk]. rewrite gen_label_eq, gen_seq_eq. cbn [snd].
  destruct (Hg buf (idx + 2 + 1)) as (b' & n & -> & Hb & Hn); [lia|lia|lia|]. cbn. by eexists _, _.
Qed.

(** the router info is generated into a buffer without room *)
Lemma asks_compressed_ri ri k :
  wf_RouterInfo ri -> asks (gen_compressed_ri ri) k 256.
Proof.
  intros [[[[_ Hpk] _] _] Hsig] buf idx Hi Hl Hs. exists buf, 256.
  split; [|lia]. unfold gen_compressed_ri.
  assert (gen_router_info ri ([], 0) = GErr [] (BufferTooSmall 256)) as ->; [|done].
  unfold gen_router_info. destruct (ri_signature ri) as [s|]; [|done].
  unfold gen_router_info_minus_sig, gen_router_identity, gen_public_key.
  rewrite !gen_seq_eq. rewrite gen_slice_small by (rewrite Hpk; llia).
  by rewrite Hpk.
Qed.

Lemma asks_ri_message id ex key ty rp ri :
  wf_RouterInfo ri -> wf_Hash key -> wf_opt wf_ReplyPath rp ->
  asks (gen_message (mkMessage id ex (MDatabaseStore (mkDatabaseStore key ty rp (DsRI ri))))) 0 256.
Proof.
  intros Hri [_ Hk] Hrp.
  cbn [gen_message gen_payload]. unfold gen_message_type, gen_i2p_date, gen_database_store.
  cbn [ds_key ds_type ds_reply ds_data gen_database_store_data].
  assert (exists b, writes (gen_reply_path rp) b /\ len b <= 40) as (b & Wb & Lb).
  { destruct rp as [[tok tid gw]|]; cbn [gen_reply_path].
    - eexists. split; [apply writes_seq; [apply writes_be_u32|apply writes_seq; [apply writes_be_u32|apply writes_slice]]|].
      destruct Hrp as (_ & _ & [_ Hg]). rewrite !len_app, !len_be_bytes. cbn in *. lia.
    - eexists. split; [apply writes_be_u32|]. by rewrite len_be_bytes. }
  repeat (eapply asks_seq; [first [apply writes_be_u8|apply writes_be_u32|apply writes_be_u64]| |rewrite !len_be_bytes; lia]).
  apply asks_checked; [|rewrite !len_be_bytes; lia].
  eapply asks_seq; [apply writes_slice| |rewrite !len_be_bytes; lia].
  eapply asks_seq; [apply writes_be_u8| |rewrite !len_be_bytes; lia].
  eapply asks_seq; [exact Wb| |rewrite !len_be_bytes; lia].
  by apply asks_compressed_ri.
Qed.

Lemma writes_le_message id ex p n :
  writes_le (gen_payload p) n -> writes_le (gen_message (mkMessage id ex p)) (16 + n).
Proof.
  intros (bs & W & L). eapply writes_le_of; [by apply writes_message|].
  rewrite !len_app, !len_be_bytes. lia.
Qed.

End Frames.

(** ** Samples *)

Module MessageSamples.

(** a garlic message with one clove, which carries a delivery status *)
Definition ref_garlic : @Message sigcrates_ref :=
  mkMessage 77 (mkI2PDate 1234567)
    (MGarlic (mkGarlic
       [mkGarlicClove (mkGcdi false 0 false None None None None)
          (mkMessage 5 (mkI2PDate 1000) (MDeliveryStatus (mkDeliveryStatus 9 (mkI2PDate 2000))))
          3 (mkI2PDate 4000) CertNull]
       CertNull 11 (mkI2PDate 5000))).

Section Sendable.
Context {cf : CookieFactory} {sha : Sha2} {fl : Flate2}.

Lemma ref_status_fits :
  writes_le (gen_payload (sc := sigcrates_ref) (MDeliveryStatus (mkDeliveryStatus 9 (mkI2PDate 2000)))) 12.
Proof. exact (writes_le_seq _ _ 4 8 (writes_le_be_u32 _) (writes_le_be_u64 _)). Qed.

Lemma ref_garlic_fits : writes_le (gen_payload (msg_payload ref_garlic)) 65535.
Proof.
  cbn [ref_garlic msg_payload gen_payload gen_garlic map gen_garlic_clove].
  pose proof (writes_le_message 5 (mkI2PDate 1000) _ _ ref_status_fits) as Hm.
  assert (writes_le (gen_certificate CertNull) 3) as Hc
    by exact (writes_le_seq _ _ 1 2 (writes_le_be_u8 _) (writes_le_be_u16 _)).
  eapply writes_le_weaken.
  - apply writes_le_seq; [apply writes_le_be_u8|]. apply writes_le_seq.
    + apply (writes_le_many _ _ 100); [lia|]. constructor; [|constructor].
      eapply writes_le_weaken.
      * apply writes_le_seq; [|apply writes_le_seq; [exact Hm|]].
        -- apply writes_le_seq; [apply writes_le_be_u8|].
           repeat first [exact (writes_le_of _ _ 0 (writes_cond_false _) ltac:(done)) | apply writes_le_seq].
        -- apply writes_le_seq; [apply writes_le_be_u32|]. apply writes_le_seq; [apply writes_le_be_u64|exact Hc].
      * lia.
    + apply writes_le_seq; [exact Hc|]. apply writes_le_seq; [apply writes_le_be_u32|apply writes_le_be_u64].
  - unfold len. simpl. lia.
Qed.

Lemma ref_garlic_sendable : sendable_f 2 ref_garlic.
Proof.
  split; [done|]. split; [done|]. split; [|split; [done|exact ref_garlic_fits]].
  split; [|done]. split; [|done]. constructor; [|constructor].
  split; [done|]. split; [|done]. split; [done|]. split; [done|]. split; [done|]. split; [done|].
  eapply writes_le_weaken; [exact ref_status_fits|lia].
Qed.

End Sendable.

End MessageSamples.
Export MessageSamples.

(** ** Properties *)

Module MessageProps.

Section Props.
Context {nom : Nom} {cf : CookieFactory} {bu : BigUintOps} {sc : SigCrates} {sha : Sha2} {fl : Flate2}.

(** C1: An I2NP message survives the wire.  Every sendable message (all
    payload types except tunnel gateways and router info stores; garlic
    messages nest to any depth) serialises, with its size and checksum
    patched in, to at most 65551 bytes, and parsing these bytes, whatever
    follows them, gives the message back. *)
Theorem message_roundtrip (depth : nat) (m : Message) :
  sendable_f depth m ->
  exists bs, serialize (gen_message m) = Ret (Some bs) /\ len bs <= 65551 /\
    Message_size m = Ret (Some (len bs)) /\ parses message bs m.
Proof.
  intros Hm. assert (writes_le (gen_message m) 65551) as Hle.
  { destruct depth; [done|]. destruct m. destruct Hm as (_ & _ & _ & _ & Hw).
    exact (writes_le_message _ _ _ _ Hw). }
  destruct (rt_serialize _ _ _ _ (rt_message depth m Hm) Hle) as (bs & Hs & _ & Hp & Hl); [lia|].
  exists bs. unfold Message_size. by rewrite Hs.
Qed.

(** The same under the short NTCP2 header: the message comes back with its
    expiration rounded down to the second. *)
Theorem ntcp2_message_roundtrip (depth : nat) (m : Message) :
  sendable_f depth m -> date_ms (msg_expiration m) < 1000 * 2 ^ 32 ->
  exists bs, serialize (gen_ntcp2_message m) = Ret (Some bs) /\
    Message_ntcp2_size m = Ret (Some (len bs)) /\ parses ntcp2_message bs (short_expiration m).
Proof.
  intros Hm He. destruct (rt_ntcp2_message depth m Hm He) as (bs & W & P & L). exists bs.
  unfold Message_ntcp2_size. rewrite (serialize_writes _ _ W) by lia. done.
Qed.

(** C24: What [message] accepts from the network is well-formed at every level
    of nesting, and it leaves a suffix of its input. *)
Theorem message_accepts_wf (i r : bytes) (m : Message) :
  bytes_ok i -> message i = POk r m -> wf_Message m /\ exists c, i = c ++ r.
Proof. apply sound_message. Qed.

(** Parsing terminates whatever the input nests: a fuel above the number
    of bytes gives the same result as any larger fuel, so the recursion of
    the source is bounded by its input. *)
Theorem message_fuel_enough (i : bytes) (fuel : nat) :
  bytes_ok i -> (length i < fuel)%nat -> message_f fuel i = message i.
Proof. intros Hi Hf. apply (message_f_agree (length i)); [lia|lia|done|done]. Qed.

(** The checksum covers the announced [size] bytes, but the payload parser
    is not confined to them: with a size of zero and the checksum of the empty
    buffer, any payload is accepted unchecked. *)
Theorem message_checksum_bypass (depth : nat) (id : Z) (ex : I2PDate) (p : MessagePayload) :
  sendable_f depth (mkMessage id ex p) ->
  exists bs, writes (gen_payload p) bs /\
    parses message ((be_bytes 1 (message_type p) ++ be_bytes 4 id ++ be_bytes 8 (date_ms ex) ++
                     be_bytes 2 0 ++ be_bytes 1 (checksum [])) ++ bs) (mkMessage id ex p).
Proof.
  destruct depth as [|depth]; [done|]. intros (Hid & Hex & Hwf & Hs & _).
  destruct (rtf_payload _ p (rtf_message depth) Hwf Hs) as (d & bs & W & L & P).
  exists bs. split; [done|]. intros rest. unfold message. cbn [message_f]. unfold message_step.
  rewrite <- (app_assoc _ bs rest). unfold header.
  rewrite (parses_pair _ _ _ _ _ _ (parses_be_u8 _ (message_type_u8 p))
    (parses_pair _ _ _ _ _ _ (parses_be_u32 _ Hid)
      (parses_pair _ _ _ _ _ _ (rt_parses _ _ _ _ (rt_i2p_date _ Hex) (writes_be_u64 _))
        (parses_pair _ _ _ _ _ _ (parses_be_u16 0 ltac:(done)) (parses_be_u8 _ (checksum_ok [])))))).
  cbn [pbind POk]. unfold map_pure. rewrite nom_map_eq, preceded_eq, nom_peek_eq.
  assert (nom_verify (nom_take 0) (fun buf => checksum buf =? checksum []) (bs ++ rest) = POk (bs ++ rest) [])
    as -> by exact (parses_verify (nom_take 0) (fun buf => checksum buf =? checksum []) [] []
                      (parses_take 0 [] eq_refl) (Z.eqb_refl _) (bs ++ rest)).
  cbn [pbind POk]. by rewrite P by (rewrite !length_app; lia).
Qed.

(** A message of an unknown type panics the parser instead of failing it,
    once its checksum is right. *)
Theorem unknown_type_panics (ty id : Z) (ex : I2PDate) (body rest : bytes) :
  u8_ok ty -> ty ∉ [1; 2; 3; 10; 11; 18; 19; 20; 21; 22; 23; 24] ->
  u32_ok id -> wf_I2PDate ex -> u16_ok (len body) ->
  message ((be_bytes 1 ty ++ be_bytes 4 id ++ be_bytes 8 (date_ms ex) ++
            be_bytes 2 (len body) ++ be_bytes 1 (checksum body)) ++ body ++ rest) = Panic.
Proof.
  intros Ht Hni Hid Hex Hl. unfold message. cbn [message_f]. unfold message_step, header.
  rewrite (parses_pair _ _ _ _ _ _ (parses_be_u8 _ Ht)
    (parses_pair _ _ _ _ _ _ (parses_be_u32 _ Hid)
      (parses_pair _ _ _ _ _ _ (rt_parses _ _ _ _ (rt_i2p_date _ Hex) (writes_be_u64 _))
        (parses_pair _ _ _ _ _ _ (parses_be_u16 _ Hl) (parses_be_u8 _ (checksum_ok body)))))).
  cbn [pbind POk]. unfold map_pure. rewrite nom_map_eq, preceded_eq, nom_peek_eq.
  rewrite (parses_verify (nom_take (len body)) _ body body) by (apply Z.eqb_refl || by apply parses_take).
  cbn [pbind POk]. unfold payload.
  rewrite !(proj2 (Z.eqb_neq ty _)) by (intros ->; apply Hni; set_solver). done.
Qed.

(** A database store that carries a router info is never serialised: the
    router info is generated into an empty buffer, which always asks for more
    room than the loop can give it, so [serialize] runs forever. *)
Theorem ri_store_never_serializes (fuel : positive) (id ty : Z) (ex : I2PDate) (key : Hash)
    (rp : option ReplyPath) (ri : RouterInfo) :
  wf_RouterInfo ri -> wf_Hash key -> wf_opt wf_ReplyPath rp ->
  serialize_upto fuel
    (gen_message (mkMessage id ex (MDatabaseStore (mkDatabaseStore key ty rp (DsRI ri))))) = Ret None.
Proof. intros. apply (serialize_spins _ 256); [by apply asks_ri_message|lia]. Qed.

End Props.

(** the instances the witnesses run with *)
#[local] Existing Instances nom_ref cf_ref biguint_ref sigcrates_ref sha2_ref flate_ref.

Lemma message_roundtrip_witness :
  exists bs, serialize (gen_message ref_garlic) = Ret (Some bs) /\ len bs <= 65551 /\
    Message_size ref_garlic = Ret (Some (len bs)) /\ parses message bs ref_garlic.
Proof. apply (message_roundtrip 2 ref_garlic). exact ref_garlic_sendable. Defined.

Lemma ntcp2_message_roundtrip_witness :
  exists bs, serialize (gen_ntcp2_message ref_garlic) = Ret (Some bs) /\
    Message_ntcp2_size ref_garlic = Ret (Some (len bs)) /\
    parses ntcp2_message bs (short_expiration ref_garlic).
Proof. apply (ntcp2_message_roundtrip 2 ref_garlic); [exact ref_garlic_sendable|reflexivity]. Defined.

(** a data message of one byte *)
Definition ref_data_bytes : bytes :=
  [20] ++ [0; 0; 0; 6] ++ [0; 0; 0; 0; 0; 0; 1; 1] ++ [0; 5] ++ [0] ++ [0; 0; 0; 1; 42].
Definition ref_data : Message := mkMessage 6 (mkI2PDate 257) (MData [42]).

Lemma message_accepts_wf_witness :
  message (ref_data_bytes ++ [9]) = POk [9] ref_data /\
  wf_Message ref_data /\ exists c, ref_data_bytes ++ [9] = c ++ [9].
Proof.
  assert (message (ref_data_bytes ++ [9]) = POk [9] ref_data) as H
    by (vm_cast_no_check (@eq_refl (IResult bytes Message) (POk [9] ref_data))).
  split; [exact H|]. apply message_accepts_wf; [apply bytes_okb_ok; reflexivity|exact H].
Defined.

Lemma message_fuel_enough_witness : message_f 100 ref_data_bytes = message ref_data_bytes.
Proof. apply message_fuel_enough; [apply bytes_okb_ok; reflexivity|cbn; lia]. Defined.

Lemma message_checksum_bypass_witness :
  exists bs, writes (gen_payload (msg_payload ref_garlic)) bs /\
    parses message ((be_bytes 1 11 ++ be_bytes 4 77 ++ be_bytes 8 1234567 ++
                     be_bytes 2 0 ++ be_bytes 1 (checksum [])) ++ bs) ref_garlic.
Proof.
  apply (message_checksum_bypass 2 77 (mkI2PDate 1234567) (msg_payload ref_garlic)).
  exact ref_garlic_sendable.
Defined.

Lemma unknown_type_panics_witness :
  message ((be_bytes 1 4 ++ be_bytes 4 1 ++ be_bytes 8 1000 ++
            be_bytes 2 (len [5; 5]) ++ be_bytes 1 (checksum [5; 5])) ++ [5; 5] ++ []) = Panic.
Proof.
  apply (unknown_type_panics 4 1 (mkI2PDate 1000) [5; 5] []); try done.
  rewrite !elem_of_cons, elem_of_nil. lia.
Defined.

Lemma ri_store_never_serializes_witness :
  serialize_upto 1000
    (gen_message (mkMessage 1 (mkI2PDate 0)
       (MDatabaseStore (mkDatabaseStore (mkHash (zeros 32)) 0 None (DsRI ref_signed_ri))))) = Ret None.
Proof.
  apply (ri_store_never_serializes 1000 1 0 (mkI2PDate 0) (mkHash (zeros 32)) None ref_signed_ri).
  - exact ref_signed_ri_wf.
  - split; [apply zeros_ok|reflexivity].
  - exact I.
Defined.

End MessageProps.
