(* ===== verification/Ntcp2Frame.v ===== *)
(** * NTCP2 blocks and frames

    [src/transport/ntcp2/frame.rs] and the block type of
    [src/transport/ntcp2/mod.rs]: the blocks of the data phase, the frames they
    make up, and the contents of the three handshake messages.

    The bytes that padding draws are an argument ([draw]); [oc] says whether the
    build checks arithmetic for overflow. *)

From S2P Require Import Prelude Nom Cookie Util Wire Crypto Data Dest I2np Message.

Section Types.
Context {sc : SigCrates}.

Record RouterInfoFlags := mkRouterInfoFlags { flood : bool }.

Inductive Block :=
| BlkDateTime (ts : Z)
| BlkOptions (options : bytes)
| BlkRouterInfo (ri : RouterInfo) (flags : RouterInfoFlags)
| BlkMessage (msg : Message)
| BlkTermination (valid_received rsn : Z) (addl_data : bytes)
| BlkPadding (size : Z)
| BlkUnknown (blk : Z) (data : bytes).

Definition Frame : Type := list Block.

End Types.

Section Frames.
Context {nom : Nom} {cf : CookieFactory} {bu : BigUintOps} {sc : SigCrates} {sha : Sha2} {fl : Flate2}.

(** ** Parsers *)

Definition datetime : parser bytes Block := map_pure (preceded (nom_tag [0; 4]) be_u32) BlkDateTime.

Definition options : parser bytes Block := map_pure (length_data be_u16) BlkOptions.

Definition routerinfo_flags : parser bytes RouterInfoFlags :=
  map_pure (nom_bits (preceded (take_bits 7) (take_bits 1))) (fun flood => mkRouterInfoFlags (flood >? 0)).

Definition routerinfo : parser bytes Block :=
  map_pure (length_value be_u16 (nom_pair routerinfo_flags router_info)) (fun '(flags, ri) => BlkRouterInfo ri flags).

Definition message_block : parser bytes Block := map_pure (length_value be_u16 ntcp2_message) BlkMessage.

(** [size - 9] is computed in [u16] *)
Definition termination (oc : bool) : parser bytes Block := fun i =>
  let_p (i, size) := be_u16 i in
  let! n := checked oc 16 (size - 9) in
  map_pure (nom_pair be_u64 (nom_pair be_u8 (nom_take n)))
    (fun '(valid_received, (rsn, addl_data)) => BlkTermination valid_received rsn addl_data) i.

Definition padding_block : parser bytes Block := fun i =>
  let_p (i, size) := be_u16 i in
  let_p (i, _) := nom_take size i in
  POk i (BlkPadding size).

Definition unknown : parser bytes bytes := map_pure (length_data be_u16) (fun d => d).

Definition block (oc : bool) : parser bytes Block := fun i =>
  let_p (i, blk) := be_u8 i in
  if blk =? 0 then datetime i
  else if blk =? 1 then options i
  else if blk =? 2 then routerinfo i
  else if blk =? 3 then message_block i
  else if blk =? 4 then termination oc i
  else if blk =? 254 then padding_block i
  else map_pure unknown (BlkUnknown blk) i.

Definition frame (oc : bool) : parser bytes Frame := many1 (complete (block oc)).

(** ** Generators *)

Definition gen_datetime (ts : Z) : gen := gen_be_u16 4 >>> gen_be_u32 ts.

Definition gen_options (options : bytes) : gen := gen_be_u16 (len options) >>> gen_slice options.

Definition gen_routerinfo_flags (flags : RouterInfoFlags) : gen :=
  gen_be_u8 (if flood flags then Z.lor 0 1 else 0).

Definition gen_routerinfo (ri : RouterInfo) (flags : RouterInfoFlags) : gen :=
  len_prefixed (gen_routerinfo_flags flags >>> gen_router_info ri).

Definition gen_message_block (message : Message) : gen := len_prefixed (gen_ntcp2_message message).

Definition gen_termination (valid_received rsn : Z) (addl_data : bytes) : gen :=
  len_prefixed (gen_be_u64 valid_received >>> gen_be_u8 rsn >>> gen_slice addl_data).

(** [draw n]: the [n] bytes that [OsRng] fills the padding with *)
Definition gen_padding_block (draw : Z -> bytes) (size : Z) : gen := gen_be_u16 size >>> gen_slice (draw size).

Definition gen_unknown (data : bytes) : gen := gen_be_u16 (len data) >>> gen_slice data.

Definition gen_block (draw : Z -> bytes) (b : Block) : gen :=
  match b with
  | BlkDateTime ts => gen_be_u8 0 >>> gen_datetime ts
  | BlkOptions options => gen_be_u8 1 >>> gen_options options
  | BlkRouterInfo ri flags => gen_be_u8 2 >>> gen_routerinfo ri flags
  | BlkMessage message => gen_be_u8 3 >>> gen_message_block message
  | BlkTermination valid_received rsn addl_data => gen_be_u8 4 >>> gen_termination valid_received rsn addl_data
  | BlkPadding size => gen_be_u8 254 >>> gen_padding_block draw size
  | BlkUnknown blk data => gen_be_u8 blk >>> gen_unknown data
  end.

(** [draw k]: the draws of the block in place [k] *)
Definition gen_frame (draw : nat -> Z -> bytes) (f : Frame) : gen :=
  gen_many (imap (fun k b => (k, b)) f) (fun '(k, b) => gen_block (draw k) b).

(** ** Handshake messages *)

Definition session_request : parser bytes (Z * Z * Z * Z) :=
  map_pure
    (nom_pair (nom_take 1) (nom_pair be_u8 (nom_pair be_u16 (nom_pair be_u16
      (nom_pair (nom_take 2) (nom_pair be_u32 (nom_take 4)))))))
    (fun '(_, (ver, (padlen, (sclen, (_, (ts_a, _)))))) => (ver, padlen, sclen, ts_a)).

Definition gen_session_request (ver padlen sclen ts_a : Z) : gen :=
  gen_slice [0] >>> gen_be_u8 ver >>> gen_be_u16 padlen >>> gen_be_u16 sclen >>> gen_slice (zeros 2) >>>
  gen_be_u32 ts_a >>> gen_slice (zeros 4).

Definition session_created : parser bytes (Z * Z) :=
  map_pure
    (nom_pair (nom_take 2) (nom_pair be_u16 (nom_pair (nom_take 4) (nom_pair be_u32 (nom_take 4)))))
    (fun '(_, (padlen, (_, (ts_b, _)))) => (padlen, ts_b)).

Definition gen_session_created (padlen ts_b : Z) : gen :=
  gen_slice (zeros 2) >>> gen_be_u16 padlen >>> gen_slice (zeros 4) >>> gen_be_u32 ts_b >>> gen_slice (zeros 4).

Definition session_confirmed (oc : bool) : parser bytes Frame := frame oc.

Definition gen_session_confirmed (draw : nat -> Z -> bytes) (ri_a : RouterInfo) (padlen : Z) : gen :=
  gen_frame draw [BlkRouterInfo ri_a (mkRouterInfoFlags false); BlkPadding padlen].

(** ** Well-formed blocks *)

(** the types that have no parser of their own *)
Definition unknown_type (blk : Z) : Prop := u8_ok blk /\ blk ∉ [0; 1; 2; 3; 4; 254].

(** what the parser guarantees *)
Definition wf_Block (b : Block) : Prop :=
  match b with
  | BlkDateTime ts => u32_ok ts
  | BlkOptions o => bytes_ok o /\ u16_ok (len o)
  | BlkRouterInfo ri _ => wf_RouterInfo ri
  | BlkMessage m => wf_Message m
  | BlkTermination v r d => u64_ok v /\ u8_ok r /\ bytes_ok d /\ u16_ok (len d)
  | BlkPadding n => u16_ok n
  | BlkUnknown t d => unknown_type t /\ bytes_ok d /\ u16_ok (len d)
  end.

(** what can be sent: the lengths fit their fields *)
Definition sendable_block (b : Block) : Prop :=
  match b with
  | BlkRouterInfo ri _ => wf_RouterInfo ri /\ exists bs, writes (gen_router_info ri) bs /\ 1 + len bs < 2 ^ 16
  | BlkMessage m =>
      (exists depth, sendable_f depth m) /\ date_ms (msg_expiration m) < 1000 * 2 ^ 32 /\
      exists bs, writes (gen_ntcp2_message m) bs /\ len bs < 2 ^ 16
  | BlkTermination v r d => u64_ok v /\ u8_ok r /\ bytes_ok d /\ 9 + len d < 2 ^ 16
  | _ => wf_Block b
  end.

(** what a block is read back as: the short header of a message has seconds *)
Definition received (b : Block) : Block :=
  match b with BlkMessage m => BlkMessage (short_expiration m) | _ => b end.

(** ** Lemmas *)

Lemma flags_bits b i :
  preceded (take_bits 7) (take_bits 1) (b :: i, 0) = POk (i, 0) (b mod 2 ^ 1).
Proof. rewrite preceded_eq, (take_bits_in 7 0) by lia. cbn [pbind POk]. by rewrite take_bits_end by lia. Qed.

Lemma rt_routerinfo_flags f : rt routerinfo_flags (gen_routerinfo_flags f) f.
Proof.
  eapply rt_intro; [apply writes_be_u8|]. rewrite be_bytes_1 by (by destruct f as [[]]).
  eapply parses_map_pure; [intros rest; apply bits_byte, flags_bits|]. by destruct f as [[]].
Qed.

Lemma sound_routerinfo_flags : sound routerinfo_flags (fun _ => True).
Proof.
  eapply (sound_map_pure _ _ (fun _ => True)); [|done].
  eapply (sound_bits _ _ _ flags_bits); [|done].
  destruct (take_bits_short 7) as [k Hk]; [lia|]. exists k. by rewrite preceded_eq, Hk.
Qed.

Lemma sound_ntcp2_message : sound ntcp2_message wf_Message.
Proof.
  assert (forall fuel, sound (fun i => let_p (i, hdr) := ntcp2_header i in
    let_p (i, payload) := payload (message_f fuel) hdr.1 i in
    POk i (mkMessage hdr.2.1 hdr.2.2 payload)) (wf_message_f (S fuel))) as H.
  { intros fuel. unfold ntcp2_header.
    eapply sound_bind; [apply sound_pair; [apply sound_be_u8|apply sound_pair; [apply sound_be_u32|apply sound_short_expiry]]|].
    intros (t & id & ex) (_ & Hid & Hex & _). cbn in Hid, Hex. cbn [fst snd].
    eapply sound_bind; [apply sound_payload, sound_message_f|]. intros p Hp. cbn.
    apply sound_ret. by split_and!. }
  intros i r m Hi Hm. destruct (H _ i r m Hi Hm) as [Hw Hs]. split; [by eexists|done].
Qed.

Lemma u8_cases t : unknown_type t -> forall k, k ∈ [0; 1; 2; 3; 4; 254] -> (t =? k) = false.
Proof. intros [_ Ht] k Hk. apply Z.eqb_neq. by intros ->. Qed.

(** a block of a given type *)
Lemma parses_block oc t bs (p : parser bytes Block) b :
  u8_ok t -> (forall i, block oc (be_bytes 1 t ++ i) = p i) -> parses p bs b ->
  parses (block oc) (be_bytes 1 t ++ bs) b.
Proof. intros Ht Hb Hp rest. by rewrite <- app_assoc, Hb, Hp. Qed.

Lemma block_type oc t i :
  u8_ok t ->
  block oc (be_bytes 1 t ++ i) =
  if t =? 0 then datetime i
  else if t =? 1 then options i
  else if t =? 2 then routerinfo i
  else if t =? 3 then message_block i
  else if t =? 4 then termination oc i
  else if t =? 254 then padding_block i
  else map_pure unknown (BlkUnknown t) i.
Proof. intros Ht. unfold block. by rewrite (parses_be_u8 t Ht). Qed.

Lemma rt_datetime ts : u32_ok ts -> rt datetime (gen_datetime ts) (BlkDateTime ts).
Proof.
  intros Ht. eapply rt_map_pure; [|reflexivity]. eapply rt_intro; [unfold gen_datetime; writes_solve|].
  eapply parses_preceded; [|by apply parses_be_u32]. apply parses_tag.
Qed.

Lemma rt_bytes16 (f : bytes -> Block) d :
  bytes_ok d -> u16_ok (len d) -> rt (map_pure (length_data be_u16) f) (gen_be_u16 (len d) >>> gen_slice d) (f d).
Proof.
  intros Hd Hl. eapply rt_map_pure; [|reflexivity]. eapply rt_length_data; [by apply rt_be_u16|done].
Qed.

Lemma rt_unknown t d : bytes_ok d -> u16_ok (len d) -> rt (map_pure unknown (BlkUnknown t)) (gen_unknown d) (BlkUnknown t d).
Proof.
  intros Hd Hl. eapply rt_map_pure; [|reflexivity]. eapply rt_map_pure; [|reflexivity].
  eapply rt_length_data; [by apply rt_be_u16|done].
Qed.

Lemma rt_routerinfo ri fl_ : sendable_block (BlkRouterInfo ri fl_) -> rt routerinfo (gen_routerinfo ri fl_) (BlkRouterInfo ri fl_).
Proof.
  intros (Hri & bs & Hw & Hl). eapply (rt_map_pure _ _ _ (fl_, ri)); [|reflexivity].
  destruct (rt_routerinfo_flags fl_) as (b1 & W1 & P1).
  pose proof (rt_parses _ _ _ _ (rt_router_info ri Hri) Hw) as P2.
  assert (len b1 = 1) as L1 by (by rewrite (writes_det _ _ _ W1 (writes_be_u8 _)), len_be_bytes).
  eapply rt_len_prefixed; [by apply writes_seq|by apply parses_exact, parses_pair|].
  rewrite len_app. split; [pose proof (len_nonneg bs); lia|lia].
Qed.

Lemma rt_message_block m : sendable_block (BlkMessage m) -> rt message_block (gen_message_block m) (received (BlkMessage m)).
Proof.
  intros ((depth & Hs) & He & bs & Hw & Hl). eapply rt_map_pure; [|reflexivity].
  destruct (rt_ntcp2_message depth m Hs He) as (bs' & W & P & _). rewrite (writes_det _ _ _ Hw W) in *.
  eapply rt_len_prefixed; [exact W|by apply parses_exact|]. split; [apply len_nonneg|done].
Qed.

Lemma rt_termination oc v r d :
  sendable_block (BlkTermination v r d) -> rt (termination oc) (gen_termination v r d) (BlkTermination v r d).
Proof.
  intros (Hv & Hr & Hd & Hl). pose proof (len_nonneg d).
  eapply rt_intro; [apply writes_len_prefixed; writes_solve|]. intros rest. unfold termination.
  rewrite !len_app, !len_be_bytes, <- app_assoc, (parses_be_u16 _) by (unfold u16_ok; lia). cbn [pbind POk].
  replace (Z.of_nat 8 + (Z.of_nat 1 + len d) - 9) with (len d) by lia.
  rewrite checked_ok by lia. cbn [obind].
  eapply (parses_map_pure _ _ _ (v, (r, d))); [|reflexivity].
  apply parses_pair; [by apply parses_be_u64|]. apply parses_pair; [by apply parses_be_u8|by apply parses_take].
Qed.

Lemma rt_padding draw n : u16_ok n -> len (draw n) = n -> rt padding_block (gen_padding_block draw n) (BlkPadding n).
Proof.
  intros Hn Hd. eapply rt_intro; [unfold gen_padding_block; writes_solve|]. intros rest. unfold padding_block.
  rewrite <- app_assoc, (parses_be_u16 _ Hn). cbn [pbind POk]. by rewrite (parses_take n (draw n)).
Qed.

(** every block that can be sent is read back *)
Lemma rt_block oc draw b :
  sendable_block b -> (forall n, 0 <= n -> len (draw n) = n) ->
  exists bs, writes (gen_block draw b) bs /\ parses (block oc) bs (received b) /\ 0 < len bs.
Proof.
  intros Hb Hd.
  assert (forall t (p : parser bytes Block) g, u8_ok t -> (forall i, block oc (be_bytes 1 t ++ i) = p i) ->
    rt p g (received b) -> exists bs, writes (gen_be_u8 t >>> g) bs /\ parses (block oc) bs (received b) /\ 0 < len bs) as Hgo.
  { intros t p g Ht Hp (bs & W & P). exists (be_bytes 1 t ++ bs). split; [apply writes_seq; [apply writes_be_u8|done]|].
    split; [by eapply parses_block|]. rewrite len_app, len_be_bytes. pose proof (len_nonneg bs). lia. }
  destruct b as [ts|o|ri f|m|v r d|n|t d]; cbn [gen_block].
  1-6: eapply Hgo; [done|intros i; rewrite block_type by done; reflexivity|].
  - by apply rt_datetime.
  - destruct Hb. by apply (rt_bytes16 BlkOptions).
  - by apply rt_routerinfo.
  - by apply rt_message_block.
  - by apply rt_termination.
  - apply rt_padding; [done|]. apply Hd. apply Hb.
  - destruct Hb as (Ht & Hd1 & Hl).
    eapply Hgo; [apply Ht|intros i; rewrite block_type by apply Ht|by apply rt_unknown].
    rewrite !(u8_cases t Ht) by set_solver. reflexivity.
Qed.

Lemma block_nil oc : exists k, block oc [] = PErr (Incomplete k).
Proof. destruct (be_u8_short []) as [k Hk]; [done|]. exists k. unfold block. by rewrite Hk. Qed.

Lemma sound_termination oc :
  sound (termination oc) (fun b => exists v r d, b = BlkTermination v r d /\ wf_Block b).
Proof.
  eapply sound_bind; [apply sound_be_u16|]. intros size Hs. cbv beta.
  destruct (checked oc 16 (size - 9)) as [n|] eqn:E; [|apply sound_panic]. cbn [obind].
  assert (u16_ok n) as Hn by (eapply checked_range; [|exact E]; lia).
  eapply sound_map_pure.
  - apply sound_pair; [apply sound_be_u64|]. apply sound_pair; [apply sound_be_u8|apply sound_take, Hn].
  - intros (v & r & d) (Hv & Hr & Hd & Hl). cbn in Hv, Hr, Hd, Hl. exists v, r, d. split; [done|].
    cbn. rewrite Hl. by split_and!.
Qed.

Lemma sound_bytes16 : sound (length_data be_u16) (fun b => bytes_ok b /\ u16_ok (len b)).
Proof. apply sound_length_data; [apply sound_be_u16|by intros n [Hn _]]. Qed.

Lemma sound_block oc : sound (block oc) wf_Block.
Proof.
  eapply sound_bind; [apply sound_be_u8|]. intros t Ht. cbv beta.
  destruct (Z.eqb_spec t 0) as [->|H0].
  { eapply sound_map_pure; [eapply sound_preceded; [apply sound_tag|apply sound_be_u32]|done]. }
  destruct (Z.eqb_spec t 1) as [->|H1]; [eapply sound_map_pure; [apply sound_bytes16|done]|].
  destruct (Z.eqb_spec t 2) as [->|H2].
  { eapply sound_map_pure.
    - eapply sound_length_value; [apply sound_be_u16|by intros n [Hn _]|].
      apply sound_pair; [apply sound_routerinfo_flags|apply sound_router_info].
    - by intros [f ri] [_ Hri]. }
  destruct (Z.eqb_spec t 3) as [->|H3].
  { eapply sound_map_pure; [|by intros m Hm; exact Hm].
    eapply sound_length_value; [apply sound_be_u16|by intros n [Hn _]|apply sound_ntcp2_message]. }
  destruct (Z.eqb_spec t 4) as [->|H4].
  { eapply sound_weaken; [apply sound_termination|]. by intros b (v & r & d & _ & Hb). }
  destruct (Z.eqb_spec t 254) as [->|H5].
  { eapply sound_bind; [apply sound_be_u16|]. intros n Hn. cbv beta.
    eapply sound_bind; [apply sound_take, Hn|]. intros d _. by apply sound_ret. }
  eapply sound_map_pure; [eapply sound_map_pure; [apply sound_bytes16|by intros d Hd; exact Hd]|].
  intros d [Hd Hl]. split; [|done]. split; [done|]. set_solver.
Qed.

Lemma writes_frame oc draw f k :
  Forall sendable_block f -> (forall i n, 0 <= n -> len (draw i n) = n) ->
  exists bss,
    Forall2 (fun x bs => writes (gen_block (draw x.1) x.2) bs) (imap (fun i b => ((k + i)%nat, b)) f) bss /\
    Forall2 (fun b bs => parses (block oc) bs b /\ 0 < len bs) (map received f) bss.
Proof.
  intros Hf Hd. revert k. induction Hf as [|b f Hb _ IH]; intros k; [by exists []|].
  destruct (IH (S k)) as (bss & H1 & H2). destruct (rt_block oc (draw k) b Hb (Hd k)) as (bs & W & P & L).
  exists (bs :: bss). split; [|by constructor].
  change (imap (fun i c => ((k + i)%nat, c)) (b :: f))
    with (((k + 0)%nat, b) :: imap ((fun i c => ((k + i)%nat, c)) ∘ S) f).
  constructor; [by rewrite Nat.add_0_r|].
  erewrite imap_ext; [exact H1|]. intros i x _. cbn. by rewrite Nat.add_succ_r.
Qed.

(** the first two handshake messages take sixteen bytes and are read back *)
Lemma rt_session_request ver padlen sclen ts_a :
  u8_ok ver -> u16_ok padlen -> u16_ok sclen -> u32_ok ts_a ->
  exists b, writes (gen_session_request ver padlen sclen ts_a) b /\ len b = 16 /\
    parses session_request b (ver, padlen, sclen, ts_a).
Proof.
  intros H1 H2 H3 H4. eexists. split; [unfold gen_session_request; writes_solve|].
  split; [by rewrite !len_app, !len_be_bytes|].
  eapply (parses_map_pure _ _ _ (_, (ver, (padlen, (sclen, (_, (ts_a, _))))))); [|reflexivity].
  repeat (apply parses_pair; [by apply parses_take || eauto with parse|]). by apply parses_take.
Qed.

Lemma rt_session_created padlen ts_b :
  u16_ok padlen -> u32_ok ts_b ->
  exists b, writes (gen_session_created padlen ts_b) b /\ len b = 16 /\ parses session_created b (padlen, ts_b).
Proof.
  intros H2 H5. eexists. split; [unfold gen_session_created; writes_solve|].
  split; [by rewrite !len_app, !len_be_bytes|].
  eapply (parses_map_pure _ _ _ (_, (padlen, (_, (ts_b, _))))); [|reflexivity].
  repeat (apply parses_pair; [by apply parses_take || eauto with parse|]). by apply parses_take.
Qed.

End Frames.

(** ** Samples *)
Module Ntcp2FrameSamples.
#[local] Existing Instances nom_ref cf_ref biguint_ref sigcrates_ref.

Definition draw (k : nat) (n : Z) : bytes := replicate (Z.to_nat n) (Z.of_nat k mod 256).

Lemma draw_len k n : 0 <= n -> len (draw k n) = n.
Proof. intros Hn. unfold draw. rewrite len_replicate. lia. Qed.

Definition ref_frame : Frame :=
  [BlkDateTime 42; BlkOptions [0; 1; 2]; BlkTermination 42 7 [254]; BlkUnknown 224 [18; 52]; BlkPadding 10].

Lemma ref_frame_sendable {cf : CookieFactory} {sha : Sha2} {fl : Flate2} : Forall sendable_block ref_frame.
Proof.
  repeat apply Forall_cons_2; [| | | | |apply Forall_nil_2].
  - by split.
  - split; [by apply bytes_okb_ok|by split].
  - split_and!; [by split|by split|by apply bytes_okb_ok|done].
  - split; [split; [by split|set_solver]|]. split; [by apply bytes_okb_ok|by split].
  - by split.
Qed.

End Ntcp2FrameSamples.

(** ** Properties *)
Module Ntcp2FrameProps.
Section Props.
Context {nom : Nom} {cf : CookieFactory} {bu : BigUintOps} {sc : SigCrates} {sha : Sha2} {fl : Flate2}.

(** Any non-empty frame of blocks that fit is generated, whatever its
    padding draws, and read back as the same blocks in the same order, up to the
    milliseconds that a message's short header drops. *)
Theorem ntcp2_frame_roundtrip (oc : bool) (draw : nat -> Z -> bytes) (f : Frame) :
  f <> [] -> Forall sendable_block f -> (forall k n, 0 <= n -> len (draw k n) = n) ->
  exists bs, writes (gen_frame draw f) bs /\ frame oc bs = POk [] (map received f).
Proof.
  intros Hne Hf Hd. destruct (writes_frame oc draw f 0 Hf Hd) as (bss & H1 & H2). exists (concat bss). split.
  - apply writes_many_each. eapply Forall2_impl; [exact H1|]. by intros [k b] bs.
  - destruct (block_nil oc) as [k Hk]. eapply many1_complete_each; [by destruct f|exact H2|exact Hk].
Qed.

(** What is accepted as a frame is a non-empty list of well-formed blocks:
    every number fits its width, every length its field, a router info or
    message inside is itself well-formed, and a block of unknown type has none
    of the known ones. *)
Theorem ntcp2_frame_accepts_wf (oc : bool) (i r : bytes) (f : Frame) :
  bytes_ok i -> frame oc i = POk r f -> f <> [] /\ Forall wf_Block f /\ exists c, i = c ++ r.
Proof.
  intros Hi H. destruct (sound_many1 _ _ (sound_complete _ _ (sound_block oc)) _ _ _ Hi H) as [[H1 H2] H3]. done.
Qed.

(** A termination block that announces fewer than the nine bytes it must
    have makes the parser panic in a build with overflow checks, and no other
    length does; without them it asks for more than 65526 bytes. *)
Theorem termination_panics_iff (oc : bool) (n : Z) (rest : bytes) :
  u16_ok n -> bytes_ok rest ->
  (block oc (be_bytes 1 4 ++ be_bytes 2 n ++ rest) = Panic <-> oc = true /\ n < 9) /\
  (n < 9 -> len rest < 65536 -> exists k, block false (be_bytes 1 4 ++ be_bytes 2 n ++ rest) = PErr (Incomplete k)).
Proof.
  intros Hn Hr. unfold u16_ok in Hn.
  assert (forall oc, block oc (be_bytes 1 4 ++ be_bytes 2 n ++ rest) = termination oc (be_bytes 2 n ++ rest)) as E
    by (intros oc'; by rewrite block_type).
  assert (forall oc, termination oc (be_bytes 2 n ++ rest) = let! m := checked oc 16 (n - 9) in
    map_pure (nom_pair be_u64 (nom_pair be_u8 (nom_take m))) (fun '(v, (r, d)) => BlkTermination v r d) rest) as E2
    by (intros oc'; unfold termination; by rewrite (parses_be_u16 n)).
  split; [rewrite E, E2|].
  - destruct (checked oc 16 (n - 9)) as [m|] eqn:Ec.
    + cbn [obind]. assert (0 <= m < 2 ^ 16) as Hm by (eapply checked_range; [|exact Ec]; lia). split.
      * intros Hp. exfalso. revert Hp. apply total_map_pure; [|done].
        eapply total_pair; [apply total_be_u64|apply sound_be_u64|].
        eapply total_pair; [apply total_be_u8|apply sound_be_u8|]. apply total_take. lia.
      * intros [-> Hlt]. assert (checked true 16 (n - 9) = Panic) as Hp by (apply checked_panic; split; [done|lia]).
        congruence.
    + apply checked_panic in Ec as [-> Hc]. cbn [obind]. split; [|done]. intros _. split; [done|lia].
  - intros Hlt Hl. rewrite E, E2. assert (checked false 16 (n - 9) = Ret (n - 9 + 65536)) as ->.
    { unfold checked. rewrite (proj2 (Z.leb_gt _ _)) by lia. cbn [andb]. f_equal.
      rewrite <- (Z.mod_small (n - 9 + 65536) (2 ^ 16)) by lia. rewrite <- (Z.mod_add _ 1 (2 ^ 16)) by lia. f_equal. }
    cbn [obind]. unfold map_pure. rewrite nom_map_eq, nom_pair_eq.
    destruct (Z.le_gt_cases 8 (len rest)) as [H8|H8].
    2: { destruct (be_u64_short rest H8) as [k ->]. by exists k. }
    rewrite be_u64_ok by done. cbn [pbind POk]. rewrite nom_pair_eq.
    destruct (Z.le_gt_cases 1 (len (zdrop 8 rest))) as [H9|H9].
    2: { destruct (be_u8_short _ H9) as [k ->]. by exists k. }
    rewrite be_u8_ok by done. cbn [pbind POk].
    rewrite len_zdrop in H9 by lia.
    destruct (nom_take_short (n - 9 + 65536) (zdrop 1 (zdrop 8 rest))) as [k ->]; [|by exists k].
    rewrite !len_zdrop by (rewrite ?len_zdrop; lia). lia.
Qed.

(** The contents of the first two handshake messages take exactly sixteen
    bytes and are read back, whatever follows. *)
Theorem ntcp2_handshake_roundtrip (ver padlen sclen ts_a ts_b : Z) :
  u8_ok ver -> u16_ok padlen -> u16_ok sclen -> u32_ok ts_a -> u32_ok ts_b ->
  exists b1 b2,
    writes (gen_session_request ver padlen sclen ts_a) b1 /\ len b1 = 16 /\
    parses session_request b1 (ver, padlen, sclen, ts_a) /\
    writes (gen_session_created padlen ts_b) b2 /\ len b2 = 16 /\ parses session_created b2 (padlen, ts_b).
Proof.
  intros H1 H2 H3 H4 H5. destruct (rt_session_request ver padlen sclen ts_a H1 H2 H3 H4) as (b1 & W1 & L1 & P1).
  destruct (rt_session_created padlen ts_b H2 H5) as (b2 & W2 & L2 & P2). exists b1, b2. by split_and!.
Qed.

End Props.

#[local] Existing Instances nom_ref cf_ref biguint_ref sigcrates_ref sha2_ref flate_ref.
Import Ntcp2FrameSamples.

Lemma ntcp2_frame_roundtrip_witness :
  exists bs, writes (gen_frame draw ref_frame) bs /\ frame true bs = POk [] (map received ref_frame).
Proof.
  assert (ref_frame <> []) as Hne by discriminate.
  exact (ntcp2_frame_roundtrip true draw ref_frame Hne ref_frame_sendable draw_len).
Defined.

Lemma ntcp2_frame_accepts_wf_witness :
  [BlkDateTime 42] <> ([] : Frame) /\ Forall wf_Block [BlkDateTime 42] /\ exists c, [0; 0; 4; 0; 0; 0; 42] = c ++ [].
Proof.
  assert (frame true [0; 0; 4; 0; 0; 0; 42] = POk [] [BlkDateTime 42]) as H
    by (vm_cast_no_check (@eq_refl (IResult bytes Frame) (POk [] [BlkDateTime 42]))).
  exact (ntcp2_frame_accepts_wf true _ _ _ (bytes_okb_ok [0; 0; 4; 0; 0; 0; 42] eq_refl) H).
Defined.

Lemma termination_panics_iff_witness :
  block true (be_bytes 1 4 ++ be_bytes 2 8 ++ zeros 20) = Panic.
Proof.
  assert (u16_ok 8) as H8 by (split; [discriminate|reflexivity]).
  exact (proj2 (proj1 (termination_panics_iff true 8 (zeros 20) H8 (zeros_ok 20))) (conj eq_refl eq_refl)).
Defined.

Lemma ntcp2_handshake_roundtrip_witness :
  exists b1 b2,
    writes (gen_session_request 2 100 1000 77) b1 /\ len b1 = 16 /\
    parses session_request b1 (2, 100, 1000, 77) /\
    writes (gen_session_created 100 78) b2 /\ len b2 = 16 /\ parses session_created b2 (100, 78).
Proof. apply (ntcp2_handshake_roundtrip 2 100 1000 77 78); (split; [discriminate|reflexivity]). Defined.

End Ntcp2FrameProps.
