(* ===== verification/Framed.v ===== *)
(** * Cutting frames out of a byte stream

    The codecs of the transports ([Decoder] of [src/transport/ntcp/mod.rs] and
    [src/transport/ntcp2/mod.rs]) are called by a framed reader each time bytes
    have arrived, until they ask for more.  This file says what such a codec
    must promise, and that then the cuts in the stream do not matter.  The second
    part is a framed connection as the handshakes use it: one frame is read or
    sent, in as many polls as it takes. *)

From S2P Require Import Prelude.

(** [decode]: the codec, what is left of the buffer, and a frame, nothing yet,
    or an error *)
Class FramedCodec (C F E : Type) := decode : C -> bytes -> outcome (C * bytes * result (option F) E).

Section Reader.
Context {C F E : Type} {codec : FramedCodec C F E}.

(** Decoding until more bytes are needed.  [fuel]: a frame takes at least a byte. *)
Fixpoint drain (fuel : nat) (c : C) (buf : bytes) : outcome (C * bytes * list F * option E) :=
  match fuel with
  | O => Ret (c, buf, [], None)
  | S fuel =>
      let! (c, buf, r) := decode c buf in
      match r with
      | Ok (Some f) => let! (c, buf, fs, e) := drain fuel c buf in Ret (c, buf, f :: fs, e)
      | Ok None => Ret (c, buf, [], None)
      | Err e => Ret (c, buf, [], Some e)
      end
  end.

(** the bytes arrive in pieces *)
Fixpoint feed (c : C) (buf : bytes) (chunks : list bytes) : outcome (C * bytes * list F * option E) :=
  match chunks with
  | [] => Ret (c, buf, [], None)
  | chunk :: chunks =>
      let buf := buf ++ chunk in
      let! (c, buf, fs, e) := drain (S (length buf)) c buf in
      match e with
      | Some e => Ret (c, buf, fs, Some e)
      | None => let! (c, buf, fs', e) := feed c buf chunks in Ret (c, buf, fs ++ fs', e)
      end
  end.

End Reader.

(** [pending c buf future fs]: with these bytes in its buffer and these to
    come, the codec will yield these frames. *)
Class FramedLaws (C F E : Type) {codec : FramedCodec C F E} := {
  pending : C -> bytes -> bytes -> list F -> Prop;
  pending_arrive : forall c buf chunk future fs,
    pending c buf (chunk ++ future) fs -> pending c (buf ++ chunk) future fs;
  decode_law : forall c buf future fs, pending c buf future fs ->
    (exists c' buf', decode c buf = Ret (c', buf', Ok None) /\ pending c' buf' future fs /\
       (future = [] -> fs = [] /\ buf' = [])) \/
    (exists c' buf' f fs', decode c buf = Ret (c', buf', Ok (Some f)) /\ fs = f :: fs' /\
       pending c' buf' future fs' /\ (length buf' < length buf)%nat)
}.

Section Laws.
Context {C F E : Type} {codec : FramedCodec C F E} {laws : FramedLaws C F E}.

Lemma drain_pending fuel c buf future fs :
  (length buf < fuel)%nat -> pending c buf future fs ->
  exists c' buf' fs1 fs2, drain fuel c buf = Ret (c', buf', fs1, None) /\ fs = fs1 ++ fs2 /\
    pending c' buf' future fs2 /\ (future = [] -> fs2 = [] /\ buf' = []).
Proof.
  revert c buf fs. induction fuel as [|fuel IH]; intros c buf fs Hf H; [lia|]. cbn [drain].
  destruct (decode_law c buf future fs H) as [(c' & buf' & -> & Hs & Hn)|(c' & buf' & f & fs' & -> & -> & Hs & Hlt)];
    cbn [obind].
  - exists c', buf', [], fs. by split_and!.
  - destruct (IH c' buf' fs') as (c2 & buf2 & fs1 & fs2 & -> & -> & Hs2 & Hn2); [lia|done|]. cbn [obind].
    exists c2, buf2, (f :: fs1), fs2. by split_and!.
Qed.

(** cutting the stream into pieces makes no difference *)
Lemma feed_pending c buf chunks fs :
  chunks <> [] -> pending c buf (concat chunks) fs ->
  exists c', feed c buf chunks = Ret (c', [], fs, None) /\ pending c' [] [] [].
Proof.
  revert c buf fs. induction chunks as [|chunk chunks IH]; intros c buf fs Hne H; [done|]. cbn [feed concat] in *.
  apply pending_arrive in H. destruct (drain_pending (S (length (buf ++ chunk))) c (buf ++ chunk) (concat chunks) fs)
    as (c' & buf' & fs1 & fs2 & -> & -> & Hs & Hn); [lia|done|]. cbn [obind].
  destruct chunks as [|chunk2 chunks].
  - destruct (Hn eq_refl) as [-> ->]. cbn [feed obind]. exists c'. by rewrite !app_nil_r.
  - destruct (IH c' buf' fs2) as (c2 & -> & Hn2); [done|done|]. cbn [obind]. by exists c2.
Qed.

End Laws.

(** ** A framed connection

    [tokio::codec::Framed]: the codec, the bytes that have been read and not
    decoded, whether decoding them is worth a try, and the bytes that are encoded
    and not written. *)
Record Framed (C : Type) := mkFramed { fr_codec : C; fr_rd : bytes; fr_readable : bool; fr_wr : bytes }.
Arguments mkFramed {C} fr_codec fr_rd fr_readable fr_wr.
Arguments fr_codec {C} _.
Arguments fr_rd {C} _.
Arguments fr_readable {C} _.
Arguments fr_wr {C} _.

(** What one poll meets: a failing connection, its end, how much one read gets
    (at least a byte), and how many bytes can be written. *)
Record IoEnv := mkIoEnv { io_fault : bool; io_eof : bool; io_chunk : Z; io_room : Z }.

(** a frame, the end of the stream, nothing yet, or an error *)
Inductive StreamErr (E : Type) := SeCodec (e : E) | SeIo | SeRemaining.
Arguments SeCodec {E} e.
Arguments SeIo {E}.
Arguments SeRemaining {E}.

Section Conn.
Context {C F E : Type} {codec : FramedCodec C F E}.

(** [Framed::new]: nothing read yet *)
Definition framed (c : C) : Framed C := mkFramed c [] false [].

(** [Stream::poll].  Each round reads at least a byte, so one more than there are
    is enough fuel. *)
Fixpoint stream_poll (fuel : nat) (env : IoEnv) (fr : Framed C) (inp : bytes)
  : outcome (Framed C * bytes * Poll (option F) (StreamErr E)) :=
  match fuel with
  | O => Ret (fr, inp, NotReady)
  | S fuel =>
      let! (c, rd, r) := if fr_readable fr then decode (fr_codec fr) (fr_rd fr) else Ret (fr_codec fr, fr_rd fr, Ok None) in
      match r with
      | Ok (Some f) => Ret (mkFramed c rd true (fr_wr fr), inp, Ready (Some f))
      | Err e => Ret (mkFramed c rd true (fr_wr fr), inp, PollErr (SeCodec e))
      | Ok None =>
          if io_fault env then Ret (mkFramed c rd false (fr_wr fr), inp, PollErr SeIo)
          else
            match inp with
            | [] =>
                if io_eof env then
                  (* [decode_eof] *)
                  let! (c, rd, r) := decode c rd in
                  Ret (mkFramed c rd true (fr_wr fr), [],
                       match r with
                       | Ok (Some f) => Ready (Some f)
                       | Ok None => match rd with [] => Ready None | _ => PollErr SeRemaining end
                       | Err e => PollErr (SeCodec e)
                       end)
                else Ret (mkFramed c rd false (fr_wr fr), [], NotReady)
            | _ =>
                let n := Z.max 1 (io_chunk env) in
                stream_poll fuel env (mkFramed c (rd ++ ztake n inp) true (fr_wr fr)) (zdrop n inp)
            end
      end
  end.

(** [sink::Send]: [item], when it has not been taken by the sink; then the write
    buffer is empty, so there is no back pressure.  The bytes written come last
    but one. *)
Definition send_poll (encode : C -> F -> bytes -> outcome (C * bytes * result unit E)) (env : IoEnv) (fr : Framed C) (item : option F)
  : outcome (Framed C * bytes * Poll unit (StreamErr E)) :=
  let! (c, wr, r) := match item with Some f => encode (fr_codec fr) f (fr_wr fr) | None => Ret (fr_codec fr, fr_wr fr, Ok tt) end in
  match r with
  | Err e => Ret (mkFramed c (fr_rd fr) (fr_readable fr) wr, [], PollErr (SeCodec e))
  | Ok _ =>
      match wr with
      | [] => Ret (mkFramed c (fr_rd fr) (fr_readable fr) [], [], Ready tt)
      | _ =>
          if io_fault env then Ret (mkFramed c (fr_rd fr) (fr_readable fr) wr, [], PollErr SeIo)
          else
            let rest := zdrop (io_room env) wr in
            Ret (mkFramed c (fr_rd fr) (fr_readable fr) rest, ztake (io_room env) wr,
                 match rest with [] => Ready tt | _ => NotReady end)
      end
  end.

(** Reading one frame [f]: [wait c rd unread] while it is not there yet, and
    [got c rd unread] when it is.  [short unread]: what is missing is among these
    bytes. *)
Record reads_one (f : F) (short : bytes -> Prop) (wait got : C -> bytes -> bytes -> Prop) : Prop := {
  wait_arrive : forall c rd x unread, wait c rd (x ++ unread) -> wait c (rd ++ x) unread;
  wait_decode : forall c rd unread, wait c rd unread ->
    (exists c' rd', decode c rd = Ret (c', rd', Ok None) /\ wait c' rd' unread /\ short unread) \/
    (exists c' rd', decode c rd = Ret (c', rd', Ok (Some f)) /\ got c' rd' unread)
}.

(** the same of a connection: what has been tried in vain needs more *)
Definition conn_waits (short : bytes -> Prop) (wait : C -> bytes -> bytes -> Prop) (fr : Framed C) (unread : bytes) : Prop :=
  wait (fr_codec fr) (fr_rd fr) unread /\ (fr_readable fr = false -> short unread).

Lemma stream_poll_reads f short wait got env fb fuel : reads_one f short wait got -> io_fault env = false -> io_eof env = false ->
  forall fr inp, (length inp < fuel)%nat -> conn_waits short wait fr (inp ++ fb) ->
  (exists fr', stream_poll fuel env fr inp = Ret (fr', [], NotReady) /\ conn_waits short wait fr' fb /\ fr_wr fr' = fr_wr fr /\ short fb) \/
  (exists fr' inp', stream_poll fuel env fr inp = Ret (fr', inp', Ready (Some f)) /\
     got (fr_codec fr') (fr_rd fr') (inp' ++ fb) /\ fr_wr fr' = fr_wr fr /\ fr_readable fr' = true).
Proof.
  intros Hone Hf He. induction fuel as [|fuel IH]; intros fr inp Hl [Hw Hn]; [lia|]. cbn [stream_poll].
  assert ((exists c rd, (if fr_readable fr then decode (fr_codec fr) (fr_rd fr) else Ret (fr_codec fr, fr_rd fr, Ok None)) =
      Ret (c, rd, Ok None) /\ wait c rd (inp ++ fb) /\ short (inp ++ fb)) \/
    (exists c rd, (if fr_readable fr then decode (fr_codec fr) (fr_rd fr) else Ret (fr_codec fr, fr_rd fr, Ok None)) =
      Ret (c, rd, Ok (Some f)) /\ got c rd (inp ++ fb))) as [(c & rd & -> & Hw' & Hne)|(c & rd & -> & Hg)].
  { destruct (fr_readable fr); [by apply (wait_decode _ _ _ _ Hone)|]. left. eexists _, _. split; [done|]. split; [done|]. by apply Hn. }
  2: { right. cbn [obind]. eexists _, inp. split; [done|]. by split_and!. }
  cbn [obind]. rewrite Hf. destruct inp as [|x inp].
  - left. rewrite He. eexists. split; [done|]. split; [by split|]. by split.
  - set (n := Z.max 1 (io_chunk env)). set (i := x :: inp) in *.
    destruct (IH (mkFramed c (rd ++ ztake n i) true (fr_wr fr)) (zdrop n i)) as [(fr' & -> & H)|(fr' & inp' & -> & H)].
    + unfold zdrop. rewrite length_drop. cbn in Hl |- *. lia.
    + split; [|done]. cbn [fr_codec fr_rd]. apply (wait_arrive _ _ _ _ Hone). by rewrite app_assoc, ztake_zdrop.
    + left. by exists fr'.
    + right. by exists fr', inp'.
Qed.

(** what decoding keeps up, and what a frame brings *)
Lemma stream_poll_keeps (inv : C -> Prop) (post : C -> F -> Prop) :
  (forall c buf c' buf' r, inv c -> decode c buf = Ret (c', buf', r) -> inv c' /\ forall f, r = Ok (Some f) -> post c' f) ->
  forall fuel env fr inp fr' inp' r, inv (fr_codec fr) -> stream_poll fuel env fr inp = Ret (fr', inp', r) ->
  inv (fr_codec fr') /\ forall f, r = Ready (Some f) -> post (fr_codec fr') f.
Proof.
  intros Hd fuel env. induction fuel as [|fuel IH]; intros fr inp fr' inp' r Hi; cbn [stream_poll]; [by intros [= <- _ <-]|].
  assert (forall c rd o, (if fr_readable fr then decode (fr_codec fr) (fr_rd fr) else Ret (fr_codec fr, fr_rd fr, Ok None)) = Ret (c, rd, o) ->
    inv c /\ forall f, o = Ok (Some f) -> post c f) as Hfirst.
  { intros c rd o. destruct (fr_readable fr); [by apply Hd|]. by intros [= <- _ <-]. }
  destruct (if fr_readable fr then _ else _) as [[[c rd] o]|] eqn:E0; cbn [obind]; [|done].
  destruct (Hfirst c rd o eq_refl) as [Hc Hf]. destruct o as [[f|]|e]; [|clear Hf|].
  - intros [= <- _ <-]. split; [done|]. intros f' [= <-]. by apply Hf.
  - destruct (io_fault env); [by intros [= <- _ <-]|]. destruct inp as [|b inp]; [|by apply IH].
    destruct (io_eof env); [|by intros [= <- _ <-]].
    destruct (decode c rd) as [[[c2 rd2] o2]|] eqn:E2; cbn [obind]; [|done].
    destruct (Hd _ _ _ _ _ Hc E2) as [Hc2 Hf2]. intros [= <- _ <-]. split; [done|].
    destruct o2 as [[f|]|e]; [intros f' [= <-]; by apply Hf2|by destruct rd2|done].
  - by intros [= <- _ <-].
Qed.

(** *** Sending *)

Context (encode : C -> F -> bytes -> outcome (C * bytes * result unit E)).

(** A frame that is being sent: the codec after it, and the bytes that are yet
    to be written. *)
Definition sending (fr : Framed C) (item : option F) (c : C) (rem : bytes) : Prop :=
  match item with
  | Some f => fr_wr fr = [] /\ encode (fr_codec fr) f [] = Ret (c, rem, Ok tt)
  | None => fr_codec fr = c /\ fr_wr fr = rem
  end.

Lemma send_poll_sending env fr item c rem : sending fr item c rem -> io_fault env = false ->
  send_poll encode env fr item = Ret (mkFramed c (fr_rd fr) (fr_readable fr) [], rem, Ready tt) \/
  (exists x rem', send_poll encode env fr item =
     Ret (mkFramed c (fr_rd fr) (fr_readable fr) (x :: rem'), ztake (io_room env) rem, NotReady) /\
     ztake (io_room env) rem ++ x :: rem' = rem /\ io_room env < len rem /\ len (x :: rem') <= len rem).
Proof.
  intros Hs Hf. unfold send_poll.
  assert ((match item with Some f => encode (fr_codec fr) f (fr_wr fr) | None => Ret (fr_codec fr, fr_wr fr, Ok tt) end) =
    Ret (c, rem, Ok tt)) as -> by (destruct item; destruct Hs as [-> Hs]; [done|by rewrite Hs]).
  cbn [obind]. rewrite Hf. pose proof (ztake_zdrop rem (io_room env)) as Er.
  destruct rem as [|b rem]; [by left|]. set (r := b :: rem) in *.
  destruct (zdrop (io_room env) r) as [|x l] eqn:Ed.
  - left. rewrite app_nil_r in Er. by rewrite Er.
  - right. exists x, l. split; [done|]. split; [done|].
    assert (len (x :: l) <= len r) as Hl by (rewrite <- Er, len_app; pose proof (len_nonneg (ztake (io_room env) r)); lia).
    split; [|done]. destruct (Z.le_gt_cases (len r) (io_room env)) as [Hge|]; [|lia].
    assert (zdrop (io_room env) r = []) as Hn by (unfold zdrop, len in *; apply drop_ge; lia). congruence.
Qed.

(** what sending does to the codec *)
Lemma send_poll_codec env fr item fr' out r : send_poll encode env fr item = Ret (fr', out, r) -> (forall e, r <> PollErr e) ->
  match item with
  | Some f => exists wr, encode (fr_codec fr) f (fr_wr fr) = Ret (fr_codec fr', wr, Ok tt)
  | None => fr_codec fr' = fr_codec fr
  end.
Proof.
  unfold send_poll. intros H Hr.
  assert (exists wr, (match item with Some f => encode (fr_codec fr) f (fr_wr fr) | None => Ret (fr_codec fr, fr_wr fr, Ok tt) end) =
    Ret (fr_codec fr', wr, Ok tt)) as [wr Hwr].
  { destruct (match item with Some f => _ | None => _ end) as [[[c wr] [[]|e]]|]; cbn [obind] in H; [| |done].
    - exists wr. destruct wr; [by injection H as <- _ _|]. destruct (io_fault env); by injection H as <- _ _.
    - injection H as _ _ <-. by destruct (Hr (SeCodec e)). }
  destruct item; [by exists wr|]. by injection Hwr as <-.
Qed.

End Conn.
