(* ===== verification/Ntcp2Codec.v ===== *)
(** * The NTCP2 codec

    [Codec] of [src/transport/ntcp2/mod.rs]: frames are encrypted by the Noise
    session and sent with a length that is masked by SipHash; on the other side
    they are cut out of the byte stream again.  The Noise session ([i2p_snow])
    and SipHash are classes. *)

From S2P Require Import Prelude Nom Cookie Util Wire Crypto Data Dest I2np Message Framed Ntcp2Frame.

(** ** The crates *)

(** A Noise session after the handshake.  [noise_paired w r]: what [w] writes
    next is what [r] reads next. *)
Class NoiseTransport := {
  noise_st : Type;
  (** the message, the buffer for the result: the session, the buffer, the length *)
  write_message : noise_st -> bytes -> bytes -> noise_st * bytes * result Z unit;
  read_message : noise_st -> bytes -> bytes -> noise_st * bytes * result Z unit;
  noise_paired : noise_st -> noise_st -> Prop;
  noise_ok : forall w r p out, noise_paired w r -> len p + 16 <= 65535 -> len p + 16 <= len out ->
    exists w' r' ct,
      write_message w p out = (w', ct ++ zdrop (len p + 16) out, Ok (len p + 16)) /\
      len ct = len p + 16 /\
      (forall buf, len p <= len buf -> read_message r ct buf = (r', p ++ zdrop (len p) buf, Ok (len p))) /\
      noise_paired w' r';
  (** a Noise message has at most 65535 bytes *)
  noise_too_long : forall w p out, 65535 < len p + 16 -> exists w' out',
    write_message w p out = (w', out', Err tt) /\ len out' = len out
}.

(** SipHash-2-4: a keyed state, and what it gives after a [u64] is written *)
Class SipHash := {
  sip_st : Type;
  sip_finish : sip_st -> Z -> Z;
  sip_range : forall s v, u64_ok (sip_finish s v)
}.

Section Codec.
Context {nom : Nom} {cf : CookieFactory} {bu : BigUintOps} {sc : SigCrates} {sha : Sha2} {fl : Flate2}.
Context {noise : NoiseTransport} {sip : SipHash}.
Context (oc : bool).

Definition NTCP2_MTU : Z := 65535.

Record Codec := mkCodec {
  cd_noise : noise_st;
  noise_buf : bytes;
  enc_len_masker : sip_st;
  enc_len_iv : Z;
  dec_len_masker : sip_st;
  dec_len_iv : Z;
  next_len : option Z
}.

(** the I/O errors *)
Inductive CodecError := CeDecrypt | CeIncomplete | CeParse | CeTooLarge | CeGenerate | CeEncrypt | CeSize.

(** reads the length, if it has not been read *)
Definition decode_len (c : Codec) (buf : bytes) : Codec * bytes :=
  match next_len c, buf with
  | None, b0 :: b1 :: rest =>
      let iv := sip_finish (dec_len_masker c) (dec_len_iv c) in
      let msg_len := Z.lxor (Z.shiftl b0 8 + b1) (Z.land iv 0xffff) in
      (mkCodec (cd_noise c) (noise_buf c) (enc_len_masker c) (enc_len_iv c) (dec_len_masker c) iv (Some msg_len), rest)
  | _, _ => (c, buf)
  end.

Definition decode_frame (c : Codec) (buf : bytes) : outcome (Codec * bytes * result (option Frame) CodecError) :=
  match next_len c with
  | Some l =>
      if l <=? len buf then
        let '(n, nb, r) := read_message (cd_noise c) (ztake l buf) (noise_buf c) in
        let c1 := mkCodec n nb (enc_len_masker c) (enc_len_iv c) (dec_len_masker c) (dec_len_iv c) (Some l) in
        match r with
        | Err _ => Ret (c1, buf, Err CeDecrypt)
        | Ok frame_len =>
            let! p := frame oc (ztake frame_len nb) in
            match p with
            | Err (Incomplete _) => Ret (c1, buf, Err CeIncomplete)
            | Err _ => Ret (c1, buf, Err CeParse)
            | Ok (_, f) =>
                Ret (mkCodec n nb (enc_len_masker c) (enc_len_iv c) (dec_len_masker c) (dec_len_iv c) None,
                     zdrop l buf, Ok (Some f))
            end
        end
      else Ret (c, buf, Ok None)
  | None => Ret (c, buf, Ok None)
  end.

#[export] Instance ntcp2_decode : FramedCodec Codec Frame CodecError := fun c buf =>
  if (match next_len c with None => true | Some _ => false end) && (len buf <? 2) then Ret (c, buf, Ok None)
  else let '(c, buf) := decode_len c buf in decode_frame c buf.

(** [draw]: the bytes that padding draws *)
Definition encode (draw : nat -> Z -> bytes) (c : Codec) (f : Frame) (buf : bytes)
  : outcome (Codec * bytes * result unit CodecError) :=
  let! (nb, g) := gen_frame draw f (noise_buf c, 0) in
  match g with
  | Err (BufferTooSmall _) =>
      Ret (mkCodec (cd_noise c) nb (enc_len_masker c) (enc_len_iv c) (dec_len_masker c) (dec_len_iv c) (next_len c),
           buf, Err CeTooLarge)
  | Err _ =>
      Ret (mkCodec (cd_noise c) nb (enc_len_masker c) (enc_len_iv c) (dec_len_masker c) (dec_len_iv c) (next_len c),
           buf, Err CeGenerate)
  | Ok sz =>
      let msg_len := sz + 16 in
      let iv := sip_finish (enc_len_masker c) (enc_len_iv c) in
      let masked_len := Z.lxor msg_len (Z.land iv 0xffff) in
      let '(n, out, r) := write_message (cd_noise c) (ztake sz nb) (zeros msg_len) in
      Ret (mkCodec n nb (enc_len_masker c) iv (dec_len_masker c) (dec_len_iv c) (next_len c),
           buf ++ as_u8 (Z.shiftr masked_len 8) :: as_u8 (Z.land masked_len 0xff) :: out,
           match r with
           | Ok l => if l =? msg_len then Ok tt else Err CeSize
           | Err _ => Err CeEncrypt
           end)
  end.

(** ** Streams *)

(** Every frame in turn into one buffer. *)
Fixpoint encode_all (draw : nat -> Z -> bytes) (c : Codec) (fs : list Frame) (buf : bytes)
  : outcome (Codec * bytes * result unit CodecError) :=
  match fs with
  | [] => Ret (c, buf, Ok tt)
  | f :: fs =>
      let! (c, buf, r) := encode draw c f buf in
      match r with Ok _ => encode_all draw c fs buf | Err e => Ret (c, buf, Err e) end
  end.

(** ** Lemmas *)

(** the decoder, given these bytes, yields these frames and needs no more *)
Inductive stream : Codec -> bytes -> list Frame -> Prop :=
| stream_nil c : next_len c = None -> stream c [] []
| stream_len c b0 b1 data fs :
    next_len c = None -> stream (decode_len c [b0; b1]).1 data fs -> stream c (b0 :: b1 :: data) fs
| stream_body c ct data n nb k rest f fs :
    next_len c = Some (len ct) -> 0 < len ct ->
    read_message (cd_noise c) ct (noise_buf c) = (n, nb, Ok k) -> frame oc (ztake k nb) = POk rest f ->
    stream (mkCodec n nb (enc_len_masker c) (enc_len_iv c) (dec_len_masker c) (dec_len_iv c) None) data fs ->
    stream c (ct ++ data) (f :: fs).

Lemma decode_short c buf : next_len c = None -> len buf < 2 -> decode c buf = Ret (c, buf, Ok None).
Proof. intros Hn Hl. unfold decode, ntcp2_decode. rewrite Hn. by rewrite (proj2 (Z.ltb_lt _ _) Hl). Qed.

Lemma decode_known c buf l : next_len c = Some l -> decode c buf = decode_frame c buf.
Proof. intros Hn. unfold decode, ntcp2_decode, decode_len. by rewrite Hn. Qed.

Lemma decode_unknown c b0 b1 buf :
  next_len c = None -> decode c (b0 :: b1 :: buf) = decode_frame (decode_len c [b0; b1]).1 buf.
Proof.
  intros Hn. unfold decode, ntcp2_decode, decode_len. rewrite Hn. rewrite (proj2 (Z.ltb_ge _ _)); [done|].
  rewrite !len_cons. pose proof (len_nonneg buf). lia.
Qed.

(** a decoder that knows the length of the next frame *)
Lemma frame_stream c buf future fs :
  is_Some (next_len c) -> stream c (buf ++ future) fs ->
  (exists c', decode_frame c buf = Ret (c', buf, Ok None) /\ stream c' (buf ++ future) fs /\ future <> []) \/
  (exists c' buf' f fs', decode_frame c buf = Ret (c', buf', Ok (Some f)) /\ fs = f :: fs' /\
     stream c' (buf' ++ future) fs' /\ (length buf' < length buf)%nat).
Proof.
  intros [l Hl] H. remember (buf ++ future) as all eqn:E.
  destruct H as [c Hn|c b0 b1 data fs Hn _|c ct data n nb k rest f fs Hn Hpos Hr Hf Hs]; [congruence..|].
  assert (l = len ct) as -> by congruence. unfold decode_frame. rewrite Hn.
  destruct (Z.leb_spec (len ct) (len buf)) as [Hle|Hlt].
  - right. destruct (split_at buf (len ct)) as (b1 & b2 & -> & H1); [apply len_nonneg|done|].
    rewrite <- app_assoc in E. apply app_inj_1 in E as [-> ->]; [|unfold len in H1; lia].
    rewrite ztake_app, zdrop_app by done. rewrite Hr, Hf. cbn [obind POk].
    eexists _, b2, f, fs. split; [done|]. split; [done|]. split; [exact Hs|].
    rewrite length_app. unfold len in Hpos. lia.
  - left. exists c. split; [done|]. split.
    + by eapply stream_body.
    + intros ->. rewrite app_nil_r in E. subst buf. rewrite len_app in Hlt. pose proof (len_nonneg data). lia.
Qed.

(** Whatever part of the stream has arrived, [decode] either yields the next
    frame or waits, and it waits only for more bytes or at the end. *)
Lemma decode_stream c buf future fs :
  stream c (buf ++ future) fs ->
  (exists c' buf', decode c buf = Ret (c', buf', Ok None) /\ stream c' (buf' ++ future) fs /\
     (future = [] -> fs = [] /\ buf' = [] /\ next_len c' = None)) \/
  (exists c' buf' f fs', decode c buf = Ret (c', buf', Ok (Some f)) /\ fs = f :: fs' /\
     stream c' (buf' ++ future) fs' /\ (length buf' < length buf)%nat).
Proof.
  intros H. destruct (next_len c) as [l|] eqn:Hn.
  - rewrite (decode_known _ _ _ Hn). destruct (frame_stream c buf future fs) as [(c' & Hd & Hs & Hf)|Hr]; [done|done| |].
    + left. exists c', buf. split; [done|]. split; [done|]. by intros ->.
    + by right.
  - destruct buf as [|b0 [|b1 buf]].
    + left. exists c, []. split; [by apply decode_short|]. split; [done|]. intros ->. cbn in H.
      inversion H; subst; [done|]. congruence.
    + left. exists c, [b0]. split; [by apply decode_short|]. split; [done|]. intros ->. cbn in H.
      inversion H; subst. congruence.
    + rewrite (decode_unknown _ _ _ _ Hn). cbn in H. inversion H as [|? ? ? ? ? _ Hs|]; subst; [|congruence].
      assert (is_Some (next_len (decode_len c [b0; b1]).1)) as Hsome by (unfold decode_len; rewrite Hn; by eexists).
      destruct (frame_stream _ buf future fs Hsome Hs) as [(c' & Hd & Hs' & Hf)|(c' & buf' & f & fs' & Hd & -> & Hs' & Hlt)].
      * left. exists c', buf. split; [done|]. split; [done|]. by intros ->.
      * right. exists c', buf', f, fs'. split; [done|]. split; [done|]. split; [done|]. cbn. lia.
Qed.

#[export] Instance ntcp2_framed : FramedLaws Codec Frame CodecError.
Proof.
  refine {| pending := fun c buf future fs => stream c (buf ++ future) fs |}.
  - intros c buf chunk future fs. by rewrite app_assoc.
  - intros c buf future fs H. destruct (decode_stream c buf future fs H) as [(c' & buf' & Hd & Hs & Hn)|Hr]; [|by right].
    left. exists c', buf'. split; [exact Hd|]. split; [done|]. intros E. by destruct (Hn E) as (? & ? & _).
Defined.

(** *** Writing the stream *)

(** a frame that fits a Noise message *)
Definition fits (draw : nat -> Z -> bytes) (f : Frame) : Prop :=
  f <> [] /\ Forall sendable_block f /\ exists bs, writes (gen_frame draw f) bs /\ len bs + 16 <= NTCP2_MTU.

(** the two ends agree *)
Record in_sync (e d : Codec) : Prop := {
  sync_noise : noise_paired (cd_noise e) (cd_noise d);
  sync_masker : enc_len_masker e = dec_len_masker d;
  sync_iv : enc_len_iv e = dec_len_iv d;
  sync_next : next_len d = None;
  sync_ebuf : len (noise_buf e) = NTCP2_MTU;
  sync_dbuf : len (noise_buf d) = NTCP2_MTU
}.

Lemma mask_bytes v iv :
  0 <= v < 2 ^ 16 ->
  let m := Z.lxor v (Z.land iv 0xffff) in
  Z.lxor (Z.shiftl (as_u8 (Z.shiftr m 8)) 8 + as_u8 (Z.land m 0xff)) (Z.land iv 0xffff) = v.
Proof.
  intros Hv m. set (k := Z.land iv 0xffff).
  assert (0 <= k < 2 ^ 16) as Hk.
  { unfold k. change 0xffff with (Z.ones 16). rewrite Z.land_ones by lia. by apply Z.mod_pos_bound. }
  assert (0 <= m < 2 ^ 16) as Hm.
  { apply lxor_range; [lia|done|done]. }
  assert (Z.shiftl (as_u8 (Z.shiftr m 8)) 8 + as_u8 (Z.land m 0xff) = m) as ->.
  { unfold as_u8. change 0xff with (Z.ones 8). rewrite Z.land_ones, Z.shiftr_div_pow2, Z.shiftl_mul_pow2 by lia.
    assert (0 <= m / 2 ^ 8 < 2 ^ 8) as Hd by (split; [apply Z.div_pos|apply Z.div_lt_upper_bound]; lia).
    rewrite (Z.mod_small (m / 2 ^ 8)) by done. rewrite Z.mod_mod by done.
    rewrite Z.mul_comm. symmetry. apply Z.div_mod. lia. }
  unfold m. fold k. by rewrite Z.lxor_assoc, Z.lxor_nilpotent, Z.lxor_0_r.
Qed.

(** what a frame that fits is written as, and that it is read back *)
Lemma fits_frame draw f :
  (forall k n, 0 <= n -> len (draw k n) = n) -> fits draw f ->
  exists bs, writes (gen_frame draw f) bs /\ len bs + 16 <= NTCP2_MTU /\ frame oc bs = POk [] (map received f).
Proof.
  intros Hdraw (Hne & Hs & bs & Hw & Hl). exists bs. split; [done|]. split; [done|].
  destruct (writes_frame oc draw f 0 Hs Hdraw) as (bss & H1 & H2).
  assert (writes (gen_frame draw f) (concat bss)) as Hw2.
  { apply writes_many_each. eapply Forall2_impl; [exact H1|]. by intros [k b] x. }
  rewrite (writes_det _ _ _ Hw Hw2). destruct (block_nil oc) as [k Hk].
  eapply many1_complete_each; [by destruct f|exact H2|exact Hk].
Qed.

Lemma encode_stream draw e d f buf :
  in_sync e d -> (forall k n, 0 <= n -> len (draw k n) = n) -> fits draw f ->
  exists e' d' wire, encode draw e f buf = Ret (e', buf ++ wire, Ok tt) /\ in_sync e' d' /\
    forall data fs, stream d' data fs -> stream d (wire ++ data) (map received f :: fs).
Proof.
  intros [Hn Hm Hi Hx He Hd] Hdraw Hfit. destruct (fits_frame draw f Hdraw Hfit) as (bs & Hw & Hl & Hp).
  unfold NTCP2_MTU in *. pose proof (len_nonneg bs) as Hbs. unfold encode.
  destruct (writes_room _ _ (noise_buf e) 0 Hw) as (pre & old & post & Eb & Hpre & Hold & ->); [lia|lia|].
  destruct pre as [|x pre]; [|rewrite len_cons in Hpre; pose proof (len_nonneg pre); lia]. cbn [obind GOk app].
  rewrite Z.add_0_l, ztake_app by done.
  destruct (noise_ok _ _ bs (zeros (len bs + 16)) Hn) as (w' & r' & ct & -> & Hct & Hread & Hn').
  { lia. } { rewrite len_zeros; lia. }
  rewrite Z.eqb_refl.
  set (iv := sip_finish (enc_len_masker e) (enc_len_iv e)). set (masked := Z.lxor _ _).
  assert (zdrop (len bs + 16) (zeros (len bs + 16)) = []) as ->.
  { unfold zdrop. apply drop_ge. unfold zeros. rewrite length_replicate. lia. }
  rewrite app_nil_r. set (h0 := as_u8 _). set (h1 := as_u8 _).
  exists (mkCodec w' (bs ++ post) (enc_len_masker e) iv (dec_len_masker e) (dec_len_iv e) (next_len e)),
    (mkCodec r' (bs ++ zdrop (len bs) (noise_buf d)) (enc_len_masker d) (enc_len_iv d) (dec_len_masker d) iv None),
    (h0 :: h1 :: ct).
  split; [done|]. split.
  { split; cbn; try done.
    - rewrite Eb in He. cbn [app] in He. rewrite len_app in He. rewrite len_app. unfold NTCP2_MTU. lia.
    - rewrite len_app, len_zdrop by lia. unfold NTCP2_MTU. lia. }
  intros data fs Hs. cbn [app]. apply stream_len; [done|]. unfold decode_len. rewrite Hx. cbn [fst].
  rewrite <- Hm, <- Hi. fold iv.
  assert (Z.lxor (Z.shiftl h0 8 + h1) (Z.land iv 65535) = len ct) as ->.
  { rewrite Hct. unfold h0, h1, masked. apply (mask_bytes (len bs + 16) iv). lia. }
  eapply (stream_body _ ct data r' (bs ++ zdrop (len bs) (noise_buf d)) (len bs) []); cbn.
  - done.
  - lia.
  - apply Hread. lia.
  - rewrite ztake_app by done. exact Hp.
  - rewrite Hm. exact Hs.
Qed.

Lemma encode_all_stream draw e d fs buf :
  in_sync e d -> (forall k n, 0 <= n -> len (draw k n) = n) -> Forall (fits draw) fs ->
  exists e' wire, encode_all draw e fs buf = Ret (e', buf ++ wire, Ok tt) /\ stream d wire (map (map received) fs).
Proof.
  intros Hs Hdraw Hf. revert e d buf Hs. induction Hf as [|f fs Hfit _ IH]; intros e d buf Hs; cbn [encode_all map].
  { exists e, []. split; [by rewrite app_nil_r|]. apply stream_nil, Hs. }
  destruct (encode_stream draw e d f buf Hs Hdraw Hfit) as (e1 & d1 & w & -> & Hs1 & Hstr). cbn [obind].
  destruct (IH e1 d1 (buf ++ w) Hs1) as (e2 & w2 & -> & H2). exists e2, (w ++ w2).
  split; [by rewrite app_assoc|]. by apply Hstr.
Qed.

(** what happens to a frame, by its size *)
Lemma encode_sizes (draw : nat -> Z -> bytes) (e d : Codec) (f : Frame) (bs buf : bytes) :
  in_sync e d -> writes (gen_frame draw f) bs ->
  exists e' buf' r, encode draw e f buf = Ret (e', buf', r) /\
    (len bs + 16 <= NTCP2_MTU -> r = Ok tt /\ len buf' = len buf + 2 + len bs + 16) /\
    (NTCP2_MTU < len bs + 16 <= NTCP2_MTU + 16 -> r = Err CeEncrypt) /\
    (NTCP2_MTU < len bs -> r = Err CeTooLarge /\ buf' = buf).
Proof.
  intros [Hn Hm Hi Hx He Hd] Hw. unfold NTCP2_MTU in *. pose proof (len_nonneg bs) as Hbs. unfold encode.
  destruct (Z.le_gt_cases (len bs) 65535) as [Hle|Hgt].
  - destruct (writes_room _ _ (noise_buf e) 0 Hw) as (pre & old & post & Eb & Hpre & Hold & ->); [lia|lia|].
    destruct pre as [|x pre]; [|rewrite len_cons in Hpre; pose proof (len_nonneg pre); lia]. cbn [obind GOk app].
    rewrite Z.add_0_l, ztake_app by done.
    destruct (Z.le_gt_cases (len bs + 16) 65535) as [H1|H1].
    + destruct (noise_ok _ _ bs (zeros (len bs + 16)) Hn) as (w' & r' & ct & -> & Hct & _ & _).
      { lia. } { rewrite len_zeros; lia. }
      rewrite Z.eqb_refl. eexists _, _, _. split; [done|]. split; [|split; lia]. intros _. split; [done|].
      rewrite len_app, !len_cons, len_app, Hct, len_zdrop by (rewrite ?len_zeros; lia). rewrite len_zeros; lia.
    + destruct (noise_too_long (cd_noise e) bs (zeros (len bs + 16)) H1) as (w' & out' & -> & _).
      eexists _, _, _. split; [done|]. split; [lia|]. split; [done|lia].
  - destruct (writes_small _ _ Hw (noise_buf e) 0) as (nb & n & -> & _); [lia|lia|]. cbn [obind].
    eexists _, _, _. split; [done|]. split; [lia|]. split; [lia|done].
Qed.

End Codec.

(** ** Samples: a session that counts its messages and checks the count *)
Module Ntcp2CodecSamples.

Definition toy_write (n : Z) (p out : bytes) : Z * bytes * result Z unit :=
  if len p + 16 <=? 65535 then
    if len p + 16 <=? len out then (n + 1, p ++ be_bytes 16 n ++ zdrop (len p + 16) out, Ok (len p + 16))
    else (n, out, Err tt)
  else (n, out, Err tt).

Definition toy_read (n : Z) (ct buf : bytes) : Z * bytes * result Z unit :=
  let k := len ct - 16 in
  if bytes_eqb (zdrop k ct) (be_bytes 16 n) && (k <=? len buf) then (n + 1, ztake k ct ++ zdrop k buf, Ok k)
  else (n, buf, Err tt).

Definition toy_noise : NoiseTransport.
Proof.
  refine (Build_NoiseTransport Z toy_write toy_read eq _ _).
  - intros w r p out -> H1 H2. exists (r + 1), (r + 1), (p ++ be_bytes 16 r).
    assert (len (p ++ be_bytes 16 r) = len p + 16) as Hct by (rewrite len_app, len_be_bytes; lia).
    split; [|split; [exact Hct|split; [|done]]].
    + unfold toy_write. rewrite (proj2 (Z.leb_le _ _) H1), (proj2 (Z.leb_le _ _) H2). by rewrite <- app_assoc.
    + intros buf Hb. unfold toy_read. rewrite Hct.
      replace (len p + 16 - 16) with (len p) by lia. rewrite zdrop_app, ztake_app by done.
      rewrite bytes_eqb_refl, (proj2 (Z.leb_le _ _) Hb). done.
  - intros w p out H. unfold toy_write. rewrite (proj2 (Z.leb_gt _ _)) by lia. by exists w, out.
Defined.

Definition toy_sip : SipHash.
Proof.
  refine (Build_SipHash Z (fun k v => (k * 31 + v * 17 + 5) mod 2 ^ 64) _).
  intros s v. by apply Z.mod_pos_bound.
Defined.

Definition toy_end : @Codec toy_noise toy_sip := @mkCodec toy_noise toy_sip 0 (zeros 65535) 3 9 3 9 None.

End Ntcp2CodecSamples.

(** ** Properties *)
Module Ntcp2CodecProps.
Section Props.
Context {nom : Nom} {cf : CookieFactory} {bu : BigUintOps} {sc : SigCrates} {sha : Sha2} {fl : Flate2}.
Context {noise : NoiseTransport} {sip : SipHash}.

(** A sequence of frames that fit, encoded into a byte stream, is read back
    as the same frames in the same order, however the stream is cut into pieces
    on the way - inside a length, a frame, between frames - and at its end the
    decoder waits for the next length with an empty buffer. *)
Theorem ntcp2_stream_roundtrip (oc : bool) (draw : nat -> Z -> bytes) (e d : Codec) (fs : list Frame) :
  in_sync e d -> (forall k n, 0 <= n -> len (draw k n) = n) -> Forall (fits draw) fs ->
  exists e' wire, encode_all draw e fs [] = Ret (e', wire, Ok tt) /\
    forall chunks, concat chunks = wire -> chunks <> [] ->
      exists d', feed (codec := ntcp2_decode oc) d [] chunks = Ret (d', [], map (map received) fs, None) /\ next_len d' = None.
Proof.
  intros Hs Hdraw Hf. destruct (encode_all_stream oc draw e d fs [] Hs Hdraw Hf) as (e' & w & H & Hstr).
  exists e', w. split; [exact H|]. intros chunks <- Hne.
  destruct (feed_pending (laws := ntcp2_framed oc) d [] chunks _ Hne Hstr) as (d' & Hfeed & Hend). exists d'.
  split; [exact Hfeed|]. cbn in Hend. by inversion Hend; subst.
Qed.

(** C39: A frame is refused exactly when it does not fit: one of more than 65535
    bytes by the generator, one that leaves no room for the sixteen bytes of
    the tag by the Noise session; both leave the codec an error, and any that
    fits is sent with eighteen bytes around it. *)
Theorem ntcp2_encode_bound (draw : nat -> Z -> bytes) (e d : Codec) (f : Frame) (bs buf : bytes) :
  in_sync e d -> writes (gen_frame draw f) bs ->
  exists e' buf' r, encode draw e f buf = Ret (e', buf', r) /\
    (len bs + 16 <= NTCP2_MTU -> r = Ok tt /\ len buf' = len buf + 2 + len bs + 16) /\
    (NTCP2_MTU < len bs + 16 <= NTCP2_MTU + 16 -> r = Err CeEncrypt) /\
    (NTCP2_MTU < len bs -> r = Err CeTooLarge /\ buf' = buf).
Proof. apply encode_sizes. Qed.

End Props.

#[local] Existing Instances nom_ref cf_ref biguint_ref sigcrates_ref sha2_ref flate_ref.
#[local] Existing Instances Ntcp2CodecSamples.toy_noise Ntcp2CodecSamples.toy_sip.
Import Ntcp2FrameSamples Ntcp2CodecSamples.

Lemma toy_sync : in_sync toy_end toy_end.
Proof. split; try reflexivity; exact (len_zeros 65535 ltac:(discriminate)). Qed.

Definition short_frame : Frame := [BlkDateTime 42; BlkUnknown 224 [18; 52]; BlkPadding 10].

Lemma short_frame_sendable : Forall sendable_block short_frame.
Proof.
  repeat apply Forall_cons_2; [| | |apply Forall_nil_2].
  - by split.
  - split; [split; [by split|set_solver]|]. split; [by apply bytes_okb_ok|by split].
  - by split.
Qed.

Lemma short_frame_writes : exists bs, writes (gen_frame draw short_frame) bs /\ len bs = 25.
Proof.
  eexists. split.
  - apply writes_many_each. repeat apply Forall2_cons_2; [| | |apply Forall2_nil_2]; cbn [fst snd Nat.add gen_block].
    + unfold gen_datetime. writes_solve.
    + unfold gen_unknown. writes_solve.
    + unfold gen_padding_block. writes_solve.
  - reflexivity.
Qed.

Lemma short_frame_fits : fits draw short_frame.
Proof.
  split; [discriminate|]. split; [exact short_frame_sendable|]. destruct short_frame_writes as (bs & Hw & Hl).
  exists bs. split; [exact Hw|]. rewrite Hl. discriminate.
Qed.

Lemma ntcp2_stream_roundtrip_witness :
  exists e' wire, encode_all draw toy_end [short_frame; short_frame] [] = Ret (e', wire, Ok tt) /\
    forall chunks, concat chunks = wire -> chunks <> [] ->
      exists d', feed (codec := ntcp2_decode true) toy_end [] chunks = Ret (d', [], map (map received) [short_frame; short_frame], None) /\
        next_len d' = None.
Proof.
  assert (Forall (fits draw) [short_frame; short_frame]) as Hf
    by (apply Forall_cons_2; [|apply Forall_cons_2; [|apply Forall_nil_2]]; exact short_frame_fits).
  exact (ntcp2_stream_roundtrip true draw toy_end toy_end [short_frame; short_frame] toy_sync draw_len Hf).
Defined.

Lemma ntcp2_encode_bound_witness :
  exists (bs : bytes) e' buf' r, encode draw toy_end short_frame [] = Ret (e', buf', r) /\
    (len bs + 16 <= NTCP2_MTU -> r = Ok tt /\ len buf' = len ([] : bytes) + 2 + len bs + 16).
Proof.
  destruct short_frame_writes as (bs & Hw & Hl). exists bs.
  destruct (ntcp2_encode_bound draw toy_end toy_end short_frame bs [] toy_sync Hw) as (e' & buf' & r & H & Hok & _).
  exists e', buf', r. exact (conj H Hok).
Defined.

End Ntcp2CodecProps.
