(* ===== verification/Session.v ===== *)
(** * Sessions

    [src/transport/session.rs]: the table of the sessions with our peers and the
    frames that wait for one; and the session task, [Session::poll], that
    [src/transport/ntcp/mod.rs] and [src/transport/ntcp2/mod.rs] share word for
    word.  What the two protocols do differently - how what is to be sent becomes
    frames, how frames become messages - is the interface [SessionKind].

    Channels are numbered.  The socket, the channel's arrivals and the
    distributor answer as each poll's environment says. *)

From S2P Require Import Prelude Nom Cookie Util Wire Crypto Data Dest I2np Message.

(** ** The table of sessions *)

Section Table.
Context {F : Type}.

(** [Shared], and the unread contents of the channels that have a receiver *)
Record Shared := mkShared {
  sessions : gmap Hash nat;
  pending_sessions : gmap Hash (list F);
  channels : gmap nat (list F)
}.

Definition Shared_new : Shared := mkShared ∅ ∅ ∅.

Definition have_session (s : Shared) (hash : Hash) : bool := bool_decide (is_Some (sessions s !! hash)).

Inductive SendResult := SendReady | SendBroken.

(** The table, whether a connection to the peer is started, and the result. *)
Definition session_send (s : Shared) (hash : Hash) (frame : F) : Shared * bool * SendResult :=
  match sessions s !! hash with
  | Some tx =>
      match channels s !! tx with
      | Some q => (mkShared (sessions s) (pending_sessions s) (<[tx := q ++ [frame]]> (channels s)), false, SendReady)
      | None => (s, false, SendBroken)
      end
  | None =>
      let cached := pending_sessions s !! hash in
      (mkShared (sessions s) (<[hash := default [] cached ++ [frame]]> (pending_sessions s)) (channels s),
       bool_decide (cached = None), SendReady)
  end.

(** [SessionContext::new]; [tx]: a new channel, whose receiver the session
    holds; [unbounded_send] without a receiver fails the [unwrap] *)
Definition SessionContext_new (s : Shared) (hash : Hash) (tx : nat) : outcome Shared :=
  match pending_sessions s !! hash with
  | Some (m :: msgs) =>
      let! q := unwrap (channels s !! tx) in
      Ret (mkShared (<[hash := tx]> (sessions s)) (delete hash (pending_sessions s))
             (<[tx := q ++ m :: msgs]> (channels s)))
  | _ => Ret (mkShared (<[hash := tx]> (sessions s)) (delete hash (pending_sessions s)) (channels s))
  end.

(** the end of a session: its context leaves the table, its receiver goes *)
Definition SessionContext_drop (s : Shared) (hash : Hash) (rx : nat) : Shared :=
  mkShared (delete hash (sessions s)) (pending_sessions s) (delete rx (channels s)).

(** What happens to the table. *)
Inductive TableEvent :=
| TeSend (hash : Hash) (frame : F)
| TeOpen (hash : Hash) (tx : nat)
| TeReceive (rx : nat)
| TeClose (hash : Hash) (rx : nat).

(** [Session::new] makes the channel, then the context *)
Definition open_session (s : Shared) (hash : Hash) (tx : nat) : outcome Shared :=
  SessionContext_new (mkShared (sessions s) (pending_sessions s) (<[tx := []]> (channels s))) hash tx.

(** the first frame of a channel *)
Definition receive (s : Shared) (rx : nat) : Shared * option F :=
  match channels s !! rx with
  | Some (f :: q) => (mkShared (sessions s) (pending_sessions s) (<[rx := q]> (channels s)), Some f)
  | _ => (s, None)
  end.

Definition table_step (s : Shared) (e : TableEvent) : outcome Shared :=
  match e with
  | TeSend h f => Ret (session_send s h f).1.1
  | TeOpen h tx => open_session s h tx
  | TeReceive rx => Ret (receive s rx).1
  | TeClose h rx => Ret (SessionContext_drop s h rx)
  end.

Fixpoint table_run (s : Shared) (es : list TableEvent) : outcome Shared :=
  match es with
  | [] => Ret s
  | e :: es => let! s := table_step s e in table_run s es
  end.

(** what the peer's session takes out of its channel, in order *)
Fixpoint delivered (hash : Hash) (s : Shared) (es : list TableEvent) : list F :=
  match es with
  | [] => []
  | e :: es =>
      match e with
      | TeReceive rx => if decide (sessions s !! hash = Some rx) then option_list (receive s rx).2 else []
      | _ => []
      end ++ match table_step s e with Ret s => delivered hash s es | Panic => [] end
  end.

Definition sent_to (hash : Hash) (es : list TableEvent) : list F :=
  omap (fun e => match e with TeSend h f => if decide (h = hash) then Some f else None | _ => None end) es.

(** what is on its way to the peer: queued for its session, or waiting for one *)
Definition in_flight (s : Shared) (hash : Hash) : list F :=
  match sessions s !! hash with
  | Some tx => default [] (channels s !! tx)
  | None => default [] (pending_sessions s !! hash)
  end.

End Table.

Arguments Shared : clear implicits.
Arguments TableEvent : clear implicits.

(** ** The session task *)

(** the answer of a sink to [start_send] *)
Inductive SinkAnswer := SinkReady | SinkNotReady | SinkErr.

(** what [start_send] returns: taken, given back, or an I/O error *)
Inductive Sent (F : Type) := Taken | GivenBack (item : F) | SendFailed.
Arguments Taken {F}.
Arguments GivenBack {F} item.
Arguments SendFailed {F}.

(** What a protocol's two halves do.  [W]: the frames of the wire, in; [V]: out. *)
Class SessionKind := {
  Item : Type;
  WireIn : Type;
  WireOut : Type;
  Msg : Type;
  Ib : Type;
  Ob : Type;
  ob_start_send : Ob -> Item -> SinkAnswer -> outcome (Ob * list WireOut * Sent Item);
  ob_poll_complete : Ob -> SinkAnswer -> Poll unit unit -> Ob * list WireOut * Poll unit unit;
  ib_poll : Ib -> list (Poll (option WireIn) unit) ->
    comp (Ib * list (Poll (option WireIn) unit) * Poll (option Msg) unit)
}.

Section Task.
Context {k : SessionKind}.

(** [outbound]: what is unread in the channel; [pending_ib]: a message is on
    its way to a subsystem *)
Record Session := mkSession {
  ib : Ib;
  ob : Ob;
  pending_ib : bool;
  outbound : list Item;
  cached_ob : option Item
}.

(** What one poll meets: what has arrived in the channel, the sink's answers,
    the frames that come in, and the subsystems' answers. *)
Record SessionEnv := mkSessionEnv {
  sv_arrivals : list Item;
  sv_sink : nat -> SinkAnswer;
  sv_last : SinkAnswer;
  sv_flush : Poll unit unit;
  sv_upstream : list (Poll (option WireIn) unit);
  sv_subsystems : list (Poll unit unit)
}.

(** The writing loop: the outbound half, the channel, what is given back, what
    was sent, and whether the sink has failed. *)
Fixpoint write_loop (sink : nat -> SinkAnswer) (n : nat) (o : Ob) (queue : list Item)
  : outcome (Ob * list Item * option Item * list WireOut * bool) :=
  match queue with
  | [] => Ret (o, [], None, [], false)
  | item :: queue =>
      let! (o, sent, r) := ob_start_send o item (sink n) in
      match r with
      | Taken =>
          let! (o, queue, cached, sent', e) := write_loop sink (S n) o queue in
          Ret (o, queue, cached, sent ++ sent', e)
      | GivenBack item => Ret (o, queue, Some item, sent, false)
      | SendFailed => Ret (o, queue, None, sent, true)
      end
  end.

(** the cached item goes first *)
Definition write_items (env : SessionEnv) (s : Session) : outcome (Ob * list Item * option Item * list WireOut * bool) :=
  let queue := outbound s ++ sv_arrivals env in
  match cached_ob s with
  | Some item =>
      let! (o, sent, r) := ob_start_send (ob s) item (sv_sink env 0) in
      match r with
      | Taken =>
          let! (o, queue, cached, sent', e) := write_loop (sv_sink env) 1 o queue in
          Ret (o, queue, cached, sent ++ sent', e)
      | GivenBack item => Ret (o, queue, Some item, sent, false)
      | SendFailed => Ret (o, queue, None, sent, true)
      end
  | None => write_loop (sv_sink env) 0 (ob s) queue
  end.

(** The reading loop while a message is on its way: the inbound half, whether
    one still is, the messages handed over, and what [poll] returns. *)
Fixpoint read_pending (subsystems : list (Poll unit unit)) (i : Ib) (up : list (Poll (option WireIn) unit))
  : comp (Ib * bool * list Msg * Poll unit unit) :=
  match subsystems with
  | [] | NotReady :: _ => cret (i, true, [], NotReady)
  | PollErr _ :: _ => cret (i, true, [], PollErr tt)
  | Ready _ :: subsystems =>
      let* (i, up, r) := ib_poll i up in
      match r with
      | Ready (Some m) => let* (i, p, ms, r) := read_pending subsystems i up in cret (i, p, m :: ms, r)
      | Ready None => cret (i, false, [], Ready tt)
      | NotReady => cret (i, false, [], NotReady)
      | PollErr e => cret (i, false, [], PollErr tt)
      end
  end.

Definition read_loop (env : SessionEnv) (s : Session) : comp (Ib * bool * list Msg * Poll unit unit) :=
  if pending_ib s then read_pending (sv_subsystems env) (ib s) (sv_upstream env)
  else
    let* (i, up, r) := ib_poll (ib s) (sv_upstream env) in
    match r with
    | Ready (Some m) => let* (i, p, ms, r) := read_pending (sv_subsystems env) i up in cret (i, p, m :: ms, r)
    | Ready None => cret (i, false, [], Ready tt)
    | NotReady => cret (i, false, [], NotReady)
    | PollErr e => cret (i, false, [], PollErr tt)
    end.

(** The session afterwards, the frames sent, the messages handed over, and what
    [poll] returns. *)
Definition Session_poll (env : SessionEnv) (s : Session) : comp (Session * list WireOut * list Msg * Poll unit unit) :=
  let! (o, queue, cached, sent, failed) := write_items env s in
  let s := mkSession (ib s) o (pending_ib s) queue cached in
  if failed then cret (s, sent, [], PollErr tt)
  else
    let '(o, sent', flushed) := ob_poll_complete o (sv_last env) (sv_flush env) in
    let s := mkSession (ib s) o (pending_ib s) queue cached in
    match flushed with
    | PollErr _ => cret (s, sent ++ sent', [], PollErr tt)
    | _ =>
        let* (i, p, ms, r) := read_loop env s in
        cret (mkSession i o p queue cached, sent ++ sent', ms, r)
    end.

(** Polls until the session ends; the last result is that of the last poll. *)
Fixpoint Session_run (s : Session) (envs : list SessionEnv) : comp (Session * list WireOut * list Msg * Poll unit unit) :=
  match envs with
  | [] => cret (s, [], [], NotReady)
  | env :: envs =>
      let* (s, sent, ms, r) := Session_poll env s in
      match r with
      | NotReady => let* (s, sent', ms', r) := Session_run s envs in cret (s, sent ++ sent', ms ++ ms', r)
      | _ => cret (s, sent, ms, r)
      end
  end.

End Task.
Arguments Session : clear implicits.
Arguments SessionEnv : clear implicits.

(** ** What a protocol promises *)

(** Each half keeps what it was given, in order: [ob_items] is what the
    outbound half holds back, [wire_items] what a sent frame carries;
    [ib_msgs] is what the inbound half holds back, [wire_msgs] the messages of
    a received frame, which may depend on the peer ([ib_ctx]); every sent frame
    is [wire_ok].  The inbound half stops without a message only where the framed
    stream does. *)
Class SessionLaws (k : SessionKind) := {
  ob_items : Ob -> list Item;
  wire_items : WireOut -> list Item;
  wire_ok : WireOut -> Prop;
  ib_msgs : Ib -> list Msg;
  Ctx : Type;
  ib_ctx : Ib -> Ctx;
  wire_msgs : Ctx -> WireIn -> list Msg;
  ob_inv : Ob -> Prop;
  readable : Ctx -> WireIn -> Prop;

  ob_start_send_law : forall o item a,
    ob_inv o -> exists o' sent r, ob_start_send o item a = Ret (o', sent, r) /\
      match r with
      | Taken => ob_inv o' /\ concat (map wire_items sent) ++ ob_items o' = ob_items o ++ [item] /\
                 Forall wire_ok sent
      | GivenBack item' => o' = o /\ item' = item /\ sent = [] /\ a = SinkNotReady
      | SendFailed => sent = [] /\ a = SinkErr
      end;
  ob_poll_complete_law : forall o a fl o' sent r,
    ob_inv o -> ob_poll_complete o a fl = (o', sent, r) -> (forall e, r <> PollErr e) ->
    ob_inv o' /\ concat (map wire_items sent) ++ ob_items o' = ob_items o /\ Forall wire_ok sent;
  ib_poll_law : forall i up,
    Forall (fun a => match a with Ready (Some w) => readable (ib_ctx i) w | _ => True end) up ->
    exists i' up' r, ib_poll i up = cret (i', up', r) /\ ib_ctx i' = ib_ctx i /\
      exists read, up = read ++ up' /\
        ib_msgs i ++ concat (map (fun a => match a with Ready (Some w) => wire_msgs (ib_ctx i) w | _ => [] end) read) =
        match r with Ready (Some m) => [m] | _ => [] end ++ ib_msgs i' /\
        match r with
        | Ready (Some _) => True
        | Ready None => last read = Some (Ready None)
        | NotReady => up' = [] \/ last read = Some NotReady
        | PollErr e => last read = Some (PollErr e)
        end
}.

(** ** Lemmas *)

Section TaskLemmas.
Context {k : SessionKind} {laws : SessionLaws k}.

Definition sent_items (sent : list WireOut) : list Item := concat (map wire_items sent).
Definition read_msgs (c : Ctx) (read : list (Poll (option WireIn) unit)) : list Msg :=
  concat (map (fun a => match a with Ready (Some w) => wire_msgs c w | _ => [] end) read).
Definition all_readable (c : Ctx) (up : list (Poll (option WireIn) unit)) : Prop :=
  Forall (fun a => match a with Ready (Some w) => readable c w | _ => True end) up.

Lemma sent_items_app a b : sent_items (a ++ b) = sent_items a ++ sent_items b.
Proof. unfold sent_items. by rewrite map_app, concat_app. Qed.
Lemma read_msgs_app c a b : read_msgs c (a ++ b) = read_msgs c a ++ read_msgs c b.
Proof. unfold read_msgs. by rewrite map_app, concat_app. Qed.

(** everything that is to be sent *)
Definition to_send (s : Session k) : list Item := ob_items (ob s) ++ option_list (cached_ob s) ++ outbound s.

Lemma write_loop_fifo sink n o queue :
  ob_inv o -> exists o' queue' cached sent e, write_loop sink n o queue = Ret (o', queue', cached, sent, e) /\
    (e = false -> ob_inv o' /\ Forall wire_ok sent /\
     sent_items sent ++ ob_items o' ++ option_list cached ++ queue' = ob_items o ++ queue).
Proof.
  revert n o. induction queue as [|item queue IH]; intros n o Ho; cbn [write_loop].
  { eexists _, _, _, _, _. split; [done|]. intros _. split; [done|]. split; [done|]. cbn. by rewrite app_nil_r. }
  destruct (ob_start_send_law o item (sink n) Ho) as (o1 & sent & r & -> & Hr). cbn [obind].
  destruct r as [|item'|].
  - destruct Hr as (Ho1 & E1 & K1). destruct (IH (S n) o1 Ho1) as (o' & q' & c & sent' & e & -> & H). cbn [obind].
    eexists _, _, _, _, _. split; [done|]. intros He. destruct (H He) as (Ho' & K2 & E2). split; [done|].
    split; [by apply Forall_app|]. rewrite sent_items_app, <- app_assoc, E2. fold (sent_items sent) in E1. by rewrite app_assoc, E1, <- app_assoc.
  - destruct Hr as (-> & -> & -> & _). eexists _, _, _, _, _. split; [done|]. intros _. by split_and!.
  - eexists _, _, _, _, _. by split.
Qed.

Lemma write_items_fifo env s :
  ob_inv (ob s) -> exists o' queue' cached sent e, write_items env s = Ret (o', queue', cached, sent, e) /\
    (e = false -> ob_inv o' /\ Forall wire_ok sent /\
     sent_items sent ++ ob_items o' ++ option_list cached ++ queue' = to_send s ++ sv_arrivals env).
Proof.
  intros Ho. unfold write_items, to_send. destruct (cached_ob s) as [item|] eqn:Ec.
  - destruct (ob_start_send_law (ob s) item (sv_sink env 0) Ho) as (o1 & sent & r & -> & Hr). cbn [obind].
    destruct r as [|item'|].
    + destruct Hr as (Ho1 & E1 & K1).
      destruct (write_loop_fifo (sv_sink env) 1 o1 (outbound s ++ sv_arrivals env) Ho1)
        as (o' & q' & c & sent' & e & -> & H). cbn [obind].
      eexists _, _, _, _, _. split; [done|]. intros He. destruct (H He) as (Ho' & K2 & E2). split; [done|].
      split; [by apply Forall_app|]. rewrite sent_items_app, <- app_assoc, E2. fold (sent_items sent) in E1. cbn [option_list].
      by rewrite app_assoc, E1, <- !app_assoc.
    + destruct Hr as (-> & -> & -> & _). eexists _, _, _, _, _. split; [done|]. intros _. split; [done|].
      split; [done|]. cbn. by rewrite <- !app_assoc.
    + eexists _, _, _, _, _. by split.
  - destruct (write_loop_fifo (sv_sink env) 0 (ob s) (outbound s ++ sv_arrivals env) Ho)
      as (o' & q' & c & sent' & e & -> & H).
    eexists _, _, _, _, _. split; [done|]. intros He. destruct (H He) as (Ho' & K2 & E2). split; [done|].
    split; [done|]. rewrite E2. cbn. by rewrite <- app_assoc.
Qed.

(** *** What the reading loop takes and hands over

    One poll, from a task with ([p]) or without a message under way to one that
    has ([p']) or has not: [read] is what it took of the framed stream's answers,
    [lft] what it did not ask for, [ms] what it handed over.  It took [n] answers
    of the subsystems, all ready; so of the message under way and the [ms] all are
    completed but the one that is under way afterwards, and the poll has taken a
    message only when the one before it was completed.  It stopped where the
    subsystem was not ready, or else where the stream was not, or had ended. *)
Definition poll_reads (env : SessionEnv k) (p p' : bool) (ms : list Msg)
    (read lft : list (Poll (option WireIn) unit)) (r : Poll unit unit) : Prop :=
  sv_upstream env = read ++ lft /\
  exists n subs, sv_subsystems env = replicate n (Ready tt) ++ subs /\
    (Nat.b2n p + length ms = n + Nat.b2n p')%nat /\
    (p = true -> n = O -> read = []) /\
    match r with
    | NotReady => if p' then subs = [] \/ head subs = Some NotReady else lft = [] \/ last read = Some NotReady
    | Ready _ => p' = false /\ last read = Some (Ready None)
    | PollErr _ => True
    end.

(** Some polls, all pending but the last, which may be ready: [rs] is what each
    took and lft. *)
Inductive task_reads : bool -> list (SessionEnv k) -> list Msg ->
    list (list (Poll (option WireIn) unit) * list (Poll (option WireIn) unit)) -> bool -> Poll unit unit -> Prop :=
| task_reads_nil p : task_reads p [] [] [] p NotReady
| task_reads_more p p1 p' env envs ms ms' read lft rs r :
    poll_reads env p p1 ms read lft NotReady -> task_reads p1 envs ms' rs p' r ->
    task_reads p (env :: envs) (ms ++ ms') ((read, lft) :: rs) p' r
| task_reads_end p p' env ms read lft :
    poll_reads env p p' ms read lft (Ready tt) -> task_reads p [env] ms [(read, lft)] p' (Ready tt).

(** the socket keeps what a poll leaves: each poll meets first what the one
    before it left ([unread], for the first), then what is [new] *)
Fixpoint streamed (unread : list (Poll (option WireIn) unit)) (envs : list (SessionEnv k))
    (rs : list (list (Poll (option WireIn) unit) * list (Poll (option WireIn) unit)))
    (new : list (list (Poll (option WireIn) unit))) : Prop :=
  match envs, rs, new with
  | [], [], [] => True
  | env :: envs, (_, lft) :: rs, n :: new => sv_upstream env = unread ++ n /\ streamed lft envs rs new
  | _, _, _ => False
  end.

(** then everything that has arrived is read, or still unread *)
Lemma task_reads_stream p envs ms rs p' r : task_reads p envs ms rs p' r -> forall unread new,
  streamed unread envs rs new -> unread ++ concat new = concat (map fst rs) ++ default unread (last (map snd rs)).
Proof.
  assert (forall (d x : list (Poll (option WireIn) unit)) l, default d (last (x :: l)) = default x (last l)) as Hlast.
  { intros d x l. rewrite last_cons. by destruct (last l). }
  induction 1 as [p|p p1 p' env envs ms ms' read lft rs r [E _] H IH|p p' env ms read lft [E _]];
    intros unread [|n new]; cbn [streamed map concat]; try done.
  - intros _. cbn. by rewrite app_nil_r.
  - intros [E1 Hs]. cbn [fst snd]. rewrite Hlast, <- app_assoc, <- (IH _ _ Hs), !app_assoc, <- E1, E. done.
  - intros [E1 Hs]. destruct new; [|done]. cbn. by rewrite !app_nil_r, <- E1, E.
Qed.

Lemma read_pending_order subs i up :
  all_readable (ib_ctx i) up -> exists i' p' ms r read lft, read_pending subs i up = cret (i', p', ms, r) /\
    ib_ctx i' = ib_ctx i /\ ib_msgs i ++ read_msgs (ib_ctx i) read = ms ++ ib_msgs i' /\
    forall env, sv_upstream env = up -> sv_subsystems env = subs -> poll_reads env true p' ms read lft r.
Proof.
  revert i up. induction subs as [|a subs IH]; intros i up Hu; cbn [read_pending].
  { eexists _, _, _, _, [], up. do 2 (split; [done|]). split; [cbn; by rewrite app_nil_r|].
    intros env Eu Es. split; [done|]. exists O, []. split_and!; [done..|by left]. }
  destruct a as [[]| |e].
  2,3: eexists _, _, _, _, [], up; do 2 (split; [done|]); (split; [cbn; by rewrite app_nil_r|]);
    intros env Eu Es; (split; [done|]); exists O, (sv_subsystems env); (do 3 (split; [done|])); rewrite ?Es; first [by right|done].
  destruct (ib_poll_law i up Hu) as (i1 & up1 & r & -> & C & read & E1 & E2 & Hstop). cbn [cret cbind].
  match type of E2 with _ ++ ?x = _ => change x with (read_msgs (ib_ctx i) read) in E2 end. destruct r as [[m|]| |e].
  - rewrite E1 in Hu. apply Forall_app in Hu as [_ Hu]. rewrite <- C in Hu.
    destruct (IH i1 up1 Hu) as (i' & p & ms & r & read' & lft & -> & C' & E4 & Hp). cbn [cret cbind].
    rewrite C in *. eexists _, _, _, _, (read ++ read'), lft. do 2 (split; [done|]).
    split; [by rewrite read_msgs_app, app_assoc, E2, <- app_assoc, E4|]. intros env Eu Es.
    destruct (Hp (mkSessionEnv (sv_arrivals env) (sv_sink env) (sv_last env) (sv_flush env) up1 subs) eq_refl eq_refl)
      as (E3 & n & subs' & Es' & Hn & _ & Hr). cbn [sv_upstream sv_subsystems] in E3, Es'.
    split; [by rewrite Eu, E1, E3, app_assoc|]. exists (S n), subs'. split_and!; [by rewrite Es, Es'|cbn in *; lia|done|].
    destruct r; [|destruct p|]; [destruct Hr as [-> Hr]; split; [done|]|done| |done].
    + by rewrite last_app, Hr.
    + destruct Hr as [Hr|Hr]; [by left|]. right. by rewrite last_app, Hr.
  - eexists _, _, _, _, read, up1. do 3 (split; [done|]). intros env Eu Es. split; [congruence|].
    exists 1%nat, subs. by split_and!.
  - eexists _, _, _, _, read, up1. do 3 (split; [done|]). intros env Eu Es. split; [congruence|].
    exists 1%nat, subs. by split_and!.
  - eexists _, _, _, _, read, up1. do 3 (split; [done|]). intros env Eu Es. split; [congruence|].
    exists 1%nat, subs. by split_and!.
Qed.

Lemma read_loop_order env s :
  all_readable (ib_ctx (ib s)) (sv_upstream env) ->
  exists i' p' ms r read lft, read_loop env s = cret (i', p', ms, r) /\ ib_ctx i' = ib_ctx (ib s) /\
    ib_msgs (ib s) ++ read_msgs (ib_ctx (ib s)) read = ms ++ ib_msgs i' /\
    poll_reads env (pending_ib s) p' ms read lft r.
Proof.
  intros Hu. unfold read_loop. destruct (pending_ib s).
  { destruct (read_pending_order (sv_subsystems env) (ib s) _ Hu) as (i' & p & ms & r & read & lft & H & C & E & Hp).
    exists i', p, ms, r, read, lft. split_and!; [done..|by apply Hp]. }
  destruct (ib_poll_law (ib s) _ Hu) as (i1 & up1 & r & -> & C & read & E1 & E2 & Hstop). cbn [cret cbind].
  match type of E2 with _ ++ ?x = _ => change x with (read_msgs (ib_ctx (ib s)) read) in E2 end. destruct r as [[m|]| |e].
  - rewrite E1 in Hu. apply Forall_app in Hu as [_ Hu]. rewrite <- C in Hu.
    destruct (read_pending_order (sv_subsystems env) i1 up1 Hu)
      as (i' & p & ms & r & read' & lft & -> & C' & E4 & Hp).
    cbn [cret cbind]. rewrite C in *. eexists _, _, _, _, (read ++ read'), lft. do 2 (split; [done|]).
    split; [by rewrite read_msgs_app, app_assoc, E2, <- app_assoc, E4|].
    destruct (Hp (mkSessionEnv (sv_arrivals env) (sv_sink env) (sv_last env) (sv_flush env) up1 (sv_subsystems env)) eq_refl eq_refl)
      as (E3 & n & subs' & Es' & Hn & _ & Hr). cbn [sv_upstream sv_subsystems] in E3, Es'.
    split; [by rewrite E1, E3, app_assoc|]. exists n, subs'. split_and!; [done|cbn in *; lia|done|].
    destruct r; [|destruct p|]; [destruct Hr as [-> Hr]; split; [done|]|done| |done].
    + by rewrite last_app, Hr.
    + destruct Hr as [Hr|Hr]; [by left|]. right. by rewrite last_app, Hr.
  - eexists _, _, _, _, read, up1. do 3 (split; [done|]). split; [done|]. exists O, (sv_subsystems env). by split_and!.
  - eexists _, _, _, _, read, up1. do 3 (split; [done|]). split; [done|]. exists O, (sv_subsystems env). by split_and!.
  - eexists _, _, _, _, read, up1. do 3 (split; [done|]). split; [done|]. exists O, (sv_subsystems env). by split_and!.
Qed.

(** One poll returns; what it sends and hands over is in order, with nothing
    lost or repeated, unless the socket or a subsystem fails. *)
Lemma poll_order env s :
  ob_inv (ob s) -> all_readable (ib_ctx (ib s)) (sv_upstream env) ->
  exists s' sent ms r, Session_poll env s = cret (s', sent, ms, r) /\
     ((forall e, r <> PollErr e) ->
     ob_inv (ob s') /\ ib_ctx (ib s') = ib_ctx (ib s) /\ Forall wire_ok sent /\
     sent_items sent ++ to_send s' = to_send s ++ sv_arrivals env /\
     exists read lft, poll_reads env (pending_ib s) (pending_ib s') ms read lft r /\
     ib_msgs (ib s) ++ read_msgs (ib_ctx (ib s)) read = ms ++ ib_msgs (ib s')).
Proof.
  intros Ho Hu. unfold Session_poll.
  destruct (write_items_fifo env s Ho) as (o1 & q & c & sent & e & -> & Hw). cbn [obind].
  destruct e; [eexists _, _, _, _; split; [done|]; intros He; by destruct (He tt)|].
  destruct (Hw eq_refl) as (Ho1 & K1 & E1).
  destruct (ob_poll_complete o1 (sv_last env) (sv_flush env)) as [[o2 sent2] fl] eqn:Ec.
  pose proof (ob_poll_complete_law o1 (sv_last env) (sv_flush env) o2 sent2 fl Ho1 Ec) as Hc.
  destruct (read_loop_order env (mkSession (ib s) o2 (pending_ib s) q c) Hu)
    as (i' & p & ms & r & read & lft & Hr & C & E3 & E4).
  assert ((forall e, fl <> PollErr e) -> ob_inv o2 /\ Forall wire_ok (sent ++ sent2) /\ sent_items (sent ++ sent2) ++ ob_items o2 ++ option_list c ++ q =
    to_send s ++ sv_arrivals env) as Hfin.
  { intros He. destruct (Hc He) as (Ho2 & E2 & K2). split; [done|]. split; [by apply Forall_app|].
    rewrite <- E1, <- E2, sent_items_app. by rewrite <- !app_assoc. }
  destruct fl as [u| |e].
  1,2: cbv beta iota zeta; cbn [ib pending_ib]; rewrite Hr; cbn [cret cbind]; eexists _, _, _, _; split; [done|]; intros _;
    destruct Hfin as (Ho2 & K & E5); [done|]; split; [done|]; split; [exact C|]; split; [exact K|];
    split; [exact E5|]; by exists read, lft.
  eexists _, _, _, _. split; [done|]. intros He. by destruct (He tt).
Qed.

Lemma run_reads s envs :
  ob_inv (ob s) -> Forall (fun env => all_readable (ib_ctx (ib s)) (sv_upstream env)) envs ->
  exists s' sent ms r, Session_run s envs = cret (s', sent, ms, r) /\
     ((forall e, r <> PollErr e) ->
     exists polled rest, envs = polled ++ rest /\ (r = NotReady -> rest = []) /\
       Forall wire_ok sent /\ sent_items sent ++ to_send s' = to_send s ++ concat (map sv_arrivals polled) /\
     exists rs, task_reads (pending_ib s) polled ms rs (pending_ib s') r /\
     ib_msgs (ib s) ++ read_msgs (ib_ctx (ib s)) (concat (map fst rs)) = ms ++ ib_msgs (ib s')).
Proof.
  revert s. induction envs as [|env envs IH]; intros s Ho Hall; cbn [Session_run].
  { eexists _, _, _, _. split; [done|]. intros _. exists [], []. do 3 (split; [done|]). split; [by rewrite app_nil_r|].
    exists []. split; [constructor|]. cbn. by rewrite app_nil_r. }
  apply Forall_cons in Hall as [Hu Hus]. destruct (poll_order env s Ho Hu) as (s1 & sent & ms & r & -> & H). cbn [cret cbind].
  destruct r as [[]| |e]; [| |eexists _, _, _, _; split; [done|]; intros He; by destruct (He e)].
  { eexists _, _, _, _. split; [done|]. intros He. destruct (H He) as (_ & _ & K1 & E1 & read & lft & Hp & E3).
    exists [env], envs. do 3 (split; [done|]). split; [by cbn; rewrite app_nil_r|]. exists [(read, lft)].
    split; [by constructor|]. cbn. by rewrite app_nil_r. }
  destruct H as (Ho1 & C & K1 & E1 & read & lft & Hp & E3); [done|]. rewrite <- C in Hus.
  destruct (IH s1 Ho1 Hus) as (s' & sent' & ms' & r & -> & H'). rewrite C in *. cbn [cret cbind].
  eexists _, _, _, _. split; [done|]. intros Hr. destruct (H' Hr) as (polled & rest & -> & Hn & K2 & E4 & rs & Ht & E5).
  exists (env :: polled), rest. do 2 (split; [done|]). split; [by apply Forall_app|]. split.
  - cbn [map concat]. by rewrite sent_items_app, <- app_assoc, E4, !app_assoc, E1.
  - exists ((read, lft) :: rs). split; [by econstructor|]. cbn [map concat fst].
    by rewrite read_msgs_app, app_assoc, E3, <- !app_assoc, E5.
Qed.

Lemma task_reads_sublist p envs ms rs p' r :
  task_reads p envs ms rs p' r -> sublist (concat (map fst rs)) (concat (map sv_upstream envs)).
Proof.
  induction 1 as [p|p p1 p' env envs ms ms' read lft rs r [E _] H IH|p p' env ms read lft [E _]]; cbn [map concat fst].
  - constructor.
  - rewrite E, <- app_assoc. apply sublist_app; [done|]. by apply sublist_inserts_l.
  - rewrite E, <- app_assoc. apply sublist_app; [done|]. apply sublist_nil_l.
Qed.

(** the order alone *)
Lemma run_order s envs :
  ob_inv (ob s) -> Forall (fun env => all_readable (ib_ctx (ib s)) (sv_upstream env)) envs ->
  exists s' sent ms r, Session_run s envs = cret (s', sent, ms, r) /\
     (r = NotReady ->
     Forall wire_ok sent /\ sent_items sent ++ to_send s' = to_send s ++ concat (map sv_arrivals envs) /\
     exists read, sublist read (concat (map sv_upstream envs)) /\
     ib_msgs (ib s) ++ read_msgs (ib_ctx (ib s)) read = ms ++ ib_msgs (ib s')).
Proof.
  intros Ho Hu. destruct (run_reads s envs Ho Hu) as (s' & sent & ms & r & E & H). exists s', sent, ms, r. split; [exact E|].
  intros ->. destruct H as (polled & rest & -> & Hn & K & E1 & rs & Ht & E2); [done|]. rewrite (Hn eq_refl), app_nil_r.
  split; [exact K|]. split; [exact E1|]. eexists. split; [exact (task_reads_sublist _ _ _ _ _ _ Ht)|exact E2].
Qed.

End TaskLemmas.

(** *** The table *)

Section TableLemmas.
Context {F : Type}.
Implicit Types (s : Shared F) (e : TableEvent F).

(** a session is opened once per peer, on a new channel, and closed by its own
    task *)
Definition legal s e : Prop :=
  match e with
  | TeOpen h tx => sessions s !! h = None /\ channels s !! tx = None
  | TeClose h rx => sessions s !! h = Some rx
  | _ => True
  end.

Fixpoint legal_run s (es : list (TableEvent F)) : Prop :=
  match es with
  | [] => True
  | e :: es => legal s e /\ match table_step s e with Ret s => legal_run s es | Panic => True end
  end.

(** every session has a channel of its own, and nothing waits for a session
    that is there *)
Record table_ok s : Prop := {
  t_live : forall h tx, sessions s !! h = Some tx -> is_Some (channels s !! tx);
  t_inj : forall h h' tx, sessions s !! h = Some tx -> sessions s !! h' = Some tx -> h = h';
  t_pending : forall h tx, sessions s !! h = Some tx -> pending_sessions s !! h = None
}.

Lemma table_new_ok : table_ok (@Shared_new F).
Proof. by split. Qed.

Lemma send_new s h f :
  sessions s !! h = None ->
  session_send s h f =
  (mkShared (sessions s) (<[h := default [] (pending_sessions s !! h) ++ [f]]> (pending_sessions s)) (channels s),
   bool_decide (pending_sessions s !! h = None), SendReady).
Proof. intros Hs. unfold session_send. by rewrite Hs. Qed.

Lemma send_ok s h f : table_ok s -> table_ok (session_send s h f).1.1.
Proof.
  intros [H1 H2 H3]. unfold session_send. destruct (sessions s !! h) as [tx|] eqn:Eh.
  - destruct (channels s !! tx) as [q|] eqn:Eq; [|done]. split; cbn; [|done..]. intros h' tx' H'.
    destruct (decide (tx' = tx)) as [->|Hne]; [by rewrite lookup_insert_eq|]. rewrite lookup_insert_ne by done.
    by eapply H1.
  - split; cbn; [done..|]. intros h' tx' H'. rewrite lookup_insert_ne by congruence. by eapply H3.
Qed.

(** opening works: the frames that waited are in the new channel *)
Lemma open_spec s h tx :
  channels s !! tx = None ->
  open_session s h tx =
  Ret (mkShared (<[h := tx]> (sessions s)) (delete h (pending_sessions s))
         (<[tx := default [] (pending_sessions s !! h)]> (channels s))).
Proof.
  intros Hc. unfold open_session, SessionContext_new. cbn [pending_sessions channels sessions].
  destruct (pending_sessions s !! h) as [[|m msgs]|] eqn:E; [done| |done].
  rewrite lookup_insert_eq. cbn [unwrap obind]. by rewrite insert_insert_eq.
Qed.

(** the same, whatever the number of the channel *)
Lemma open_waiting s h tx :
  exists s', open_session s h tx = Ret s' /\ sessions s' !! h = Some tx /\ pending_sessions s' !! h = None /\
    channels s' !! tx = Some (default [] (pending_sessions s !! h)).
Proof.
  unfold open_session, SessionContext_new. cbn [pending_sessions sessions channels].
  destruct (pending_sessions s !! h) as [[|m q]|].
  2: rewrite lookup_insert_eq; cbn [unwrap].
  all: cbn [obind]; eexists; split; [reflexivity|]; cbn [sessions pending_sessions channels default].
  all: by rewrite !lookup_insert_eq, lookup_delete_eq.
Qed.

Lemma open_ok s h tx :
  table_ok s -> sessions s !! h = None -> channels s !! tx = None ->
  table_ok (mkShared (<[h := tx]> (sessions s)) (delete h (pending_sessions s))
              (<[tx := default [] (pending_sessions s !! h)]> (channels s))).
Proof.
  intros [H1 H2 H3] Hn Hc.
  assert (forall h', sessions s !! h' <> Some tx) as Hf.
  { intros h' H'. destruct (H1 _ _ H') as [q Hq]. congruence. }
  split; cbn.
  - intros h' tx' H'. destruct (decide (tx' = tx)) as [->|Hne]; [by rewrite lookup_insert_eq|].
    rewrite lookup_insert_ne by done. destruct (decide (h' = h)) as [->|Hh].
    + rewrite lookup_insert_eq in H'. congruence.
    + rewrite lookup_insert_ne in H' by done. by eapply H1.
  - intros h1 h2 tx' A B. destruct (decide (h1 = h)) as [->|N1], (decide (h2 = h)) as [->|N2]; [done|..].
    + rewrite lookup_insert_eq in A. rewrite lookup_insert_ne in B by done. injection A as <-. by destruct (Hf h2).
    + rewrite lookup_insert_eq in B. rewrite lookup_insert_ne in A by done. injection B as <-. by destruct (Hf h1).
    + rewrite lookup_insert_ne in A, B by done. by eapply H2.
  - intros h' tx' H'. destruct (decide (h' = h)) as [->|Hh]; [by rewrite lookup_delete_eq|].
    rewrite lookup_delete_ne by done. rewrite lookup_insert_ne in H' by done. by eapply H3.
Qed.

Lemma receive_ok s rx : table_ok s -> table_ok (receive s rx).1.
Proof.
  intros [H1 H2 H3]. unfold receive. destruct (channels s !! rx) as [[|f q]|] eqn:E; [done| |done].
  split; cbn; [|done..]. intros h tx H. destruct (decide (tx = rx)) as [->|Hne]; [by rewrite lookup_insert_eq|].
  rewrite lookup_insert_ne by done. by eapply H1.
Qed.

Lemma close_ok s h rx : table_ok s -> sessions s !! h = Some rx -> table_ok (SessionContext_drop s h rx).
Proof.
  intros [H1 H2 H3] Hs. split; cbn.
  - intros h' tx H. destruct (decide (h' = h)) as [->|Hne]; [by rewrite lookup_delete_eq in H|].
    rewrite lookup_delete_ne in H by done. rewrite lookup_delete_ne; [by eapply H1|].
    intros <-. by apply Hne, (H2 _ _ rx).
  - intros h1 h2 tx A%lookup_delete_Some B%lookup_delete_Some. by eapply H2; [apply A|apply B].
  - intros h' tx A%lookup_delete_Some. by eapply H3; apply A.
Qed.

(** how one step changes what is in flight to a peer *)
Lemma step_flight h s e :
  table_ok s -> legal s e -> (forall rx, e <> TeClose h rx) ->
  exists s', table_step s e = Ret s' /\ table_ok s' /\
    in_flight s h ++ sent_to h [e] =
    match e with
    | TeReceive rx => if decide (sessions s !! h = Some rx) then option_list (receive s rx).2 else []
    | _ => []
    end ++ in_flight s' h.
Proof.
  intros Hok Hl Hc. destruct e as [h' f|h' tx|rx|h' rx]; cbn [table_step]; cbn [legal] in Hl.
  - eexists. split; [done|]. split; [by apply send_ok|]. destruct Hok as [H1 H2 H3]. unfold sent_to. cbn [omap list_omap].
    unfold session_send, in_flight. destruct (decide (h' = h)) as [->|Hne].
    + destruct (sessions s !! h) as [tx|] eqn:Eh.
      * destruct (H1 _ _ Eh) as [q Eq]. rewrite Eq. cbn. by rewrite Eh, lookup_insert_eq.
      * cbn. by rewrite Eh, lookup_insert_eq.
    + rewrite app_nil_r. cbn [app]. destruct (sessions s !! h') as [tx'|] eqn:Eh'.
      * destruct (H1 _ _ Eh') as [q Eq]. rewrite Eq. cbn. destruct (sessions s !! h) as [tx|] eqn:Eh; [|done].
        rewrite lookup_insert_ne; [done|]. intros <-. by apply Hne, (H2 _ _ tx').
      * cbn. destruct (sessions s !! h); [done|]. by rewrite lookup_insert_ne.
  - destruct Hl as [Hn Hch]. rewrite open_spec by done. eexists. split; [done|]. split; [by apply open_ok|].
    cbn [sent_to omap list_omap]. rewrite app_nil_r. cbn [app]. unfold in_flight. cbn.
    destruct (decide (h' = h)) as [->|Hne].
    + by rewrite Hn, lookup_insert_eq, lookup_insert_eq.
    + rewrite lookup_insert_ne by done. destruct (sessions s !! h) as [tx'|] eqn:Eh.
      * destruct Hok as [H1 _ _]. destruct (H1 _ _ Eh) as [q Eq]. rewrite lookup_insert_ne by congruence. done.
      * by rewrite lookup_delete_ne.
  - eexists. split; [done|]. split; [by apply receive_ok|]. cbn [sent_to omap list_omap]. rewrite app_nil_r.
    unfold receive, in_flight. destruct (decide (sessions s !! h = Some rx)) as [Eh|Hne].
    + destruct (channels s !! rx) as [[|f q]|] eqn:Eq; cbn; rewrite Eh, ?Eq; [done| |done].
      by rewrite lookup_insert_eq.
    + cbn [app]. destruct (channels s !! rx) as [[|f q]|] eqn:Eq; [done| |done]. cbn.
      destruct (sessions s !! h) as [tx|]; [|done]. by rewrite lookup_insert_ne by congruence.
  - eexists. split; [done|]. split; [by apply close_ok|]. cbn [sent_to omap list_omap]. rewrite app_nil_r. cbn [app].
    assert (h' <> h) as Hne by (intros ->; by apply (Hc rx)). unfold in_flight, SessionContext_drop. cbn.
    rewrite lookup_delete_ne by done. destruct (sessions s !! h) as [tx|] eqn:Eh; [|done].
    rewrite lookup_delete_ne; [done|]. intros <-. destruct Hok as [_ H2 _]. by apply Hne, (H2 _ _ rx).
Qed.

Lemma sent_to_cons h e es : sent_to h (e :: es) = sent_to h [e] ++ sent_to (F := F) h es.
Proof. unfold sent_to. by rewrite (omap_app _ [e] es). Qed.

Lemma run_flight h s es :
  table_ok s -> legal_run s es -> (forall rx, TeClose h rx ∉ es) ->
  exists s', table_run s es = Ret s' /\ table_ok s' /\
    in_flight s h ++ sent_to h es = delivered h s es ++ in_flight s' h.
Proof.
  revert s. induction es as [|e es IH]; intros s Hok Hl Hc; cbn [table_run delivered].
  { exists s. split; [done|]. split; [done|]. cbn. by rewrite app_nil_r. }
  destruct Hl as [Hl1 Hl2].
  destruct (step_flight h s e Hok Hl1) as (s1 & E1 & Hok1 & F1).
  { intros rx ->. by apply (Hc rx), elem_of_cons; left. }
  rewrite E1 in *. cbn [obind]. destruct (IH s1 Hok1 Hl2) as (s' & E2 & Hok2 & F2).
  { intros rx Hin. by apply (Hc rx), elem_of_cons; right. }
  exists s'. split; [done|]. split; [done|]. rewrite sent_to_cons, app_assoc, F1, <- !app_assoc. by rewrite F2.
Qed.

(** without a session, what is sent to a peer waits *)
Lemma step_waiting h s q e :
  sessions s !! h = None -> pending_sessions s !! h = Some q -> (forall tx, e <> TeOpen h tx) ->
  match table_step s e with
  | Ret s' => sessions s' !! h = None /\ pending_sessions s' !! h = Some (q ++ sent_to h [e])
  | Panic => True
  end.
Proof.
  intros Hs Hp Ho. destruct e as [h' f|h' tx|rx|h' rx]; cbn [table_step]; unfold sent_to; cbn [omap list_omap].
  - unfold session_send. destruct (decide (h' = h)) as [->|Hne].
    + rewrite Hs, Hp. cbn. by rewrite lookup_insert_eq.
    + rewrite app_nil_r. destruct (sessions s !! h') as [tx|] eqn:Eh'; [by destruct (channels s !! tx)|]. cbn.
      by rewrite lookup_insert_ne.
  - rewrite app_nil_r. assert (h' <> h) as Hne by (intros ->; by apply (Ho tx)).
    unfold open_session, SessionContext_new. cbn [pending_sessions channels sessions].
    destruct (pending_sessions s !! h') as [[|m msgs]|]; [| |]; cbn; rewrite ?lookup_insert_eq; cbn;
      by rewrite lookup_insert_ne, lookup_delete_ne.
  - rewrite app_nil_r. unfold receive. by destruct (channels s !! rx) as [[|f q']|].
  - rewrite app_nil_r. cbn. split; [|done]. destruct (decide (h' = h)) as [->|Hne]; [by rewrite lookup_delete_eq|by rewrite lookup_delete_ne].
Qed.

(** no connection is started while frames wait for one *)
Lemma run_waiting h s q es :
  sessions s !! h = None -> pending_sessions s !! h = Some q -> (forall tx, TeOpen h tx ∉ es) ->
  match table_run s es with
  | Ret s' => sessions s' !! h = None /\ pending_sessions s' !! h = Some (q ++ sent_to h es)
  | Panic => True
  end.
Proof.
  revert s q. induction es as [|e es IH]; intros s q Hs Hp Ho; cbn [table_run]; [by rewrite app_nil_r|].
  assert (forall tx, e <> TeOpen h tx) as Ho1 by (intros tx ->; by apply (Ho tx), elem_of_cons; left).
  pose proof (step_waiting h s q e Hs Hp Ho1) as H1. destruct (table_step s e) as [s1|]; [|done]. cbn [obind].
  rewrite sent_to_cons, app_assoc. destruct H1. apply IH; [done..|].
  intros tx Hin. by apply (Ho tx), elem_of_cons; right.
Qed.

(** *** A peer's place in the table, whatever happens: frames wait for a session,
    it has one on a channel, or neither *)
Inductive PeerState := PsWaiting (q : list F) | PsSession (tx : nat) | PsAbsent.

Definition peer_is s h (st : PeerState) : Prop :=
  match st with
  | PsWaiting q => sessions s !! h = None /\ pending_sessions s !! h = Some q
  | PsSession tx => sessions s !! h = Some tx /\ pending_sessions s !! h = None
  | PsAbsent => sessions s !! h = None /\ pending_sessions s !! h = None
  end.

Definition peer_step (h : Hash) (st : PeerState) e : PeerState :=
  match e with
  | TeSend h' f =>
      if decide (h' = h) then
        match st with PsWaiting q => PsWaiting (q ++ [f]) | PsSession tx => PsSession tx | PsAbsent => PsWaiting [f] end
      else st
  | TeOpen h' tx => if decide (h' = h) then PsSession tx else st
  | TeReceive _ => st
  | TeClose h' _ => if decide (h' = h) then match st with PsSession _ => PsAbsent | _ => st end else st
  end.

Definition peer_run (h : Hash) : PeerState -> list (TableEvent F) -> PeerState := foldl (peer_step h).

(** the frames that wait *)
Definition waiting_for (st : PeerState) : list F := match st with PsWaiting q => q | _ => [] end.

Lemma step_peer h s st e : peer_is s h st -> exists s', table_step s e = Ret s' /\ peer_is s' h (peer_step h st e).
Proof.
  intros Hs. destruct e as [h' f|h' tx|rx|h' rx]; cbn [table_step peer_step].
  - eexists. split; [done|]. unfold session_send. destruct (decide (h' = h)) as [->|Hne].
    + destruct st as [q|tx|]; destruct Hs as [H1 H2]; rewrite H1.
      * cbn. by rewrite H2, lookup_insert_eq.
      * destruct (channels s !! tx); by split.
      * cbn. by rewrite H2, lookup_insert_eq.
    + destruct (sessions s !! h') as [tx|]; [by destruct (channels s !! tx); destruct st|].
      destruct st; cbn; by rewrite lookup_insert_ne.
  - destruct (open_waiting s h' tx) as (s' & E & H1 & H2 & _). exists s'. split; [done|].
    destruct (decide (h' = h)) as [->|Hne]; [by split|]. revert E. unfold open_session, SessionContext_new.
    cbn [pending_sessions sessions channels].
    assert (forall ch, peer_is (mkShared (<[h' := tx]> (sessions s)) (delete h' (pending_sessions s)) ch) h st) as Hk.
    { intros ch. destruct st; cbn; by rewrite lookup_insert_ne, lookup_delete_ne. }
    destruct (pending_sessions s !! h') as [[|m q]|]; rewrite ?lookup_insert_eq; cbn [unwrap obind]; by intros [= <-].
  - eexists. split; [done|]. unfold receive. destruct (channels s !! rx) as [[|f q]|]; by destruct st.
  - eexists. split; [done|]. destruct (decide (h' = h)) as [->|Hne].
    + destruct st; destruct Hs as [H1 H2]; cbn; by rewrite lookup_delete_eq.
    + destruct st; cbn; by rewrite lookup_delete_ne.
Qed.

Lemma run_peer h es : forall s st, peer_is s h st -> exists s', table_run s es = Ret s' /\ peer_is s' h (peer_run h st es).
Proof.
  induction es as [|e es IH]; intros s st Hs; cbn [table_run peer_run foldl]; [by exists s|].
  destruct (step_peer h s st e Hs) as (s1 & -> & H1). cbn [obind]. by apply IH.
Qed.

(** without a session, all that is sent waits *)
Lemma peer_waits h es : (forall tx, TeOpen h tx ∉ es) -> forall q, peer_run h (PsWaiting q) es = PsWaiting (q ++ sent_to h es).
Proof.
  induction es as [|e es IH]; intros Ho q; [by cbn; rewrite app_nil_r|]. rewrite sent_to_cons, app_assoc. unfold peer_run. cbn [foldl].
  assert (peer_step h (PsWaiting q) e = PsWaiting (q ++ sent_to h [e])) as ->.
  { unfold sent_to. destruct e as [h' f|h' tx|rx|h' rx]; cbn [peer_step omap list_omap]; rewrite ?app_nil_r; try done.
    - destruct (decide (h' = h)); [done|]. by rewrite app_nil_r.
    - rewrite decide_False; [done|]. intros ->. by apply (Ho tx), elem_of_cons; left.
    - by destruct (decide (h' = h)). }
  apply IH. intros tx Hin. by apply (Ho tx), elem_of_cons; right.
Qed.

End TableLemmas.
Arguments PeerState : clear implicits.

(** ** Samples: a protocol that sends and hands over numbers as they are *)
Module SessionSamples.

Definition plain : SessionKind := {|
  Item := Z; WireIn := Z; WireOut := Z; Msg := Z; Ib := unit; Ob := unit;
  ob_start_send _ item a :=
    Ret (match a with
         | SinkReady => (tt, [item], Taken)
         | SinkNotReady => (tt, [], GivenBack item)
         | SinkErr => (tt, [], SendFailed)
         end);
  ob_poll_complete _ _ fl := (tt, [], fl);
  ib_poll _ up :=
    cret (match up with
          | [] => (tt, [], NotReady)
          | a :: up => (tt, up, a)
          end)
|}.

Definition plain_laws : SessionLaws plain.
Proof.
  refine (@Build_SessionLaws plain (fun _ => []) (fun w => [w]) (fun _ => True) (fun _ => []) unit (fun _ => tt)
    (fun _ w => [w]) (fun _ => True) (fun _ _ => True) _ _ _).
  - intros [] item a _. destruct a; [|by eexists _, _, _..]. eexists _, _, _. split; [done|]. by repeat constructor.
  - intros [] a fl o' sent r _ [= <- <- <-] _. by split_and!.
  - intros [] [|a up] _; [exists tt, [], NotReady; split; [done|]; split; [done|]; exists []; by auto|].
    exists tt, up, a. split; [done|]. split; [done|]. exists [a]. split; [done|].
    destruct a as [[m|]| |]; (split; [done|]); try done. by right.
Defined.

Definition sample_env : SessionEnv plain :=
  @mkSessionEnv plain [1; 2] (fun n => match n with O => SinkReady | _ => SinkNotReady end) SinkReady (Ready tt)
    [Ready (Some 7); Ready (Some 8); Ready (Some 9)] [Ready tt].

(** what the first poll leaves, and the end *)
Definition next_env : SessionEnv plain :=
  @mkSessionEnv plain [] (fun n => SinkReady) SinkReady (Ready tt) [Ready (Some 9); Ready None] [Ready tt; Ready tt].

End SessionSamples.

(** ** Properties *)
Module SessionProps.

(** C30: For a peer that has one session at a time and whose session does not end,
    frames reach that session in the order in which they were sent, none lost and none twice, whether they
    were sent before the session was there or after: what was delivered and what
    is on its way is what was sent; and the table never panics. *)
Theorem session_table_fifo {F : Type} (h : Hash) (es : list (TableEvent F)) :
  legal_run Shared_new es -> (forall rx, TeClose h rx ∉ es) ->
  exists s, table_run Shared_new es = Ret s /\ sent_to h es = delivered h Shared_new es ++ in_flight s h.
Proof.
  intros Hl Hc. destruct (run_flight h _ es table_new_ok Hl Hc) as (s & E & _ & H). by exists s.
Qed.

(** When a peer has two sessions (each side has connected to the other), the
    end of the older one takes the newer out of the table, although it is alive:
    the next frame starts a third connection and does not reach it. *)
Theorem older_session_deregisters {F : Type} (s : Shared F) (h : Hash) (tx1 tx2 : nat) (f : F) :
  channels s !! tx1 = None -> channels s !! tx2 = None -> tx1 <> tx2 ->
  exists s2, table_run s [TeOpen h tx1; TeOpen h tx2; TeClose h tx1] = Ret s2 /\
    have_session s2 h = false /\ channels s2 !! tx2 = Some [] /\
    (session_send s2 h f).1.2 = true /\ channels (session_send s2 h f).1.1 !! tx2 = Some [].
Proof.
  intros H1 H2 Hne. cbn [table_run table_step]. rewrite open_spec by done. cbn [obind].
  rewrite open_spec by (cbn; by rewrite lookup_insert_ne). cbn [obind].
  set (s1 := mkShared _ _ _). exists (SessionContext_drop s1 h tx1). split; [done|].
  assert (sessions (SessionContext_drop s1 h tx1) !! h = None) as A by apply lookup_delete_eq.
  assert (pending_sessions (SessionContext_drop s1 h tx1) !! h = None) as B by apply lookup_delete_eq.
  assert (channels (SessionContext_drop s1 h tx1) !! tx2 = Some []) as C.
  { cbn. rewrite lookup_delete_ne by done. by rewrite lookup_insert_eq, lookup_delete_eq. }
  split; [unfold have_session; rewrite A; by apply bool_decide_eq_false_2; intros [? [=]]|].
  split; [exact C|]. rewrite (send_new _ _ f A), B. by split.
Qed.

(** When the peer opens a session with us while our own attempt to connect to it
    is under way, what waited and what is then sent goes to that session; when the
    attempt gets through as well, its session takes the other one's place with an
    empty channel, and the other one keeps its frames but is not sent any more. *)
Theorem second_session_takes_over {F : Type} (s : Shared F) (h : Hash) (tx1 tx2 : nat) (q : list F) (f g : F) :
  pending_sessions s !! h = Some q -> channels s !! tx1 = None -> channels s !! tx2 = None -> tx1 <> tx2 ->
  exists s2, table_run s [TeOpen h tx1; TeSend h f; TeOpen h tx2] = Ret s2 /\
    sessions s2 !! h = Some tx2 /\ channels s2 !! tx1 = Some (q ++ [f]) /\ channels s2 !! tx2 = Some [] /\
    channels (session_send s2 h g).1.1 !! tx1 = Some (q ++ [f]).
Proof.
  intros Hq H1 H2 Hne. cbn [table_run table_step]. rewrite open_spec by done. cbn [obind].
  unfold session_send at 1. cbn [sessions channels]. rewrite lookup_insert_eq. cbn [channels]. rewrite lookup_insert_eq, Hq. cbn [default fst].
  rewrite open_spec by (cbn [channels]; by rewrite !lookup_insert_ne). cbn [sessions pending_sessions channels obind].
  eexists. split; [reflexivity|]. rewrite lookup_delete_eq. cbn [default sessions channels].
  split; [apply lookup_insert_eq|]. rewrite lookup_insert_eq, lookup_insert_ne, lookup_insert_eq by done. do 2 (split; [done|]).
  unfold session_send. cbn [sessions channels]. rewrite lookup_insert_eq. cbn [channels]. rewrite lookup_insert_eq. cbn [channels fst].
  by rewrite !lookup_insert_ne, lookup_insert_eq by done.
Qed.

(** Once frames wait for a connection to a peer, no further connection is
    started until a session with the peer opens, even when the attempt has
    failed: what is sent piles up. *)
Theorem failed_connection_never_retried {F : Type} (s s' : Shared F) (h : Hash) (f g : F) (es : list (TableEvent F)) :
  sessions s !! h = None -> table_run (session_send s h f).1.1 es = Ret s' -> (forall tx, TeOpen h tx ∉ es) ->
  exists q, pending_sessions s' !! h = Some q /\
    session_send s' h g = (mkShared (sessions s') (<[h := q ++ [g]]> (pending_sessions s')) (channels s'), false, SendReady).
Proof.
  intros Hs Hr Ho. assert (exists q, sessions (session_send s h f).1.1 !! h = None /\
    pending_sessions (session_send s h f).1.1 !! h = Some q) as (q & A & B).
  { unfold session_send. rewrite Hs. cbn. rewrite lookup_insert_eq. by eexists. }
  pose proof (run_waiting h _ q es A B Ho) as H. rewrite Hr in H. destruct H as [C D]. eexists. split; [exact D|].
  unfold session_send. by rewrite C, D.
Qed.

(** C28: Over any number of polls a session task returns each time.  Unless the
    socket or a subsystem fails, it writes what it was given to the socket in
    order, each item once, in frames that the protocol allows, and still holds
    what it has not written.  It hands the messages of the frames that it has read
    to the subsystems in the order in which they came, none lost and none twice,
    and one at a time: a subsystem has completed each message before the next one
    is taken, and at most the last one is under way.  A poll reads all that the
    socket has unless a subsystem is not ready; on a socket that keeps what is not
    read, all that has arrived is read in order, or unread.  The task ends only
    where the peer's stream does, with no message under way.  This is so for every
    protocol whose two halves keep the order themselves. *)
Theorem session_task_fifo {k : SessionKind} {laws : SessionLaws k} (s : Session k) (envs : list (SessionEnv k)) :
  ob_inv (ob s) -> Forall (fun env => all_readable (ib_ctx (ib s)) (sv_upstream env)) envs ->
  exists s' sent ms r, Session_run s envs = cret (s', sent, ms, r) /\
    ((forall e, r <> PollErr e) ->
     exists polled rest, envs = polled ++ rest /\ (r = NotReady -> rest = []) /\
       Forall wire_ok sent /\ sent_items sent ++ to_send s' = to_send s ++ concat (map sv_arrivals polled) /\
       exists rs, task_reads (pending_ib s) polled ms rs (pending_ib s') r /\
         ib_msgs (ib s) ++ read_msgs (ib_ctx (ib s)) (concat (map fst rs)) = ms ++ ib_msgs (ib s') /\
         forall unread new, streamed unread polled rs new ->
           unread ++ concat new = concat (map fst rs) ++ default unread (last (map snd rs))).
Proof.
  intros Ho Hu. destruct (run_reads s envs Ho Hu) as (s' & sent & ms & r & E & H). exists s', sent, ms, r. split; [exact E|].
  intros He. destruct (H He) as (polled & rest & Ee & Hn & K & E1 & rs & Ht & E2). exists polled, rest.
  do 4 (split; [assumption|]). exists rs. split; [exact Ht|]. split; [exact E2|]. exact (task_reads_stream _ _ _ _ _ _ Ht).
Qed.

Definition peer : Hash := mkHash (replicate 32 1).

Lemma session_table_fifo_witness :
  exists s, table_run (@Shared_new Z) [TeSend peer 1; TeSend peer 2; TeOpen peer 0; TeReceive 0; TeSend peer 3] = Ret s /\
    [1; 2; 3] = [1] ++ in_flight s peer.
Proof.
  apply (session_table_fifo peer [TeSend peer 1; TeSend peer 2; TeOpen peer 0; TeReceive 0; TeSend peer 3]).
  - repeat split.
  - intros rx Hin. repeat (apply elem_of_cons in Hin as [[=]|Hin]). by apply elem_of_nil in Hin.
Defined.

Lemma older_session_deregisters_witness :
  exists s2, table_run (@Shared_new Z) [TeOpen peer 0; TeOpen peer 1; TeClose peer 0] = Ret s2 /\
    have_session s2 peer = false /\ channels s2 !! 1%nat = Some [] /\
    (session_send s2 peer 7).1.2 = true /\ channels (session_send s2 peer 7).1.1 !! 1%nat = Some [].
Proof. apply (older_session_deregisters Shared_new peer 0 1 7); [reflexivity|reflexivity|discriminate]. Defined.

Lemma second_session_takes_over_witness :
  exists s2, table_run (mkShared ∅ {[peer := [1]]} ∅) [TeOpen peer 7; TeSend peer 2; TeOpen peer 1] = Ret s2 /\
    sessions s2 !! peer = Some 1%nat /\ channels s2 !! 7%nat = Some ([1] ++ [2]) /\ channels s2 !! 1%nat = Some [] /\
    channels (session_send s2 peer 3).1.1 !! 7%nat = Some ([1] ++ [2]).
Proof. apply (second_session_takes_over _ peer 7 1 [1] 2 3); [reflexivity|reflexivity|reflexivity|discriminate]. Defined.

Lemma failed_connection_never_retried_witness :
  exists q, ({[peer := [1]]} : gmap Hash (list Z)) !! peer = Some q /\
    session_send (session_send Shared_new peer 1).1.1 peer 2 =
    (mkShared ∅ (<[peer := q ++ [2]]> {[peer := [1]]}) ∅, false, SendReady).
Proof.
  apply (failed_connection_never_retried Shared_new (session_send Shared_new peer 1).1.1 peer 1 2 []).
  - reflexivity.
  - reflexivity.
  - intros tx Hin. by apply elem_of_nil in Hin.
Defined.

(** the second poll completes the message that the first one leaves under way *)
Lemma session_task_fifo_witness :
  exists s' sent ms r,
    @Session_run SessionSamples.plain (@mkSession SessionSamples.plain tt tt false [0] None)
      [SessionSamples.sample_env; SessionSamples.next_env] = cret (s', sent, ms, r) /\
    ms = [7; 8; 9] /\ r = Ready tt /\
    ((forall e, r <> PollErr e) ->
     exists polled rest, [SessionSamples.sample_env; SessionSamples.next_env] = polled ++ rest /\ (r = NotReady -> rest = []) /\
       Forall (fun _ => True) sent /\
       @sent_items _ SessionSamples.plain_laws sent ++ @to_send _ SessionSamples.plain_laws s' = [0] ++ concat (map sv_arrivals polled) /\
       exists rs, task_reads false polled ms rs (pending_ib s') r /\
         [] ++ @read_msgs _ SessionSamples.plain_laws tt (concat (map fst rs)) = ms ++ [] /\
         forall unread new, streamed unread polled rs new ->
           unread ++ concat new = concat (map fst rs) ++ default unread (last (map snd rs))).
Proof.
  destruct (@session_task_fifo SessionSamples.plain SessionSamples.plain_laws (@mkSession SessionSamples.plain tt tt false [0] None)
    [SessionSamples.sample_env; SessionSamples.next_env] I) as (s' & sent & ms & r & E & H).
  - repeat constructor.
  - exists s', sent, ms, r. split; [exact E|]. vm_compute in E. injection E as <- <- <- <-.
    split; [reflexivity|]. split; [reflexivity|]. exact H.
Defined.

End SessionProps.
