(* ===== verification/Ntcp2Session.v ===== *)
(** * NTCP2 sessions

    The two halves of an NTCP2 session, from [src/transport/ntcp2/mod.rs]: how
    received blocks become messages, and how blocks that are to be sent are
    packed into frames; they keep the promises of [Session.SessionLaws]. *)

From S2P Require Import Prelude Nom Cookie Util Wire Crypto Data Dest I2np Message Ntcp2Frame Session.

Section Halves.
Context {cf : CookieFactory} {sc : SigCrates} {sha : Sha2}.

(** ** Inbound *)

(** [hash]: the peer's, in the session's context *)
Record InboundSession := mkInboundSession { ib_hash : Hash; cached_msgs : list Message }.

(** [rand_id], [now]: what [Message::from_payload] draws and reads *)
Definition handle_block (hash : Hash) (rand_id now : Z) (b : Block) : comp (option Message) :=
  match b with
  | BlkRouterInfo ri _ =>
      let* h := RouterIdentity_hash (router_id ri) in
      if negb (bool_decide (h = hash)) then cret None
      else
        let* ds := DatabaseStore_from_ri ri None in
        cret (Some (Message_from_payload rand_id now (MDatabaseStore ds)))
  | BlkMessage msg => cret (Some msg)
  | BlkPadding _ => cret None
  | BlkTermination _ _ _ => cret None
  | BlkUnknown _ _ => cret None
  | _ => cret None
  end.

(** a received frame, and what is drawn for each of its blocks *)
Definition FrameIn : Type := list (Block * (Z * Z)).

Fixpoint handle_frame (hash : Hash) (f : FrameIn) : comp (list Message) :=
  match f with
  | [] => cret []
  | (b, (rand_id, now)) :: f =>
      let* m := handle_block hash rand_id now b in
      let* ms := handle_frame hash f in
      cret (option_list m ++ ms)
  end.

(** [up]: the answers of the framed stream; none left: it is not ready *)
Fixpoint InboundSession_poll (s : InboundSession) (up : list (Poll (option FrameIn) unit))
  : comp (InboundSession * list (Poll (option FrameIn) unit) * Poll (option Message) unit) :=
  match cached_msgs s with
  | msg :: msgs => cret (mkInboundSession (ib_hash s) msgs, up, Ready (Some msg))
  | [] =>
      match up with
      | [] => cret (s, [], NotReady)
      | Ready (Some frame) :: up =>
          let* msgs := handle_frame (ib_hash s) frame in
          match msgs with
          | msg :: msgs => cret (mkInboundSession (ib_hash s) msgs, up, Ready (Some msg))
          | [] => InboundSession_poll (mkInboundSession (ib_hash s) []) up
          end
      | Ready None :: up => cret (s, up, Ready None)
      | NotReady :: up => cret (s, up, NotReady)
      | PollErr e :: up => cret (s, up, PollErr e)
      end
  end.

(** ** Outbound *)

Definition BLOCKS_PER_FRAME : nat := 10.

(** the state is [cached_blocks] *)
Definition start_send (cached_blocks : list Block) (b : Block) (a : SinkAnswer)
  : outcome (list Block * list Frame * Sent Block) :=
  let cached_blocks := cached_blocks ++ [b] in
  if (BLOCKS_PER_FRAME <=? length cached_blocks)%nat then
    let frame := take BLOCKS_PER_FRAME cached_blocks in
    let cached_blocks := drop BLOCKS_PER_FRAME cached_blocks in
    match a with
    | SinkReady => Ret (cached_blocks, [frame], Taken)
    | SinkNotReady =>
        let cached_blocks := frame ++ cached_blocks in
        let! orig_block := unwrap (last cached_blocks) in
        Ret (removelast cached_blocks, [], GivenBack orig_block)
    | SinkErr => Ret (cached_blocks, [], SendFailed)
    end
  else Ret (cached_blocks, [], Taken).

(** [flush]: the answer of the framed sink's [poll_complete] *)
Definition poll_complete (cached_blocks : list Block) (a : SinkAnswer) (flush : Poll unit unit)
  : list Block * list Frame * Poll unit unit :=
  match cached_blocks with
  | [] => ([], [], flush)
  | _ =>
      match a with
      | SinkReady => ([], [cached_blocks], flush)
      | SinkNotReady => (cached_blocks, [], NotReady)
      | SinkErr => ([], [], PollErr tt)
      end
  end.

End Halves.

(** ** The protocol *)

Definition ntcp2_kind {cf : CookieFactory} {sc : SigCrates} {sha : Sha2} : SessionKind := {|
  Item := Block; WireIn := FrameIn; WireOut := Frame; Msg := Message;
  Ib := InboundSession; Ob := list Block;
  ob_start_send := start_send; ob_poll_complete := poll_complete; ib_poll := InboundSession_poll
|}.

(** the session that [Session::new] makes *)
Definition new_session {cf : CookieFactory} {sc : SigCrates} {sha : Sha2} (hash : Hash) : Session ntcp2_kind :=
  @mkSession ntcp2_kind (mkInboundSession hash []) [] false [] None.

(** ** Lemmas *)

Section Lemmas.
Context {cf : CookieFactory} {sc : SigCrates} {sha : Sha2}.

(** the messages of a frame from a peer *)
Definition frame_msgs (hash : Hash) (f : FrameIn) : list Message :=
  match handle_frame hash f with Ret (Some ms) => ms | _ => [] end.

Definition frame_readable (hash : Hash) (f : FrameIn) : Prop := exists ms, handle_frame hash f = cret ms.

(** a frame has at least one block and at most ten *)
Definition frame_size_ok (f : Frame) : Prop := (1 <= length f <= BLOCKS_PER_FRAME)%nat.

(** fewer blocks than a frame takes are held back *)
Definition cached_ok (cached : list Block) : Prop := (length cached < BLOCKS_PER_FRAME)%nat.

Lemma start_send_law cached b a :
  cached_ok cached -> exists cached' sent r, start_send cached b a = Ret (cached', sent, r) /\
    match r with
    | Taken => cached_ok cached' /\ concat sent ++ cached' = cached ++ [b] /\
        Forall frame_size_ok sent
    | GivenBack b' => cached' = cached /\ b' = b /\ sent = [] /\ a = SinkNotReady
    | SendFailed => sent = [] /\ a = SinkErr
    end.
Proof.
  unfold cached_ok, start_send. intros Hc. rewrite length_app. cbn [length].
  destruct (Nat.leb_spec BLOCKS_PER_FRAME (length cached + 1)) as [Hl|Hl].
  - assert (length (cached ++ [b]) = BLOCKS_PER_FRAME) as Hn by (rewrite length_app; cbn; lia).
    rewrite take_ge, drop_ge by lia. rewrite app_nil_r. destruct a.
    + eexists _, _, _. split; [done|]. cbn [length concat app]. rewrite !app_nil_r.
      split; [unfold BLOCKS_PER_FRAME; lia|]. split; [done|]. constructor; [|done].
      unfold frame_size_ok. rewrite Hn. unfold BLOCKS_PER_FRAME. lia.
    + rewrite last_snoc, removelast_last. cbn [unwrap obind]. by eexists _, _, _.
    + by eexists _, _, _.
  - eexists _, _, _. split; [done|]. rewrite length_app. cbn [length concat app]. split; [lia|]. by split.
Qed.

Lemma poll_complete_law cached a fl cached' sent r :
  cached_ok cached -> poll_complete cached a fl = (cached', sent, r) -> (forall e, r <> PollErr e) ->
  cached_ok cached' /\ concat sent ++ cached' = cached /\ Forall frame_size_ok sent.
Proof.
  unfold poll_complete. intros Hc. destruct cached as [|b cached]; [by intros [= <- <- <-]|].
  destruct a; intros [= <- <- <-] He; [|done|by destruct (He tt)].
  split; [unfold cached_ok, BLOCKS_PER_FRAME; cbn; lia|]. cbn [concat app]. rewrite !app_nil_r.
  split; [done|]. constructor; [|done]. unfold frame_size_ok, cached_ok in *. cbn [length] in *. lia.
Qed.

(** the messages that an inbound half with a peer's hash reads *)
Definition up_msgs (hash : Hash) (up : list (Poll (option FrameIn) unit)) : list Message :=
  concat (map (fun a => match a with Ready (Some w) => frame_msgs hash w | _ => [] end) up).

Definition up_readable (hash : Hash) (up : list (Poll (option FrameIn) unit)) : Prop :=
  Forall (fun a => match a with Ready (Some w) => frame_readable hash w | _ => True end) up.

Lemma inbound_law s up :
  up_readable (ib_hash s) up ->
  exists s' up' r, InboundSession_poll s up = cret (s', up', r) /\ ib_hash s' = ib_hash s /\
    exists read, up = read ++ up' /\
      cached_msgs s ++ up_msgs (ib_hash s) read = match r with Ready (Some m) => [m] | _ => [] end ++ cached_msgs s' /\
      match r with
      | Ready (Some _) => True
      | Ready None => last read = Some (Ready None)
      | NotReady => up' = [] \/ last read = Some NotReady
      | PollErr e => last read = Some (PollErr e)
      end.
Proof.
  intros Hu. revert s Hu. induction up as [|a up IH]; intros s Hu.
  - cbn [InboundSession_poll]. destruct (cached_msgs s) as [|m ms] eqn:Ec.
    + eexists _, _, _. split; [done|]. split; [done|]. exists []. rewrite Ec. by auto.
    + eexists _, _, _. split; [done|]. split; [done|]. exists []. split; [done|]. cbn. by rewrite app_nil_r.
  - cbn [InboundSession_poll]. destruct (cached_msgs s) as [|m ms] eqn:Ec.
    2: { eexists _, _, _. split; [done|]. split; [done|]. exists []. split; [done|]. cbn. by rewrite app_nil_r. }
    apply Forall_cons in Hu as [Ha Hu]. destruct a as [[f|]| |e].
    + destruct Ha as [ms Hms]. rewrite Hms. cbn [cret cbind].
      assert (frame_msgs (ib_hash s) f = ms) as Hf by (unfold frame_msgs; by rewrite Hms).
      destruct ms as [|m ms].
      * destruct (IH (mkInboundSession (ib_hash s) []) Hu) as (s' & up' & r & -> & Hh & read & -> & E & Hstop).
        eexists _, _, _. split; [done|]. split; [done|]. exists (Ready (Some f) :: read). split; [done|].
        split; [cbn in E; unfold up_msgs in *; cbn; by rewrite Hf|]. rewrite last_cons.
        destruct r as [[m|]| |e]; [done|by rewrite Hstop| |by rewrite Hstop].
        destruct Hstop as [Hr|Hr]; [by left|right; by rewrite Hr].
      * eexists _, _, _. split; [done|]. split; [done|]. exists [Ready (Some f)]. split; [done|]. split; [|done].
        unfold up_msgs. cbn. by rewrite Hf, app_nil_r.
    + eexists _, _, _. split; [done|]. split; [done|]. exists [Ready None]. split; [done|]. by rewrite Ec.
    + eexists _, _, _. split; [done|]. split; [done|]. exists [NotReady]. split; [done|]. rewrite Ec. by auto.
    + eexists _, _, _. split; [done|]. split; [done|]. exists [PollErr e]. split; [done|]. by rewrite Ec.
Qed.

#[export] Instance ntcp2_laws : SessionLaws ntcp2_kind.
Proof.
  refine (@Build_SessionLaws ntcp2_kind (fun cached => cached) (fun f => f) frame_size_ok cached_msgs Hash ib_hash
    frame_msgs cached_ok frame_readable _ _ _).
  - intros cached b a Hc. destruct (start_send_law cached b a Hc) as (c' & sent & r & H & Hr).
    exists c', sent, r. split; [exact H|]. by rewrite map_id.
  - intros cached a fl c' sent r Hc H He. rewrite map_id. exact (poll_complete_law cached a fl c' sent r Hc H He).
  - intros s up Hu. exact (inbound_law s up Hu).
Defined.

(** a run of a new session keeps everything in order *)
Lemma ntcp2_session_run (hash : Hash) (envs : list (SessionEnv ntcp2_kind)) :
  Forall (fun env : SessionEnv ntcp2_kind => up_readable hash (sv_upstream env)) envs ->
  exists s' sent ms r, Session_run (new_session hash) envs = cret (s', sent, ms, r) /\
    (r = NotReady ->
     Forall frame_size_ok sent /\
     concat sent ++ to_send s' = concat (map sv_arrivals envs) /\
     exists read, sublist read (concat (map sv_upstream envs)) /\
       up_msgs hash read = ms ++ cached_msgs (ib s')).
Proof.
  intros Hu. assert (ob_inv (ob (new_session hash))) as Ho.
  { change (0 < BLOCKS_PER_FRAME)%nat. unfold BLOCKS_PER_FRAME. lia. }
  destruct (run_order (new_session hash) envs Ho Hu) as (s' & sent & ms & r & H & Hr).
  exists s', sent, ms, r. split; [exact H|]. intros E. destruct (Hr E) as (K & E1 & read & Hs & E2).
  split; [exact K|]. split; [|by exists read].
  unfold sent_items in E1. cbn [wire_items ntcp2_laws] in E1. rewrite map_id in E1. exact E1.
Qed.

End Lemmas.

(** ** Properties *)
Module Ntcp2SessionProps.
Section Props.
Context {nom : Nom} {cf : CookieFactory} {bu : BigUintOps} {sc : SigCrates} {sha : Sha2}.

(** Whatever a new NTCP2 session meets, every poll returns; the blocks that
    it was given leave in order, each once, in frames of one to ten blocks, and
    those that have not left are still held; and the messages of the frames that
    it has read go to the subsystems in the order of their blocks. *)
Theorem ntcp2_session_fifo (hash : Hash) (envs : list (SessionEnv ntcp2_kind)) :
  Forall (fun env : SessionEnv ntcp2_kind => up_readable hash (sv_upstream env)) envs ->
  exists s' sent ms r, Session_run (new_session hash) envs = cret (s', sent, ms, r) /\
    (r = NotReady ->
     Forall frame_size_ok sent /\
     concat sent ++ to_send s' = concat (map sv_arrivals envs) /\
     exists read, sublist read (concat (map sv_upstream envs)) /\
       up_msgs hash read = ms ++ cached_msgs (ib s')).
Proof. apply ntcp2_session_run. Qed.

(** A router info block is taken in only when it is the peer's own, and then
    as a database store under the peer's hash; message blocks are handed over as
    they are, and no other block makes a message. *)
Theorem handle_block_spec (hash : Hash) (id now : Z) (b : Block) (m : Message) :
  handle_block hash id now b = cret (Some m) <->
  (exists ri f, b = BlkRouterInfo ri f /\ RouterIdentity_hash (router_id ri) = Ret (Some hash) /\
     m = Message_from_payload id now (MDatabaseStore (mkDatabaseStore hash 0 None (DsRI ri)))) \/
  b = BlkMessage m.
Proof.
  destruct b as [ts|o|ri f|msg|v r d|n|t d]; cbn [handle_block].
  1,2,5,6,7: split; [done|]; by intros [(? & ? & [=] & _)|[=]].
  - unfold DatabaseStore_from_ri. destruct (RouterIdentity_hash (router_id ri)) as [[h|]|] eqn:Eh; cbn [cbind].
    + case_bool_decide as Hh; cbn [negb].
      * subst h. cbn. split; [intros [= <-]; left; eauto|].
        intros [(ri' & f' & [= <- <-] & _ & ->)|[=]]. done.
      * split; [done|]. intros [(ri' & f' & [= <- <-] & E & _)|[=]]. congruence.
    + split; [done|]. intros [(ri' & f' & [= <- <-] & E & _)|[=]]. congruence.
    + split; [done|]. intros [(ri' & f' & [= <- <-] & E & _)|[=]]. congruence.
  - split; [intros [= ->]; by right|]. intros [(? & ? & [=] & _)|[= ->]]. done.
Qed.

End Props.

#[local] Existing Instances nom_ref cf_ref biguint_ref sigcrates_ref sha2_ref.

Definition sample_env : SessionEnv ntcp2_kind :=
  @mkSessionEnv ntcp2_kind (replicate 12 (BlkDateTime 7)) (fun _ => SinkReady) SinkReady NotReady
    [Ready (Some [(BlkPadding 3, (0, 0)); (BlkMessage dummy_data, (1, 1))]); NotReady] [Ready tt].

Lemma ntcp2_session_fifo_witness :
  exists s' sent ms r, Session_run (new_session (mkHash [1])) [sample_env] = cret (s', sent, ms, r) /\
    (r = NotReady ->
     Forall frame_size_ok sent /\
     concat sent ++ to_send s' = concat (map sv_arrivals [sample_env]) /\
     exists read, sublist read (concat (map sv_upstream [sample_env])) /\
       up_msgs (mkHash [1]) read = ms ++ cached_msgs (ib s')).
Proof.
  apply (ntcp2_session_fifo (mkHash [1]) [sample_env]).
  constructor; [|constructor]. constructor; [by exists [dummy_data]|]. by constructor.
Defined.

(** the sample's frames: one full, one with the rest *)
Example sample_sent :
  match Session_run (new_session (mkHash [1])) [sample_env] with
  | Ret (Some (_, sent, ms, _)) => Some (map length sent, length ms)
  | _ => None
  end = Some ([10; 2], 1)%nat.
Proof. vm_compute. reflexivity. Qed.

End Ntcp2SessionProps.
