(* ===== verification/Duplex.v ===== *)
(** * Two state machines at the ends of a connection

    A handshake of [src/transport/ntcp/handshake/mod.rs] or
    [src/transport/ntcp2/handshake/mod.rs] is a future whose [poll] is a loop
    over the states of a machine.  A round of the loop gets the bytes that have
    arrived, and says which it leaves, which it writes, and whether the loop goes
    on.  This file runs two such machines against each other over two pipes, in
    any interleaving of their polls, and says what their rounds must promise so
    that the pair never gets stuck. *)

From S2P Require Import Prelude.

(** what one round of a [poll] loop comes to *)
Inductive HsStep (R E : Type) := Again | Pending | Finished (r : R) | Failed (e : E).
Arguments Again {R E}.
Arguments Pending {R E}.
Arguments Finished {R E} r.
Arguments Failed {R E} e.

(** a round: the machine, the bytes that are left to read, the bytes written *)
Definition Round (H R E : Type) : Type := H -> bytes -> comp (H * bytes * bytes * HsStep R E).

(** an end of the connection: still at it, through, or given up ([None]: out of
    fuel) *)
Inductive Party (H R E : Type) := Running (h : H) | Through (r : R) | GivenUp (e : option E).
Arguments Running {H R E} h.
Arguments Through {H R E} r.
Arguments GivenUp {H R E} e.

Section Poll.
Context {H R E : Type} (step : Round H R E).

(** the [loop] of [poll]; [Again]: out of fuel *)
Fixpoint poll_loop (fuel : nat) (h : H) (inp : bytes) : comp (H * bytes * bytes * HsStep R E) :=
  match fuel with
  | O => cret (h, inp, [], Again)
  | S fuel =>
      let* (h, inp, out, s) := step h inp in
      match s with
      | Again => let* (h, inp, out', s) := poll_loop fuel h inp in cret (h, inp, out ++ out', s)
      | _ => cret (h, inp, out, s)
      end
  end.

Definition party_of (h : H) (s : HsStep R E) : Party H R E :=
  match s with Finished r => Through r | Failed e => GivenUp (Some e) | Pending => Running h | Again => GivenUp None end.

(** polling an end; it is polled no more once it is through *)
Definition poll_party (fuel : nat) (p : Party H R E) (inp : bytes) : comp (Party H R E * bytes * bytes) :=
  match p with
  | Running h => let* (h, inp, out, s) := poll_loop fuel h inp in cret (party_of h s, inp, out)
  | _ => cret (p, inp, [])
  end.

End Poll.

(** ** One end *)

Section End.
Context {H R E : Type} (step : Round H R E) (fuel : nat).

(** [at_ k h fut unread]: [h] is at a place with at most [k] rounds before the
    last one; it will still write [fut] and still read [unread]. *)
Context (at_ : nat -> H -> bytes -> bytes -> Prop) (result : R).

(** [ready]: nothing but missing bytes keeps the round from going on;
    [stuck fut fb]: where it can then be, [fb] being what the peer has yet to
    write. *)
Context (ready : Prop) (stuck : bytes -> bytes -> Prop).

(** A round goes on to a later place, or waits, or ends the handshake. *)
Definition round_ok (k : nat) (fut unread fb : bytes) (h' : H) (inp' out : bytes) (s : HsStep R E) : Prop :=
  match s with
  | Again => exists k' fut' unread', (k' < k)%nat /\ at_ k' h' fut' unread' /\ fut = out ++ fut' /\ inp' ++ fb = unread'
  | Pending => exists fut' unread', at_ k h' fut' unread' /\ fut = out ++ fut' /\ inp' ++ fb = unread' /\
      (ready -> stuck fut' fb)
  | Finished r => r = result /\ fut = out /\ inp' ++ fb = []
  | Failed _ => False
  end.

Definition rounds_ok : Prop :=
  forall k h fut unread inp fb, at_ k h fut unread -> inp ++ fb = unread ->
    exists h' inp' out s, step h inp = cret (h', inp', out, s) /\ round_ok k fut unread fb h' inp' out s.

(** where an end is, through included *)
Definition party_at (p : Party H R E) (fut unread : bytes) : Prop :=
  match p with
  | Running h => exists k, (k < fuel)%nat /\ at_ k h fut unread
  | Through r => r = result /\ fut = [] /\ unread = []
  | GivenUp _ => False
  end.

Lemma poll_rounds : rounds_ok -> forall n k h fut unread inp fb,
  (k < n)%nat -> at_ k h fut unread -> inp ++ fb = unread ->
  exists h' inp' out s, poll_loop step n h inp = cret (h', inp', out, s) /\
    match s with
    | Again => False
    | Pending => exists k' fut' unread', (k' <= k)%nat /\ at_ k' h' fut' unread' /\ fut = out ++ fut' /\ inp' ++ fb = unread' /\
        (ready -> stuck fut' fb)
    | Finished r => r = result /\ fut = out /\ inp' ++ fb = []
    | Failed _ => False
    end.
Proof.
  intros Hstep n. induction n as [|n IH]; intros k h fut unread inp fb Hk Hat Hi; [lia|]. cbn [poll_loop].
  destruct (Hstep k h fut unread inp fb Hat Hi) as (h1 & inp1 & out1 & s1 & -> & Hs). cbn [cret cbind].
  destruct s1 as [| |r|e]; [| | |done].
  - destruct Hs as (k1 & fut1 & unread1 & Hlt & Hat1 & -> & Hi1).
    destruct (IH k1 h1 fut1 unread1 inp1 fb ltac:(lia) Hat1 Hi1) as (h2 & inp2 & out2 & s2 & -> & Hs2). cbn [cret cbind].
    eexists _, _, _, _. split; [done|]. destruct s2 as [| |r|e]; [done| | |done].
    + destruct Hs2 as (k2 & fut2 & unread2 & Hle & Hat2 & -> & Hi2 & Hst). exists k2, fut2, unread2.
      split; [lia|]. split; [done|]. split; [by rewrite app_assoc|done].
    + destruct Hs2 as (-> & -> & Hi2). by split_and!.
  - destruct Hs as (fut1 & unread1 & Hat1 & -> & Hi1 & Hst). eexists _, _, _, _. split; [done|].
    exists k, fut1, unread1. by split_and!.
  - eexists _, _, _, _. by split.
Qed.

Lemma party_polls p fut inp fb : rounds_ok -> party_at p fut (inp ++ fb) ->
  exists p' inp' out fut', poll_party step fuel p inp = cret (p', inp', out) /\ fut = out ++ fut' /\
    party_at p' fut' (inp' ++ fb) /\
    (ready -> (fut' = [] /\ exists r, p' = Through r) \/ stuck fut' fb).
Proof.
  intros Hstep Hp. unfold poll_party. destruct p as [h|r|e]; [| |done].
  - destruct Hp as (k & Hk & Hat).
    destruct (poll_rounds Hstep fuel k h fut _ inp fb Hk Hat eq_refl) as (h' & inp' & out & s & -> & Hs). cbn [cret cbind].
    eexists _, inp', out. destruct s as [| |r|e]; [done| | |done].
    + destruct Hs as (k' & fut' & unread' & Hle & Hat' & -> & <- & Hst). exists fut'. split; [done|]. split; [done|].
      split; [exists k'; split; [lia|done]|]. intros Hr. right. by apply Hst.
    + destruct Hs as (-> & -> & Hi'). exists []. rewrite app_nil_r. split; [done|]. split; [done|].
      split; [by split_and!|]. intros _. left. split; [done|]. by eexists.
  - destruct Hp as (-> & -> & Hi). exists (Through result), inp, [], []. split; [done|]. split; [done|].
    split; [by split_and!|]. intros _. left. split; [done|]. by eexists.
Qed.

End End.

(** ** One end, against anyone *)

Section Alone.
Context {H R E Env : Type} (step : Env -> Round H R E) (fuel : nat).

(** Polls until the end is through or gives up, with the bytes that have arrived
    before each; the bytes written are left out. *)
Fixpoint polls (h : H) (inp : bytes) (evs : list (Env * bytes)) : comp (H * bytes * HsStep R E) :=
  match evs with
  | [] => cret (h, inp, Pending)
  | (env, arrived) :: evs =>
      let* (h, inp, _, s) := poll_loop (step env) fuel h (inp ++ arrived) in
      match s with Pending => polls h inp evs | _ => cret (h, inp, s) end
  end.

(** what every round keeps up, and what it has then when it is through *)
Context (inv : H -> Prop) (post : R -> Prop).

Definition round_keeps (s : HsStep R E) (h' : H) : Prop :=
  match s with Again | Pending => inv h' | Finished r => post r | Failed _ => True end.

Context (keeps : forall env h inp h' inp' out s, inv h -> step env h inp = cret (h', inp', out, s) -> round_keeps s h').

Lemma poll_loop_keeps env n : forall h inp h' inp' out s, inv h ->
  poll_loop (step env) n h inp = cret (h', inp', out, s) -> round_keeps s h'.
Proof.
  induction n as [|n IH]; intros h inp h' inp' out s Hi; cbn [poll_loop]; [by intros [= <- _ _ <-]|].
  destruct (step env h inp) as [[[[[h1 inp1] out1] s1]|]|] eqn:E1; cbn [cbind]; try done.
  pose proof (keeps _ _ _ _ _ _ _ Hi E1) as H1.
  destruct s1 as [| |r|e]; [|by intros [= <- _ _ <-]..].
  destruct (poll_loop (step env) n h1 inp1) as [[[[[h2 inp2] out2] s2]|]|] eqn:E2; cbn [cbind]; try done.
  intros [= <- _ _ <-]. exact (IH _ _ _ _ _ _ H1 E2).
Qed.

Lemma polls_keep evs : forall h inp h' inp' s, inv h -> polls h inp evs = cret (h', inp', s) -> round_keeps s h'.
Proof.
  induction evs as [|[env arrived] evs IH]; intros h inp h' inp' s Hi; cbn [polls]; [by intros [= <- _ <-]|].
  destruct (poll_loop (step env) fuel h (inp ++ arrived)) as [[[[[h1 inp1] out1] s1]|]|] eqn:E1; cbn [cbind]; try done.
  pose proof (poll_loop_keeps _ _ _ _ _ _ _ _ Hi E1) as H1.
  destruct s1 as [| |r|e]; [by intros [= <- _ <-]| |by intros [= <- _ <-]..]. by apply IH.
Qed.

End Alone.

(** ** Two ends *)

Section Net.
Context {HA RA EA EnvA HB RB EB EnvB : Type}.
Context (round_a : EnvA -> Round HA RA EA) (round_b : EnvB -> Round HB RB EB) (fuel : nat).

(** [ab], [ba]: the bytes on their way to Bob, and to Alice *)
Record Net := mkNet { alice : Party HA RA EA; bob : Party HB RB EB; ab : bytes; ba : bytes }.

(** a poll, with what the poller meets *)
Inductive NetEvent := PollAlice (env : EnvA) | PollBob (env : EnvB).

Definition net_step (w : Net) (e : NetEvent) : comp Net :=
  match e with
  | PollAlice env =>
      let* (p, inp, out) := poll_party (round_a env) fuel (alice w) (ba w) in cret (mkNet p (bob w) (ab w ++ out) inp)
  | PollBob env =>
      let* (p, inp, out) := poll_party (round_b env) fuel (bob w) (ab w) in cret (mkNet (alice w) p inp (ba w ++ out))
  end.

Fixpoint net_run (w : Net) (es : list NetEvent) : comp Net :=
  match es with
  | [] => cret w
  | e :: es => let* w := net_step w e in net_run w es
  end.

(** *** An exchange that both ends follow *)

Context (alice_at : nat -> HA -> bytes -> bytes -> Prop) (result_a : RA) (ok_a ready_a : EnvA -> Prop).
Context (bob_at : nat -> HB -> bytes -> bytes -> Prop) (result_b : RB) (ok_b ready_b : EnvB -> Prop).
Context (stuck_a stuck_b : bytes -> bytes -> Prop).
Context (alice_rounds : forall env, ok_a env -> rounds_ok (round_a env) alice_at result_a (ready_a env) stuck_a).
Context (bob_rounds : forall env, ok_b env -> rounds_ok (round_b env) bob_at result_b (ready_b env) stuck_b).

(** What is under way: each pipe, with what its writer will still write, is
    what its reader will still read. *)
Definition net_at (w : Net) (fa fb : bytes) : Prop :=
  party_at fuel alice_at result_a (alice w) fa (ba w ++ fb) /\
  party_at fuel bob_at result_b (bob w) fb (ab w ++ fa).

Definition event_ok (e : NetEvent) : Prop := match e with PollAlice env => ok_a env | PollBob env => ok_b env end.

Lemma alice_polls w fa fb env : net_at w fa fb -> ok_a env ->
  exists w' fa', net_step w (PollAlice env) = cret w' /\ net_at w' fa' fb /\ bob w' = bob w /\
    (ready_a env -> (fa' = [] /\ exists r, alice w' = Through r) \/ stuck_a fa' fb).
Proof.
  intros [Ha Hb] Hok. unfold net_step.
  destruct (party_polls _ fuel alice_at result_a (ready_a env) stuck_a _ _ _ _ (alice_rounds env Hok) Ha)
    as (p & inp & out & fa' & -> & -> & Hp & Hr). cbn [cret cbind].
  eexists _, fa'. split; [done|]. split; [|by split]. split; cbn [alice bob ab ba]; [done|by rewrite <- app_assoc].
Qed.

Lemma bob_polls w fa fb env : net_at w fa fb -> ok_b env ->
  exists w' fb', net_step w (PollBob env) = cret w' /\ net_at w' fa fb' /\ alice w' = alice w /\
    (ready_b env -> (fb' = [] /\ exists r, bob w' = Through r) \/ stuck_b fb' fa).
Proof.
  intros [Ha Hb] Hok. unfold net_step.
  destruct (party_polls _ fuel bob_at result_b (ready_b env) stuck_b _ _ _ _ (bob_rounds env Hok) Hb)
    as (p & inp & out & fb' & -> & -> & Hp & Hr). cbn [cret cbind].
  eexists _, fb'. split; [done|]. split; [|by split]. split; cbn [alice bob ab ba]; [by rewrite <- app_assoc|done].
Qed.

Lemma net_runs es : forall w fa fb, net_at w fa fb -> Forall event_ok es ->
  exists w' fa' fb', net_run w es = cret w' /\ net_at w' fa' fb'.
Proof.
  induction es as [|e es IH]; intros w fa fb Hw He; cbn [net_run]; [by exists w, fa, fb|].
  apply Forall_cons in He as [He Hes]. destruct e as [env|env].
  - destruct (alice_polls w fa fb env Hw He) as (w1 & fa1 & -> & Hw1 & _). cbn [cret cbind]. by eapply IH.
  - destruct (bob_polls w fa fb env Hw He) as (w1 & fb1 & -> & Hw1 & _). cbn [cret cbind]. by eapply IH.
Qed.

(** whoever is not running is through, with the result of the exchange *)
Lemma net_at_ends w fa fb : net_at w fa fb ->
  ((exists h, alice w = Running h) \/ alice w = Through result_a) /\
  ((exists h, bob w = Running h) \/ bob w = Through result_b).
Proof.
  intros [Ha Hb]. split.
  - destruct (alice w) as [h|r|e]; [left; by eexists|right; by destruct Ha as (-> & _)|done].
  - destruct (bob w) as [h|r|e]; [left; by eexists|right; by destruct Hb as (-> & _)|done].
Qed.

End Net.

Arguments Net HA RA EA HB RB EB : clear implicits.
Arguments NetEvent EnvA EnvB : clear implicits.

(** ** Writing with little room *)

Lemma room_all room (rem : bytes) : len rem <= room -> zdrop room rem = [] /\ ztake room rem = rem.
Proof.
  intros H. unfold zdrop, ztake, len in *. split; [apply drop_ge|apply take_ge]; lia.
Qed.

Lemma room_some room (rem : bytes) x l : zdrop room rem = x :: l -> room < len rem /\ len (x :: l) <= len rem.
Proof.
  intros E. split.
  - destruct (Z.le_gt_cases (len rem) room) as [H|H]; [|lia]. destruct (room_all room rem H) as [E' _]. congruence.
  - rewrite <- E. unfold zdrop, len. rewrite length_drop. lia.
Qed.

(** ** The clock, in nanoseconds since the epoch *)

(** [ts = (now + 500 ms).as_secs() as u32]; a clock before 1970 fails the [expect] *)
Definition timestamp (now : Z) : outcome Z :=
  let! _ := unwrap (if 0 <=? now then Some tt else None) in
  Ret (as_u32 ((now + 500 * 10 ^ 6) / 10 ^ 9)).

(** [rtt_timer.elapsed()] *)
Definition elapsed (timer now : Z) : outcome Z := unwrap (if timer <=? now then Some (now - timer) else None).

Lemma elapsed_ok timer now : timer <= now -> elapsed timer now = Ret (now - timer).
Proof. intros H. unfold elapsed. by rewrite (proj2 (Z.leb_le _ _) H). Qed.

Lemma timestamp_ok now : 0 <= now -> exists ts, timestamp now = Ret ts /\ u32_ok ts.
Proof.
  intros H. unfold timestamp. rewrite (proj2 (Z.leb_le _ _) H). cbn [unwrap obind]. eexists. split; [done|].
  by apply Z.mod_pos_bound.
Qed.
