(* ===== verification/Ntcp2Handshake.v ===== *)
(** * The NTCP2 handshake

    [IBHandshake] and [OBHandshake] of [src/transport/ntcp2/handshake/mod.rs]:
    two state machines that exchange three Noise messages, the first two with
    padding in the clear, and end with the codecs of a session.  The handshake
    state of the Noise crate is a class, as are keys for SipHash and the base64
    decoder.  Each machine's draws and clock readings are its arguments; every
    poll gets the bytes that have arrived and says how many can be written. *)

From S2P Require Import Prelude Nom Cookie Util Wire Crypto Data Address Dest I2np Message Framed Ntcp2Frame Ntcp2Codec Duplex.

(** ** The crates *)

(** how much longer the [n]-th message is than its content *)
Definition hs_overhead (n : nat) : Z := match n with 2%nat => 64 | _ => 48 end.

(** [i2p_snow::Session] during the handshake.  [hs_sync n w r]: [w] is about to
    write the [n]-th message, which [r] reads; they take turns. *)
Class NoiseHandshake {noise : NoiseTransport} := {
  hs_st : Type;
  (** our static key, the obfuscation key and IV *)
  build_responder : bytes -> bytes -> bytes -> option hs_st;
  (** our static key, the peer's public one, the obfuscation key and IV *)
  build_initiator : bytes -> bytes -> bytes -> bytes -> option hs_st;
  public_of : bytes -> bytes;
  hs_write : hs_st -> bytes -> bytes -> hs_st * bytes * result Z unit;
  hs_read : hs_st -> bytes -> bytes -> hs_st * bytes * result Z unit;
  set_h_data : hs_st -> Z -> bytes -> hs_st * result unit unit;
  (** [initialize_ask] and [finalize_ask] of one label *)
  finalize_ask : hs_st -> bytes -> hs_st * option (bytes * bytes);
  into_transport_mode : hs_st -> option noise_st;

  hs_sync : nat -> hs_st -> hs_st -> Prop;
  hs_start : forall si sr key iv i r,
    build_initiator si (public_of sr) key iv = Some i -> build_responder sr key iv = Some r -> hs_sync 0 i r;
  hs_ok : forall n w r p out, hs_sync n w r -> (n < 3)%nat ->
    len p + hs_overhead n <= 65535 -> len p + hs_overhead n <= len out ->
    exists w' r' ct,
      hs_write w p out = (w', ct ++ zdrop (len p + hs_overhead n) out, Ok (len p + hs_overhead n)) /\
      len ct = len p + hs_overhead n /\
      (forall buf, len p <= len buf -> hs_read r ct buf = (r', p ++ zdrop (len p) buf, Ok (len p))) /\
      hs_sync (S n) r' w';
  (** the same data on both sides, whoever is next *)
  h_data_ok : forall n k d w r, hs_sync n w r -> exists w' r',
    set_h_data w k d = (w', Ok tt) /\ set_h_data r k d = (r', Ok tt) /\ hs_sync n w' r';
  (** after the last message, both have the same additional keys *)
  ask_ok : forall lbl w r, hs_sync 3 w r -> exists w' r' k0 k1 tw tr,
    finalize_ask w lbl = (w', Some (k0, k1)) /\ finalize_ask r lbl = (r', Some (k0, k1)) /\
    len k0 = 32 /\ len k1 = 32 /\ into_transport_mode w' = Some tw /\ into_transport_mode r' = Some tr /\
    noise_paired tw tr /\ noise_paired tr tw
}.

(** [SipHasher::new_with_keys] *)
Class SipKeys {sip : SipHash} := sip_new : Z -> Z -> sip_st.

(** [data_encoding]'s decoder for I2P's base64 *)
Class Base64 := { b64_encode : bytes -> bytes; b64_decode : bytes -> option bytes;
                  b64_ok : forall b, b64_decode (b64_encode b) = Some b }.

(** [u64::from_le_bytes] *)
Definition from_le_bytes (l : bytes) : Z := be_val (rev l).

Definition SESSION_REQUEST_PT_LEN : Z := 16.
Definition SESSION_REQUEST_CT_LEN : Z := 32 + SESSION_REQUEST_PT_LEN + 16.
Definition SESSION_CREATED_PT_LEN : Z := 16.
Definition SESSION_CREATED_CT_LEN : Z := 32 + SESSION_CREATED_PT_LEN + 16.

Definition NTCP_STYLE : I2PString := i2p_str "NTCP".
Definition NTCP2_STYLE : I2PString := i2p_str "NTCP2".
Definition NTCP2_VERSION : I2PString := i2p_str "2".
Definition NTCP2_OPT_V : I2PString := i2p_str "v".
Definition NTCP2_OPT_S : I2PString := i2p_str "s".
Definition NTCP2_OPT_I : I2PString := i2p_str "i".

(** an address that announces version 2, a static key and an IV *)
Definition ntcp2_filter (ra : RouterAddress) : bool :=
  match RouterAddress_option ra NTCP2_OPT_V with
  | Some v => bool_decide (NTCP2_VERSION ∈ to_csv v)
  | None => false
  end &&
  bool_decide (is_Some (RouterAddress_option ra NTCP2_OPT_S)) && bool_decide (is_Some (RouterAddress_option ra NTCP2_OPT_I)).

(** why there is no handshake *)
Inductive HsNewError := HnNoAddress | HnStaticKey | HnNoStaticKey | HnIv | HnNoIv | HnTooLarge (n : Z) | HnGenerate.

(** the I/O errors *)
Inductive HsError := HeIo | HeParse | HeVersion | HeGenerate | HeIncomplete | HeNoFrames | HeNotRouterInfo.

(** [io::read_exact]: the bytes, and what is left *)
Definition read_exact (n : Z) (inp : bytes) : option (bytes * bytes) :=
  if n <=? len inp then Some (ztake n inp, zdrop n inp) else None.

Section Handshake.
Context {nom : Nom} {cf : CookieFactory} {bu : BigUintOps} {sc : SigCrates} {sha : Sha2} {fl : Flate2}.
Context {noise : NoiseTransport} {sip : SipHash} {hs : NoiseHandshake} {sk : SipKeys}.
Context (oc : bool).

(** the content of a message with a buffer of its size *)
Definition gen_exact (g : gen) (n : Z) : outcome (result bytes HsError) :=
  let! (buf, r) := g (zeros n, 0) in
  match r with
  | Ok sz => if sz =? n then Ret (Ok buf) else Panic
  | Err (BufferTooSmall _) => Panic
  | Err _ => Ret (Err HeGenerate)
  end.

(** a message with padding in the clear, both given to [noise] *)
Definition write_padded (noise : hs_st) (content : bytes) (ct_len k : Z) (pad : bytes) : outcome (hs_st * bytes) :=
  let '(noise, buf, r) := hs_write noise content (zeros (ct_len + len pad)) in
  let! _ := unwrap (rok r) in
  let buf := ztake ct_len buf ++ pad in
  let '(noise, r) := set_h_data noise k (zdrop ct_len buf) in
  let! _ := unwrap (rok r) in
  Ret (noise, buf).

(** the three numbers in an additional key *)
Definition ask_words (k : bytes) : outcome (Z * Z * Z) :=
  if len k <? 24 then Panic
  else Ret (from_le_bytes (slice 0 8 k), from_le_bytes (slice 8 16 k), from_le_bytes (slice 16 24 k)).

(** The codec of the session; [to_bob]: the keys for what Alice sends,
    [responder]: we are Bob. *)
Definition finish (responder : bool) (noise : hs_st) : outcome Codec :=
  let '(noise, ask) := finalize_ask noise (ascii_bytes "siphash") in
  let! (ask0, ask1) := unwrap ask in
  let! (ek0, ek1, eiv) := ask_words (if responder then ask1 else ask0) in
  let! (dk0, dk1, div) := ask_words (if responder then ask0 else ask1) in
  let! noise := unwrap (into_transport_mode noise) in
  Ret (mkCodec noise (zeros NTCP2_MTU) (sip_new ek0 ek1) eiv (sip_new dk0 dk1) div None).

(** ** Bob *)

Inductive IBHandshakeState :=
| IbSessionRequest (n : Z)
| IbSessionRequestPadding (n : Z)
| IbSessionCreated (rem : bytes) (timer : Z)
| IbSessionConfirmed (n : Z) (timer : Z).

Record IBHandshake := mkIBHandshake { ib_noise : option hs_st; sclen : Z; ib_state : IBHandshakeState }.

Definition IBHandshake_new (static_key aesobfse_key aesobfse_iv : bytes) : outcome IBHandshake :=
  let! noise := unwrap (build_responder static_key aesobfse_key aesobfse_iv) in
  Ret (mkIBHandshake (Some noise) 0 (IbSessionRequest SESSION_REQUEST_CT_LEN)).

(** what a handshake draws and reads from the clock: when it makes its message
    with padding, the padding, and the time when the round trip is over *)
Record HsDraws := mkHsDraws { hd_now : Z; hd_pad : bytes; hd_later : Z }.

(** what one poll meets: whether the connection fails, and how many bytes it takes *)
Record HsEnv := mkHsEnv { he_fault : bool; he_room : Z }.

(** One round of [IBHandshake::poll]: the handshake, the bytes that are left to
    read, the bytes written. *)
Definition ib_step (d : HsDraws) (env : HsEnv) (h : IBHandshake) (inp : bytes)
  : outcome (IBHandshake * bytes * bytes * HsStep (RouterInfo * Codec) HsError) :=
  let! noise := unwrap (ib_noise h) in
  let gone := mkIBHandshake None (sclen h) (ib_state h) in
  if he_fault env then Ret (gone, inp, [], Failed HeIo)
  else
    match ib_state h with
    | IbSessionRequest n =>
        match read_exact n inp with
        | None => Ret (h, inp, [], Pending)
        | Some (msg, inp) =>
            let '(noise, buf, r) := hs_read noise msg (zeros SESSION_REQUEST_PT_LEN) in
            let! _ := unwrap (rok r) in
            let! p := session_request buf in
            match p with
            | Err _ => Ret (gone, inp, [], Failed HeParse)
            | Ok (_, (ver, padlen, sclen, _)) =>
                if negb (ver =? 2) then Ret (gone, inp, [], Failed HeVersion)
                else Ret (mkIBHandshake (Some noise) sclen (IbSessionRequestPadding padlen), inp, [], Again)
            end
        end
    | IbSessionRequestPadding n =>
        match read_exact n inp with
        | None => Ret (h, inp, [], Pending)
        | Some (padding, inp) =>
            let '(noise, r) := set_h_data noise 2 padding in
            let! _ := unwrap (rok r) in
            let! ts_b := timestamp (hd_now d) in
            let! c := gen_exact (gen_session_created (len (hd_pad d)) ts_b) SESSION_CREATED_PT_LEN in
            match c with
            | Err e => Ret (gone, inp, [], Failed e)
            | Ok sc_buf =>
                let! (noise, buf) := write_padded noise sc_buf SESSION_CREATED_CT_LEN 3 (hd_pad d) in
                Ret (mkIBHandshake (Some noise) (sclen h) (IbSessionCreated buf (hd_now d)), inp, [], Again)
            end
        end
    | IbSessionCreated rem timer =>
        let out := ztake (he_room env) rem in
        match zdrop (he_room env) rem with
        | [] => Ret (mkIBHandshake (Some noise) (sclen h) (IbSessionConfirmed (sclen h + 48) timer), inp, out, Again)
        | rem => Ret (mkIBHandshake (Some noise) (sclen h) (IbSessionCreated rem timer), inp, out, Pending)
        end
    | IbSessionConfirmed n timer =>
        match read_exact n inp with
        | None => Ret (h, inp, [], Pending)
        | Some (msg, inp) =>
            let '(noise, buf, r) := hs_read noise msg (zeros (len msg)) in
            let! l := unwrap (rok r) in
            let! p := session_confirmed oc (ztake l buf) in
            match p with
            | Err (Incomplete _) => Ret (gone, inp, [], Failed HeIncomplete)
            | Err _ => Ret (gone, inp, [], Failed HeParse)
            | Ok (_, []) => Ret (gone, inp, [], Failed HeNoFrames)
            | Ok (_, BlkRouterInfo ri_a _ :: _) =>
                let! _ := elapsed timer (hd_later d) in
                let! codec := finish true noise in
                Ret (gone, inp, [], Finished (ri_a, codec))
            | Ok _ => Ret (gone, inp, [], Failed HeNotRouterInfo)
            end
        end
    end.

(** ** Alice *)

Inductive OBHandshakeState :=
| ObConnecting
| ObSessionRequest (rem : bytes) (timer : Z)
| ObSessionCreated (n : Z) (timer : Z)
| ObSessionCreatedPadding (n : Z)
| ObSessionConfirmed (rem : bytes).

Record OBHandshake := mkOBHandshake {
  ob_noise : option hs_st;
  sc_buf : bytes;
  sc_len : Z;
  peer_ri : RouterInfo;
  ob_state : OBHandshakeState
}.

(** The address of a peer's router info that is connected to. *)
Definition ntcp2_address {txt : IpText} (peer_ri : RouterInfo) : option RouterAddress :=
  match address peer_ri NTCP2_STYLE ntcp2_filter with
  | Some ra => Some ra
  | None => address peer_ri NTCP_STYLE ntcp2_filter
  end.

(** [OBHandshake::new]: the handshake and the address that it connects to.
    [sc_padlen], [draw]: the padding of the last message. *)
Definition OBHandshake_new {txt : IpText} {b64 : Base64} (draw : nat -> Z -> bytes) (sc_padlen : Z)
    (static_key : bytes) (own_ri peer_ri : RouterInfo) : comp (result (OBHandshake * SocketAddr) HsNewError) :=
  match ntcp2_address peer_ri with
  | None => cret (Err HnNoAddress)
  | Some ra =>
      let! addr := unwrap (addr ra) in
      match RouterAddress_option ra NTCP2_OPT_S with
      | None => cret (Err HnNoStaticKey)
      | Some val =>
          match b64_decode (str val) with
          | None => cret (Err HnStaticKey)
          | Some remote_key =>
              let* aesobfse_key := RouterIdentity_hash (router_id peer_ri) in
              match RouterAddress_option ra NTCP2_OPT_I with
              | None => cret (Err HnNoIv)
              | Some val =>
                  match b64_decode (str val) with
                  | None => cret (Err HnIv)
                  | Some iv =>
                      (* [copy_from_slice] *)
                      let! aesobfse_iv := unwrap (if len iv =? 16 then Some iv else None) in
                      let! (sc_buf, r) := gen_session_confirmed draw own_ri sc_padlen (zeros (NTCP2_MTU - 16), 0) in
                      match r with
                      | Err (BufferTooSmall sz) => cret (Err (HnTooLarge sz))
                      | Err _ => cret (Err HnGenerate)
                      | Ok sc_len =>
                          let! noise := unwrap (build_initiator static_key remote_key (hash_bytes aesobfse_key) aesobfse_iv) in
                          cret (Ok (mkOBHandshake (Some noise) (ztake sc_len sc_buf) (sc_len + 16) peer_ri ObConnecting, addr))
                      end
                  end
              end
          end
      end
  end.

(** [conn]: what the connection attempt answers *)
Definition ob_step (d : HsDraws) (conn : Poll unit unit) (env : HsEnv) (h : OBHandshake) (inp : bytes)
  : outcome (OBHandshake * bytes * bytes * HsStep (RouterIdentity * Codec) HsError) :=
  let! noise := unwrap (ob_noise h) in
  let next noise s := mkOBHandshake noise (sc_buf h) (sc_len h) (peer_ri h) s in
  let gone := next None (ob_state h) in
  if he_fault env then Ret (gone, inp, [], Failed HeIo)
  else
    match ob_state h with
    | ObConnecting =>
        match conn with
        | NotReady => Ret (h, inp, [], Pending)
        | PollErr _ => Ret (gone, inp, [], Failed HeIo)
        | Ready _ =>
            let! ts_a := timestamp (hd_now d) in
            let! c := gen_exact (gen_session_request 2 (len (hd_pad d)) (as_u16 (sc_len h)) ts_a) SESSION_REQUEST_PT_LEN in
            match c with
            | Err e => Ret (gone, inp, [], Failed e)
            | Ok sr_buf =>
                let! (noise, buf) := write_padded noise sr_buf SESSION_REQUEST_CT_LEN 2 (hd_pad d) in
                Ret (next (Some noise) (ObSessionRequest buf (hd_now d)), inp, [], Again)
            end
        end
    | ObSessionRequest rem timer =>
        let out := ztake (he_room env) rem in
        match zdrop (he_room env) rem with
        | [] => Ret (next (Some noise) (ObSessionCreated SESSION_CREATED_CT_LEN timer), inp, out, Again)
        | rem => Ret (next (Some noise) (ObSessionRequest rem timer), inp, out, Pending)
        end
    | ObSessionCreated n timer =>
        match read_exact n inp with
        | None => Ret (h, inp, [], Pending)
        | Some (msg, inp) =>
            let '(noise, buf, r) := hs_read noise msg (zeros SESSION_CREATED_PT_LEN) in
            let! _ := unwrap (rok r) in
            let! p := session_created buf in
            match p with
            | Err _ => Ret (gone, inp, [], Failed HeParse)
            | Ok (_, (padlen, _)) =>
                let! _ := elapsed timer (hd_later d) in
                Ret (next (Some noise) (ObSessionCreatedPadding padlen), inp, [], Again)
            end
        end
    | ObSessionCreatedPadding n =>
        match read_exact n inp with
        | None => Ret (h, inp, [], Pending)
        | Some (padding, inp) =>
            let '(noise, r) := set_h_data noise 3 padding in
            let! _ := unwrap (rok r) in
            let '(noise, buf, r) := hs_write noise (sc_buf h) (zeros NTCP2_MTU) in
            let! l := unwrap (rok r) in
            Ret (next (Some noise) (ObSessionConfirmed (ztake l buf)), inp, [], Again)
        end
    | ObSessionConfirmed rem =>
        let out := ztake (he_room env) rem in
        match zdrop (he_room env) rem with
        | [] =>
            let! codec := finish false noise in
            Ret (gone, inp, out, Finished (router_id (peer_ri h), codec))
        | rem => Ret (next (Some noise) (ObSessionConfirmed rem), inp, out, Pending)
        end
    end.

(** ** Polls and the network *)

(** what a poll of Alice meets: what the connection attempt answers, and the rest *)
Record ObEnv := mkObEnv { oe_conn : Poll unit unit; oe_env : HsEnv }.

Definition ib_round (d : HsDraws) (env : HsEnv) : Round IBHandshake (RouterInfo * Codec) HsError :=
  fun h inp => let! r := ib_step d env h inp in cret r.
Definition ob_round (d : HsDraws) (env : ObEnv) : Round OBHandshake (RouterIdentity * Codec) HsError :=
  fun h inp => let! r := ob_step d (oe_conn env) (oe_env env) h inp in cret r.

(** Each round moves to the next state, so six are enough. *)
Definition ib_poll (d : HsDraws) (env : HsEnv) := poll_loop (ib_round d env) 6.
Definition ob_poll (d : HsDraws) (env : ObEnv) := poll_loop (ob_round d env) 6.

Definition ntcp2_run (da db : HsDraws) := net_run (ob_round da) (ib_round db) 6.

(** ** Lemmas *)

Lemma read_exact_ok n a b : len a = n -> read_exact n (a ++ b) = Some (a, b).
Proof.
  intros H. unfold read_exact. rewrite (proj2 (Z.leb_le _ _)) by (rewrite len_app; pose proof (len_nonneg b); lia).
  by rewrite ztake_app, zdrop_app.
Qed.

(** reading [n] bytes of what is still to come: they are there, or not yet *)
Lemma read_exact_cases n a b inp fut : len a = n -> inp ++ fut = a ++ b ->
  (exists inp', read_exact n inp = Some (a, inp') /\ inp' ++ fut = b) \/
  (read_exact n inp = None /\ len inp < n).
Proof.
  intros Ha E. destruct (Z.le_gt_cases n (len inp)) as [Hl|Hl].
  - left. destruct (split_at inp n) as (x & y & -> & Hx); [pose proof (len_nonneg a); lia|done|].
    rewrite <- app_assoc in E. apply app_inj_1 in E as [-> E]; [|unfold len in *; lia].
    exists y. by rewrite read_exact_ok.
  - right. split; [|done]. unfold read_exact. by rewrite (proj2 (Z.leb_gt _ _)).
Qed.

Lemma gen_exact_ok g bs n : writes g bs -> len bs = n -> gen_exact g n = Ret (Ok bs).
Proof.
  intros Hw Hl. unfold gen_exact. pose proof (len_nonneg bs).
  pose proof (writes_ok _ _ Hw [] (zeros n) [] ltac:(rewrite len_zeros; lia)) as E.
  rewrite !app_nil_l, !app_nil_r, len_nil, Z.add_0_l in E. rewrite E. cbn [obind GOk]. by rewrite Hl, Z.eqb_refl.
Qed.

Lemma zdrop_zeros_nil n : zdrop n (zeros n) = [].
Proof. unfold zdrop. apply drop_ge. unfold zeros. rewrite length_replicate. lia. Qed.

(** a message with padding, and how the peer takes both in *)
Lemma write_padded_ok n w r c k pad : hs_sync n w r -> (n < 2)%nat -> len c = 16 ->
  exists w' r' r'' ct, write_padded w c 64 k pad = Ret (w', ct ++ pad) /\ len ct = 64 /\
    hs_read r ct (zeros 16) = (r', c, Ok 16) /\ set_h_data r' k pad = (r'', Ok tt) /\ hs_sync (S n) r'' w'.
Proof.
  intros Hs Hn Hc. assert (hs_overhead n = 48) as Ho by (by destruct n as [|[|n]]; [..|lia]).
  pose proof (len_nonneg pad).
  destruct (hs_ok n w r c (zeros (64 + len pad)) Hs) as (w1 & r1 & ct & Hw & Hct & Hr & Hs1);
    [lia|lia|rewrite len_zeros; lia|].
  rewrite Ho, Hc in *. destruct (h_data_ok (S n) k pad r1 w1 Hs1) as (r2 & w2 & Hr2 & Hw2 & Hs2).
  exists w2, r1, r2, ct. unfold write_padded. rewrite Hw. cbn [rok unwrap obind].
  rewrite ztake_app by done. rewrite zdrop_app by done. rewrite Hw2. cbn [rok unwrap obind].
  split; [done|]. split; [done|]. split; [|done]. rewrite Hr by (rewrite len_zeros; lia).
  by rewrite zdrop_zeros_nil, app_nil_r.
Qed.

(** ** The exchange *)

(** What the two sides will say: the Noise states after each step, the two
    messages with padding, the last message and the codecs. *)
Record Script (da db : HsDraws) (c3 : bytes) (i0 r0 : hs_st) (ri : RouterInfo) (ca cb : Codec) := {
  c1 : bytes; c2 : bytes; ct1 : bytes; ct2 : bytes; ct3 : bytes;
  i1 : hs_st; i2 : hs_st; i2' : hs_st; i3 : hs_st; r1 : hs_st; r1' : hs_st; r2 : hs_st; r3 : hs_st;
  ts_a : Z; ts_b : Z; blocks : Frame;

  sc_ts_a : timestamp (hd_now da) = Ret ts_a;
  sc_c1 : gen_exact (gen_session_request 2 (len (hd_pad da)) (as_u16 (len c3 + 16)) ts_a) 16 = Ret (Ok c1);
  sc_w1 : write_padded i0 c1 64 2 (hd_pad da) = Ret (i1, ct1 ++ hd_pad da);
  sc_ct1 : len ct1 = 64;
  sc_r1 : hs_read r0 ct1 (zeros 16) = (r1, c1, Ok 16);
  sc_p1 : session_request c1 = POk [] (2, len (hd_pad da), len c3 + 16, ts_a);
  sc_h1 : set_h_data r1 2 (hd_pad da) = (r1', Ok tt);

  sc_ts_b : timestamp (hd_now db) = Ret ts_b;
  sc_c2 : gen_exact (gen_session_created (len (hd_pad db)) ts_b) 16 = Ret (Ok c2);
  sc_w2 : write_padded r1' c2 64 3 (hd_pad db) = Ret (r2, ct2 ++ hd_pad db);
  sc_ct2 : len ct2 = 64;
  sc_r2 : hs_read i1 ct2 (zeros 16) = (i2, c2, Ok 16);
  sc_p2 : session_created c2 = POk [] (len (hd_pad db), ts_b);
  sc_h2 : set_h_data i2 3 (hd_pad db) = (i2', Ok tt);

  sc_w3 : hs_write i2' c3 (zeros NTCP2_MTU) = (i3, ct3 ++ zdrop (len c3 + 64) (zeros NTCP2_MTU), Ok (len c3 + 64));
  sc_ct3 : len ct3 = len c3 + 64;
  sc_r3 : hs_read r2 ct3 (zeros (len ct3)) = (r3, c3 ++ zdrop (len c3) (zeros (len ct3)), Ok (len c3));
  sc_p3 : session_confirmed oc c3 = POk [] (BlkRouterInfo ri (mkRouterInfoFlags false) :: blocks);
  sc_later_a : hd_now da <= hd_later da;
  sc_later_b : hd_now db <= hd_later db;
  sc_a : finish false i3 = Ret ca;
  sc_b : finish true r3 = Ret cb
}.

Section Exchange.
Context (da db : HsDraws) (c3 : bytes) (i0 r0 : hs_st) (own_ri bob_ri : RouterInfo) (ca cb : Codec).
Context (scr : Script da db c3 i0 r0 own_ri ca cb).

Let m1 : bytes := ct1 _ _ _ _ _ _ _ _ scr ++ hd_pad da.
Let m2 : bytes := ct2 _ _ _ _ _ _ _ _ scr ++ hd_pad db.
Let m3 : bytes := ct3 _ _ _ _ _ _ _ _ scr.

Definition alice_state (n : hs_st) (s : OBHandshakeState) : OBHandshake := mkOBHandshake (Some n) c3 (len c3 + 16) bob_ri s.

(** where Alice is: what she will still write, what she will still read *)
Inductive alice_at : nat -> OBHandshake -> bytes -> bytes -> Prop :=
| A0 : alice_at 5 (alice_state i0 ObConnecting) (m1 ++ m3) m2
| A1 rem (_ : len rem <= len m1) : alice_at 4 (alice_state (i1 _ _ _ _ _ _ _ _ scr) (ObSessionRequest rem (hd_now da))) (rem ++ m3) m2
| A2 : alice_at 3 (alice_state (i1 _ _ _ _ _ _ _ _ scr) (ObSessionCreated 64 (hd_now da))) m3 m2
| A3 : alice_at 2 (alice_state (i2 _ _ _ _ _ _ _ _ scr) (ObSessionCreatedPadding (len (hd_pad db)))) m3 (hd_pad db)
| A4 rem (_ : len rem <= len m3) : alice_at 1 (alice_state (i3 _ _ _ _ _ _ _ _ scr) (ObSessionConfirmed rem)) rem [].

(** and Bob *)
Inductive bob_at : nat -> IBHandshake -> bytes -> bytes -> Prop :=
| B0 : bob_at 4 (mkIBHandshake (Some r0) 0 (IbSessionRequest 64)) m2 (m1 ++ m3)
| B1 : bob_at 3 (mkIBHandshake (Some (r1 _ _ _ _ _ _ _ _ scr)) (len c3 + 16) (IbSessionRequestPadding (len (hd_pad da)))) m2 (hd_pad da ++ m3)
| B2 rem (_ : len rem <= len m2) : bob_at 2 (mkIBHandshake (Some (r2 _ _ _ _ _ _ _ _ scr)) (len c3 + 16) (IbSessionCreated rem (hd_now db))) rem m3
| B3 : bob_at 1 (mkIBHandshake (Some (r2 _ _ _ _ _ _ _ _ scr)) (len c3 + 16) (IbSessionConfirmed (len m3) (hd_now db))) [] m3.

(** a read that cannot be served waits for bytes that are not written yet *)
Lemma short_read n (a b inp fb : bytes) : len a = n -> inp ++ fb = a ++ b -> len inp < n -> fb <> [].
Proof.
  intros Ha E Hl ->. rewrite app_nil_r in E. subst inp. rewrite len_app in Hl. pose proof (len_nonneg b). lia.
Qed.

Definition conn_ok (conn : Poll unit unit) : Prop := match conn with PollErr _ => False | _ => True end.

(** with room for everything, each only waits for what the other has not written *)
Definition alice_ready (env : ObEnv) : Prop := oe_conn env = Ready tt /\ len m1 + len m3 <= he_room (oe_env env).
Definition bob_ready (env : HsEnv) : Prop := len m2 <= he_room env.
Definition alice_stuck (fut fb : bytes) : Prop := fut = m3 /\ fb <> [].
Definition bob_stuck (fut fa : bytes) : Prop := fa <> [] /\ (fut = [] \/ len m3 < len fa).

Lemma alice_round k h fut unread inp fb conn env :
  alice_at k h fut unread -> inp ++ fb = unread -> he_fault env = false -> conn_ok conn ->
  exists h' inp' out s, ob_step da conn env h inp = Ret (h', inp', out, s) /\
    round_ok alice_at (router_id bob_ri, ca) (alice_ready (mkObEnv conn env)) alice_stuck k fut unread fb h' inp' out s.
Proof.
  intros Ha Hi Hf Hc. unfold ob_step. pose proof (len_nonneg m1) as Hm1. pose proof (len_nonneg m3) as Hm3.
  destruct Ha as [|rem Hrem| | |rem Hrem]; cbn [alice_state ob_noise sc_buf sc_len peer_ri ob_state unwrap obind]; rewrite Hf.
  - destruct conn as [[]| |]; [| |done].
    + rewrite (sc_ts_a _ _ _ _ _ _ _ _ scr). cbn [obind]. change SESSION_REQUEST_PT_LEN with 16.
      rewrite (sc_c1 _ _ _ _ _ _ _ _ scr). cbn [obind]. change SESSION_REQUEST_CT_LEN with 64.
      rewrite (sc_w1 _ _ _ _ _ _ _ _ scr). cbn [obind].
      eexists _, _, _, _. split; [done|]. exists 4%nat, (m1 ++ m3), m2. split; [lia|]. split; [by apply A1|]. by split.
    + eexists _, _, _, _. split; [done|]. exists (m1 ++ m3), m2. split; [apply A0|]. split; [done|]. split; [done|]. by intros [[=] _].
  - pose proof (ztake_zdrop rem (he_room env)) as E. destruct (zdrop (he_room env) rem) as [|x l] eqn:Ed.
    + eexists _, _, _, _. split; [done|]. exists 3%nat, m3, m2. split; [lia|]. split; [apply A2|].
      rewrite app_nil_r in E. rewrite E. by split.
    + destruct (room_some _ _ _ _ Ed) as [Hr Hl].
      eexists _, _, _, _. split; [done|]. exists ((x :: l) ++ m3), m2. split; [apply A1; lia|].
      rewrite app_assoc, E. split; [done|]. split; [done|]. intros [_ Hroom]. cbn [oe_env] in Hroom. lia.
  - destruct (read_exact_cases 64 (ct2 _ _ _ _ _ _ _ _ scr) (hd_pad db) inp fb (sc_ct2 _ _ _ _ _ _ _ _ scr) Hi)
      as [(inp' & -> & Hi')|[-> Hl]].
    + change SESSION_CREATED_PT_LEN with 16. rewrite (sc_r2 _ _ _ _ _ _ _ _ scr). cbn [rok unwrap obind].
      rewrite (sc_p2 _ _ _ _ _ _ _ _ scr). cbn [obind POk].
      rewrite (elapsed_ok _ _ (sc_later_a _ _ _ _ _ _ _ _ scr)). cbn [obind].
      eexists _, _, _, _. split; [done|]. exists 2%nat, m3, (hd_pad db). split; [lia|]. split; [apply A3|]. by split.
    + eexists _, _, _, _. split; [done|]. exists m3, m2. split; [apply A2|]. split; [done|]. split; [done|].
      intros _. split; [done|]. exact (short_read _ _ _ _ _ (sc_ct2 _ _ _ _ _ _ _ _ scr) Hi Hl).
  - rewrite <- (app_nil_r (hd_pad db)) in Hi.
    destruct (read_exact_cases _ (hd_pad db) [] inp fb eq_refl Hi) as [(inp' & -> & Hi')|[-> Hl]].
    + rewrite (sc_h2 _ _ _ _ _ _ _ _ scr). cbn [rok unwrap obind].
      rewrite (sc_w3 _ _ _ _ _ _ _ _ scr). cbn [rok unwrap obind].
      rewrite ztake_app by (by rewrite (sc_ct3 _ _ _ _ _ _ _ _ scr)).
      eexists _, _, _, _. split; [done|]. exists 1%nat, m3, []. split; [lia|]. split; [by apply A4|]. by split.
    + eexists _, _, _, _. split; [done|]. exists m3, (hd_pad db). split; [apply A3|]. split; [done|].
      split; [by rewrite app_nil_r in Hi|]. intros _. split; [done|]. exact (short_read _ _ _ _ _ eq_refl Hi Hl).
  - pose proof (ztake_zdrop rem (he_room env)) as E. destruct (zdrop (he_room env) rem) as [|x l] eqn:Ed.
    + rewrite (sc_a _ _ _ _ _ _ _ _ scr). cbn [obind].
      eexists _, _, _, _. split; [done|]. split; [done|]. rewrite app_nil_r in E. by rewrite E.
    + destruct (room_some _ _ _ _ Ed) as [Hr Hl].
      eexists _, _, _, _. split; [done|]. exists (x :: l), []. split; [apply A4; lia|].
      rewrite E. split; [done|]. split; [done|]. intros [_ Hroom]. cbn [oe_env] in Hroom. lia.
Qed.

Lemma bob_round k h fut unread inp fb env :
  bob_at k h fut unread -> inp ++ fb = unread -> he_fault env = false ->
  exists h' inp' out s, ib_step db env h inp = Ret (h', inp', out, s) /\
    round_ok bob_at (own_ri, cb) (bob_ready env) bob_stuck k fut unread fb h' inp' out s.
Proof.
  intros Hb Hi Hf. unfold ib_step. pose proof (len_nonneg m2) as Hm2.
  destruct Hb as [| |rem Hrem|]; cbn [ib_noise sclen ib_state unwrap obind]; rewrite Hf.
  - pose proof Hi as Hi0. unfold m1 in Hi. rewrite <- app_assoc in Hi.
    destruct (read_exact_cases 64 _ _ inp fb (sc_ct1 _ _ _ _ _ _ _ _ scr) Hi) as [(inp' & -> & Hi')|[-> Hl]].
    + change SESSION_REQUEST_PT_LEN with 16. rewrite (sc_r1 _ _ _ _ _ _ _ _ scr). cbn [rok unwrap obind].
      rewrite (sc_p1 _ _ _ _ _ _ _ _ scr). cbn [obind POk negb Z.eqb Pos.eqb].
      eexists _, _, _, _. split; [done|]. exists 3%nat, m2, (hd_pad da ++ m3). split; [lia|]. split; [apply B1|]. by split.
    + eexists _, _, _, _. split; [done|]. exists m2, (m1 ++ m3). split; [apply B0|]. split; [done|].
      split; [exact Hi0|]. intros _.
      split; [exact (short_read _ _ _ _ _ (sc_ct1 _ _ _ _ _ _ _ _ scr) Hi Hl)|right].
      apply (f_equal len) in Hi. rewrite !len_app, (sc_ct1 _ _ _ _ _ _ _ _ scr) in Hi. pose proof (len_nonneg (hd_pad da)). lia.
  - destruct (read_exact_cases _ (hd_pad da) m3 inp fb eq_refl Hi) as [(inp' & -> & Hi')|[-> Hl]].
    + rewrite (sc_h1 _ _ _ _ _ _ _ _ scr). cbn [rok unwrap obind].
      rewrite (sc_ts_b _ _ _ _ _ _ _ _ scr). cbn [obind]. change SESSION_CREATED_PT_LEN with 16.
      rewrite (sc_c2 _ _ _ _ _ _ _ _ scr). cbn [obind]. change SESSION_CREATED_CT_LEN with 64.
      rewrite (sc_w2 _ _ _ _ _ _ _ _ scr). cbn [obind].
      eexists _, _, _, _. split; [done|]. exists 2%nat, m2, m3. split; [lia|]. split; [by apply B2|]. by split.
    + eexists _, _, _, _. split; [done|]. exists m2, (hd_pad da ++ m3). split; [apply B1|]. split; [done|]. split; [done|].
      intros _. split; [exact (short_read _ _ _ _ _ eq_refl Hi Hl)|right].
      apply (f_equal len) in Hi. rewrite !len_app in Hi. lia.
  - pose proof (ztake_zdrop rem (he_room env)) as E. destruct (zdrop (he_room env) rem) as [|x l] eqn:Ed.
    + eexists _, _, _, _. split; [done|]. exists 1%nat, [], m3. split; [lia|]. split.
      * replace (len c3 + 16 + 48) with (len m3) by (unfold m3; rewrite (sc_ct3 _ _ _ _ _ _ _ _ scr); lia). apply B3.
      * rewrite app_nil_r in E |- *. by rewrite E.
    + destruct (room_some _ _ _ _ Ed) as [Hr Hl].
      eexists _, _, _, _. split; [done|]. exists (x :: l), m3. split; [apply B2; lia|].
      rewrite E. split; [done|]. split; [done|]. unfold bob_ready. lia.
  - pose proof Hi as Hi0. rewrite <- (app_nil_r m3) in Hi.
    destruct (read_exact_cases _ m3 [] inp fb eq_refl Hi) as [(inp' & -> & Hi')|[-> Hl]].
    + unfold m3. rewrite (sc_r3 _ _ _ _ _ _ _ _ scr). cbn [rok unwrap obind].
      rewrite ztake_app by done. rewrite (sc_p3 _ _ _ _ _ _ _ _ scr). cbn [obind POk].
      rewrite (elapsed_ok _ _ (sc_later_b _ _ _ _ _ _ _ _ scr)). cbn [obind].
      rewrite (sc_b _ _ _ _ _ _ _ _ scr). cbn [obind].
      eexists _, _, _, _. split; [done|]. by split_and!.
    + eexists _, _, _, _. split; [done|]. exists [], m3. split; [apply B3|]. split; [done|]. split; [done|].
      intros _. split; [exact (short_read _ _ _ _ _ eq_refl Hi Hl)|by left].
Qed.

(** *** Whole polls *)

(** polls without faults *)
Definition alice_env (env : ObEnv) : Prop := he_fault (oe_env env) = false /\ conn_ok (oe_conn env).
Definition bob_env (env : HsEnv) : Prop := he_fault env = false.

Lemma alice_rounds env : alice_env env ->
  rounds_ok (ob_round da env) alice_at (router_id bob_ri, ca) (alice_ready env) alice_stuck.
Proof.
  intros [Hf Hc] k h fut unread inp fb Hat Hi. destruct env as [conn env].
  destruct (alice_round k h fut unread inp fb conn env Hat Hi Hf Hc) as (h' & inp' & out & s & E & Hr).
  exists h', inp', out, s. split; [|exact Hr]. unfold ob_round. cbn [oe_conn oe_env]. by rewrite E.
Qed.

Lemma bob_rounds env : bob_env env ->
  rounds_ok (ib_round db env) bob_at (own_ri, cb) (bob_ready env) bob_stuck.
Proof.
  intros Hf k h fut unread inp fb Hat Hi.
  destruct (bob_round k h fut unread inp fb env Hat Hi Hf) as (h' & inp' & out & s & E & Hr).
  exists h', inp', out, s. split; [|exact Hr]. unfold ib_round. by rewrite E.
Qed.

Definition hs_at : Net OBHandshake (RouterIdentity * Codec) HsError IBHandshake (RouterInfo * Codec) HsError -> bytes -> bytes -> Prop :=
  net_at 6 alice_at (router_id bob_ri, ca) bob_at (own_ri, cb).

(** a poll of each with room for everything, twice, and both are through *)
Definition roomy (env : HsEnv) : Prop := he_fault env = false /\ 65535 + 128 + len (hd_pad da) + len (hd_pad db) <= he_room env.

Lemma net_finishes w fa fb e1 e2 e3 e4 :
  hs_at w fa fb -> len c3 + 64 <= 65535 -> roomy e1 -> roomy e2 -> roomy e3 -> roomy e4 ->
  exists w', ntcp2_run da db w [PollAlice (mkObEnv (Ready tt) e1); PollBob e2; PollAlice (mkObEnv (Ready tt) e3); PollBob e4] = cret w' /\
    hs_at w' [] [] /\ (exists r, alice w' = Through r) /\ (exists r, bob w' = Through r).
Proof.
  intros Hw Hc3 [F1 R1] [F2 R2] [F3 R3] [F4 R4]. unfold ntcp2_run. cbn [net_run].
  assert (len m1 = 64 + len (hd_pad da)) as L1 by (unfold m1; by rewrite len_app, (sc_ct1 _ _ _ _ _ _ _ _ scr)).
  assert (len m2 = 64 + len (hd_pad db)) as L2 by (unfold m2; by rewrite len_app, (sc_ct2 _ _ _ _ _ _ _ _ scr)).
  assert (len m3 = len c3 + 64) as L3 by (unfold m3; by rewrite (sc_ct3 _ _ _ _ _ _ _ _ scr)).
  pose proof (len_nonneg (hd_pad da)). pose proof (len_nonneg (hd_pad db)).
  assert (forall e, he_fault e = false -> alice_env (mkObEnv (Ready tt) e)) as Ea by (intros e He; by split).
  assert (forall e, 65535 + 128 + len (hd_pad da) + len (hd_pad db) <= he_room e -> alice_ready (mkObEnv (Ready tt) e) /\ bob_ready e) as Er
    by (intros e He; split; [split; [done|cbn [oe_env]; lia]|unfold bob_ready; lia]).
  destruct (alice_polls (ob_round da) (ib_round db) 6 alice_at _ alice_env alice_ready bob_at _ alice_stuck alice_rounds w fa fb _ Hw (Ea e1 F1))
    as (w1 & fa1 & -> & Hw1 & _ & Hr1). cbn [cret cbind].
  destruct (bob_polls (ob_round da) (ib_round db) 6 alice_at _ bob_at _ bob_env bob_ready bob_stuck bob_rounds w1 fa1 fb e2 Hw1 F2)
    as (w2 & fb2 & -> & Hw2 & _ & Hr2). cbn [cret cbind].
  assert (fb2 = []) as ->.
  { destruct (Hr2 (proj2 (Er e2 R2))) as [[-> _]|[Hne [->|Hlt]]]; [done|done|].
    destruct (Hr1 (proj1 (Er e1 R1))) as [[-> _]|[-> _]]; [done|lia]. }
  destruct (alice_polls (ob_round da) (ib_round db) 6 alice_at _ alice_env alice_ready bob_at _ alice_stuck alice_rounds w2 fa1 [] _ Hw2 (Ea e3 F3))
    as (w3 & fa3 & -> & Hw3 & _ & Hr3). cbn [cret cbind].
  destruct (Hr3 (proj1 (Er e3 R3))) as [[-> Ht3]|[_ []]]; [|done].
  destruct (bob_polls (ob_round da) (ib_round db) 6 alice_at _ bob_at _ bob_env bob_ready bob_stuck bob_rounds w3 [] [] e4 Hw3 F4)
    as (w4 & fb4 & -> & Hw4 & Ha4 & Hr4). cbn [cret cbind].
  destruct (Hr4 (proj2 (Er e4 R4))) as [[-> Ht4]|[[] _]]; [|done].
  exists w4. split; [done|]. split; [done|]. split; [by rewrite Ha4|done].
Qed.

End Exchange.

(** ** There is always such an exchange *)

(** a draw whose padding and clock readings are usable *)
Definition draws_ok (d : HsDraws) : Prop := 0 <= hd_now d <= hd_later d /\ u16_ok (len (hd_pad d)).

Lemma ask_words_ok k : len k = 32 -> exists w, ask_words k = Ret w.
Proof. intros H. unfold ask_words. rewrite H. by eexists. Qed.

(** both ends derive the same keys, each for its direction *)
Lemma finish_ok w r : hs_sync 3 w r ->
  exists cw cr, finish true w = Ret cw /\ finish false r = Ret cr /\ in_sync cw cr /\ in_sync cr cw.
Proof.
  intros Hs. destruct (ask_ok (ascii_bytes "siphash") w r Hs) as (w' & r' & k0 & k1 & tw & tr & Hw & Hr & L0 & L1 & Tw & Tr & P1 & P2).
  destruct (ask_words_ok k0 L0) as ([[a0 a1] aiv] & A). destruct (ask_words_ok k1 L1) as ([[b0 b1] biv] & B).
  unfold finish. rewrite Hw, Hr. cbn [unwrap obind]. rewrite A, B. cbn [obind]. rewrite Tw, Tr. cbn [unwrap obind].
  eexists _, _. split; [done|]. split; [done|].
  assert (len (zeros NTCP2_MTU) = NTCP2_MTU) as Hz by (apply len_zeros; unfold NTCP2_MTU; lia).
  split; split; cbn [cd_noise enc_len_masker dec_len_masker enc_len_iv dec_len_iv next_len noise_buf]; done.
Qed.

Lemma script_exists da db draw padlen c3 i0 r0 own_ri :
  hs_sync 0 i0 r0 -> draws_ok da -> draws_ok db ->
  sendable_block (BlkRouterInfo own_ri (mkRouterInfoFlags false)) -> u16_ok padlen ->
  (forall k n, 0 <= n -> len (draw k n) = n) ->
  writes (gen_session_confirmed draw own_ri padlen) c3 -> len c3 + 64 <= NTCP2_MTU ->
  exists ca cb, in_sync ca cb /\ in_sync cb ca /\ exists scr : Script da db c3 i0 r0 own_ri ca cb, True.
Proof.
  intros Hs [[Ha0 Ha1] Hap] [[Hb0 Hb1] Hbp] Hri Hpl Hdraw Hc3 Hl. unfold NTCP2_MTU in *. pose proof (len_nonneg c3).
  destruct (timestamp_ok _ Ha0) as (ts1 & T1 & T1ok). destruct (timestamp_ok _ Hb0) as (ts2 & T2 & T2ok).
  assert (u16_ok (len c3 + 16)) as Hsc by (unfold u16_ok; lia).
  destruct (rt_session_request 2 (len (hd_pad da)) (len c3 + 16) ts1) as (d1 & W1 & L1 & P1); [done..|].
  destruct (rt_session_created (len (hd_pad db)) ts2 Hbp T2ok) as (d2 & W2 & L2 & P2).
  destruct (write_padded_ok 0 i0 r0 d1 2 (hd_pad da) Hs ltac:(lia) L1) as (j1 & s1 & s1' & x1 & E1 & X1 & R1 & S1 & Hs1).
  destruct (write_padded_ok 1 s1' j1 d2 3 (hd_pad db) Hs1 ltac:(lia) L2) as (s2 & j2 & j2' & x2 & E2 & X2 & R2 & S2 & Hs2).
  destruct (hs_ok 2 j2' s2 c3 (zeros NTCP2_MTU) Hs2) as (j3 & s3 & x3 & E3 & X3 & R3 & Hs3);
    [lia|cbn [hs_overhead]; lia|rewrite len_zeros; unfold NTCP2_MTU; cbn [hs_overhead]; lia|].
  cbn [hs_overhead] in *.
  destruct (finish_ok s3 j3 Hs3) as (cb & ca & Fb & Fa & I1 & I2).
  assert (session_confirmed oc c3 = POk [] (BlkRouterInfo own_ri (mkRouterInfoFlags false) :: [BlkPadding padlen])) as P3.
  { destruct (writes_frame oc draw [BlkRouterInfo own_ri (mkRouterInfoFlags false); BlkPadding padlen] 0) as (bss & B1 & B2).
    { constructor; [done|]. by constructor. } { done. }
    assert (writes (gen_session_confirmed draw own_ri padlen) (concat bss)) as Hw3.
    { apply writes_many_each. eapply Forall2_impl; [exact B1|]. by intros [k b] x. }
    rewrite (writes_det _ _ _ Hc3 Hw3).
    destruct (block_nil oc) as [k Hk]. eapply many1_complete_each; [|exact B2|exact Hk]. done. }
  exists ca, cb. split; [done|]. split; [done|].
  unshelve eexists; [|exact I]. unshelve econstructor.
  - exact d1.
  - exact d2.
  - exact x1.
  - exact x2.
  - exact x3.
  - exact j1.
  - exact j2.
  - exact j2'.
  - exact j3.
  - exact s1.
  - exact s1'.
  - exact s2.
  - exact s3.
  - exact ts1.
  - exact ts2.
  - exact [BlkPadding padlen].
  - exact T1.
  - apply gen_exact_ok; [|done]. unfold as_u16. by rewrite Z.mod_small.
  - exact E1.
  - exact X1.
  - exact R1.
  - by apply parses_exact.
  - exact S1.
  - exact T2.
  - by apply gen_exact_ok.
  - exact E2.
  - exact X2.
  - exact R2.
  - by apply parses_exact.
  - exact S2.
  - exact E3.
  - exact X3.
  - apply R3. rewrite len_zeros; lia.
  - exact P3.
  - done.
  - done.
  - exact Fa.
  - exact Fb.
Qed.

(** Alice's end, for a peer that publishes what it takes *)
Lemma ob_new_ok {txt : IpText} {b64 : Base64} draw padlen sa own_ri bob_ri ra s i key iv h i0 c ad :
  ntcp2_address bob_ri = Some ra -> addr ra = Some ad ->
  RouterAddress_option ra NTCP2_OPT_S = Some s -> b64_decode (str s) = Some key ->
  RouterAddress_option ra NTCP2_OPT_I = Some i -> b64_decode (str i) = Some iv -> len iv = 16 ->
  RouterIdentity_hash (router_id bob_ri) = cret h -> build_initiator sa key (hash_bytes h) iv = Some i0 ->
  writes (gen_session_confirmed draw own_ri padlen) c -> len c + 16 <= NTCP2_MTU ->
  OBHandshake_new draw padlen sa own_ri bob_ri = cret (Ok (alice_state c bob_ri i0 ObConnecting, ad)).
Proof.
  intros Hra Had Hs Ds Hi Di Hl Hh Eb Hc Hlc. pose proof (len_nonneg c).
  unfold OBHandshake_new. rewrite Hra, Had, Hs, Ds, Hh, Hi, Di. cbn [unwrap obind cret cbind].
  rewrite Hl. cbn [Z.eqb Pos.eqb unwrap obind].
  destruct (writes_room _ _ (zeros (NTCP2_MTU - 16)) 0 Hc) as (pre & old & post & Ez & Hpre & Hold & E);
    [lia|rewrite len_zeros; unfold NTCP2_MTU in *; lia|].
  rewrite E. cbn [obind GOk]. destruct pre as [|x pre]; [|rewrite len_cons in Hpre; pose proof (len_nonneg pre); lia].
  rewrite app_nil_l, Z.add_0_l, ztake_app, Eb by done. done.
Qed.

(** and nothing else is needed *)
Lemma ob_new_inv {txt : IpText} {b64 : Base64} draw padlen sa own_ri bob_ri ra s i key iv h a0 ad c :
  OBHandshake_new draw padlen sa own_ri bob_ri = cret (Ok (a0, ad)) ->
  ntcp2_address bob_ri = Some ra ->
  RouterAddress_option ra NTCP2_OPT_S = Some s -> b64_decode (str s) = Some key ->
  RouterAddress_option ra NTCP2_OPT_I = Some i -> b64_decode (str i) = Some iv ->
  RouterIdentity_hash (router_id bob_ri) = cret h ->
  writes (gen_session_confirmed draw own_ri padlen) c -> len c + 16 <= NTCP2_MTU ->
  exists i0, build_initiator sa key (hash_bytes h) iv = Some i0 /\ a0 = alice_state c bob_ri i0 ObConnecting.
Proof.
  intros Hob Hra Hs Ds Hi Di Hh Hc Hlc.
  destruct (addr ra) as [ad'|] eqn:Had; [|unfold OBHandshake_new in Hob; rewrite Hra, Had in Hob; done].
  destruct (Z.eqb_spec (len iv) 16) as [Hl|Hl].
  2: { unfold OBHandshake_new in Hob. rewrite Hra, Had, Hs, Ds, Hh, Hi, Di in Hob. cbn [unwrap obind cret cbind] in Hob.
       by rewrite (proj2 (Z.eqb_neq _ _) Hl) in Hob. }
  destruct (build_initiator sa key (hash_bytes h) iv) as [i0|] eqn:Eb.
  - rewrite (ob_new_ok draw padlen sa own_ri bob_ri ra s i key iv h i0 c ad' Hra Had Hs Ds Hi Di Hl Hh Eb Hc Hlc) in Hob.
    injection Hob as <- <-. by exists i0.
  - exfalso. unfold OBHandshake_new in Hob. rewrite Hra, Had, Hs, Ds, Hh, Hi, Di in Hob. cbn [unwrap obind cret cbind] in Hob.
    rewrite Hl in Hob. cbn [Z.eqb Pos.eqb unwrap obind] in Hob.
    destruct (gen_session_confirmed _ _ _ _) as [[b [k|[]]]|]; cbn [obind] in Hob; [|done..]. by rewrite Eb in Hob.
Qed.

(** the address that is connected to has a socket address *)
Lemma ntcp2_address_addr {txt : IpText} ri ra : ntcp2_address ri = Some ra -> exists ad, addr ra = Some ad.
Proof.
  unfold ntcp2_address. intros Hra. destruct (address ri NTCP2_STYLE ntcp2_filter) as [ra'|] eqn:E.
  - injection Hra as ->. apply address_some in E as (_ & _ & Hr & _). destruct (reachable_addr _ Hr) as (o & p & ->). by eexists.
  - apply address_some in Hra as (_ & _ & Hr & _). destruct (reachable_addr _ Hr) as (o & p & ->). by eexists.
Qed.

Lemma ob_new_iv_panics {txt : IpText} {b64 : Base64} draw padlen sa iv own_ri bob_ri ra s i h :
  ntcp2_address bob_ri = Some ra -> RouterAddress_option ra NTCP2_OPT_S = Some s -> RouterAddress_option ra NTCP2_OPT_I = Some i ->
  RouterIdentity_hash (router_id bob_ri) = cret h ->
  b64_decode (str s) <> None -> b64_decode (str i) = Some iv -> len iv <> 16 ->
  OBHandshake_new draw padlen sa own_ri bob_ri = Panic.
Proof.
  intros Hra Hs Hi Hh Hn Hd Hl. destruct (ntcp2_address_addr _ _ Hra) as [ad Had].
  unfold OBHandshake_new. rewrite Hra, Had, Hs. cbn [unwrap obind]. destruct (b64_decode (str s)); [|done].
  rewrite Hh. cbn [cret cbind]. rewrite Hi, Hd. by rewrite (proj2 (Z.eqb_neq _ _) Hl).
Qed.

(** the two ends as they start *)
Lemma net_start da db c3 i0 r0 own_ri bob_ri ca cb (scr : Script da db c3 i0 r0 own_ri ca cb) :
  hs_at da db c3 i0 r0 own_ri bob_ri ca cb scr
    (mkNet (Running (alice_state c3 bob_ri i0 ObConnecting)) (Running (mkIBHandshake (Some r0) 0 (IbSessionRequest 64))) [] [])
    ((ct1 _ _ _ _ _ _ _ _ scr ++ hd_pad da) ++ ct3 _ _ _ _ _ _ _ _ scr) (ct2 _ _ _ _ _ _ _ _ scr ++ hd_pad db).
Proof.
  split; cbn [alice bob ab ba party_at app].
  - exists 5%nat. split; [lia|]. apply A0.
  - exists 4%nat. split; [lia|]. apply B0.
Qed.

End Handshake.

(** ** The whole handshake *)

Section Completes.
Context {nom : Nom} {cf : CookieFactory} {bu : BigUintOps} {sc : SigCrates} {sha : Sha2} {fl : Flate2}.
Context {noise : NoiseTransport} {sip : SipHash} {hs : NoiseHandshake} {sk : SipKeys} {txt : IpText} {b64 : Base64}.

(** what a peer's router info publishes for NTCP2: a static key and an IV *)
Definition publishes (ri : RouterInfo) (static_public iv : bytes) : Prop :=
  exists ra s i, ntcp2_address ri = Some ra /\
    RouterAddress_option ra NTCP2_OPT_S = Some s /\ b64_decode (str s) = Some static_public /\
    RouterAddress_option ra NTCP2_OPT_I = Some i /\ b64_decode (str i) = Some iv.

(** Alice and Bob, from their first polls to their codecs *)
Lemma handshake_runs (oc : bool) (draw : nat -> Z -> bytes) (padlen : Z) (sa sb iv : bytes)
    (own_ri bob_ri : RouterInfo) (h : Hash) (a0 : OBHandshake) (sa_addr : SocketAddr) (b0 : IBHandshake)
    (da db : HsDraws) (es : list (NetEvent ObEnv HsEnv)) :
  OBHandshake_new draw padlen sa own_ri bob_ri = cret (Ok (a0, sa_addr)) ->
  IBHandshake_new sb (hash_bytes h) iv = Ret b0 ->
  RouterIdentity_hash (router_id bob_ri) = cret h -> publishes bob_ri (public_of sb) iv ->
  sendable_block (BlkRouterInfo own_ri (mkRouterInfoFlags false)) -> u16_ok padlen ->
  (forall k n, 0 <= n -> len (draw k n) = n) ->
  (exists c, writes (gen_session_confirmed draw own_ri padlen) c /\ len c + 64 <= NTCP2_MTU) ->
  draws_ok da -> draws_ok db -> Forall (event_ok alice_env bob_env) es ->
  exists ca cb w, in_sync ca cb /\ in_sync cb ca /\
    ntcp2_run oc da db (mkNet (Running a0) (Running b0) [] []) es = cret w /\
    ((exists a, alice w = Running a) \/ alice w = Through (router_id bob_ri, ca)) /\
    ((exists b, bob w = Running b) \/ bob w = Through (own_ri, cb)) /\
    forall e1 e2 e3 e4, roomy da db e1 -> roomy da db e2 -> roomy da db e3 -> roomy da db e4 ->
      exists w', ntcp2_run oc da db w [PollAlice (mkObEnv (Ready tt) e1); PollBob e2; PollAlice (mkObEnv (Ready tt) e3); PollBob e4] = cret w' /\
        alice w' = Through (router_id bob_ri, ca) /\ bob w' = Through (own_ri, cb).
Proof.
  intros Hob Hib Hh (ra & s & i & Hra & Hs & Ds & Hi & Di) Hri Hpl Hdraw (c & Hc & Hl) Hda Hdb Hes.
  destruct (ob_new_inv _ _ _ _ _ _ _ _ _ _ _ _ _ _ Hob Hra Hs Ds Hi Di Hh Hc) as (i0 & Ei & ->); [lia|].
  unfold IBHandshake_new in Hib.
  destruct (build_responder sb (hash_bytes h) iv) as [r0|] eqn:Er; [|done]. cbn [unwrap obind] in Hib. injection Hib as <-.
  pose proof (hs_start _ _ _ _ _ _ Ei Er) as Hs0.
  destruct (script_exists oc da db draw padlen c i0 r0 own_ri Hs0 Hda Hdb Hri Hpl Hdraw Hc Hl) as (ca & cb & I1 & I2 & scr & _).
  pose proof (net_start oc da db c i0 r0 own_ri bob_ri ca cb scr) as Hw0.
  destruct (net_runs (ob_round da) (ib_round oc db) 6 _ _ _ _ _ _ _ _ _ _
    (alice_rounds oc da db c i0 r0 own_ri bob_ri ca cb scr) (bob_rounds oc da db c i0 r0 own_ri ca cb scr) es _ _ _ Hw0 Hes)
    as (w & fa & fb & Hrun & Hw). destruct (net_at_ends _ _ _ _ _ w fa fb Hw) as [Wa Wb].
  exists ca, cb, w. split; [done|]. split; [done|]. split; [exact Hrun|].
  split; [exact Wa|]. split; [exact Wb|].
  - intros e1 e2 e3 e4 R1 R2 R3 R4.
    destruct (net_finishes oc da db c i0 r0 own_ri bob_ri ca cb scr w fa fb e1 e2 e3 e4 Hw Hl R1 R2 R3 R4)
      as (w' & H & [Ha Hb] & [ra' Ea] & [rb' Eb]).
    exists w'. split; [exact H|]. rewrite Ea in Ha |- *. rewrite Eb in Hb |- *.
    destruct Ha as (-> & _). by destruct Hb as (-> & _).
Qed.

End Completes.

(** ** Samples: a Noise handshake that sends everything in the clear *)
Module Ntcp2HandshakeSamples.
Import Ntcp2CodecSamples.

(** how many messages there have been *)
Definition toy_hs_write (n : nat) (p out : bytes) : nat * bytes * result Z unit :=
  if (len p + hs_overhead n <=? 65535) && (len p + hs_overhead n <=? len out)
  then (S n, p ++ zeros (hs_overhead n) ++ zdrop (len p + hs_overhead n) out, Ok (len p + hs_overhead n))
  else (n, out, Err tt).

Definition toy_hs_read (n : nat) (ct buf : bytes) : nat * bytes * result Z unit :=
  let k := len ct - hs_overhead n in
  if (0 <=? k) && (k <=? len buf) then (S n, ztake k ct ++ zdrop k buf, Ok k) else (n, buf, Err tt).

Lemma hs_overhead_pos n : 0 <= hs_overhead n.
Proof. destruct n as [|[|[|n]]]; discriminate. Qed.

Definition toy_handshake : @NoiseHandshake toy_noise.
Proof.
  refine (@Build_NoiseHandshake toy_noise nat (fun _ _ _ => Some 0%nat) (fun _ _ _ _ => Some 0%nat) (fun k => k)
    toy_hs_write toy_hs_read (fun n _ _ => (n, Ok tt)) (fun n _ => (n, Some (zeros 32, zeros 32))) (fun _ => Some (0 : @noise_st toy_noise))
    (fun n w r => w = n /\ r = n) _ _ _ _).
  - intros si sr key iv i r [= <-] [= <-]. done.
  - intros n w r p out [-> ->] Hn H1 H2. pose proof (hs_overhead_pos n) as Ho. pose proof (len_nonneg p).
    exists (S n), (S n), (p ++ zeros (hs_overhead n)).
    assert (len (p ++ zeros (hs_overhead n)) = len p + hs_overhead n) as Hl by (by rewrite len_app, len_zeros).
    split; [|split; [exact Hl|split; [|done]]].
    + unfold toy_hs_write. rewrite (proj2 (Z.leb_le _ _) H1), (proj2 (Z.leb_le _ _) H2). by rewrite <- app_assoc.
    + intros buf Hb. unfold toy_hs_read. rewrite Hl.
      replace (len p + hs_overhead n - hs_overhead n) with (len p) by lia.
      rewrite (proj2 (Z.leb_le 0 _)), (proj2 (Z.leb_le _ _) Hb) by lia. by rewrite ztake_app.
  - intros n k d w r [-> ->]. exists n, n. by split_and!.
  - intros lbl w r [-> ->]. exists 3%nat, 3%nat, (zeros 32), (zeros 32), 0, 0. split_and!; try reflexivity.
Defined.

Definition toy_sip_keys : @SipKeys toy_sip := fun k0 k1 => k0 + k1.

(** base64 by any other name: the bytes themselves *)
Definition toy_base64 : Base64 := {| b64_encode := fun b => b; b64_decode := Some; b64_ok := fun b => eq_refl |}.

End Ntcp2HandshakeSamples.

(** ** Properties *)
Module Ntcp2HandshakeProps.
Section Props.
Context {nom : Nom} {cf : CookieFactory} {bu : BigUintOps} {sc : SigCrates} {sha : Sha2} {fl : Flate2}.
Context {noise : NoiseTransport} {sip : SipHash} {hs : NoiseHandshake} {sk : SipKeys} {txt : IpText} {b64 : Base64}.

(** C7: Alice connects to what Bob publishes.  However their polls interleave
    and however little the connection takes at a time, neither panics nor fails;
    whoever gets through has the other's identity as Alice chose it and Bob was
    told it, and the codec of the same session, in step with the other's in both
    directions; and from wherever they are, two polls of each with room bring
    both through. *)
Theorem ntcp2_handshake_completes (oc : bool) (draw : nat -> Z -> bytes) (padlen : Z) (sa sb iv : bytes)
    (own_ri bob_ri : RouterInfo) (h : Hash) (a0 : OBHandshake) (sa_addr : SocketAddr) (b0 : IBHandshake)
    (da db : HsDraws) (es : list (NetEvent ObEnv HsEnv)) :
  OBHandshake_new draw padlen sa own_ri bob_ri = cret (Ok (a0, sa_addr)) ->
  IBHandshake_new sb (hash_bytes h) iv = Ret b0 ->
  RouterIdentity_hash (router_id bob_ri) = cret h -> publishes bob_ri (public_of sb) iv ->
  sendable_block (BlkRouterInfo own_ri (mkRouterInfoFlags false)) -> u16_ok padlen ->
  (forall k n, 0 <= n -> len (draw k n) = n) ->
  (exists c, writes (gen_session_confirmed draw own_ri padlen) c /\ len c + 64 <= NTCP2_MTU) ->
  draws_ok da -> draws_ok db -> Forall (event_ok alice_env bob_env) es ->
  exists ca cb w, in_sync ca cb /\ in_sync cb ca /\
    ntcp2_run oc da db (mkNet (Running a0) (Running b0) [] []) es = cret w /\
    ((exists a, alice w = Running a) \/ alice w = Through (router_id bob_ri, ca)) /\
    ((exists b, bob w = Running b) \/ bob w = Through (own_ri, cb)) /\
    forall e1 e2 e3 e4, roomy da db e1 -> roomy da db e2 -> roomy da db e3 -> roomy da db e4 ->
      exists w', ntcp2_run oc da db w [PollAlice (mkObEnv (Ready tt) e1); PollBob e2; PollAlice (mkObEnv (Ready tt) e3); PollBob e4] = cret w' /\
        alice w' = Through (router_id bob_ri, ca) /\ bob w' = Through (own_ri, cb).
Proof. apply handshake_runs. Qed.

(** A handshake message that the Noise session does not accept panics
    Bob's task instead of failing it, whichever of the two it is; an accepted
    request of another version fails. *)
Theorem inbound_garbage_panics (oc : bool) (d : HsDraws) (env : HsEnv) (n : hs_st) (k t : Z) (msg rest : bytes) :
  he_fault env = false -> len msg = k ->
  (forall n' buf, hs_read n msg (zeros 16) = (n', buf, Err tt) ->
     ib_step oc d env (mkIBHandshake (Some n) 0 (IbSessionRequest k)) (msg ++ rest) = Panic) /\
  (forall sclen n' buf, hs_read n msg (zeros k) = (n', buf, Err tt) ->
     ib_step oc d env (mkIBHandshake (Some n) sclen (IbSessionConfirmed k t)) (msg ++ rest) = Panic) /\
  (forall n' buf r ver padlen sclen ts, hs_read n msg (zeros 16) = (n', buf, Ok 16) ->
     session_request buf = POk r (ver, padlen, sclen, ts) -> ver <> 2 ->
     ib_step oc d env (mkIBHandshake (Some n) 0 (IbSessionRequest k)) (msg ++ rest) =
       Ret (mkIBHandshake None 0 (IbSessionRequest k), rest, [], Failed HeVersion)).
Proof.
  intros Hf Hl. unfold ib_step. cbn [ib_noise ib_state sclen unwrap obind]. rewrite Hf, read_exact_ok by done.
  change SESSION_REQUEST_PT_LEN with 16. split; [|split].
  - intros n' buf ->. done.
  - intros sclen n' buf H. rewrite Hl, H. done.
  - intros n' buf r ver padlen sclen ts -> Hp Hv. cbn [rok unwrap obind]. rewrite Hp. cbn [obind POk].
    by rewrite (proj2 (Z.eqb_neq _ _) Hv).
Qed.

(** A router info whose NTCP2 address has an IV that decodes to anything but
    sixteen bytes panics the connection attempt; one whose key or IV does not
    decode is refused with an error. *)
Theorem published_iv_panics (draw : nat -> Z -> bytes) (padlen : Z) (sa iv : bytes) (own_ri bob_ri : RouterInfo)
    (ra : RouterAddress) (s i : I2PString) (h : Hash) :
  ntcp2_address bob_ri = Some ra -> RouterAddress_option ra NTCP2_OPT_S = Some s -> RouterAddress_option ra NTCP2_OPT_I = Some i ->
  RouterIdentity_hash (router_id bob_ri) = cret h ->
  (b64_decode (str s) = None -> OBHandshake_new draw padlen sa own_ri bob_ri = cret (Err HnStaticKey)) /\
  (b64_decode (str s) <> None -> b64_decode (str i) = None -> OBHandshake_new draw padlen sa own_ri bob_ri = cret (Err HnIv)) /\
  (b64_decode (str s) <> None -> b64_decode (str i) = Some iv -> len iv <> 16 ->
     OBHandshake_new draw padlen sa own_ri bob_ri = Panic).
Proof.
  intros Hra Hs Hi Hh. split; [|split].
  - intros Hd. destruct (ntcp2_address_addr _ _ Hra) as [ad Had]. unfold OBHandshake_new. rewrite Hra, Had, Hs. cbn [unwrap obind]. by rewrite Hd.
  - intros Hn Hd. destruct (ntcp2_address_addr _ _ Hra) as [ad Had]. unfold OBHandshake_new. rewrite Hra, Had, Hs. cbn [unwrap obind].
    destruct (b64_decode (str s)); [|done]. rewrite Hh. cbn [cret cbind]. by rewrite Hi, Hd.
  - by apply ob_new_iv_panics with (ra := ra) (s := s) (i := i) (h := h).
Qed.

End Props.

#[local] Existing Instances nom_ref cf_ref biguint_ref sigcrates_ref sha2_ref flate_ref ip_ref.
#[local] Existing Instances Ntcp2CodecSamples.toy_noise Ntcp2CodecSamples.toy_sip.
Import Ntcp2FrameSamples DataSamples Ntcp2HandshakeSamples.
#[local] Existing Instances toy_handshake toy_sip_keys toy_base64.

Definition bob_addr (iv : bytes) : RouterAddress :=
  RouterAddress_set_option (RouterAddress_set_option (RouterAddress_set_option
    (RouterAddress_new NTCP2_STYLE (mkSocketAddr (V4 [127; 0; 0; 1]) 9001))
    NTCP2_OPT_V NTCP2_VERSION) NTCP2_OPT_S (mkI2PString [7])) NTCP2_OPT_I (mkI2PString iv).

Definition bob_ri (iv : bytes) : RouterInfo := set_addresses ref_ri [bob_addr iv].

Lemma bob_ntcp2_address : ntcp2_address (bob_ri (zeros 16)) = Some (bob_addr (zeros 16)).
Proof. vm_compute. reflexivity. Qed.

Lemma bob_publishes : publishes (bob_ri (zeros 16)) [7] (zeros 16).
Proof.
  exists (bob_addr (zeros 16)), (mkI2PString [7]), (mkI2PString (zeros 16)).
  split; [exact bob_ntcp2_address|]. by split_and!.
Qed.

(** the length of what a generator writes, by running it *)
Lemma writes_len_run g bs n k :
  writes g bs -> 0 <= n -> match g (zeros n, 0) with Ret (_, Ok idx) => idx | _ => -1 end = k -> 0 <= k -> len bs = k.
Proof.
  intros Hw Hn Hk H0. destruct (Z.le_gt_cases (len bs) n) as [Hl|Hl].
  - destruct (writes_room _ _ (zeros n) 0 Hw) as (pre & old & post & _ & _ & _ & E); [lia|rewrite len_zeros; lia|].
    rewrite E in Hk. cbn in Hk. lia.
  - destruct (writes_small _ _ Hw (zeros n) 0) as (m & b & E & _); [rewrite len_zeros; lia|rewrite len_zeros; lia|].
    rewrite E in Hk. cbn in Hk. lia.
Qed.

Lemma own_sendable : sendable_block (BlkRouterInfo ref_signed_ri (mkRouterInfoFlags false)).
Proof.
  split; [exact ref_signed_ri_wf|]. destruct (writes_le_router_info ref_signed_ri ref_signed_ri_wf) as (bs & Hw & _).
  exists bs. split; [exact Hw|].
  assert (match gen_router_info ref_signed_ri (zeros 1000, 0) with Ret (_, Ok idx) => idx | _ => -1 end = 511) as Hk
    by (vm_compute; reflexivity).
  rewrite (writes_len_run _ _ 1000 511 Hw); [done|done|exact Hk|done].
Qed.

Lemma own_confirmed : exists c, writes (gen_session_confirmed draw ref_signed_ri 3) c /\ len c + 64 <= NTCP2_MTU.
Proof.
  destruct (writes_frame true draw [BlkRouterInfo ref_signed_ri (mkRouterInfoFlags false); BlkPadding 3] 0) as (bss & B1 & B2).
  { constructor; [exact own_sendable|]. constructor; [|constructor]. by split. } { exact draw_len. }
  assert (writes (gen_session_confirmed draw ref_signed_ri 3) (concat bss)) as Hw.
  { apply writes_many_each. eapply Forall2_impl; [exact B1|]. by intros [k b] x. }
  exists (concat bss). split; [exact Hw|].
  assert (match gen_session_confirmed draw ref_signed_ri 3 (zeros 1000, 0) with Ret (_, Ok idx) => idx | _ => -1 end = 521) as Hk
    by (vm_compute; reflexivity).
  rewrite (writes_len_run _ _ 1000 521 Hw); [unfold NTCP2_MTU; lia|done|exact Hk|done].
Qed.

Lemma ref_hash : exists h, RouterIdentity_hash ref_rid = cret h.
Proof. exact (hash_returns ref_rid ref_rid_wf). Qed.

Definition sample_draws : HsDraws := mkHsDraws 1000000000000 [1; 2; 3] 1000000000005.

Lemma sample_draws_ok : draws_ok sample_draws.
Proof. split; [split; discriminate|split; [discriminate|reflexivity]]. Qed.

(** one poll of each that writes nothing, then one byte *)
Definition sample_events : list (NetEvent ObEnv HsEnv) :=
  [PollAlice (mkObEnv NotReady (mkHsEnv false 0)); PollBob (mkHsEnv false 0); PollAlice (mkObEnv (Ready tt) (mkHsEnv false 1)); PollBob (mkHsEnv false 1)].

Lemma ntcp2_handshake_completes_witness :
  exists (a0 : OBHandshake) (b0 : IBHandshake) ca cb w, in_sync ca cb /\ in_sync cb ca /\
    ntcp2_run true sample_draws sample_draws (mkNet (Running a0) (Running b0) [] []) sample_events = cret w /\
    ((exists a, alice w = Running a) \/ alice w = Through (router_id (bob_ri (zeros 16)), ca)) /\
    ((exists b, bob w = Running b) \/ bob w = Through (ref_signed_ri, cb)) /\
    forall e1 e2 e3 e4, roomy sample_draws sample_draws e1 -> roomy sample_draws sample_draws e2 ->
      roomy sample_draws sample_draws e3 -> roomy sample_draws sample_draws e4 ->
      exists w', ntcp2_run true sample_draws sample_draws w [PollAlice (mkObEnv (Ready tt) e1); PollBob e2; PollAlice (mkObEnv (Ready tt) e3); PollBob e4] = cret w' /\
        alice w' = Through (router_id (bob_ri (zeros 16)), ca) /\ bob w' = Through (ref_signed_ri, cb).
Proof.
  destruct ref_hash as [h Hh]. destruct own_confirmed as (c & Hc & Hl).
  assert (len c + 16 <= NTCP2_MTU) as Hl2 by lia.
  assert (addr (bob_addr (zeros 16)) = Some (mkSocketAddr (V4 [127; 0; 0; 1]) 9001)) as Had by (vm_compute; reflexivity).
  pose proof (ob_new_ok draw 3 [9] ref_signed_ri (bob_ri (zeros 16)) (bob_addr (zeros 16)) (mkI2PString [7]) (mkI2PString (zeros 16)) [7] (zeros 16)
    h 0%nat c _ bob_ntcp2_address Had eq_refl eq_refl eq_refl eq_refl eq_refl Hh eq_refl Hc Hl2) as Hob.
  assert (u16_ok 3) as H3 by (split; [discriminate|reflexivity]).
  assert (Forall (event_ok alice_env bob_env) sample_events) as Hes by (repeat constructor).
  eexists _, _.
  exact (ntcp2_handshake_completes true draw 3 [9] [7] (zeros 16) ref_signed_ri (bob_ri (zeros 16)) h _ _ _ sample_draws sample_draws sample_events
    Hob eq_refl Hh bob_publishes own_sendable H3 draw_len (ex_intro _ c (conj Hc Hl)) sample_draws_ok sample_draws_ok Hes).
Defined.

Lemma inbound_garbage_panics_witness :
  ib_step true sample_draws (mkHsEnv false 0) (mkIBHandshake (Some 0%nat) 0 (IbSessionRequest 10)) (zeros 10 ++ []) = Panic.
Proof.
  assert (hs_read 0%nat (zeros 10) (zeros 16) = (0%nat, zeros 16, Err tt)) as H by reflexivity.
  exact (proj1 (inbound_garbage_panics true sample_draws (mkHsEnv false 0) 0%nat 10 0 (zeros 10) [] eq_refl eq_refl) 0%nat (zeros 16) H).
Defined.

Lemma published_iv_panics_witness : OBHandshake_new draw 3 [9] ref_signed_ri (bob_ri [1]) = Panic.
Proof.
  destruct ref_hash as [h Hh].
  assert (ntcp2_address (bob_ri [1]) = Some (bob_addr [1])) as Ha by (vm_compute; reflexivity).
  assert (b64_decode [7] <> None) as Hd by discriminate.
  assert (len [1] <> 16) as Hl by discriminate.
  exact (proj2 (proj2 (published_iv_panics draw 3 [9] [1] ref_signed_ri (bob_ri [1]) (bob_addr [1]) (mkI2PString [7]) (mkI2PString [1]) h
    Ha eq_refl eq_refl Hh)) Hd eq_refl Hl).
Defined.

End Ntcp2HandshakeProps.
