(* ===== verification/NtcpFrame.v ===== *)
(** * NTCP frames

    The frames of the legacy transport, from [src/transport/ntcp/frame.rs]: an
    I2NP message or a timestamp, padded to whole cipher blocks and closed by an
    Adler-32 checksum. *)

From S2P Require Import Prelude Nom Cookie Util Wire Crypto Data Dest I2np Message.

(** ** Checksums and padding *)

Definition padding_len (content_len : Z) : Z := as_u8 (16 - as_u8 (content_len mod 16)) mod 16.

(** one byte of the two sums *)
Definition adler_step (s : Z * Z) (x : Z) : Z * Z :=
  let s1 := (s.1 + x) mod 65521 in
  (s1, (s.2 + s1) mod 65521).

Definition adler (input : bytes) : bytes :=
  let '(s1, s2) := foldl adler_step (1, 0) input in
  [as_u8 (Z.land (Z.shiftr s2 8) 0xff); as_u8 (Z.land s2 0xff);
   as_u8 (Z.land (Z.shiftr s1 8) 0xff); as_u8 (Z.land s1 0xff)].

(** [super::Frame] *)
Inductive Frame {sc : SigCrates} :=
| Standard (msg : Message)
| TimeSync (ts : Z).

Section Frames.
Context {nom : Nom} {cf : CookieFactory} {bu : BigUintOps} {sc : SigCrates} {sha : Sha2} {fl : Flate2}.

Definition padding (content_len : Z) : parser bytes bytes := nom_take (padding_len content_len).

(** leaves what the buffer holds *)
Definition gen_padding (content_len : Z) : gen := gen_skip (padding_len content_len).

(** [oc]: overflow checks; [size + 2] and [size + 6] are [u16] *)
Definition get_adler (oc : bool) : parser bytes bytes := fun input =>
  let_p (i, sz) := nom_peek be_u16 input in
  let_p (i, data) :=
    (if sz =? 0 then nom_take 12 i
     else
       let! n := checked oc 16 (sz + 2) in
       let! m := checked oc 16 (sz + 6) in
       nom_take (n + padding_len m) i) in
  POk input (adler data).

(** reads the buffer it writes to *)
Definition gen_adler (start end_ : Z) : gen := fun '(buf, idx) =>
  gen_slice (adler (slice start end_ buf)) (buf, idx).

Definition gen_standard_frame (msg : Message) : gen :=
  label start : gen_skip 2 >>>
  label msg_start : gen_message msg >>>
  gen_label (fun msg_end =>
    gen_at_offset start (gen_be_u16 (msg_end - msg_start)) >>>
    gen_padding (msg_end - msg_start + 6) >>>
    gen_label (fun end_ => gen_adler start end_)).

Definition gen_timestamp_frame (timestamp : Z) : gen :=
  label start : gen_be_u16 0 >>>
  gen_be_u32 timestamp >>>
  gen_padding 10 >>>
  gen_label (fun end_ => gen_adler start end_).

Definition frame (oc : bool) : parser bytes Frame := fun i =>
  let_p (i, (cs, sz)) := nom_pair (get_adler oc) be_u16 i in
  if sz =? 0 then map_pure (terminated be_u32 (nom_pair (nom_take 6) (nom_tag cs))) TimeSync i
  else
    let! n := checked oc 16 (sz + 6) in
    map_pure (terminated (length_value (nom_success sz) message) (nom_pair (padding n) (nom_tag cs))) Standard i.

Definition gen_frame (f : Frame) : gen :=
  match f with
  | Standard msg => gen_standard_frame msg
  | TimeSync ts => gen_timestamp_frame ts
  end.

(** ** Frames that can be sent *)

(** a message that the two-byte size can announce without an overflow *)
Definition sendable_frame (f : Frame) : Prop :=
  match f with
  | Standard msg => (exists depth, sendable_f depth msg) /\ exists bs, writes (gen_message msg) bs /\ len bs < 65530
  | TimeSync ts => u32_ok ts
  end.

(** The frame's content without padding: the size and the data. *)
Inductive frame_content : Frame -> bytes -> Prop :=
| content_standard msg mb : writes (gen_message msg) mb -> parses message mb msg -> 0 < len mb < 65530 ->
    frame_content (Standard msg) (be_bytes 2 (len mb) ++ mb)
| content_timesync ts : u32_ok ts -> frame_content (TimeSync ts) (be_bytes 2 0 ++ be_bytes 4 ts).

(** the frame with the padding [pad] *)
Definition sealed (content pad : bytes) : bytes := (content ++ pad) ++ adler (content ++ pad).

(** The part of a frame's [body] - size, data and padding - that its checksum is
    of: all of it, but for the two sizes to which adding two overflows to 0
    or 1. *)
Definition covered (sz : Z) (body : bytes) : bytes := if sz <? 65534 then body else ztake 12 body.

(** ** Lemmas *)

Lemma len_adler i : len (adler i) = 4.
Proof. unfold adler. by destruct (foldl _ _ _). Qed.

Lemma adler_ok i : bytes_ok (adler i).
Proof. unfold adler. destruct (foldl _ _ _). repeat constructor; apply Z.mod_pos_bound; lia. Qed.

(** the padding fills the last block *)
Lemma padding_len_eq c : 0 <= c -> padding_len c = (- c) mod 16.
Proof.
  intros Hc. unfold padding_len, as_u8. pose proof (Z.mod_pos_bound c 16 ltac:(lia)) as Hm.
  rewrite (Z.mod_small (c mod 16)) by lia. rewrite (Z.mod_small (16 - c mod 16)) by lia.
  Z.div_mod_to_equations. lia.
Qed.

Lemma padding_len_bound c : 0 <= c -> 0 <= padding_len c < 16 /\ (c + padding_len c) mod 16 = 0.
Proof.
  intros Hc. rewrite padding_len_eq by done. split; [apply Z.mod_pos_bound; lia|].
  Z.div_mod_to_equations. lia.
Qed.

Lemma sendable_content f : sendable_frame f -> exists c, frame_content f c.
Proof.
  destruct f as [msg|ts]; [|intros; eexists; by constructor].
  intros ((depth & Hs) & mb & Hw & Hl). exists (be_bytes 2 (len mb) ++ mb). constructor; [done| |].
  - exact (rt_parses _ _ _ _ (rt_message depth msg Hs) Hw).
  - split; [|done]. destruct depth as [|depth]; [done|]. destruct msg as [id ex p].
    destruct Hs as (_ & _ & _ & _ & bs & Wb & _).
    rewrite (writes_det _ _ _ Hw (writes_message id ex p bs Wb)), !len_app, !len_be_bytes.
    pose proof (len_nonneg bs). lia.
Qed.

(** the size at the front of a content, and what it says of the length *)
Lemma content_size f c : frame_content f c ->
  exists sz d, c = be_bytes 2 sz ++ d /\ u16_ok sz /\ sz < 65530 /\
    len c = (if sz =? 0 then 6 else sz + 2) /\ 0 <= sz.
Proof.
  intros [msg mb Hw Hp Hl|ts Ht].
  - exists (len mb), mb. split; [done|]. rewrite (proj2 (Z.eqb_neq _ _)) by lia.
    rewrite len_app, len_be_bytes. unfold u16_ok. lia.
  - exists 0, (be_bytes 4 ts). split; [done|]. by rewrite len_app, !len_be_bytes.
Qed.

(** how long the padding is, and that the frame then takes whole blocks *)
Definition pad_of (c : bytes) : Z := padding_len (len c + 4).

Lemma len_sealed f c pad : frame_content f c -> len pad = pad_of c ->
  len (sealed c pad) = len c + pad_of c + 4 /\ len (sealed c pad) mod 16 = 0 /\
  16 <= len (sealed c pad) <= len c + 19.
Proof.
  intros Hc Hp. destruct (content_size f c Hc) as (sz & d & _ & Hsz & _ & Hl & H0).
  unfold sealed. rewrite !len_app, len_adler, Hp. unfold pad_of in *.
  assert (6 <= len c \/ 2 < len c) as Hlc by (destruct (Z.eqb_spec sz 0); lia).
  destruct (padding_len_bound (len c + 4)) as [Hb Hm]; [lia|].
  replace (len c + padding_len (len c + 4) + 4) with (len c + 4 + padding_len (len c + 4)) by lia.
  split; [lia|]. split; [done|]. Z.div_mod_to_equations. lia.
Qed.

(** *** Reading *)

Lemma get_adler_ok oc f c pad rest : frame_content f c -> len pad = pad_of c ->
  get_adler oc ((c ++ pad) ++ rest) = POk ((c ++ pad) ++ rest) (adler (c ++ pad)).
Proof.
  intros Hc Hp. destruct (content_size f c Hc) as (sz & d & E & Hsz & Hlt & Hl & H0).
  unfold get_adler. rewrite nom_peek_eq. rewrite E at 1. rewrite <- !app_assoc, (parses_be_u16 _ Hsz).
  cbn [pbind POk]. rewrite (app_assoc c).
  assert (len c + pad_of c = len (c ++ pad)) as Hlen by (rewrite len_app, Hp; done).
  assert ((if sz =? 0 then nom_take 12 ((c ++ pad) ++ rest)
     else let! n := checked oc 16 (sz + 2) in let! m := checked oc 16 (sz + 6) in
          nom_take (n + padding_len m) ((c ++ pad) ++ rest)) = POk rest (c ++ pad)) as ->; [|done].
  unfold pad_of in *. unfold u16_ok in Hsz. destruct (Z.eqb_spec sz 0) as [->|Hne].
  - rewrite Hl in Hlen. change (6 + padding_len (6 + 4)) with 12 in Hlen. rewrite Hlen. by apply parses_take.
  - rewrite !checked_ok by lia. cbn [obind].
    replace (sz + 2 + padding_len (sz + 6)) with (len (c ++ pad)) by (rewrite <- Hlen, Hl; do 2 f_equal; lia).
    by apply parses_take.
Qed.

(** a sealed frame is read, whatever follows *)
Lemma parses_frame oc f c pad : frame_content f c -> len pad = pad_of c -> parses (frame oc) (sealed c pad) f.
Proof.
  intros Hc Hp rest. unfold frame, sealed. rewrite nom_pair_eq, <- app_assoc, (get_adler_ok oc f) by done.
  cbn [pbind POk]. set (cs := adler (c ++ pad)). unfold pad_of in Hp. destruct Hc as [msg mb Hw Hm Hl|ts Ht].
  - rewrite <- !app_assoc, (parses_be_u16 (len mb)) by (split; lia). cbn [pbind POk].
    rewrite (proj2 (Z.eqb_neq _ _)) by lia. rewrite checked_ok by lia. cbn [obind].
    assert (parses (map_pure (terminated (length_value (nom_success (len mb)) message)
        (nom_pair (padding (len mb + 6)) (nom_tag cs))) Standard) (mb ++ pad ++ cs) (Standard msg)) as P.
    { eapply parses_map_pure; [|reflexivity].
      eapply parses_terminated; [|apply parses_pair; [|apply parses_tag]].
      - eapply (parses_length_value _ [] (len mb)); [apply parses_success|done|by apply parses_exact].
      - apply parses_take. rewrite Hp, len_app, len_be_bytes. f_equal. lia. }
    specialize (P rest). by rewrite <- !app_assoc in P.
  - rewrite <- !app_assoc, (parses_be_u16 0) by done. cbn [pbind POk]. rewrite Z.eqb_refl.
    assert (parses (map_pure (terminated be_u32 (nom_pair (nom_take 6) (nom_tag cs))) TimeSync)
      (be_bytes 4 ts ++ pad ++ cs) (TimeSync ts)) as P.
    { eapply parses_map_pure; [|reflexivity].
      eapply parses_terminated; [by apply parses_be_u32|]. apply parses_pair; [|apply parses_tag].
      apply parses_take. by rewrite Hp. }
    specialize (P rest). by rewrite <- !app_assoc in P.
Qed.

(** what lacks a whole block or more is incomplete *)
Lemma frame_incomplete oc f c pad q rest : frame_content f c -> len pad = pad_of c ->
  sealed c pad = q ++ rest -> 16 <= len rest -> exists k, frame oc q = PErr (Incomplete k).
Proof.
  intros Hc Hp E Hr. destruct (content_size f c Hc) as (sz & d & Ec & Hsz & Hlt & Hl & H0).
  destruct (len_sealed f c pad Hc Hp) as (Hls & _ & _). pose proof (len_nonneg pad) as Hpad.
  assert (len q + len rest = len c + pad_of c + 4) as Hq by (rewrite <- len_app, <- E; done).
  unfold frame. rewrite nom_pair_eq. unfold get_adler. rewrite nom_peek_eq.
  destruct (Z.le_gt_cases 2 (len q)) as [H2|H2].
  2: { destruct (be_u16_short q H2) as [k ->]. by exists k. }
  destruct (split_at q 2) as (q1 & q2 & -> & Hq1); [lia|done|].
  assert (q1 = be_bytes 2 sz) as ->.
  { unfold sealed in E. rewrite Ec, <- !app_assoc in E. apply app_inj_1 in E as [-> _]; [done|].
    pose proof (len_be_bytes 2 sz). unfold len in *. lia. }
  rewrite (parses_be_u16 _ Hsz). cbn [pbind POk].
  assert (exists k, (if sz =? 0 then nom_take 12 (be_bytes 2 sz ++ q2)
     else let! n := checked oc 16 (sz + 2) in let! m := checked oc 16 (sz + 6) in
          nom_take (n + padding_len m) (be_bytes 2 sz ++ q2)) = PErr (Incomplete k)) as [k ->]; [|by exists k].
  unfold pad_of, u16_ok in *. destruct (Z.eqb_spec sz 0) as [->|Hne].
  - apply nom_take_short. rewrite Hl in Hq. change (padding_len (6 + 4)) with 6 in Hq. lia.
  - rewrite !checked_ok by lia. cbn [obind]. apply nom_take_short.
    replace (sz + 6) with (len c + 4) by lia. lia.
Qed.

Lemma frame_nil oc : exists k, frame oc [] = PErr (Incomplete k).
Proof.
  unfold frame. rewrite nom_pair_eq. unfold get_adler. rewrite nom_peek_eq.
  destruct (be_u16_short []) as [k ->]; [done|]. by exists k.
Qed.

(** *** Writing *)

(** the end of both generators: padding and checksum from [idx] on *)
Definition gen_seal (idx : Z) (c : bytes) : gen :=
  gen_padding (len c + 4) >>> gen_label (fun end_ => gen_adler idx end_).

Lemma gen_frame_seal f c : frame_content f c ->
  exists g, writes g c /\ forall buf idx, 0 <= idx <= len buf ->
    gen_frame f (buf, idx) = gbind (g (buf, idx)) (gen_seal idx c).
Proof.
  destruct 1 as [msg mb Hw Hm Hl|ts Ht].
  - pose proof (writes_len_prefixed _ _ Hw) as Hp. exists (len_prefixed (gen_message msg)). split; [done|].
    intros buf idx Hi. assert (len (be_bytes 2 (len mb) ++ mb) = 2 + len mb) as Hc by (by rewrite len_app, len_be_bytes).
    revert Hp Hc. generalize (be_bytes 2 (len mb) ++ mb). intros c Hp Hc.
    assert (gen_frame (Standard msg) (buf, idx) = gbind (len_prefixed (gen_message msg) (buf, idx)) (fun s =>
      (gen_padding (s.2 - (idx + 2) + 6) >>> gen_label (fun end_ => gen_adler idx end_)) s)) as ->.
    { exact (len_prefixed_then (gen_message msg)
        (fun o d => gen_padding (d + 6) >>> gen_label (fun end_ => gen_adler o end_)) buf idx). }
    destruct (Z.le_gt_cases (idx + len c) (len buf)) as [Hr|Hr].
    + destruct (writes_room _ _ buf idx Hp) as (pre & old & post & -> & Hpre & Ho & ->); [lia|done|].
      cbn [gbind GOk]. unfold gen_seal. replace (snd _ - (idx + 2) + 6) with (len c + 4) by (cbn; lia). done.
    + destruct (writes_small _ _ Hp buf idx) as (n & b' & -> & _); [lia|done|done].
  - exists (gen_be_u16 0 >>> gen_be_u32 ts). split; [apply writes_seq; [apply writes_be_u16|apply writes_be_u32]|].
    intros buf idx _. cbn [gen_frame]. unfold gen_timestamp_frame, gen_seal.
    rewrite len_app, !len_be_bytes, gen_label_eq, !gen_seq_eq.
    destruct (gen_be_u16 0 (buf, idx)) as [[b [e|e]]|]; [|done..]. cbn [gbind snd]. by rewrite gen_seq_eq.
Qed.

(** with room, the frame is the sealed content around what the buffer had *)
Lemma gen_frame_ok f c pre o1 o2 o3 post :
  frame_content f c -> len o1 = len c -> len o2 = pad_of c -> len o3 = 4 ->
  gen_frame f (pre ++ (o1 ++ o2 ++ o3) ++ post, len pre) =
  GOk (pre ++ sealed c o2 ++ post) (len pre + len (sealed c o2)).
Proof.
  intros Hc H1 H2 H3. destruct (gen_frame_seal f c Hc) as (g & Hg & E).
  rewrite E by (rewrite !len_app; pose proof (len_nonneg pre); pose proof (len_nonneg o1);
    pose proof (len_nonneg o2); pose proof (len_nonneg post); lia).
  rewrite <- !app_assoc, (writes_ok _ _ Hg) by done. cbn [gbind GOk]. unfold gen_seal. rewrite gen_seq_eq.
  pose proof (len_nonneg pre). pose proof (len_nonneg c). pose proof (len_nonneg o2). pose proof (len_nonneg post).
  unfold gen_padding. fold (pad_of c). rewrite gen_skip_ok by (rewrite !len_app; lia). cbn [gbind GOk].
  rewrite gen_label_eq. cbn [snd]. unfold gen_adler.
  rewrite (app_assoc c), (slice_app pre (c ++ o2)) by (rewrite ?len_app; lia).
  rewrite (app_assoc pre). rewrite (writes_at _ _ (pre ++ c ++ o2) o3 post _ (writes_slice (adler (c ++ o2))))
    by (rewrite ?len_adler, ?len_app; lia).
  unfold sealed, GOk. rewrite <- !app_assoc, !len_app. do 3 f_equal. lia.
Qed.

Lemma gen_frame_small f c buf idx :
  frame_content f c -> 0 <= idx <= len buf -> len buf < idx + (len c + pad_of c + 4) ->
  exists n buf', gen_frame f (buf, idx) = GErr buf' (BufferTooSmall n) /\
    len buf < n <= idx + (len c + pad_of c + 4).
Proof.
  intros Hc Hi Hl. destruct (gen_frame_seal f c Hc) as (g & Hg & E). rewrite E by done.
  assert (0 <= pad_of c) as Hp by (apply padding_len_bound; pose proof (len_nonneg c); lia).
  destruct (Z.le_gt_cases (idx + len c) (len buf)) as [Hr|Hr].
  2: { destruct (writes_small _ _ Hg buf idx) as (n & b' & -> & _ & Hn); [done|done|].
       cbn. exists n, b'. split; [done|lia]. }
  destruct (writes_room _ _ buf idx Hg) as (pre & old & post & -> & Hpre & Ho & ->); [lia|done|].
  cbn [gbind GOk]. unfold gen_seal. rewrite gen_seq_eq. unfold gen_padding. fold (pad_of c).
  set (b := pre ++ c ++ post).
  assert (len b = len (pre ++ old ++ post)) as Hb by (unfold b; rewrite !len_app; lia).
  destruct (Z.le_gt_cases (idx + len c + pad_of c) (len b)) as [Hr2|Hr2].
  2: { rewrite gen_skip_small by lia. cbn. eexists _, _. split; [done|lia]. }
  rewrite gen_skip_ok by done. cbn [gbind GOk]. rewrite gen_label_eq. unfold gen_adler. cbn [snd].
  rewrite gen_slice_small by (rewrite len_adler; lia). rewrite len_adler. eexists _, _. split; [done|lia].
Qed.

(** *** What is accepted *)

Lemma take_splits n i r b : 0 <= n -> bytes_ok i -> nom_take n i = POk r b -> i = b ++ r /\ len b = n.
Proof.
  intros Hn Hi H. split; [exact (exact_take n Hn i r b Hi H)|]. by destruct (sound_take n Hn i r b Hi H) as [[_ Hl] _].
Qed.

(** what is taken from the start is what is known to be there *)
Lemma take_known n a b i r data : len a = n -> bytes_ok i -> i = a ++ b -> nom_take n i = POk r data -> data = a.
Proof.
  intros Ha Hi -> H. destruct (take_splits n _ _ _ ltac:(pose proof (len_nonneg a); lia) Hi H) as [E Hl].
  apply app_inj_1 in E as [-> _]; [done|]. unfold len in *. lia.
Qed.

(** the end of a frame: [p] reads what precedes the padding *)
Lemma terminated_tag {A} (p : parser bytes A) f n t i r a (q : bytes -> Prop) :
  bytes_ok i -> 0 <= n ->
  (forall i r x, bytes_ok i -> p i = POk r x -> exists b, i = b ++ r /\ q b) ->
  map_pure (terminated p (nom_pair (nom_take n) (nom_tag t))) f i = POk r (a : Frame) ->
  exists b pad, i = b ++ pad ++ t ++ r /\ q b /\ len pad = n.
Proof.
  intros Hi Hn Hp. unfold map_pure. rewrite nom_map_eq, terminated_eq.
  destruct (p i) as [[[i1 x]|]|] eqn:E; [|done..]. cbn [pbind]. rewrite nom_pair_eq.
  destruct (Hp _ _ _ Hi E) as (b & -> & Hb). apply bytes_ok_app in Hi as [_ Hi1].
  destruct (nom_take n i1) as [[[i2 pad]|]|] eqn:E2; [|done..]. cbn [pbind].
  destruct (take_splits n i1 i2 pad Hn Hi1 E2) as [-> Hl]. apply bytes_ok_app in Hi1 as [_ Hi2].
  destruct (nom_tag t i2) as [[[i3 u]|]|] eqn:E3; [|done..]. cbn [pbind obind POk].
  pose proof (exact_tag t i2 i3 u Hi2 E3) as ->. intros [= -> _]. by exists b, pad.
Qed.

(** what is taken lies in what is known to be there *)
Lemma take_prefix n a b r data : 0 <= n <= len a -> bytes_ok (a ++ b) -> nom_take n (a ++ b) = POk r data -> data = ztake n a.
Proof.
  intros Hn Hi H. destruct (split_at a n) as (a1 & a2 & -> & H1); [lia..|]. rewrite <- app_assoc in *.
  rewrite (take_known n a1 (a2 ++ b) _ r data H1 Hi eq_refl H). by rewrite <- H1, ztake_app.
Qed.

(** sixteen bits wrap around multiples of the block, so what overflows loses
    nothing of its padding *)
Lemma padding_len_wraps c : 0 <= c -> padding_len (c mod 65536) = padding_len c.
Proof.
  intros Hc. rewrite !padding_len_eq by (done || (apply Z.mod_pos_bound; lia)). Z.div_mod_to_equations. lia.
Qed.

(** what the parser computes of a size *)
Lemma checked_size oc sz k n : 0 <= sz -> 0 <= k -> checked oc 16 (sz + k) = Ret n ->
  n = (sz + k) mod 65536 /\ (oc = true -> sz + k < 65536).
Proof.
  intros Hs Hk. unfold checked. change (2 ^ 16) with 65536.
  destruct (Z.leb_spec 0 (sz + k)) as [H1|H1], (Z.ltb_spec (sz + k) 65536) as [H2|H2]; cbn [andb]; try lia.
  - intros [= <-]. by rewrite Z.mod_small.
  - destruct oc; [done|]. by intros [= <-].
Qed.

(** how many bytes the checksum of a message frame is taken over *)
Lemma covered_len sz : 0 < sz < 65536 ->
  (sz + 2) mod 65536 + padding_len ((sz + 6) mod 65536) =
  if sz <? 65534 then sz + 2 + padding_len (sz + 6) else 12.
Proof.
  intros Hs. rewrite padding_len_wraps by lia. destruct (Z.ltb_spec sz 65534) as [H|H].
  - by rewrite (Z.mod_small (sz + 2)) by lia.
  - by assert (sz = 65534 \/ sz = 65535) as [-> | ->] by lia.
Qed.

Lemma frame_sealed oc i r f : bytes_ok i -> frame oc i = POk r f ->
  exists sz d, let body := be_bytes 2 sz ++ d in
    i = body ++ adler (covered sz body) ++ r /\ (len body + 4) mod 16 = 0 /\
    0 <= sz < 65536 /\ (oc = true -> sz < 65530).
Proof.
  intros Hi. unfold frame. rewrite nom_pair_eq. unfold get_adler. rewrite nom_peek_eq.
  destruct (be_u16 i) as [[[i1 sz]|]|] eqn:E; [|done..]. cbn [pbind POk].
  pose proof (proj1 (sound_be_u16 i i1 sz Hi E)) as Hsz. unfold u16_ok in Hsz.
  pose proof (exact_be_u16 i i1 sz Hi E) as ->.
  assert (bytes_ok i1) as Hi1 by (by apply bytes_ok_app in Hi as [_ ?]).
  destruct (Z.eqb_spec sz 0) as [->|Hne].
  - destruct (nom_take 12 _) as [[[? data]|]|] eqn:E1; [|done..]. cbn [pbind POk]. rewrite E. cbn [pbind POk].
    rewrite Z.eqb_refl. intros H.
    destruct (terminated_tag be_u32 TimeSync 6 (adler data) i1 r f (fun b => len b = 4) Hi1) as (b & pad & -> & Hb & Hp);
      [done| |done|].
    { intros j r' x Hj Hx. pose proof (exact_be_aux 4 be_u32 be_u32_ok be_u32_short j r' x Hj Hx) as ->.
      eexists. split; [done|]. by rewrite len_be_bytes. }
    assert (len (be_bytes 2 0 ++ b ++ pad) = 12) as Hd by (rewrite !len_app, len_be_bytes; lia).
    pose proof (take_known _ _ (adler data ++ r) _ _ _ Hd Hi ltac:(by rewrite <- !app_assoc) E1) as Ed.
    exists 0, (b ++ pad). cbv zeta. split; [rewrite Ed; by rewrite <- !app_assoc|]. by rewrite Hd.
  - destruct (checked oc 16 (sz + 2)) as [n|] eqn:En; [|done]. cbn [obind].
    destruct (checked oc 16 (sz + 6)) as [m|] eqn:Em; [|done]. cbn [obind].
    apply checked_size in En as [-> _]; [|lia..]. apply checked_size in Em as Hm; [|lia..]. destruct Hm as [-> Hoc].
    destruct (padding_len_bound (sz + 6)) as [Hpl Hpm]; [lia|].
    destruct (nom_take _ _) as [[[? data]|]|] eqn:E1; [|done..]. cbn [pbind POk]. rewrite E. cbn [pbind POk].
    rewrite (proj2 (Z.eqb_neq _ _)), Em by done. cbn [obind]. rewrite covered_len in E1 by lia.
    unfold padding. rewrite padding_len_wraps by lia. intros H.
    destruct (terminated_tag (length_value (nom_success sz) message) Standard (padding_len (sz + 6)) (adler data) i1 r f
      (fun b => len b = sz) Hi1) as (b & pad & -> & Hb & Hp); [lia| |exact H|].
    { intros j r' x Hj. rewrite length_value_eq, nom_success_eq. cbn [pbind POk].
      destruct (nom_take sz j) as [[[j1 s]|]|] eqn:Es; [|done..]. cbn [pbind].
      destruct (take_splits sz j j1 s ltac:(lia) Hj Es) as [-> Hls]. destruct (message s) as [[[? ?]|[]]|]; [|done..]. intros [= <- _]. by exists s. }
    assert (len (be_bytes 2 sz ++ b ++ pad) = sz + 2 + padding_len (sz + 6)) as Hd by (rewrite !len_app, len_be_bytes; lia).
    exists sz, (b ++ pad). cbv zeta. rewrite Hd. split_and!; [|rewrite <- Hpm; f_equal; lia|lia|lia|intros Ho; specialize (Hoc Ho); lia].
    set (body := be_bytes 2 sz ++ b ++ pad) in *.
    assert (data = covered sz body) as <-; [|by unfold body; rewrite <- !app_assoc].
    rewrite (take_prefix (if sz <? 65534 then sz + 2 + padding_len (sz + 6) else 12) body (adler data ++ r) l data).
    + unfold covered. destruct (sz <? 65534); [by apply ztake_all|done].
    + destruct (Z.ltb_spec sz 65534); lia.
    + unfold body. by rewrite <- !app_assoc.
    + unfold body. by rewrite <- !app_assoc.
Qed.

(** without overflow checks, the two longest sizes: a frame is accepted when its
    checksum is that of its first twelve bytes *)
Lemma frame_unsealed sz msg mb junk pad h t rest :
  65534 <= sz < 65536 -> parses message mb msg -> len (mb ++ junk) = sz -> len pad = padding_len (sz + 6) ->
  mb ++ junk = h ++ t -> len h = 10 ->
  frame false ((be_bytes 2 sz ++ h ++ t ++ pad) ++ adler (be_bytes 2 sz ++ h) ++ rest) = POk rest (Standard msg).
Proof.
  intros Hs Hm Hl Hp E Hh. unfold frame. rewrite nom_pair_eq. unfold get_adler. rewrite nom_peek_eq, <- !app_assoc.
  assert (u16_ok sz) as Hu by (unfold u16_ok; lia).
  rewrite (parses_be_u16 sz Hu). cbn [pbind POk]. rewrite (proj2 (Z.eqb_neq _ _)) by lia.
  assert (forall k, 0 <= k -> 65536 <= sz + k -> checked false 16 (sz + k) = Ret ((sz + k) mod 65536)) as Hc.
  { intros k Hk Hw. unfold checked. change (2 ^ 16) with 65536. rewrite (proj2 (Z.ltb_ge _ _)) by lia. by rewrite andb_false_r. }
  rewrite !Hc by lia. cbn [obind]. rewrite covered_len, (proj2 (Z.ltb_ge _ _)) by lia.
  rewrite (app_assoc (be_bytes 2 sz) h), parses_take by (rewrite len_app, len_be_bytes; lia). cbn [pbind POk].
  rewrite <- (app_assoc (be_bytes 2 sz)), (parses_be_u16 sz Hu). cbn [pbind POk].
  rewrite (proj2 (Z.eqb_neq _ _)), Hc by lia. cbn [obind]. unfold padding. rewrite padding_len_wraps by lia.
  set (cs := adler _). rewrite (app_assoc h), <- E. unfold map_pure. rewrite nom_map_eq, terminated_eq, length_value_eq, nom_success_eq.
  cbn [pbind POk]. rewrite (parses_take sz) by done. cbn [pbind POk]. rewrite Hm. cbn [pbind POk].
  rewrite nom_pair_eq, (parses_take _ pad) by done. cbn [pbind POk]. by rewrite (parses_tag cs rest).
Qed.

End Frames.

(** ** Properties *)
Module NtcpFrameProps.
Section Props.
Context {nom : Nom} {cf : CookieFactory} {bu : BigUintOps} {sc : SigCrates} {sha : Sha2} {fl : Flate2}.

(** Every frame that can be sent takes a whole number of cipher blocks; with
    that much room the generator writes exactly those bytes, whatever the buffer
    held (the padding keeps it), and what it writes is read back as the same
    frame, whatever follows it. *)
Theorem ntcp_frame_roundtrip (f : Frame) :
  sendable_frame f -> exists n, 16 <= n /\ n mod 16 = 0 /\
    forall oc pre old post, len old = n ->
      exists bs, gen_frame f (pre ++ old ++ post, len pre) = GOk (pre ++ bs ++ post) (len pre + n) /\
        len bs = n /\ parses (frame oc) bs f.
Proof.
  intros Hs. destruct (sendable_content f Hs) as [c Hc].
  assert (0 <= pad_of c) as Hp by (apply padding_len_bound; pose proof (len_nonneg c); lia).
  destruct (len_sealed f c (zeros (pad_of c)) Hc (len_zeros _ Hp)) as (Hl & Hm & Hb).
  exists (len c + pad_of c + 4). rewrite <- Hl. split; [lia|]. split; [done|].
  intros oc pre old post Ho. pose proof (len_nonneg c).
  destruct (split_at old (len c)) as (o1 & o2 & -> & H1); [lia|lia|].
  destruct (split_at o2 (pad_of c)) as (o3 & o4 & -> & H3); [done|rewrite len_app in Ho; lia|].
  rewrite !len_app in Ho. destruct (len_sealed f c o3 Hc H3) as (Hl3 & _). exists (sealed c o3).
  rewrite (gen_frame_ok f c) by (done || lia). rewrite Hl3, <- Hl. split; [done|]. split; [done|].
  by apply parses_frame.
Qed.

(** C34: Whatever is accepted as a frame, with overflow checks or without, takes
    a whole number of cipher blocks and ends in an Adler-32 checksum.  The
    checksum is of everything before it, whenever overflow checks are on (the
    sizes from 65530 on are then not accepted at all) and, in a release build, for
    all sizes but 65534 and 65535: there [size + 2] overflows, and the checksum
    is of the first twelve bytes only. *)
Theorem ntcp_frame_sealed (oc : bool) (i r : bytes) (f : Frame) :
  bytes_ok i -> frame oc i = POk r f ->
  exists sz d, let body := be_bytes 2 sz ++ d in
    i = body ++ adler (covered sz body) ++ r /\ (len body + 4) mod 16 = 0 /\
    0 <= sz < 65536 /\ (oc = true -> sz < 65530).
Proof. apply frame_sealed. Qed.

(** In a release build a frame of one of the two longest sizes is accepted with
    the checksum of its size and the first ten bytes of its data [h]; the rest of
    the message, what follows the message and the padding can be anything. *)
Theorem ntcp_long_frame_unsealed (sz : Z) (msg : Message) (mb junk pad h t rest : bytes) :
  65534 <= sz < 65536 -> parses message mb msg -> len (mb ++ junk) = sz -> len pad = padding_len (sz + 6) ->
  mb ++ junk = h ++ t -> len h = 10 ->
  frame false ((be_bytes 2 sz ++ h ++ t ++ pad) ++ adler (be_bytes 2 sz ++ h) ++ rest) = POk rest (Standard msg).
Proof. apply frame_unsealed. Qed.

(** A size of 65530 or more overflows: with overflow checks the parser
    panics on its first two bytes, and computing the checksum panics on no other
    input. *)
Theorem ntcp_size_overflow_panics (oc : bool) (i : bytes) :
  bytes_ok i ->
  (get_adler oc i = Panic <-> oc = true /\ exists n rest, i = be_bytes 2 n ++ rest /\ 65530 <= n < 65536) /\
  (get_adler oc i = Panic -> frame oc i = Panic).
Proof.
  intros Hi. split; [|by intros H; unfold frame; rewrite nom_pair_eq, H].
  unfold get_adler. rewrite nom_peek_eq. destruct (be_u16 i) as [[[i1 sz]|e]|] eqn:E.
  - cbn [pbind POk]. pose proof (proj1 (sound_be_u16 i i1 sz Hi E)) as Hsz. unfold u16_ok in Hsz.
    pose proof (exact_be_u16 i i1 sz Hi E) as ->.
    assert (forall n, 0 <= n -> pbind (nom_take n (be_bytes 2 sz ++ i1)) (fun _ data => POk (be_bytes 2 sz ++ i1) (adler data)) <> Panic)
      as Htake.
    { intros n Hn. pose proof (total_take n Hn _ Hi). by destruct (nom_take n _) as [[[]|]|]. }
    destruct (Z.eqb_spec sz 0) as [->|Hne].
    + split; [by intros ?%Htake|]. intros (_ & n & rest & En & Hn). exfalso.
      apply app_inj_1 in En as [En _]; [|done]. apply (f_equal be_val) in En. rewrite !be_val_bytes in En.
      change (256 ^ Z.of_nat 2) with 65536 in En. rewrite !Z.mod_small in En by lia. lia.
    + destruct (checked oc 16 (sz + 2)) as [a|] eqn:Ea; cbn [obind].
      2: { apply checked_panic in Ea as [-> Ha]. split; [|done]. intros _. split; [done|].
           exists sz, i1. split; [done|lia]. }
      destruct (checked oc 16 (sz + 6)) as [b|] eqn:Eb; cbn [obind].
      2: { apply checked_panic in Eb as [-> Hb]. split; [|done]. intros _. split; [done|].
           exists sz, i1. split; [done|lia]. }
      apply checked_range in Ea as Ha; [|lia]. apply checked_range in Eb as Hb; [|lia].
      destruct (padding_len_bound b) as [Hp _]; [lia|].
      split; [intros H; exfalso; revert H; apply Htake; lia|]. intros (-> & n & rest & En & Hn). exfalso.
      apply app_inj_1 in En as [En _]; [|done]. apply (f_equal be_val) in En. rewrite !be_val_bytes in En.
      change (256 ^ Z.of_nat 2) with 65536 in En. rewrite !Z.mod_small in En by lia. subst n.
      assert (checked true 16 (sz + 6) = Panic) as Hc by (apply checked_panic; split; [done|lia]). congruence.
  - cbn [pbind]. split; [done|]. intros (_ & n & rest & -> & Hn).
    rewrite (parses_be_u16 n) in E by (unfold u16_ok; lia). discriminate E.
  - by destruct (total_be_u16 i Hi).
Qed.

End Props.

#[local] Existing Instances nom_ref cf_ref biguint_ref sigcrates_ref sha2_ref flate_ref.

Lemma ntcp_frame_roundtrip_witness :
  exists n, 16 <= n /\ n mod 16 = 0 /\
    forall oc pre old post, len old = n ->
      exists bs, gen_frame (TimeSync 12345678) (pre ++ old ++ post, len pre) = GOk (pre ++ bs ++ post) (len pre + n) /\
        len bs = n /\ parses (frame oc) bs (TimeSync 12345678).
Proof.
  assert (sendable_frame (TimeSync 12345678)) as Hs by (split; [discriminate|reflexivity]).
  exact (ntcp_frame_roundtrip (TimeSync 12345678) Hs).
Defined.

(** the vectors of the repository's tests *)
Example adler_mark : adler [77; 97; 114; 107; 32; 65; 100; 108; 101; 114] = [0x13; 0x07; 0x03; 0x94].
Proof. vm_compute. reflexivity. Qed.

Example get_adler_standard :
  get_adler true [0; 2; 1; 2; 1; 2; 3; 4; 5; 6; 7; 8; 0; 182; 0; 42] =
  POk [0; 2; 1; 2; 1; 2; 3; 4; 5; 6; 7; 8; 0; 182; 0; 42] [0; 182; 0; 42].
Proof. vm_compute. reflexivity. Qed.

(** a timestamp frame with its padding of zeros *)
Definition ref_timestamp : bytes := [0; 0; 0; 188; 97; 78; 0; 0; 0; 0; 0; 0] ++ adler [0; 0; 0; 188; 97; 78; 0; 0; 0; 0; 0; 0].

Definition sample_msg : @Message sigcrates_ref :=
  mkMessage 5 (mkI2PDate 1000) (MDeliveryStatus (mkDeliveryStatus 9 (mkI2PDate 2000))).

(** a short message in a frame that announces the longest but one *)
Lemma sample_long : exists mb h t, parses message mb sample_msg /\ bytes_ok mb /\ len mb = 28 /\
  mb ++ zeros (65534 - 28) = h ++ t /\ len h = 10 /\ bytes_ok (h ++ t).
Proof.
  pose (be_bytes 4 9 ++ be_bytes 8 2000) as pb.
  assert (writes (gen_payload (msg_payload sample_msg)) pb) as Wp by exact (writes_seq _ _ _ _ (writes_be_u32 9) (writes_be_u64 2000)).
  assert (sendable_f 1 sample_msg) as Hs.
  { do 4 (split; [done|]). eapply writes_le_weaken; [exact MessageSamples.ref_status_fits|lia]. }
  pose proof (writes_message 5 (mkI2PDate 1000) _ _ Wp) as Hw.
  pose proof (rt_parses _ _ _ _ (rt_message 1 sample_msg Hs) Hw) as Hm.
  match type of Hm with parses _ ?x _ => exists x; set (mb := x) in * end.
  assert (len mb = 28) as Hl by (unfold mb; rewrite !len_app, !len_be_bytes; reflexivity).
  assert (bytes_ok mb) as Hb by (repeat first [apply be_bytes_ok | apply bytes_ok_app; split]).
  destruct (split_at (mb ++ zeros (65534 - 28)) 10) as (h & t & E & Hh); [lia|rewrite len_app, len_zeros; lia|].
  exists h, t. split_and!; [done..|]. rewrite <- E. apply bytes_ok_app. split; [done|].
  by apply Forall_replicate.
Qed.

Lemma sample_long_frame : exists i, bytes_ok i /\ frame false (i ++ [5]) = POk [5] (Standard sample_msg) /\ be_val (ztake 2 i) = 65534.
Proof.
  destruct sample_long as (mb & h & t & Hm & Hb & Hl & E & Hh & Hok).
  exists ((be_bytes 2 65534 ++ h ++ t ++ zeros 12) ++ adler (be_bytes 2 65534 ++ h)). split_and!.
  - apply bytes_ok_app. split; [|apply adler_ok]. apply bytes_ok_app. split; [apply be_bytes_ok|]. rewrite app_assoc.
    apply bytes_ok_app. split; [done|]. by apply bytes_okb_ok.
  - rewrite <- app_assoc. apply (frame_unsealed 65534 sample_msg mb (zeros (65534 - 28))); try done.
    by rewrite len_app, Hl, len_zeros by lia.
  - by rewrite <- !app_assoc, ztake_app.
Qed.

Lemma ntcp_frame_sealed_witness :
  (exists sz d, let body := be_bytes 2 sz ++ d in
    ref_timestamp ++ [5] = body ++ adler (covered sz body) ++ [5] /\ (len body + 4) mod 16 = 0 /\
    0 <= sz < 65536 /\ (true = true -> sz < 65530)) /\
  (exists i, be_val (ztake 2 i) = 65534 /\ exists sz d, let body := be_bytes 2 sz ++ d in
    i ++ [5] = body ++ adler (covered sz body) ++ [5] /\ (len body + 4) mod 16 = 0 /\
    0 <= sz < 65536 /\ (false = true -> sz < 65530)).
Proof.
  assert (frame true (ref_timestamp ++ [5]) = POk [5] (TimeSync 12345678)) as H
    by (vm_cast_no_check (@eq_refl (IResult bytes Frame) (POk [5] (TimeSync 12345678)))).
  assert (bytes_okb (ref_timestamp ++ [5]) = true) as Hb by (vm_compute; reflexivity).
  split; [exact (ntcp_frame_sealed true (ref_timestamp ++ [5]) [5] (TimeSync 12345678) (bytes_okb_ok _ Hb) H)|].
  destruct sample_long_frame as (i & Hi & Hf & H2). exists i. split; [exact H2|].
  assert (bytes_ok (i ++ [5])) as Hi5 by (apply bytes_ok_app; split; [exact Hi|apply bytes_okb_ok; reflexivity]).
  exact (ntcp_frame_sealed false (i ++ [5]) [5] (Standard sample_msg) Hi5 Hf).
Defined.

Lemma ntcp_long_frame_unsealed_witness :
  exists h t, len (h ++ t) = 65534 /\
    frame false ((be_bytes 2 65534 ++ h ++ t ++ zeros 12) ++ adler (be_bytes 2 65534 ++ h) ++ [5]) = POk [5] (Standard sample_msg).
Proof.
  destruct sample_long as (mb & h & t & Hm & Hb & Hl & E & Hh & Hok). exists h, t.
  assert (len (mb ++ zeros (65534 - 28)) = 65534) as Hn by (rewrite len_app, Hl, len_zeros by lia; reflexivity).
  split; [by rewrite <- E|].
  apply (ntcp_long_frame_unsealed 65534 sample_msg mb (zeros (65534 - 28)) (zeros 12) h t [5]); try done.
Defined.

Lemma ntcp_size_overflow_panics_witness : get_adler true [255; 250; 1] = Panic /\ frame true [255; 250; 1] = Panic.
Proof.
  assert (bytes_ok [255; 250; 1]) as Hi by (apply bytes_okb_ok; reflexivity).
  destruct (ntcp_size_overflow_panics true [255; 250; 1] Hi) as [H1 H2].
  assert (get_adler true [255; 250; 1] = Panic) as H.
  { apply H1. split; [reflexivity|]. exists 65530, [1]. split; [reflexivity|]. split; [discriminate|reflexivity]. }
  split; [exact H|exact (H2 H)].
Defined.

End NtcpFrameProps.
