(* ===== verification/NtcpCodec.v ===== *)
(** * The NTCP codec

    [Codec] of [src/transport/ntcp/mod.rs]: frames are encrypted in CBC mode,
    each going on where the last one stopped; the other side decrypts the whole
    blocks it has, in place, and parses frames from what it has decrypted. *)

From S2P Require Import Prelude Nom Cookie Util Wire Crypto Aes Data Dest I2np Message Framed NtcpFrame.

Section Codec.
Context {nom : Nom} {cf : CookieFactory} {bu : BigUintOps} {sc : SigCrates} {sha : Sha2} {fl : Flate2}.
Context {aes_crate : AesCrate}.
Context (oc : bool).

Definition NTCP_MTU : Z := 16384.

(** [decrypted]: how much of the buffer is plaintext *)
Record Codec := mkCodec { aes : Aes256; decrypted : Z }.

(** the I/O errors *)
Inductive CodecError := CeParse | CeSerialization | CeTooLarge (n : Z) | CeGenerate.

(** the frame at the front of the plaintext *)
Definition decode_frame (c : Codec) (buf : bytes) : outcome (Codec * bytes * result (option Frame) CodecError) :=
  let! p := frame oc (ztake (decrypted c) buf) in
  match p with
  | Err (Incomplete _) => Ret (c, buf, Ok None)
  | Err _ => Ret (c, buf, Err CeParse)
  | Ok (i, f) =>
      let consumed := decrypted c - len i in
      Ret (mkCodec (aes c) (decrypted c - consumed), zdrop consumed buf, Ok (Some f))
  end.

#[export] Instance ntcp_decode : FramedCodec Codec Frame CodecError := fun c buf =>
  if len buf <? decrypted c then Panic
  else
    let '(a, tail, r) := decrypt_blocks (aes c) (zdrop (decrypted c) buf) in
    let buf := ztake (decrypted c) buf ++ tail in
    match r with
    | Some end_ => decode_frame (mkCodec a (decrypted c + end_)) buf
    | None => if decrypted c =? 0 then Ret (mkCodec a (decrypted c), buf, Ok None) else decode_frame (mkCodec a (decrypted c)) buf
    end.

Definition encode (c : Codec) (f : Frame) (buf : bytes) : outcome (Codec * bytes * result unit CodecError) :=
  let start := len buf in
  let! (buf, g) := gen_frame f (buf ++ zeros NTCP_MTU, start) in
  match g with
  | Ok sz =>
      let buf := ztake sz buf in
      let '(a, ct, r) := encrypt_blocks (aes c) (zdrop start buf) in
      Ret (mkCodec a (decrypted c), ztake start buf ++ ct,
           match r with
           | Some end_ => if start + end_ =? sz then Ok tt else Err CeSerialization
           | None => Err CeSerialization
           end)
  | Err (BufferTooSmall sz) => Ret (c, buf, Err (CeTooLarge (sz - start)))
  | Err _ => Ret (c, buf, Err CeGenerate)
  end.

(** Every frame in turn into one buffer. *)
Fixpoint encode_all (c : Codec) (fs : list Frame) (buf : bytes) : outcome (Codec * bytes * result unit CodecError) :=
  match fs with
  | [] => Ret (c, buf, Ok tt)
  | f :: fs =>
      let! (c, buf, r) := encode c f buf in
      match r with Ok _ => encode_all c fs buf | Err e => Ret (c, buf, Err e) end
  end.

(** ** What is still to come *)

(** the bytes of a frame, with some padding *)
Definition encoded (f : Frame) (e : bytes) : Prop :=
  exists c pad, frame_content f c /\ len pad = pad_of c /\ e = sealed c pad.

(** With these bytes in the buffer and these to come, the plaintext is that of
    these frames: [plain] is decrypted, [ct] is not. *)
Definition awaits (c : Codec) (buf future : bytes) (fs : list Frame) : Prop :=
  len (key_bytes (aes_key (aes c))) = 32 /\ wf_iv (iv_dec (aes c)) /\
  exists plain rest ct es,
    buf = plain ++ rest /\ ct = rest ++ future /\ decrypted c = len plain /\
    len plain mod 16 = 0 /\ len ct mod 16 = 0 /\ bytes_ok ct /\ Forall2 encoded fs es /\
    plain ++ (cbc_decrypt (key_bytes (aes_key (aes c))) (iv_dec (aes c)) ct).1 = concat es.

(** ** Lemmas *)

Lemma len_encoded f e : encoded f e -> 16 <= len e /\ len e mod 16 = 0.
Proof. intros (c & pad & Hc & Hp & ->). by destruct (len_sealed f c pad Hc Hp) as (_ & Hm & Hl & _). Qed.

Lemma encoded_nil fs es : Forall2 encoded fs es -> concat es = [] -> fs = [].
Proof.
  intros [|f e fs' es' He _]; [done|]. cbn [concat]. intros [-> _]%app_nil.
  apply len_encoded in He as [He _]. by rewrite len_nil in He.
Qed.

Lemma len_zero_nil {A} (l : list A) : len l = 0 -> l = [].
Proof. destruct l; [done|]. rewrite len_cons. pose proof (len_nonneg l). lia. Qed.

Lemma cbc_decrypt_nil_fst k iv : (cbc_decrypt k iv []).1 = [].
Proof. by rewrite cbc_decrypt_nil. Qed.

Lemma prefix_weak {A} (a b c d : list A) : a ++ c = b ++ d -> (length a <= length b)%nat -> exists q, b = a ++ q.
Proof.
  intros E Hl. exists (drop (length a) b). rewrite <- (take_drop (length a) b) at 1. f_equal.
  apply (f_equal (take (length a))) in E. by rewrite take_app_length, take_app_le in E by done.
Qed.

(** parsing the plaintext: a frame, or too little *)
Lemma decode_frame_awaits c buf future fs : awaits c buf future fs ->
  (exists buf', decode_frame c buf = Ret (c, buf, Ok None) /\ buf' = buf /\
     (len buf < decrypted c + 16 -> future = [] -> fs = [] /\ buf = [])) \/
  (exists c' buf' f fs', decode_frame c buf = Ret (c', buf', Ok (Some f)) /\ fs = f :: fs' /\
     awaits c' buf' future fs' /\ (length buf' < length buf)%nat).
Proof.
  intros (Hk & Hiv & plain & rest & ct & es & -> & -> & Ed & Hm & Hcm & Hcb & Hes & Eq). unfold decode_frame.
  rewrite Ed, ztake_app by done.
  assert (forall q, plain ++ (cbc_decrypt (key_bytes (aes_key (aes c))) (iv_dec (aes c)) (rest ++ future)).1 = plain ++ q ->
    len (plain ++ rest) < len plain + 16 -> future = [] -> q = [] /\ rest = []) as Hend.
  { intros q E%app_inv_head Hl ->. rewrite app_nil_r, len_app in *.
    assert (rest = []) as ->; [|by rewrite cbc_decrypt_nil_fst in E].
    apply len_zero_nil. pose proof (len_nonneg rest). rewrite Z.mod_small in Hcm; lia. }
  destruct Hes as [|f e fs es He Hes].
  - left. exists (plain ++ rest). apply app_nil in Eq as [-> Hq]. destruct (frame_nil oc) as [k ->]. cbn [obind].
    split; [done|]. split; [done|]. intros Hl Hf. destruct (Hend [] ltac:(by rewrite Hq) Hl Hf) as [_ ->]. done.
  - cbn [concat] in Eq. destruct (len_encoded f e He) as [H16 Hem]. destruct (Z.le_gt_cases (len e) (len plain)) as [Hle|Hlt].
    + right. destruct (split_at plain (len e)) as (p1 & p2 & -> & Hp1); [apply len_nonneg|done|].
      rewrite <- app_assoc in Eq. apply app_inj_1 in Eq as [-> Eq]; [|unfold len in Hp1; lia].
      destruct He as (cc & pad & Hc & Hp & ->). rewrite (parses_frame oc f cc pad Hc Hp). cbn [obind POk].
      set (e := sealed cc pad) in *. rewrite <- app_assoc, !len_app in *.
      replace (len e + len p2 - len p2) with (len e) by lia. rewrite zdrop_app by done.
      eexists _, _, f, fs. split; [done|]. split; [done|]. split.
      * split; [done|]. split; [done|]. exists p2, rest, (rest ++ future), es. cbn [decrypted aes].
        split_and!; try done; rewrite ?len_app; first [done|lia|clear -Hm Hem; Z.div_mod_to_equations; lia].
      * rewrite !length_app. unfold len in H16. lia.
    + left. exists (plain ++ rest). destruct He as (cc & pad & Hc & Hp & E).
      set (PT := (cbc_decrypt _ _ _).1) in *.
      assert (exists q, e = plain ++ q) as [q Eqq].
      { apply (prefix_weak plain e PT (concat es)); [exact Eq|unfold len in Hlt; lia]. }
      destruct (frame_incomplete oc f cc pad plain q Hc Hp) as [k ->].
      { by rewrite <- E. }
      { rewrite Eqq, len_app in Hem, Hlt. Z.div_mod_to_equations. lia. }
      cbn [obind]. split; [done|]. split; [done|]. intros Hl Hf. exfalso.
      destruct (Hend PT eq_refl Hl Hf) as [Hq _]. rewrite Hq, app_nil_r in Eq.
      apply (f_equal len) in Eq. rewrite len_app in Eq. pose proof (len_nonneg (concat es)). lia.
Qed.

Lemma decode_awaits c buf future fs : awaits c buf future fs ->
  (exists c' buf', decode c buf = Ret (c', buf', Ok None) /\ awaits c' buf' future fs /\
     (future = [] -> fs = [] /\ buf' = [])) \/
  (exists c' buf' f fs', decode c buf = Ret (c', buf', Ok (Some f)) /\ fs = f :: fs' /\
     awaits c' buf' future fs' /\ (length buf' < length buf)%nat).
Proof.
  intros (Hk & Hiv & plain & rest & ct & es & -> & -> & Ed & Hm & Hcm & Hcb & Hes & Eq).
  assert (bytes_ok rest) as Hrb by (by apply bytes_ok_app in Hcb as [? _]).
  destruct (decrypt_blocks_split (aes c) rest Hk Hiv Hrb) as (w & rest2 & o & a' & -> & Hw & Hr2 & Ho & Hdec & Hkey & Hiv' & Hcat).
  assert (len o mod 16 = 0) as Hom by (by rewrite Ho).
  assert (awaits (mkCodec a' (decrypted c + len w)) ((plain ++ o) ++ rest2) future fs) as Hnew.
  { split; [cbn; by rewrite Hkey|]. split; [done|]. exists (plain ++ o), rest2, (rest2 ++ future), es. cbn [decrypted aes].
    rewrite Ed, len_app, Ho, Hkey. rewrite <- app_assoc in *.
    rewrite Hcat in Eq. destruct (cbc_decrypt _ (iv_dec a') (rest2 ++ future)) as [o2 iv2].
    apply bytes_ok_app in Hcb as [_ Hcb]. rewrite len_app in Hcm. cbn [fst] in *. rewrite <- app_assoc.
    split_and!; try done; Z.div_mod_to_equations; lia. }
  assert (decode c (plain ++ w ++ rest2) =
    if (len w =? 0) && (decrypted c =? 0) then Ret (mkCodec a' (decrypted c), plain ++ o ++ rest2, Ok None)
    else decode_frame (mkCodec a' (decrypted c + len w)) ((plain ++ o) ++ rest2)) as ->.
  { unfold decode, ntcp_decode. rewrite (proj2 (Z.ltb_ge _ _)) by (rewrite Ed, !len_app; pose proof (len_nonneg w); pose proof (len_nonneg rest2); lia).
    rewrite Ed, zdrop_app, ztake_app, Hdec by done. rewrite <- app_assoc.
    destruct (Z.eqb_spec (len w) 0) as [->|_]; [|done]. rewrite Z.add_0_r. by destruct (len plain =? 0). }
  destruct ((len w =? 0) && (decrypted c =? 0)) eqn:E0.
  - apply andb_true_iff in E0 as [Ew%Z.eqb_eq Ep%Z.eqb_eq]. left. exists (mkCodec a' (decrypted c)), (plain ++ o ++ rest2).
    split; [done|]. rewrite Ew, Z.add_0_r, <- app_assoc in Hnew. split; [done|]. intros ->.
    assert (plain = []) as -> by (apply len_zero_nil; lia). assert (o = []) as -> by (apply len_zero_nil; lia).
    assert (w = []) as -> by (by apply len_zero_nil). cbn [app] in *. rewrite app_nil_r in *.
    assert (rest2 = []) as -> by (apply len_zero_nil; pose proof (len_nonneg rest2); rewrite Z.mod_small in Hcm; lia).
    split; [|done]. rewrite cbc_decrypt_nil_fst in Eq. by eapply encoded_nil.
  - destruct (decode_frame_awaits _ _ _ _ Hnew) as [(b & Hd & -> & Hend)|(c' & buf' & f & fs' & Hd & -> & Ha & Hlt)].
    + left. eexists _, _. split; [exact Hd|]. split; [done|]. apply Hend. cbn [decrypted]. rewrite Ed, !len_app. lia.
    + right. exists c', buf', f, fs'. split; [done|]. split; [done|]. split; [done|].
      rewrite !length_app in *. unfold len in Ho. lia.
Qed.

#[export] Instance ntcp_framed : FramedLaws Codec Frame CodecError.
Proof.
  refine {| pending := awaits |}; [|exact decode_awaits].
  intros c buf chunk future fs (Hk & Hiv & plain & rest & ct & es & -> & -> & H).
  split; [done|]. split; [done|]. exists plain, (rest ++ chunk), (rest ++ chunk ++ future), es.
  split; [by rewrite app_assoc|]. split; [by rewrite app_assoc|done].
Defined.

(** *** Writing the stream *)

(** a frame that fits the MTU, of bytes *)
Definition fits (f : Frame) : Prop :=
  exists c, frame_content f c /\ bytes_ok c /\ len c + pad_of c + 4 <= NTCP_MTU.

(** the buffer has room for any frame that fits, and it is padded by zeros *)
Lemma gen_frame_zeros f c buf : frame_content f c -> len c + pad_of c + 4 <= NTCP_MTU ->
  exists post, gen_frame f (buf ++ zeros NTCP_MTU, len buf) =
    GOk (buf ++ sealed c (zeros (pad_of c)) ++ post) (len buf + (len c + pad_of c + 4)).
Proof.
  intros Hc Hl. pose proof (len_nonneg c). assert (0 <= pad_of c) as Hp by (apply padding_len_bound; lia).
  assert (forall a b, 0 <= a -> 0 <= b -> zeros (a + b) = zeros a ++ zeros b) as Hz.
  { intros a b Ha Hb. unfold zeros. by rewrite Z2Nat.inj_add, replicate_add. }
  replace NTCP_MTU with (len c + (pad_of c + 4) + (NTCP_MTU - (len c + pad_of c + 4))) by lia.
  rewrite (Hz (len c + (pad_of c + 4))), (Hz (len c)), (Hz (pad_of c)) by lia.
  exists (zeros (NTCP_MTU - (len c + pad_of c + 4))). rewrite (gen_frame_ok f c) by (done || by apply len_zeros).
  destruct (len_sealed f c (zeros (pad_of c)) Hc (len_zeros _ Hp)) as (-> & _). done.
Qed.

Lemma encode_ok e f c buf : frame_content f c -> bytes_ok c -> len c + pad_of c + 4 <= NTCP_MTU -> wf_Aes256 (aes e) ->
  let s := sealed c (zeros (pad_of c)) in
  exists a' ct, encode e f buf = Ret (mkCodec a' (decrypted e), buf ++ ct, Ok tt) /\
    encrypt_blocks (aes e) s = (a', ct, Some (len s)) /\ len ct = len s /\ len s mod 16 = 0 /\ encoded f s /\ bytes_ok s.
Proof.
  intros Hc Hcb Hl Hwf s. destruct (gen_frame_zeros f c buf Hc Hl) as (post & E). fold s in E.
  assert (0 <= pad_of c) as Hp by (apply padding_len_bound; pose proof (len_nonneg c); lia).
  destruct (len_sealed f c (zeros (pad_of c)) Hc (len_zeros _ Hp)) as (Hls & Hm & Hb). fold s in Hls, Hm, Hb.
  assert (encoded f s) as He 
    by (exists c, (zeros (pad_of c)); exact (conj Hc (conj (len_zeros _ Hp) eq_refl))).
  assert (bytes_ok s) as Hsb.
  { unfold s, sealed. apply bytes_ok_app. split; [|apply adler_ok]. apply bytes_ok_app. split; [exact Hcb|apply zeros_ok]. }
  assert (len s = 16 * (len s / 16)) as Hdiv by (Z.div_mod_to_equations; lia).
  destruct (encrypt_blocks_whole (len s / 16) (aes e) s) as (a' & ct & Eb); [Z.div_mod_to_equations; lia|done|].
  rewrite <- Hdiv in Eb.
  assert (len ct = len s) as Hct.
  { destruct (encrypt_decrypt_blocks (aes e) (mkAes256 (aes_key (aes e)) (iv_dec (aes e)) (iv_enc (aes e))) s Hwf) with (2 := Hsb) (3 := Eb)
      as (H & _); [done|exact H]. }
  exists a', ct. split_and!; try done. unfold encode. rewrite E. cbn [obind GOk]. rewrite <- Hls, app_assoc.
  rewrite ztake_app by (by rewrite len_app). rewrite zdrop_app, ztake_app by done. rewrite Eb, Z.eqb_refl. done.
Qed.

(** the ciphertext of all frames decrypts to all frames *)
Lemma encode_all_ok fs : forall e buf, wf_Aes256 (aes e) -> Forall fits fs ->
  exists e' wire es iv', encode_all e fs buf = Ret (e', buf ++ wire, Ok tt) /\ len wire mod 16 = 0 /\ bytes_ok wire /\
    Forall2 encoded fs es /\ cbc_decrypt (key_bytes (aes_key (aes e))) (iv_enc (aes e)) wire = (concat es, iv').
Proof.
  induction fs as [|f fs IH]; intros e buf Hwf Hf; cbn [encode_all].
  { exists e, [], [], (iv_enc (aes e)). rewrite app_nil_r, cbc_decrypt_nil. split_and!; first [done|constructor]. }
  apply Forall_cons in Hf as [(c & Hc & Hcb & Hl) Hf].
  destruct (encode_ok e f c buf Hc Hcb Hl Hwf) as (a' & ct & -> & Eb & Hct & Hm & He & Hsb). cbn [obind].
  set (s := sealed c _) in *. set (b := mkAes256 (aes_key (aes e)) (iv_enc (aes e)) (iv_enc (aes e))).
  destruct (encrypt_decrypt_blocks (aes e) b s Hwf ltac:(done) Hsb _ _ _ Eb) as (_ & Hctb & Hwf' & Hd & b' & Hdec & [Hk Hiv] & _).
  destruct (IH (mkCodec a' (decrypted e)) (buf ++ ct) Hwf' Hf) as (e2 & wire & es & iv' & -> & Hwm & Hwb & Hes & Hcat).
  destruct Hwf as ([Hkb Hkl] & Hiv0 & _). cbn [aes] in *.
  destruct (decrypt_blocks_split b ct Hkl Hiv0 Hctb) as (w & rest & o & b2 & -> & Hw & Hr & Ho & Hdec2 & Hkey2 & _ & Hcat2).
  rewrite Hdec in Hdec2. injection Hdec2 as <- Es Er.
  assert (rest = []) as ->.
  { apply len_zero_nil. rewrite len_app in Hct. pose proof (len_nonneg rest). rewrite <- Hct in Hm. clear -Hm Hw Hr H.
    Z.div_mod_to_equations. lia. }
  rewrite !app_nil_r in *. subst o. rewrite Hk, Hkey2, Hiv in Hcat. specialize (Hcat2 wire).
  cbn [b aes_key iv_dec] in Hcat, Hcat2. rewrite Hcat in Hcat2.
  exists e2, (w ++ wire), (s :: es), iv'. rewrite <- app_assoc. split; [done|].
  split; [rewrite len_app; clear -Hw Hwm; Z.div_mod_to_equations; lia|].
  split; [by apply bytes_ok_app|]. split; [by constructor|exact Hcat2].
Qed.

(** what is written is what the other end awaits *)
Lemma encode_all_awaits e d fs :
  wf_Aes256 (aes e) -> in_sync (aes e) (aes d) -> decrypted d = 0 -> Forall fits fs ->
  exists e' wire, encode_all e fs [] = Ret (e', wire, Ok tt) /\ len wire mod 16 = 0 /\ awaits d [] wire fs.
Proof.
  intros Hwf [Hk Hiv] Hd Hf. destruct (encode_all_ok fs e [] Hwf Hf) as (e' & wire & es & iv' & H & Hm & Hb & Hes & Hcat).
  exists e', wire. split; [exact H|]. split; [done|]. destruct Hwf as ([_ Hkl] & Hiv0 & _).
  rewrite Hk in Hkl, Hcat. rewrite Hiv in Hiv0, Hcat.
  split; [done|]. split; [done|]. exists [], [], wire, es. rewrite Hcat. by split_and!.
Qed.

(** what happens to a frame, by its size *)
Lemma ntcp_encode_sizes (e : Codec) (f : Frame) (c buf : bytes) :
  wf_Aes256 (aes e) -> frame_content f c -> bytes_ok c ->
  (len c + pad_of c + 4 <= NTCP_MTU -> exists e' ct,
     encode e f buf = Ret (e', buf ++ ct, Ok tt) /\ len ct = len c + pad_of c + 4) /\
  (NTCP_MTU < len c + pad_of c + 4 -> exists buf' n,
     encode e f buf = Ret (e, buf', Err (CeTooLarge n)) /\ NTCP_MTU < n <= len c + pad_of c + 4).
Proof.
  intros Hwf Hc Hb. assert (0 <= pad_of c) as Hp by (apply padding_len_bound; pose proof (len_nonneg c); lia). split; intros Hl.
  - destruct (encode_ok e f c buf Hc Hb Hl Hwf) as (a' & ct & H & _ & Hct & _). eexists _, ct. split; [exact H|].
    rewrite Hct. by destruct (len_sealed f c (zeros (pad_of c)) Hc (len_zeros _ Hp)) as (-> & _).
  - unfold encode. assert (len (buf ++ zeros NTCP_MTU) = len buf + NTCP_MTU) as Hbuf
      by (rewrite len_app; f_equal; apply len_zeros; unfold NTCP_MTU; lia).
    destruct (gen_frame_small f c (buf ++ zeros NTCP_MTU) (len buf) Hc) as (n & buf' & -> & Hn).
    + rewrite Hbuf. pose proof (len_nonneg buf). unfold NTCP_MTU. lia.
    + lia.
    + cbn [obind GErr]. eexists _, _. split; [done|]. lia.
Qed.

End Codec.

(** ** Samples *)
Module NtcpCodecSamples.

Definition status : @Message sigcrates_ref :=
  mkMessage 5 (mkI2PDate 1000) (MDeliveryStatus (mkDeliveryStatus 9 (mkI2PDate 2000))).

Definition toy_end : Codec := mkCodec (mkAes256 (mkSessionKey (zeros 32)) (replicate 16 7) (replicate 16 7)) 0.

Lemma toy_wf : wf_Aes256 (aes toy_end).
Proof. split_and!; split; cbn; try done; repeat constructor; done. Qed.

Section Samples.
Context {nom : Nom} {cf : CookieFactory} {bu : BigUintOps} {sha : Sha2} {fl : Flate2}.
#[local] Existing Instance sigcrates_ref.

Lemma status_sendable : sendable_f 1 status.
Proof.
  split; [done|]. split; [done|]. split; [done|]. split; [done|].
  eapply writes_le_weaken; [exact MessageSamples.ref_status_fits|lia].
Qed.

Lemma status_payload : writes (gen_payload (msg_payload status)) (be_bytes 4 9 ++ be_bytes 8 2000).
Proof. apply writes_seq; [apply writes_be_u32|apply writes_be_u64]. Qed.

Lemma status_fits : fits (Standard status).
Proof.
  pose proof (writes_message 5 (mkI2PDate 1000) _ _ status_payload) as Hw.
  pose proof (rt_parses _ _ _ _ (rt_message 1 status status_sendable) Hw) as Hp.
  eexists. split; [apply (content_standard _ _ Hw Hp); rewrite !len_app, !len_be_bytes; lia|].
  split.
  - repeat first [apply be_bytes_ok | apply bytes_ok_app; split].
  - unfold pad_of. rewrite !len_app, !len_be_bytes. vm_compute. discriminate.
Qed.

Lemma timesync_fits ts : u32_ok ts -> fits (TimeSync ts).
Proof.
  intros Ht. exists (be_bytes 2 0 ++ be_bytes 4 ts). split; [by constructor|].
  split; [apply bytes_ok_app; split; apply be_bytes_ok|].
  unfold pad_of. rewrite len_app, !len_be_bytes. vm_compute. discriminate.
Qed.

End Samples.
End NtcpCodecSamples.

(** ** Properties *)
Module NtcpCodecProps.
Section Props.
Context {nom : Nom} {cf : CookieFactory} {bu : BigUintOps} {sc : SigCrates} {sha : Sha2} {fl : Flate2}.
Context {aes_crate : AesCrate}.

(** A sequence of frames that fit the MTU, encrypted into a byte stream, is
    read back as the same frames in the same order, however the stream is cut
    into pieces on the way - also inside a cipher block - and at its end the
    decoder has used all of it up. *)
Theorem ntcp_stream_roundtrip (oc : bool) (e d : Codec) (fs : list Frame) :
  wf_Aes256 (aes e) -> in_sync (aes e) (aes d) -> decrypted d = 0 -> Forall fits fs ->
  exists e' wire, encode_all e fs [] = Ret (e', wire, Ok tt) /\ len wire mod 16 = 0 /\
    forall chunks, concat chunks = wire -> chunks <> [] ->
      exists d', feed (codec := ntcp_decode oc) d [] chunks = Ret (d', [], fs, None) /\ decrypted d' = 0.
Proof.
  intros Hwf Hs Hd Hf. destruct (encode_all_awaits e d fs Hwf Hs Hd Hf) as (e' & wire & H & Hm & Ha).
  exists e', wire. split; [exact H|]. split; [done|]. intros chunks <- Hne.
  destruct (feed_pending (laws := ntcp_framed oc) d [] chunks fs Hne Ha) as (d' & Hfeed & Hend). exists d'.
  split; [exact Hfeed|]. destruct Hend as (_ & _ & plain & rest & ct & es' & E & _ & Hdd & _).
  symmetry in E. apply app_nil in E as [-> _]. done.
Qed.

(** A frame of at most 16384 bytes is sent, padding and checksum included;
    a larger one is refused with an error, and the cipher has not moved on. *)
Theorem ntcp_encode_bound (e : Codec) (f : Frame) (c buf : bytes) :
  wf_Aes256 (aes e) -> frame_content f c -> bytes_ok c ->
  (len c + pad_of c + 4 <= NTCP_MTU -> exists e' ct,
     encode e f buf = Ret (e', buf ++ ct, Ok tt) /\ len ct = len c + pad_of c + 4) /\
  (NTCP_MTU < len c + pad_of c + 4 -> exists buf' n,
     encode e f buf = Ret (e, buf', Err (CeTooLarge n)) /\ NTCP_MTU < n <= len c + pad_of c + 4).
Proof. apply ntcp_encode_sizes. Qed.

End Props.

#[local] Existing Instances nom_ref cf_ref biguint_ref sigcrates_ref sha2_ref flate_ref aes_ref.
Import NtcpCodecSamples.

Lemma ntcp_stream_roundtrip_witness :
  exists e' wire, encode_all toy_end [Standard status; TimeSync 77; Standard status] [] = Ret (e', wire, Ok tt) /\ len wire mod 16 = 0 /\
    forall chunks, concat chunks = wire -> chunks <> [] ->
      exists d', feed (codec := ntcp_decode true) toy_end [] chunks = Ret (d', [], [Standard status; TimeSync 77; Standard status], None) /\
        decrypted d' = 0.
Proof.
  assert (u32_ok 77) as H77 by (split; [discriminate|reflexivity]).
  assert (Forall fits [Standard status; TimeSync 77; Standard status]) as Hf
    by (exact (Forall_cons_2 _ _ _ status_fits (Forall_cons_2 _ _ _ (timesync_fits 77 H77)
          (Forall_cons_2 _ _ _ status_fits (Forall_nil_2 _))))).
  assert (in_sync (aes toy_end) (aes toy_end)) as Hs by (split; reflexivity).
  exact (ntcp_stream_roundtrip true toy_end toy_end [Standard status; TimeSync 77; Standard status] toy_wf Hs eq_refl Hf).
Defined.

Lemma ntcp_encode_bound_witness :
  exists e' ct, encode toy_end (TimeSync 77) [] = Ret (e', [] ++ ct, Ok tt) /\ len ct = 16.
Proof.
  assert (u32_ok 77) as H77 by (split; [discriminate|reflexivity]).
  assert (bytes_okb (be_bytes 2 0 ++ be_bytes 4 77) = true) as Hb by reflexivity.
  destruct (ntcp_encode_bound toy_end (TimeSync 77) (be_bytes 2 0 ++ be_bytes 4 77) [] toy_wf
    (content_timesync 77 H77) (bytes_okb_ok _ Hb)) as [H1 _].
  apply H1. vm_compute. discriminate.
Defined.

End NtcpCodecProps.
