(* ===== verification/NtcpSession.v ===== *)
(** * NTCP sessions

    The two halves of an NTCP session, from [src/transport/ntcp/mod.rs]; they
    keep the promises of [Session.SessionLaws].  The end of the file composes
    session, codec and session: what one router is given is what the other one
    hands to its subsystems. *)

From S2P Require Import Prelude Nom Cookie Util Wire Crypto Aes Data Dest I2np Message Framed NtcpFrame NtcpCodec Session.

Section Halves.
Context {sc : SigCrates}.

(** ** Inbound: the state is the peer's hash, in the session's context.
    [up]: the answers of the framed stream; none left: it is not ready *)
Fixpoint InboundSession_poll (hash : Hash) (up : list (Poll (option Frame) unit))
  : comp (Hash * list (Poll (option Frame) unit) * Poll (option (Hash * Message)) unit) :=
  match up with
  | [] => cret (hash, [], NotReady)
  | Ready (Some frame) :: up =>
      match frame with
      | Standard msg => cret (hash, up, Ready (Some (hash, msg)))
      | TimeSync _ => InboundSession_poll hash up
      end
  | Ready None :: up => cret (hash, up, Ready None)
  | NotReady :: up => cret (hash, up, NotReady)
  | PollErr e :: up => cret (hash, up, PollErr e)
  end.

(** ** Outbound: everything goes to the framed sink *)
Definition start_send (_ : unit) (frame : Frame) (a : SinkAnswer) : outcome (unit * list Frame * Sent Frame) :=
  match a with
  | SinkReady => Ret (tt, [frame], Taken)
  | SinkNotReady => Ret (tt, [], GivenBack frame)
  | SinkErr => Ret (tt, [], SendFailed)
  end.

Definition poll_complete (_ : unit) (_ : SinkAnswer) (flush : Poll unit unit) : unit * list Frame * Poll unit unit :=
  (tt, [], flush).

(** ** The protocol *)
Definition ntcp_kind : SessionKind := {|
  Item := Frame; WireIn := Frame; WireOut := Frame; Msg := Hash * Message;
  Ib := Hash; Ob := unit;
  ob_start_send := start_send; ob_poll_complete := poll_complete; ib_poll := InboundSession_poll
|}.

(** [Session::new] *)
Definition new_session (hash : Hash) : Session ntcp_kind := @mkSession ntcp_kind hash tt false [] None.

(** [Session::poll]: the same loop as in the other transport *)
Definition ntcp_session_poll : SessionEnv ntcp_kind -> Session ntcp_kind -> _ := Session_poll (k := ntcp_kind).

(** ** Lemmas *)

(** the messages of a frame from a peer *)
Definition frame_msgs (hash : Hash) (f : Frame) : list (Hash * Message) :=
  match f with Standard msg => [(hash, msg)] | TimeSync _ => [] end.

Definition frames_msgs (hash : Hash) (fs : list Frame) : list (Hash * Message) := concat (map (frame_msgs hash) fs).

(** the messages among what an inbound half reads *)
Definition up_msgs (hash : Hash) (up : list (Poll (option Frame) unit)) : list (Hash * Message) :=
  concat (map (fun a => match a with Ready (Some w) => frame_msgs hash w | _ => [] end) up).

Lemma ntcp_inbound_law hash up :
  exists up' r, InboundSession_poll hash up = cret (hash, up', r) /\
    exists read, up = read ++ up' /\ up_msgs hash read = match r with Ready (Some m) => [m] | _ => [] end /\
      match r with
      | Ready (Some _) => True
      | Ready None => last read = Some (Ready None)
      | NotReady => up' = [] \/ last read = Some NotReady
      | PollErr e => last read = Some (PollErr e)
      end.
Proof.
  induction up as [|[[[msg|ts]|]| |e] up IH]; cbn [InboundSession_poll].
  - eexists _, _. split; [done|]. exists []. by auto.
  - eexists _, _. split; [done|]. by exists [Ready (Some (Standard msg))].
  - destruct IH as (up' & r & -> & read & -> & E & Hstop). eexists _, _. split; [done|].
    exists (Ready (Some (TimeSync ts)) :: read). do 2 (split; [done|]). rewrite last_cons.
    destruct r as [[m|]| |e]; [done|by rewrite Hstop| |by rewrite Hstop].
    destruct Hstop as [Hr|Hr]; [by left|right; by rewrite Hr].
  - eexists _, _. split; [done|]. by exists [Ready None].
  - eexists _, _. split; [done|]. exists [NotReady]. by auto.
  - eexists _, _. split; [done|]. by exists [PollErr e].
Qed.

#[export] Instance ntcp_laws : SessionLaws ntcp_kind.
Proof.
  refine (@Build_SessionLaws ntcp_kind (fun _ => []) (fun f => [f]) (fun _ => True) (fun _ => []) Hash (fun h => h)
    frame_msgs (fun _ => True) (fun _ _ => True) _ _ _).
  - intros [] f a _. destruct a; eexists _, _, _; (split; [reflexivity|]); done || (split_and!; try done; by constructor).
  - intros [] a fl [] sent r _ H _. injection H as <- <-. by split_and!.
  - intros hash up _. destruct (ntcp_inbound_law hash up) as (up' & r & H & read & -> & E & Hstop).
    exists hash, up', r. split; [exact H|]. split; [done|]. exists read. split; [done|].
    split; [|exact Hstop]. cbn [app]. rewrite app_nil_r. exact E.
Defined.

(** frames that are all there are read one message at a time *)
Lemma inbound_first hash fs :
  match frames_msgs hash fs with
  | [] => InboundSession_poll hash (map (fun f => Ready (Some f)) fs) = cret (hash, [], NotReady)
  | m :: ms => exists fs', InboundSession_poll hash (map (fun f => Ready (Some f)) fs) =
      cret (hash, map (fun f => Ready (Some f)) fs', Ready (Some m)) /\ frames_msgs hash fs' = ms
  end.
Proof.
  induction fs as [|[msg|ts] fs IH]; [done| |]; cbn [map InboundSession_poll frames_msgs concat frame_msgs app].
  - by exists fs.
  - exact IH.
Qed.

Lemma read_pending_frames hash n fs : (length (frames_msgs hash fs) < n)%nat ->
  read_pending (k := ntcp_kind) (replicate n (Ready tt)) hash (map (fun f => Ready (Some f)) fs) =
  cret (hash, false, frames_msgs hash fs, NotReady).
Proof.
  revert fs. induction n as [|n IH]; intros fs Hn; [lia|]. cbn [replicate read_pending].
  pose proof (inbound_first hash fs) as H. destruct (frames_msgs hash fs) as [|m ms] eqn:E.
  - cbn [ib_poll ntcp_kind]. by rewrite H.
  - destruct H as (fs' & H & Hms). cbn [ib_poll ntcp_kind].
    rewrite H. cbn [cret cbind]. rewrite IH by (rewrite Hms; cbn in Hn; lia). cbn [cret cbind]. by rewrite Hms.
Qed.

(** one poll of a session with nothing to send whose peer's frames have all come *)
Definition receive_env (fs : list Frame) : SessionEnv ntcp_kind :=
  @mkSessionEnv ntcp_kind [] (fun _ => SinkReady) SinkReady NotReady (map (fun f => Ready (Some f)) fs)
    (replicate (S (length fs)) (Ready tt)).

Lemma frames_msgs_length hash fs : (length (frames_msgs hash fs) <= length fs)%nat.
Proof.
  induction fs as [|[msg|ts] fs IH]; [done| |]; unfold frames_msgs in *; cbn [map concat frame_msgs app length]; lia.
Qed.

Lemma poll_receives hash fs :
  Session_poll (receive_env fs) (new_session hash) = cret (new_session hash, [], frames_msgs hash fs, NotReady).
Proof.
  unfold Session_poll, write_items, read_loop, receive_env, new_session. cbn -[replicate].
  pose proof (inbound_first hash fs) as H.
  pose proof (frames_msgs_length hash fs) as Hl.
  destruct (frames_msgs hash fs) as [|m ms] eqn:E.
  - by rewrite H.
  - destruct H as (fs' & H & Hms). rewrite H. cbn [cret cbind].
    rewrite read_pending_frames by (rewrite Hms; cbn in Hl; lia). cbn [cret cbind]. by rewrite Hms.
Qed.

(** a run of a new session keeps everything in order *)
Lemma new_session_run hash (envs : list (SessionEnv ntcp_kind)) :
  exists s' sent ms r, Session_run (new_session hash) envs = cret (s', sent, ms, r) /\
    (r = NotReady -> sent ++ to_send s' = concat (map sv_arrivals envs) /\
     exists read, sublist read (concat (map sv_upstream envs)) /\ up_msgs hash read = ms).
Proof.
  assert (Forall (fun env : SessionEnv ntcp_kind => all_readable (ib_ctx (ib (new_session hash))) (sv_upstream env)) envs) as Hall.
  { apply Forall_true. intros env. apply Forall_true. by intros [[|]| |]. }
  assert (ob_inv (ob (new_session hash))) as Ho by exact I.
  destruct (run_order (new_session hash) envs Ho Hall) as (s' & sent & ms & r & H & Hr).
  exists s', sent, ms, r. split; [exact H|]. intros E. destruct (Hr E) as (_ & E1 & read & Hs & E2). split.
  - unfold sent_items in E1. cbn [wire_items ntcp_laws] in E1.
    etransitivity; [|exact E1]. f_equal. clear. induction sent as [|f sent IH]; [done|]. cbn. by f_equal.
  - exists read. split; [exact Hs|]. cbn [ib_msgs ntcp_laws app] in E2. rewrite app_nil_r in E2. exact E2.
Qed.

End Halves.

(** ** What a session sends arrives *)

Section Arrives.
Context {nom : Nom} {cf : CookieFactory} {bu : BigUintOps} {sc : SigCrates} {sha : Sha2} {fl : Flate2}.
Context {aes_crate : AesCrate}.

(** What [alice]'s session sends of [fs] over any polls, encoded with [e] and cut
    into pieces in any way, [d] decodes and [bob]'s session hands on.  (The hashes
    are of the peers: [alice]'s session is with [bob].) *)
Definition carries (oc : bool) (e d : Codec) (alice bob : Hash) (fs : list Frame) : Prop :=
  forall (envs : list (SessionEnv ntcp_kind)) (s' : Session ntcp_kind) (sent : list Frame) (back : list (Hash * Message)),
  concat (map sv_arrivals envs) = fs ->
  Session_run (new_session bob) envs = cret (s', sent, back, NotReady) -> to_send s' = [] ->
  exists e' wire, encode_all e sent [] = Ret (e', wire, Ok tt) /\
    forall chunks, concat chunks = wire -> chunks <> [] ->
      exists d' fs', feed (codec := ntcp_decode oc) d [] chunks = Ret (d', [], fs', None) /\
        ntcp_session_poll (receive_env fs') (new_session alice) = cret (new_session alice, [], frames_msgs alice fs, NotReady).

Lemma frames_arrive oc e d alice bob fs :
  wf_Aes256 (aes e) -> in_sync (aes e) (aes d) -> decrypted d = 0 -> Forall fits fs -> carries oc e d alice bob fs.
Proof.
  intros Hwf Hsync Hd Hfits envs s' sent back Harr Hrun Hall.
  destruct (new_session_run bob envs) as (s1 & sent1 & back1 & r1 & H & Hord).
  rewrite Hrun in H. injection H as <- <- <- <-. destruct (Hord eq_refl) as (E1 & _).
  rewrite Hall, app_nil_r, Harr in E1. subst sent.
  destruct (encode_all_awaits e d fs Hwf Hsync Hd Hfits) as (e' & wire & Henc & _ & Ha).
  exists e', wire. split; [exact Henc|]. intros chunks <- Hne.
  destruct (feed_pending (laws := ntcp_framed oc) d [] chunks fs Hne Ha) as (d' & Hfeed & _).
  exists d', fs. split; [exact Hfeed|]. apply poll_receives.
Qed.

Lemma frames_msgs_standard hash msgs : frames_msgs hash (map Standard msgs) = map (pair hash) msgs.
Proof. induction msgs as [|m msgs IH]; [done|]. unfold frames_msgs in *. cbn [map concat frame_msgs app]. by rewrite IH. Qed.

End Arrives.

(** ** Properties *)
Module NtcpSessionProps.
Section Props.
Context {nom : Nom} {cf : CookieFactory} {bu : BigUintOps} {sc : SigCrates} {sha : Sha2} {fl : Flate2}.
Context {aes_crate : AesCrate}.

(** Whatever a new NTCP session meets, every poll returns; the frames that
    it was given leave in order, each once, and those that have not left are
    still held; and of the frames that it has read, the messages go to the
    subsystems in order, under the peer's hash. *)
Theorem ntcp_session_fifo (hash : Hash) (envs : list (SessionEnv ntcp_kind)) :
  exists s' sent ms r, Session_run (new_session hash) envs = cret (s', sent, ms, r) /\
    (r = NotReady -> sent ++ to_send s' = concat (map sv_arrivals envs) /\
     exists read, sublist read (concat (map sv_upstream envs)) /\ up_msgs hash read = ms).
Proof. apply new_session_run. Qed.

(** Router to router: when one end's session has sent everything it was
    given, what its codec makes of that, cut into pieces in any way, is decoded
    by the other end's codec into the same frames, and the session there hands
    exactly the messages among them to its subsystems, in order and under the
    sender's hash. *)
Theorem ntcp_end_to_end (oc : bool) (e d : Codec) (alice bob : Hash) (envs : list (SessionEnv ntcp_kind))
    (s' : Session ntcp_kind) (sent : list Frame) (ms : list (Hash * Message)) :
  wf_Aes256 (aes e) -> in_sync (aes e) (aes d) -> decrypted d = 0 ->
  Session_run (new_session bob) envs = cret (s', sent, ms, NotReady) -> to_send s' = [] ->
  Forall fits (concat (map sv_arrivals envs)) ->
  exists e' wire, encode_all e sent [] = Ret (e', wire, Ok tt) /\
    forall chunks, concat chunks = wire -> chunks <> [] ->
      exists d' fs, feed (codec := ntcp_decode oc) d [] chunks = Ret (d', [], fs, None) /\
        Session_poll (receive_env fs) (new_session alice) =
          cret (new_session alice, [], frames_msgs alice (concat (map sv_arrivals envs)), NotReady).
Proof.
  intros Hwf Hsync Hd Hrun Hall Hfits.
  exact (frames_arrive oc e d alice bob _ Hwf Hsync Hd Hfits envs s' sent ms eq_refl Hrun Hall).
Qed.

End Props.

#[local] Existing Instances nom_ref cf_ref biguint_ref sigcrates_ref sha2_ref flate_ref aes_ref.
Import NtcpCodecSamples.

(** one poll gives the session three frames and sends them *)
Definition sample_env : SessionEnv ntcp_kind :=
  @mkSessionEnv ntcp_kind [Standard status; TimeSync 77; Standard status] (fun _ => SinkReady) SinkReady NotReady
    [NotReady] [Ready tt].

Lemma sample_fits : Forall fits (concat (map sv_arrivals [sample_env])).
Proof.
  assert (u32_ok 77) as H77 by (split; [discriminate|reflexivity]).
  exact (Forall_cons_2 _ _ _ status_fits (Forall_cons_2 _ _ _ (timesync_fits 77 H77)
          (Forall_cons_2 _ _ _ status_fits (Forall_nil_2 _)))).
Qed.

Lemma sample_run : Session_run (new_session (mkHash [2])) [sample_env] =
  cret (new_session (mkHash [2]), [Standard status; TimeSync 77; Standard status], [], NotReady).
Proof. reflexivity. Qed.

Lemma ntcp_end_to_end_witness :
  let envs := [sample_env] in
  exists s' sent ms, Session_run (new_session (mkHash [2])) envs = cret (s', sent, ms, NotReady) /\
  exists e' wire, encode_all toy_end sent [] = Ret (e', wire, Ok tt) /\
    forall chunks, concat chunks = wire -> chunks <> [] ->
      exists d' fs, feed (codec := ntcp_decode true) toy_end [] chunks = Ret (d', [], fs, None) /\
        Session_poll (receive_env fs) (new_session (mkHash [1])) =
          cret (new_session (mkHash [1]), [], frames_msgs (mkHash [1]) (concat (map sv_arrivals envs)), NotReady).
Proof.
  assert (in_sync (aes toy_end) (aes toy_end)) as Hs by (split; reflexivity).
  eexists _, _, _. split; [exact sample_run|].
  exact (ntcp_end_to_end true toy_end toy_end (mkHash [1]) (mkHash [2]) [sample_env] _ _ _ toy_wf Hs eq_refl sample_run eq_refl sample_fits).
Defined.

End NtcpSessionProps.
