(* ===== verification/NtcpHsFrame.v ===== *)
(** * NTCP handshake frames

    The four messages of the legacy handshake, from
    [src/transport/ntcp/handshake/frame.rs]: the DH values, their hashes and
    timestamps, and the two signatures with the padding that makes them whole
    cipher blocks. *)

From S2P Require Import Prelude Nom Cookie Util Wire Crypto Data Dest I2np Message NtcpFrame.

Record SessionRequest := mkSessionRequest { sr_dh_x : bytes; sr_hash : Hash }.
Record SessionCreated := mkSessionCreated { sc_dh_y : bytes; sc_hash : Hash; sc_ts_b : Z }.
Record SessionConfirmA {sc : SigCrates} := mkSessionConfirmA { sca_ri_a : RouterIdentity; sca_ts_a : Z; sca_sig : Signature }.
Record SessionConfirmB {sc : SigCrates} := mkSessionConfirmB { scb_sig : Signature }.

Arguments mkSessionConfirmA {sc} sca_ri_a sca_ts_a sca_sig.
Arguments mkSessionConfirmB {sc} scb_sig.

Inductive HandshakeFrame {sc : SigCrates} :=
| HfSessionRequest (sr : SessionRequest)
| HfSessionCreated (scr : SessionCreated)
| HfSessionConfirmA (sca : SessionConfirmA)
| HfSessionConfirmB (scb : SessionConfirmB).

Section Frames.
Context {nom : Nom} {cf : CookieFactory} {bu : BigUintOps} {sc : SigCrates} {sha : Sha2}.

(** the type of an identity's signatures *)
Definition id_sig_type (ri : RouterIdentity) : SigType := spk_sig_type (signing_key_ ri).

Definition session_request : parser bytes HandshakeFrame :=
  map_pure (nom_pair (nom_take 256) hash) (fun '(dh_x, hash) => HfSessionRequest (mkSessionRequest dh_x hash)).

Definition gen_session_request (sr : SessionRequest) : gen := gen_slice (sr_dh_x sr) >>> gen_hash (sr_hash sr).

Definition session_created_enc : parser bytes (bytes * bytes) := nom_pair (nom_take 256) (nom_take 48).

Definition gen_session_created_enc (dh_y ct : bytes) : gen := gen_slice dh_y >>> gen_slice ct.

Definition session_created_dec : parser bytes (Hash * Z) := terminated (nom_pair hash be_u32) (nom_take 12).

Definition gen_session_created_dec (s : SessionCreated) : gen :=
  gen_hash (sc_hash s) >>> gen_be_u32 (sc_ts_b s) >>> gen_padding 36.

(** [hash]: that of the identity *)
Definition gen_session_confirm_sig_msg (dh_x dh_y : bytes) (hash : Hash) (ts_a ts_b : Z) : gen :=
  gen_slice dh_x >>> gen_slice dh_y >>> gen_hash hash >>> gen_be_u32 ts_a >>> gen_be_u32 ts_b.

Definition session_confirm_a : parser bytes HandshakeFrame := fun i =>
  let_p (i, (size, ri_a)) := nom_pair be_u16 router_identity i in
  let_p (i, (ts_a, sig)) :=
    separated_pair be_u32 (padding (size + 6 + sig_len (id_sig_type ri_a))) (signature (id_sig_type ri_a)) i in
  POk i (HfSessionConfirmA (mkSessionConfirmA ri_a ts_a sig)).

Definition gen_session_confirm_a (sca : SessionConfirmA) : gen :=
  label size : gen_skip 2 >>>
  label start : gen_router_identity (sca_ri_a sca) >>>
  gen_label (fun end_ =>
    gen_at_offset size (gen_be_u16 (end_ - start)) >>>
    gen_be_u32 (sca_ts_a sca) >>>
    gen_padding (end_ - start + 6 + sig_len (id_sig_type (sca_ri_a sca))) >>>
    gen_signature (sca_sig sca)).

Definition session_confirm_b (ri_b : RouterIdentity) : parser bytes HandshakeFrame :=
  map_pure (terminated (signature (id_sig_type ri_b)) (nom_take (padding_len (sig_len (id_sig_type ri_b)))))
    (fun sig => HfSessionConfirmB (mkSessionConfirmB sig)).

Definition gen_session_confirm_b (scb : SessionConfirmB) : gen :=
  label start : gen_signature (scb_sig scb) >>> gen_label (fun end_ => gen_padding (end_ - start)).

(** ** Lemmas *)

(** what is signed by both sides *)
Definition sig_msg (dh_x dh_y : bytes) (h : Hash) (ts_a ts_b : Z) : bytes :=
  dh_x ++ dh_y ++ hash_bytes h ++ be_bytes 4 ts_a ++ be_bytes 4 ts_b.

Lemma writes_sig_msg dh_x dh_y h ts_a ts_b :
  writes (gen_session_confirm_sig_msg dh_x dh_y h ts_a ts_b) (sig_msg dh_x dh_y h ts_a ts_b).
Proof.
  unfold gen_session_confirm_sig_msg, gen_hash.
  repeat (apply writes_seq; [first [apply writes_slice|apply writes_be_u32]|]). apply writes_be_u32.
Qed.

Lemma writes_session_request sr : writes (gen_session_request sr) (sr_dh_x sr ++ hash_bytes (sr_hash sr)).
Proof. apply writes_seq; apply writes_slice. Qed.

Lemma reads_session_request sr : len (sr_dh_x sr) = 256 -> wf_Hash (sr_hash sr) ->
  parses session_request (sr_dh_x sr ++ hash_bytes (sr_hash sr)) (HfSessionRequest sr) /\
  waits session_request (sr_dh_x sr ++ hash_bytes (sr_hash sr)).
Proof.
  intros Hl [_ Hh]. assert (parses hash (hash_bytes (sr_hash sr)) (sr_hash sr)) as Ph.
  { eapply parses_map_pure; [by apply parses_take|by destruct (sr_hash sr)]. }
  split.
  - eapply parses_map_pure; [apply parses_pair; [by apply parses_take|exact Ph]|by destruct sr].
  - eapply waits_map_pure, waits_pair; [by apply parses_take|by apply waits_take|by apply waits_map_pure, waits_take].
Qed.

Lemma reads_session_created dh_y ct : len dh_y = 256 -> len ct = 48 ->
  parses session_created_enc (dh_y ++ ct) (dh_y, ct) /\ waits session_created_enc (dh_y ++ ct).
Proof.
  intros Hy Hc. split; [apply parses_pair; by apply parses_take|].
  eapply waits_pair; [by apply parses_take|by apply waits_take..].
Qed.

(** the inner part: three blocks *)
Definition created_inner (s : SessionCreated) : bytes := hash_bytes (sc_hash s) ++ be_bytes 4 (sc_ts_b s) ++ zeros 12.

Lemma fills_created_dec s : fills (gen_session_created_dec s) (created_inner s).
Proof.
  apply fills_seq; [apply fills_writes, writes_slice|].
  apply fills_seq; [apply fills_writes, writes_be_u32|by apply (fills_skip 12)].
Qed.

Lemma reads_created_dec s : wf_Hash (sc_hash s) -> u32_ok (sc_ts_b s) ->
  parses session_created_dec (created_inner s) (sc_hash s, sc_ts_b s).
Proof.
  intros [_ Hh] Ht. unfold created_inner. rewrite app_assoc. eapply parses_terminated; [|by apply parses_take].
  apply parses_pair; [|by apply parses_be_u32]. eapply parses_map_pure; [by apply parses_take|by destruct (sc_hash s)].
Qed.

(** the confirmations, with the bytes of identity and signature *)
Definition confirm_a (rb : bytes) (ts_a : Z) (sb : bytes) : bytes :=
  (be_bytes 2 (len rb) ++ rb) ++ be_bytes 4 ts_a ++ zeros (padding_len (len rb + 6 + len sb)) ++ sb.
Definition confirm_b (sb : bytes) : bytes := sb ++ zeros (padding_len (len sb)).

Lemma fills_padding n : 0 <= n -> fills (gen_padding n) (zeros (padding_len n)).
Proof. intros Hn. apply fills_skip. by apply padding_len_bound. Qed.

Lemma fills_confirm_a sca rb sb :
  writes (gen_router_identity (sca_ri_a sca)) rb -> writes (gen_signature (sca_sig sca)) sb ->
  len sb = sig_len (id_sig_type (sca_ri_a sca)) ->
  fills (gen_session_confirm_a sca) (confirm_a rb (sca_ts_a sca) sb).
Proof.
  intros Hr Hs Hl pre n Hn.
  pose proof (len_prefixed_then (gen_router_identity (sca_ri_a sca)) (fun _ d =>
    gen_be_u32 (sca_ts_a sca) >>> gen_padding (d + 6 + sig_len (id_sig_type (sca_ri_a sca))) >>> gen_signature (sca_sig sca))
    (pre ++ zeros n) (len pre)) as E. unfold gen_session_confirm_a. rewrite E. clear E.
  pose proof (writes_len_prefixed _ _ Hr) as Hp. unfold confirm_a in *.
  set (p := be_bytes 2 (len rb) ++ rb) in *. assert (len p = len rb + 2) as Hlp by (unfold p; rewrite len_app, len_be_bytes; lia).
  clearbody p. set (tail := be_bytes 4 _ ++ _) in *. rewrite len_app in Hn. pose proof (len_nonneg tail). pose proof (len_nonneg p). pose proof (len_nonneg rb). pose proof (len_nonneg sb).
  rewrite (fills_writes _ _ Hp) by lia. cbn [gbind GOk snd].
  replace (len pre + len p - (len pre + 2)) with (len rb) by lia. rewrite <- Hl.
  assert (fills (gen_be_u32 (sca_ts_a sca) >>> gen_padding (len rb + 6 + len sb) >>> gen_signature (sca_sig sca)) tail) as Ht.
  { apply fills_seq; [apply fills_writes, writes_be_u32|]. apply fills_seq; [apply fills_padding; lia|by apply fills_writes]. }
  rewrite app_assoc, <- len_app, Ht by lia. unfold GOk. rewrite <- !app_assoc, !len_app. do 3 f_equal; [do 3 f_equal|]; lia.
Qed.

Lemma fills_confirm_b scb sb : writes (gen_signature (scb_sig scb)) sb -> fills (gen_session_confirm_b scb) (confirm_b sb).
Proof.
  intros Hs pre n Hn. unfold gen_session_confirm_b. rewrite gen_label_eq, gen_seq_eq. cbn [snd].
  unfold confirm_b in *. pose proof (len_nonneg sb). destruct (padding_len_bound (len sb)) as [Hp _]; [done|].
  rewrite len_app in Hn. rewrite (fills_writes _ _ Hs) by (rewrite len_zeros in Hn by lia; lia).
  cbn [gbind GOk]. rewrite gen_label_eq. cbn [snd].
  replace (len pre + len sb - len pre) with (len sb) by lia.
  rewrite app_assoc, <- len_app, (fills_padding (len sb)) by lia.
  unfold GOk. rewrite <- !app_assoc, !len_app. do 3 f_equal; [do 3 f_equal|]; lia.
Qed.

Lemma len_confirm_a rb ts sb : len (confirm_a rb ts sb) = len rb + 6 + len sb + padding_len (len rb + 6 + len sb) /\
  len (confirm_a rb ts sb) mod 16 = 0.
Proof.
  pose proof (len_nonneg rb). pose proof (len_nonneg sb). destruct (padding_len_bound (len rb + 6 + len sb)) as [Hp Hm]; [lia|].
  assert (len (confirm_a rb ts sb) = len rb + 6 + len sb + padding_len (len rb + 6 + len sb)) as E.
  { unfold confirm_a. rewrite !len_app, !len_be_bytes, len_zeros by lia. lia. }
  by rewrite E.
Qed.

Lemma len_confirm_b sb : len (confirm_b sb) = len sb + padding_len (len sb) /\ len (confirm_b sb) mod 16 = 0.
Proof.
  pose proof (len_nonneg sb). destruct (padding_len_bound (len sb)) as [Hp Hm]; [lia|].
  assert (len (confirm_b sb) = len sb + padding_len (len sb)) as E by (unfold confirm_b; by rewrite len_app, len_zeros by lia).
  by rewrite E.
Qed.

Lemma reads_confirm_a sca rb sb :
  wf_RouterIdentity (sca_ri_a sca) -> wf_sig (id_sig_type (sca_ri_a sca)) (sca_sig sca) -> u32_ok (sca_ts_a sca) ->
  writes (gen_router_identity (sca_ri_a sca)) rb -> len rb < 2 ^ 16 -> Signature_to_bytes (sca_sig sca) = Ret sb ->
  len sb = sig_len (id_sig_type (sca_ri_a sca)) ->
  parses session_confirm_a (confirm_a rb (sca_ts_a sca) sb) (HfSessionConfirmA sca) /\
  waits session_confirm_a (confirm_a rb (sca_ts_a sca) sb).
Proof.
  intros Hwf Hsig Ht Hr Hl Hs Hls. pose proof (len_nonneg rb). pose proof (len_nonneg sb).
  destruct (padding_len_bound (len rb + 6 + len sb)) as [Hp _]; [lia|].
  pose proof (rt_parses _ _ _ _ (rt_router_identity _ Hwf) Hr) as Pr. pose proof (waits_router_identity _ _ Hwf Hr) as Wr.
  assert (u16_ok (len rb)) as Hu by (split; lia).
  assert (parses (signature (id_sig_type (sca_ri_a sca))) sb (sca_sig sca)) as Ps by (by apply parses_signature).
  assert (waits (signature (id_sig_type (sca_ri_a sca))) sb) as Wsig.
  { eapply waits_map_res, waits_take. by rewrite Hls. }
  assert (padding_len (len rb + 6 + len sb) = len (zeros (padding_len (len rb + 6 + len sb)))) as Hz by (by rewrite len_zeros by lia).
  split.
  - eapply parses_bind; [apply parses_pair; [by apply parses_be_u16|exact Pr]|]. cbv beta iota. intros rest. rewrite <- Hls. unfold padding.
    rewrite (parses_separated_pair _ _ _ _ _ _ _ _ _ (parses_be_u32 _ Ht) (parses_take _ _ Hz) Ps). cbn. by destruct sca.
  - unfold session_confirm_a, padding. eapply waits_bind; [apply parses_pair; [by apply parses_be_u16|exact Pr]| |].
    + eapply waits_pair; [by apply parses_be_u16|apply waits_be_u16|exact Wr].
    + cbv beta iota. rewrite <- Hls. apply waits_last. eapply waits_separated_pair; [by apply parses_be_u32|apply waits_be_u32| | |exact Wsig];
        [by apply parses_take|by apply waits_take].
Qed.

Lemma reads_confirm_b ri_b scb sb :
  wf_sig (id_sig_type ri_b) (scb_sig scb) -> Signature_to_bytes (scb_sig scb) = Ret sb -> len sb = sig_len (id_sig_type ri_b) ->
  parses (session_confirm_b ri_b) (confirm_b sb) (HfSessionConfirmB scb) /\ waits (session_confirm_b ri_b) (confirm_b sb).
Proof.
  intros Hsig Hs Hls. pose proof (len_nonneg sb). destruct (padding_len_bound (len sb)) as [Hp _]; [lia|].
  assert (padding_len (len sb) = len (zeros (padding_len (len sb)))) as Hz by (by rewrite len_zeros by lia).
  assert (parses (signature (id_sig_type ri_b)) sb (scb_sig scb)) as Ps by (by apply parses_signature).
  unfold session_confirm_b. rewrite <- Hls. split.
  - eapply parses_map_pure; [eapply parses_terminated; [exact Ps|by apply parses_take]|by destruct scb].
  - eapply waits_map_pure, waits_terminated; [exact Ps| |by apply waits_take].
    eapply waits_map_res, waits_take. by rewrite Hls.
Qed.

(** *** What is read *)

Lemma session_request_read i r f : session_request i = POk r f -> exists sr, f = HfSessionRequest sr /\ len (sr_dh_x sr) = 256.
Proof.
  unfold session_request, map_pure. rewrite nom_map_eq, nom_pair_eq.
  destruct (nom_take 256 i) as [[[i1 x]|]|] eqn:E; cbn [pbind]; try done.
  destruct (hash i1) as [[[i2 h]|]|]; cbn [pbind obind POk]; try done.
  intros [= _ <-]. eexists. split; [done|]. by eapply take_len.
Qed.

Lemma session_created_read i r y ct : session_created_enc i = POk r (y, ct) -> len y = 256.
Proof.
  unfold session_created_enc. rewrite nom_pair_eq. destruct (nom_take 256 i) as [[[i1 x]|]|] eqn:E; cbn [pbind]; try done.
  destruct (nom_take 48 i1) as [[[i2 h]|]|]; cbn [pbind POk]; try done. intros [= _ <- _]. by eapply take_len.
Qed.

Lemma session_confirm_a_read i r f : session_confirm_a i = POk r f -> exists sca, f = HfSessionConfirmA sca.
Proof.
  unfold session_confirm_a. destruct (nom_pair _ _ i) as [[[i1 [n ri]]|]|]; cbn [pbind POk]; try done.
  destruct (separated_pair _ _ _ _) as [[[i2 [t s]]|]|]; cbn [pbind POk]; try done. intros [= _ <-]. by eexists.
Qed.

Lemma session_confirm_b_read ri i r f : session_confirm_b ri i = POk r f -> exists scb, f = HfSessionConfirmB scb.
Proof.
  unfold session_confirm_b, map_pure. rewrite nom_map_eq.
  destruct (terminated _ _ i) as [[[i1 g]|]|]; cbn [pbind obind POk]; try done. intros [= _ <-]. by eexists.
Qed.

End Frames.
