(* ===== verification/NtcpHsCodec.v ===== *)
(** * The NTCP handshake codecs

    [InboundHandshakeCodec] and [OutboundHandshakeCodec] of
    [src/transport/ntcp/handshake/mod.rs]: state machines that know which
    handshake frame comes next in each direction, set up the cipher when both DH
    values are known, and become the codec of the session at the end. *)

From S2P Require Import Prelude Nom Cookie Util Wire Crypto ElGamal Aes Data Dest I2np Message Framed NtcpFrame NtcpCodec NtcpHsFrame.

Inductive HandshakeState := StSessionRequest | StSessionCreated | StSessionConfirmA | StSessionConfirmB | StEstablished.

#[export] Instance HandshakeState_eq_dec : EqDecision HandshakeState.
Proof. solve_decision. Defined.

(** the I/O errors *)
Inductive HsCodecError := HcParse | HcIncomplete | HcPartial | HcSerialization | HcState | HcTooLarge (n : Z) | HcGenerate.

Section Codecs.
Context {nom : Nom} {cf : CookieFactory} {bu : BigUintOps} {sc : SigCrates} {sha : Sha2} {aes_crate : AesCrate} {grp : DhGroup}.

(** [array_ref!] of the first 256 bytes *)
Definition array_ref_256 (b : bytes) : outcome bytes := if len b <? 256 then Panic else Ret (ztake 256 b).

(** [copy_from_slice] into an array of one block *)
Definition copy_block (b : bytes) : outcome bytes := if len b =? AES_BLOCK_SIZE then Ret b else Panic.

(** decrypting what has arrived, in place: [buf[decrypted..]] *)
Definition decrypt_more (aes : option Aes256) (decrypted : Z) (buf : bytes) : outcome (Aes256 * bytes * option Z) :=
  let! a := unwrap aes in
  if len buf <? decrypted then Panic
  else
    let '(a, tail, r) := decrypt_blocks a (zdrop decrypted buf) in
    Ret (a, ztake decrypted buf ++ tail, r).

(** a generated frame at the end of a buffer: the size with it, or the error *)
Definition gen_into (g : gen) (buf : bytes) : outcome (bytes * result Z HsCodecError) :=
  let start := len buf in
  let! (buf, r) := g (buf ++ zeros NTCP_MTU, start) in
  match r with
  | Ok sz => Ret (ztake sz buf, Ok sz)
  | Err (BufferTooSmall sz) => Ret (buf, Err (HcTooLarge (sz - start)))
  | Err _ => Ret (buf, Err HcGenerate)
  end.

(** the same, then encrypted in place *)
Definition gen_encrypted (g : gen) (aes : option Aes256) (buf : bytes) : outcome (option Aes256 * bytes * result unit HsCodecError) :=
  let start := len buf in
  let! (buf, r) := gen_into g buf in
  match r with
  | Ok sz =>
      let! a := unwrap aes in
      let '(a, ct, r) := encrypt_blocks a (zdrop start buf) in
      Ret (Some a, ztake start buf ++ ct,
           match r with
           | Some end_ => if start + end_ =? sz then Ok tt else Err HcSerialization
           | None => Err HcSerialization
           end)
  | Err e => Ret (aes, buf, Err e)
  end.

(** ** Bob's codec *)

Record InboundHandshakeCodec := mkInbound {
  ic_dh : DHSessionKeyBuilder;
  ic_dh_x : bytes;
  ic_iv_enc : bytes;
  ic_iv_dec : bytes;
  ic_state : HandshakeState;
  ic_aes : option Aes256;
  ic_decrypted : Z
}.

Definition InboundHandshakeCodec_new (dh_key_builder : DHSessionKeyBuilder) (iv_enc : bytes) : InboundHandshakeCodec :=
  mkInbound dh_key_builder [] iv_enc (zeros AES_BLOCK_SIZE) StSessionRequest None 0.

(** [From]: the codec of the session *)
Definition inbound_codec (c : InboundHandshakeCodec) : outcome Codec :=
  let! a := unwrap (ic_aes c) in Ret (mkCodec a (ic_decrypted c)).

(** the end of [decode]: the parser's result for the first [n] bytes, and what
    a frame changes *)
Definition inbound_parsed (c : InboundHandshakeCodec) (buf : bytes) (n : Z) (p : IResult bytes HandshakeFrame)
  : outcome (InboundHandshakeCodec * bytes * result (option HandshakeFrame) HsCodecError) :=
  let! r := p in
  match r with
  | Err (Incomplete _) => Ret (c, buf, Ok None)
  | Err _ => Ret (c, buf, Err HcParse)
  | Ok (i, f) =>
      let consumed := n - len i in
      let! c := match f with
                | HfSessionRequest sr =>
                    let! iv_dec := copy_block (zdrop AES_BLOCK_SIZE (hash_bytes (sr_hash sr))) in
                    Ret (mkInbound (ic_dh c) (sr_dh_x sr) (ic_iv_enc c) iv_dec (ic_state c) (ic_aes c) (ic_decrypted c))
                | _ => Ret c
                end in
      let! (state, decrypted) :=
        match ic_state c with
        | StSessionRequest => Ret (StSessionCreated, ic_decrypted c)
        | StSessionConfirmA => Ret (StSessionConfirmB, ic_decrypted c - consumed)
        | _ => Panic
        end in
      Ret (mkInbound (ic_dh c) (ic_dh_x c) (ic_iv_enc c) (ic_iv_dec c) state (ic_aes c) decrypted, zdrop consumed buf, Ok (Some f))
  end.

#[export] Instance inbound_decode : FramedCodec InboundHandshakeCodec HandshakeFrame HsCodecError := fun c buf =>
  match ic_state c with
  | StSessionRequest => inbound_parsed c buf (len buf) (session_request buf)
  | StSessionConfirmA =>
      let! (a, buf, r) := decrypt_more (ic_aes c) (ic_decrypted c) buf in
      let with_aes d := mkInbound (ic_dh c) (ic_dh_x c) (ic_iv_enc c) (ic_iv_dec c) (ic_state c) (Some a) d in
      match r with
      | Some end_ =>
          let d := ic_decrypted c + end_ in
          inbound_parsed (with_aes d) buf d (session_confirm_a (ztake d buf))
      | None => Ret (with_aes (ic_decrypted c), buf, Ok None)
      end
  | _ => Ret (c, buf, Ok None)
  end.

(** the encrypted part of [SessionCreated]; [start]: where the frame goes *)
Definition encrypt_created (a : Aes256) (s : SessionCreated) (start : Z) : outcome (Aes256 * result bytes HsCodecError) :=
  let! (tmp, r) := gen_session_created_dec s (zeros 48, 0) in
  match r with
  | Ok inner_sz =>
      let '(a, tmp, r) := encrypt_blocks a tmp in
      Ret (a, match r with
              | Some end_ => if end_ =? inner_sz then Ok tmp else Err HcSerialization
              | None => Err HcSerialization
              end)
  | Err (BufferTooSmall sz) => Ret (a, Err (HcTooLarge (sz - start)))
  | Err _ => Ret (a, Err HcGenerate)
  end.

Definition inbound_encode (c : InboundHandshakeCodec) (f : HandshakeFrame) (buf : bytes)
  : outcome (InboundHandshakeCodec * bytes * result unit HsCodecError) :=
  let with_ a state := mkInbound (ic_dh c) (ic_dh_x c) (ic_iv_enc c) (ic_iv_dec c) state a (ic_decrypted c) in
  match ic_state c, f with
  | StSessionCreated, HfSessionCreated s =>
      let! dh_x := array_ref_256 (ic_dh_x c) in
      let! session_key := build_session_key (ic_dh c) dh_x in
      let! a := Aes256_new session_key (ic_iv_enc c) (ic_iv_dec c) in
      let! (a, tmp) := encrypt_created a s (len buf) in
      match tmp with
      | Ok tmp =>
          let! (buf, r) := gen_into (gen_session_created_enc (sc_dh_y s) tmp) buf in
          match r with
          | Ok _ => Ret (with_ (Some a) StSessionConfirmA, buf, Ok tt)
          | Err e => Ret (with_ (Some a) (ic_state c), buf, Err e)
          end
      | Err e => Ret (with_ (Some a) (ic_state c), buf ++ zeros NTCP_MTU, Err e)
      end
  | StSessionConfirmB, HfSessionConfirmB s =>
      let! (a, buf, r) := gen_encrypted (gen_session_confirm_b s) (ic_aes c) buf in
      match r with
      | Ok _ => Ret (with_ a StEstablished, buf, Ok tt)
      | Err e => Ret (with_ a (ic_state c), buf, Err e)
      end
  | _, _ => Ret (c, buf ++ zeros NTCP_MTU, Err HcState)
  end.

(** ** Alice's codec *)

Record OutboundHandshakeCodec := mkOutbound {
  oc_dh : DHSessionKeyBuilder;
  oc_iv_enc : bytes;
  oc_ri_remote : RouterIdentity;
  oc_state : HandshakeState;
  oc_aes : option Aes256;
  oc_decrypted : Z
}.

Definition OutboundHandshakeCodec_new (dh_key_builder : DHSessionKeyBuilder) (iv_enc : bytes) (ri_remote : RouterIdentity)
  : OutboundHandshakeCodec :=
  mkOutbound dh_key_builder iv_enc ri_remote StSessionRequest None 0.

Definition outbound_codec (c : OutboundHandshakeCodec) : outcome Codec :=
  let! a := unwrap (oc_aes c) in Ret (mkCodec a (oc_decrypted c)).

(** the end of [decode] *)
Definition outbound_parsed (c : OutboundHandshakeCodec) (buf : bytes) (n : Z) (p : IResult bytes HandshakeFrame)
  : outcome (OutboundHandshakeCodec * bytes * result (option HandshakeFrame) HsCodecError) :=
  let! r := p in
  match r with
  | Err (Incomplete _) => Ret (c, buf, Ok None)
  | Err _ => Ret (c, buf, Err HcParse)
  | Ok (i, f) =>
      let consumed := n - len i in
      let! (state, decrypted) :=
        match oc_state c with
        | StSessionCreated => Ret (StSessionConfirmA, oc_decrypted c)
        | StSessionConfirmB => Ret (StEstablished, oc_decrypted c - consumed)
        | _ => Panic
        end in
      Ret (mkOutbound (oc_dh c) (oc_iv_enc c) (oc_ri_remote c) state (oc_aes c) decrypted, zdrop consumed buf, Ok (Some f))
  end.

(** [SessionCreated]: the cipher is set up from the peer's value, and what
    follows it is decrypted *)
Definition decode_created (c : OutboundHandshakeCodec) (buf : bytes)
  : outcome (OutboundHandshakeCodec * bytes * result (option HandshakeFrame) HsCodecError) :=
  let! p := session_created_enc buf in
  match p with
  | Err (Incomplete _) => Ret (c, buf, Ok None)
  | Err _ => Ret (c, buf, Err HcParse)
  | Ok (i, (dh_y, ct)) =>
      let! y := array_ref_256 dh_y in
      let! session_key := build_session_key (oc_dh c) y in
      let! a := Aes256_new session_key (oc_iv_enc c) (zdrop (len dh_y - AES_BLOCK_SIZE) dh_y) in
      let '(a, pt, r) := decrypt_blocks a ct in
      let c := mkOutbound (oc_dh c) (oc_iv_enc c) (oc_ri_remote c) (oc_state c) (Some a) (oc_decrypted c) in
      match r with
      | Some end_ =>
          if end_ =? len ct then
            let! q := session_created_dec pt in
            match q with
            | Err (Incomplete _) => Ret (c, buf, Err HcIncomplete)
            | Err _ => Ret (c, buf, Err HcParse)
            | Ok (_, (h, ts_b)) =>
                outbound_parsed c buf (len buf) (POk i (HfSessionCreated (mkSessionCreated dh_y h ts_b)))
            end
          else Ret (c, buf, Err HcPartial)
      | None => Ret (c, buf, Ok None)
      end
  end.

#[export] Instance outbound_decode : FramedCodec OutboundHandshakeCodec HandshakeFrame HsCodecError := fun c buf =>
  match oc_state c with
  | StSessionCreated => decode_created c buf
  | StSessionConfirmB =>
      let! (a, buf, r) := decrypt_more (oc_aes c) (oc_decrypted c) buf in
      let with_aes d := mkOutbound (oc_dh c) (oc_iv_enc c) (oc_ri_remote c) (oc_state c) (Some a) d in
      match r with
      | Some end_ =>
          let d := oc_decrypted c + end_ in
          outbound_parsed (with_aes d) buf d (session_confirm_b (oc_ri_remote c) (ztake d buf))
      | None => Ret (with_aes (oc_decrypted c), buf, Ok None)
      end
  | _ => Ret (c, buf, Ok None)
  end.

Definition outbound_encode (c : OutboundHandshakeCodec) (f : HandshakeFrame) (buf : bytes)
  : outcome (OutboundHandshakeCodec * bytes * result unit HsCodecError) :=
  let with_ a state := mkOutbound (oc_dh c) (oc_iv_enc c) (oc_ri_remote c) state a (oc_decrypted c) in
  match oc_state c, f with
  | StSessionRequest, HfSessionRequest s =>
      let! (buf, r) := gen_into (gen_session_request s) buf in
      match r with
      | Ok _ => Ret (with_ (oc_aes c) StSessionCreated, buf, Ok tt)
      | Err e => Ret (c, buf, Err e)
      end
  | StSessionConfirmA, HfSessionConfirmA s =>
      let! (a, buf, r) := gen_encrypted (gen_session_confirm_a s) (oc_aes c) buf in
      match r with
      | Ok _ => Ret (with_ a StSessionConfirmB, buf, Ok tt)
      | Err e => Ret (with_ a (oc_state c), buf, Err e)
      end
  | _, _ => Ret (c, buf ++ zeros NTCP_MTU, Err HcState)
  end.

(** ** Lemmas *)

(** *** Whole blocks *)

Lemma encrypt_whole a m : wf_Aes256 a -> bytes_ok m -> 0 < len m -> len m mod 16 = 0 ->
  exists iv ct, encrypt_blocks a m = (mkAes256 (aes_key a) iv (iv_dec a), ct, Some (len m)) /\
    len ct = len m /\ bytes_ok ct /\ wf_iv iv /\ cbc_decrypt (key_bytes (aes_key a)) (iv_enc a) ct = (m, iv).
Proof.
  intros ([Hk Hkl] & Hiv & _) Hm H0 Hmod.
  assert (len m = 16 * (len m / 16)) as Hdiv by (Z.div_mod_to_equations; lia).
  destruct (blocks_whole (len m / 16) m ltac:(lia) Hdiv) as [H1 H2]. unfold encrypt_blocks. rewrite H1, H2.
  rewrite ztake_all by done. assert (zdrop (len m) m = []) as -> by (rewrite <- (app_nil_r m) at 2; by apply zdrop_app).
  destruct (cbc_encrypt _ _ m) as [ct iv] eqn:E.
  destruct (cbc_dec_enc _ Hk Hkl (Z.to_nat (len m / 16)) (iv_enc a) m ltac:(lia) Hm Hiv ct iv E) as (Hl & Ho & Hiv' & Hd).
  rewrite app_nil_r. by exists iv, ct.
Qed.

Lemma decrypt_whole a ct m iv : 0 < len ct -> len ct mod 16 = 0 ->
  cbc_decrypt (key_bytes (aes_key a)) (iv_dec a) ct = (m, iv) ->
  decrypt_blocks a ct = (mkAes256 (aes_key a) (iv_enc a) iv, m, Some (len ct)).
Proof.
  intros H0 Hm E. assert (len ct = 16 * (len ct / 16)) as Hdiv by (Z.div_mod_to_equations; lia).
  destruct (blocks_whole (len ct / 16) ct ltac:(lia) Hdiv) as [H1 H2]. unfold decrypt_blocks. rewrite H1, H2.
  rewrite ztake_all, E by done. assert (zdrop (len ct) ct = []) as -> by (rewrite <- (app_nil_r ct) at 2; by apply zdrop_app).
  by rewrite app_nil_r.
Qed.

(** generating at the end of a buffer *)
Lemma gen_into_fills g bs buf : fills g bs -> len bs <= NTCP_MTU -> gen_into g buf = Ret (buf ++ bs, Ok (len buf + len bs)).
Proof.
  intros Hf Hl. unfold gen_into. rewrite Hf by done. cbn [obind GOk]. by rewrite app_assoc, ztake_app by (by rewrite len_app).
Qed.

Lemma gen_encrypted_fills g m a : fills g m -> wf_Aes256 a -> bytes_ok m -> 0 < len m -> len m mod 16 = 0 -> len m <= NTCP_MTU ->
  exists iv ct, gen_encrypted g (Some a) [] = Ret (Some (mkAes256 (aes_key a) iv (iv_dec a)), ct, Ok tt) /\
    len ct = len m /\ bytes_ok ct /\ wf_iv iv /\ cbc_decrypt (key_bytes (aes_key a)) (iv_enc a) ct = (m, iv).
Proof.
  intros Hg Ha Hm H0 Hmod Hl. destruct (encrypt_whole a m Ha Hm H0 Hmod) as (iv & ct & E & H).
  exists iv, ct. split; [|exact H]. unfold gen_encrypted. rewrite (gen_into_fills g m [] Hg Hl). cbn [obind unwrap app len_nil].
  change (zdrop (len (@nil Z)) m) with m. rewrite E. change (len (@nil Z)) with 0. by rewrite Z.eqb_refl.
Qed.

(** *** Decrypting a frame as it arrives *)

(** The buffer has [d] bytes of plaintext; with what is to come it makes [m],
    which is not yet complete. *)
Definition block_awaits (K : SessionKey) (iv_e iv_d' : bytes) (m : bytes) (a : Aes256) (d : Z) (buf unread : bytes) : Prop :=
  aes_key a = K /\ iv_enc a = iv_e /\ len (key_bytes K) = 32 /\ wf_iv (iv_dec a) /\
  exists p q r, buf = p ++ r /\ d = len p /\ m = p ++ q /\ q <> [] /\ bytes_ok (r ++ unread) /\ len (r ++ unread) mod 16 = 0 /\
    cbc_decrypt (key_bytes K) (iv_dec a) (r ++ unread) = (q, iv_d').

Lemma block_awaits_arrive K iv_e iv_d' m a d buf x unread :
  block_awaits K iv_e iv_d' m a d buf (x ++ unread) -> block_awaits K iv_e iv_d' m a d (buf ++ x) unread.
Proof.
  intros (Hk & He & Hl & Hiv & p & q & r & -> & H). split_and!; try done. exists p, q, (r ++ x). by rewrite <- !app_assoc.
Qed.

(** what one more decryption comes to: still incomplete, or all of it *)
Lemma decrypt_more_awaits K iv_e iv_d' m a d buf unread : block_awaits K iv_e iv_d' m a d buf unread ->
  exists a' buf' n, decrypt_more (Some a) d buf = Ret (a', buf', if n =? 0 then None else Some n) /\ 0 <= n /\
    ((block_awaits K iv_e iv_d' m a' (d + n) buf' unread /\ unread <> [] /\
      exists q, q <> [] /\ m = ztake (d + n) buf' ++ q) \/
     (n <> 0 /\ a' = mkAes256 K iv_e iv_d' /\ buf' = m /\ d + n = len m /\ unread = [])).
Proof.
  intros (Hk & He & Hl & Hiv & p & q & r & -> & -> & -> & Hq & Hb & Hmod & Hcbc). subst K.
  apply bytes_ok_app in Hb as [Hr Hu].
  destruct (decrypt_blocks_split a r Hl Hiv Hr) as (w & r2 & o & a' & -> & Hw & Hr2 & Ho & Hdec & Hkey & Hiv' & Hcat).
  exists a', ((p ++ o) ++ r2), (len w). pose proof (len_nonneg w). pose proof (len_nonneg p). pose proof (len_nonneg r2).
  split.
  { unfold decrypt_more. cbn [unwrap obind]. rewrite (proj2 (Z.ltb_ge _ _)) by (rewrite !len_app; lia).
    rewrite zdrop_app, ztake_app, Hdec by done. by rewrite <- app_assoc. }
  split; [done|]. rewrite ztake_app by (rewrite len_app; lia).
  rewrite <- app_assoc in Hcbc, Hmod. rewrite Hcat in Hcbc.
  destruct (cbc_decrypt _ (iv_dec a') (r2 ++ unread)) as [o2 iv2] eqn:E. injection Hcbc as <- <-.
  rewrite len_app in Hmod. assert (len (r2 ++ unread) mod 16 = 0) as Hmod2 by (Z.div_mod_to_equations; lia).
  assert (iv_enc a' = iv_enc a) as Henc.
  { pose proof (f_equal (fun x => iv_enc x.1.1) Hdec) as F. cbn in F. rewrite <- F. unfold decrypt_blocks.
    destruct (len (w ++ r2) <? AES_BLOCK_SIZE); [done|]. cbv zeta. by destruct (cbc_decrypt _ _ (ztake _ _)). }
  destruct (decide (r2 ++ unread = [])) as [Hn|Hn].
  - right. rewrite Hn, cbc_decrypt_nil in E. injection E as <- E. rewrite !app_nil_r in *.
    apply app_nil in Hn as [-> ->]. rewrite !app_nil_r. split_and!; [|by destruct a'; cbn in *; subst|done|rewrite len_app; lia|done].
    intros Hz. apply Hq. apply len_zero_nil. lia.
  - left. assert (unread <> []) as Hun.
    { intros ->. rewrite app_nil_r in *. apply Hn, len_zero_nil. rewrite Z.mod_small in Hmod2; lia. }
    assert (len o2 <> 0) as Ho2.
    { destruct (cbc_decrypt_app (key_bytes (aes_key a)) (Z.to_nat (len (r2 ++ unread) / 16)) (iv_dec a') (r2 ++ unread) [] Hl Hiv')
        as (o3 & iv3 & E3 & Hl3 & _).
      { apply bytes_ok_app in Hr as [_ Hr]. by apply bytes_ok_app. }
      { pose proof (len_nonneg (r2 ++ unread)). Z.div_mod_to_equations. lia. }
      rewrite E in E3. injection E3 as <- <-. rewrite Hl3. intros Hz. by apply Hn, len_zero_nil. }
    split; [|split; [done|]].
    + split; [done|]. split; [by rewrite Henc|]. split; [done|]. split; [done|]. exists (p ++ o), o2, r2.
      split; [done|]. split; [by rewrite len_app, Ho|]. split; [by rewrite <- app_assoc|]. split; [by intros ->|].
      apply bytes_ok_app in Hr as [_ Hr]. split; [by apply bytes_ok_app|]. by split.
    + exists o2. split; [by intros ->|]. by rewrite <- app_assoc.
Qed.

(** *** Reading the four frames *)

(** a frame [m], of which [a] has arrived and [b] has not: a part, or all of it *)
Lemma arrived (a b m t : bytes) : a ++ b = m ++ t ->
  (exists q, q <> [] /\ m = a ++ q /\ b = q ++ t) \/ (exists r, a = m ++ r /\ r ++ b = t).
Proof.
  intros E. destruct (le_lt_dec (length m) (length a)) as [Hl|Hl].
  - right. destruct (prefix_weak m a t b (eq_sym E) Hl) as [r ->]. exists r. split; [done|].
    rewrite <- app_assoc in E. by apply app_inv_head in E.
  - left. destruct (prefix_weak a m b t E ltac:(lia)) as [q ->]. exists q. split_and!; [|done|].
    + intros ->. rewrite app_nil_r in Hl. lia.
    + rewrite <- app_assoc in E. by apply app_inv_head in E.
Qed.

Lemma len_more (q t : bytes) : q <> [] -> len t < len (q ++ t).
Proof. intros Hq. rewrite len_app. destruct q; [done|]. rewrite len_cons. pose proof (len_nonneg q). lia. Qed.

Lemma inbound_reads_request dh ive sr m tail :
  parses session_request m (HfSessionRequest sr) -> waits session_request m -> len (zdrop 16 (hash_bytes (sr_hash sr))) = 16 ->
  reads_one (codec := inbound_decode) (HfSessionRequest sr) (fun unread => len tail < len unread)
    (fun c rd unread => c = InboundHandshakeCodec_new dh ive /\ rd ++ unread = m ++ tail)
    (fun c rd unread => c = mkInbound dh (sr_dh_x sr) ive (zdrop 16 (hash_bytes (sr_hash sr))) StSessionCreated None 0 /\
       rd ++ unread = tail).
Proof.
  intros Hp Hw Hiv. split.
  - intros c rd x unread [-> E]. split; [done|]. by rewrite <- app_assoc.
  - intros c rd unread [-> E]. unfold decode, inbound_decode. cbn [ic_state InboundHandshakeCodec_new].
    destruct (arrived _ _ _ _ E) as [(q & Hq & -> & ->)|(r & -> & <-)].
    + left. destruct (Hw rd q eq_refl Hq) as [k ->]. eexists _, _. split; [done|]. split; [done|]. by apply len_more.
    + right. rewrite Hp. unfold inbound_parsed, POk. cbn [obind ic_state]. unfold copy_block, AES_BLOCK_SIZE.
      rewrite Hiv. cbn [Z.eqb obind ic_state]. eexists _, _. split; [done|]. split; [done|].
      f_equal. apply zdrop_app. rewrite len_app. lia.
Qed.

Lemma outbound_reads_created dh ive ri y ct s inner k iv' tail :
  parses session_created_enc (y ++ ct) (y, ct) -> waits session_created_enc (y ++ ct) -> len y = 256 -> 
  build_session_key dh y = Ret k -> len (key_bytes k) = 32 -> len ive = 16 ->
  len ct = 48 -> cbc_decrypt (key_bytes k) (zdrop (256 - 16) y) ct = (inner, iv') ->
  parses session_created_dec inner (sc_hash s, sc_ts_b s) -> sc_dh_y s = y ->
  reads_one (codec := outbound_decode) (HfSessionCreated s) (fun unread => len tail < len unread)
    (fun c rd unread => c = mkOutbound dh ive ri StSessionCreated None 0 /\ rd ++ unread = (y ++ ct) ++ tail)
    (fun c rd unread => c = mkOutbound dh ive ri StSessionConfirmA (Some (mkAes256 k ive iv')) 0 /\ rd ++ unread = tail).
Proof.
  intros Hp Hw Hy Hk Hkl Hive Hct Hcbc Hinner Hs. split.
  - intros c rd x unread [-> E]. split; [done|]. by rewrite <- app_assoc.
  - intros c rd unread [-> E]. unfold decode, outbound_decode. cbn [oc_state]. unfold decode_created.
    destruct (arrived _ _ _ _ E) as [(q & Hq & Em & ->)|(r & -> & <-)].
    + left. destruct (Hw rd q Em Hq) as [j ->]. eexists _, _. split; [done|]. split; [|by apply len_more].
      split; [done|]. by rewrite Em, <- app_assoc.
    + right. rewrite Hp. cbn [POk obind]. unfold array_ref_256. rewrite Hy. cbn [Z.ltb Z.compare Pos.compare Pos.compare_cont obind].
      rewrite ztake_all by done. cbn [oc_dh oc_iv_enc]. rewrite Hk. cbn [obind]. unfold Aes256_new, AES_BLOCK_SIZE.
      rewrite Hkl, Hive. assert (len (zdrop (256 - 16) y) = 16) as -> by (rewrite len_zdrop; lia). cbn [Z.eqb Pos.eqb andb obind].
      rewrite (decrypt_whole _ ct inner iv') by (rewrite ?Hct; done). rewrite Hct. cbn [Z.eqb Pos.eqb].
      pose proof (Hinner []) as Hi. rewrite app_nil_r in Hi. rewrite Hi. cbn [POk obind]. unfold outbound_parsed. cbn [POk obind oc_state].
      eexists _, _. split; [rewrite <- Hs; destruct s; done|]. split; [done|]. f_equal. apply zdrop_app. rewrite !len_app. lia.
Qed.

(** a frame that is decrypted as it arrives *)
Definition inbound_deciphers (dh : DHSessionKeyBuilder) (x ive ivd : bytes) K iv_e iv_d' m (c : InboundHandshakeCodec) (rd unread : bytes) : Prop :=
  exists a d, c = mkInbound dh x ive ivd StSessionConfirmA (Some a) d /\ block_awaits K iv_e iv_d' m a d rd unread.

Definition outbound_deciphers (dh : DHSessionKeyBuilder) (ive : bytes) ri K iv_e iv_d' m (c : OutboundHandshakeCodec) (rd unread : bytes) : Prop :=
  exists a d, c = mkOutbound dh ive ri StSessionConfirmB (Some a) d /\ block_awaits K iv_e iv_d' m a d rd unread.

Lemma inbound_reads_confirm dh x ive ivd K iv_e iv_d' m sca :
  parses session_confirm_a m (HfSessionConfirmA sca) -> waits session_confirm_a m ->
  reads_one (codec := inbound_decode) (HfSessionConfirmA sca) (fun unread => unread <> [])
    (inbound_deciphers dh x ive ivd K iv_e iv_d' m)
    (fun c rd unread => c = mkInbound dh x ive ivd StSessionConfirmB (Some (mkAes256 K iv_e iv_d')) 0 /\ rd = [] /\ unread = []).
Proof.
  intros Hp Hw. split.
  - intros c rd x' unread (a & d & -> & H). exists a, d. split; [done|]. by apply block_awaits_arrive.
  - intros c rd unread (a & d & -> & H). unfold decode, inbound_decode. cbn [ic_state ic_aes ic_decrypted].
    destruct (decrypt_more_awaits _ _ _ _ _ _ _ _ H) as (a' & buf' & n & -> & Hn & [(H' & Hu & q & Hq & Em)|(Hn0 & -> & -> & El & ->)]);
      cbn [obind].
    + left. destruct (Z.eqb_spec n 0) as [->|_].
      * rewrite Z.add_0_r in H'. eexists _, _. split; [done|]. split; [|done]. by eexists _, _.
      * destruct (Hw _ _ Em Hq) as [k ->]. eexists _, _. split; [done|]. split; [|done]. by eexists _, _.
    + right. rewrite (proj2 (Z.eqb_neq _ _) Hn0), El, ztake_all by done.
      pose proof (Hp []) as Hpm. rewrite app_nil_r in Hpm. rewrite Hpm. unfold inbound_parsed, POk.
      cbn [obind ic_state ic_decrypted ic_dh ic_dh_x ic_iv_enc ic_iv_dec ic_aes]. rewrite len_nil, Z.sub_0_r, Z.sub_diag.
      eexists _, _. split; [done|]. split; [done|]. split; [|done]. rewrite <- (app_nil_r m) at 2. by apply zdrop_app.
Qed.

Lemma outbound_reads_confirm dh ive ri K iv_e iv_d' m scb :
  parses (session_confirm_b ri) m (HfSessionConfirmB scb) -> waits (session_confirm_b ri) m ->
  reads_one (codec := outbound_decode) (HfSessionConfirmB scb) (fun unread => unread <> [])
    (outbound_deciphers dh ive ri K iv_e iv_d' m)
    (fun c rd unread => c = mkOutbound dh ive ri StEstablished (Some (mkAes256 K iv_e iv_d')) 0 /\ rd = [] /\ unread = []).
Proof.
  intros Hp Hw. split.
  - intros c rd x' unread (a & d & -> & H). exists a, d. split; [done|]. by apply block_awaits_arrive.
  - intros c rd unread (a & d & -> & H). unfold decode, outbound_decode. cbn [oc_state oc_aes oc_decrypted oc_ri_remote].
    destruct (decrypt_more_awaits _ _ _ _ _ _ _ _ H) as (a' & buf' & n & -> & Hn & [(H' & Hu & q & Hq & Em)|(Hn0 & -> & -> & El & ->)]);
      cbn [obind].
    + left. destruct (Z.eqb_spec n 0) as [->|_].
      * rewrite Z.add_0_r in H'. eexists _, _. split; [done|]. split; [|done]. by eexists _, _.
      * destruct (Hw _ _ Em Hq) as [k ->]. eexists _, _. split; [done|]. split; [|done]. by eexists _, _.
    + right. rewrite (proj2 (Z.eqb_neq _ _) Hn0), El, ztake_all by done.
      pose proof (Hp []) as Hpm. rewrite app_nil_r in Hpm. rewrite Hpm. unfold outbound_parsed, POk.
      cbn [obind oc_state oc_decrypted oc_dh oc_iv_enc oc_ri_remote oc_aes]. rewrite len_nil, Z.sub_0_r, Z.sub_diag.
      eexists _, _. split; [done|]. split; [done|]. split; [|done]. rewrite <- (app_nil_r m) at 2. by apply zdrop_app.
Qed.

(** *** Writing the four frames *)

Lemma encode_request dh ive ri sr : len (sr_dh_x sr) = 256 -> wf_Hash (sr_hash sr) ->
  outbound_encode (OutboundHandshakeCodec_new dh ive ri) (HfSessionRequest sr) [] =
    Ret (mkOutbound dh ive ri StSessionCreated None 0, sr_dh_x sr ++ hash_bytes (sr_hash sr), Ok tt).
Proof.
  intros Hx [_ Hh]. unfold outbound_encode. cbn [oc_state OutboundHandshakeCodec_new].
  rewrite (gen_into_fills _ (sr_dh_x sr ++ hash_bytes (sr_hash sr))); [done|apply fills_writes, writes_session_request|].
  rewrite len_app, Hx, Hh. unfold NTCP_MTU. lia.
Qed.

Lemma encode_created dh x ive ivd s k : len x = 256 -> build_session_key dh x = Ret k -> wf_SessionKey k -> wf_iv ive -> wf_iv ivd ->
  len (sc_dh_y s) = 256 -> wf_Hash (sc_hash s) ->
  exists iv ct, inbound_encode (mkInbound dh x ive ivd StSessionCreated None 0) (HfSessionCreated s) [] =
      Ret (mkInbound dh x ive ivd StSessionConfirmA (Some (mkAes256 k iv ivd)) 0, sc_dh_y s ++ ct, Ok tt) /\
    len ct = 48 /\ wf_iv iv /\ cbc_decrypt (key_bytes k) ive ct = (created_inner s, iv).
Proof.
  intros Hx Hk [Hkb Hkl] Hive Hivd Hy [Hhb Hh].
  assert (len (created_inner s) = 48) as Hl by (unfold created_inner; by rewrite !len_app, Hh, len_be_bytes).
  assert (bytes_ok (created_inner s)) as Hb.
  { unfold created_inner. apply bytes_ok_app. split; [done|]. apply bytes_ok_app. split; [apply be_bytes_ok|apply zeros_ok]. }
  destruct (encrypt_whole (mkAes256 k ive ivd) (created_inner s)) as (iv & ct & E & Hct & _ & Hiv & Hcbc);
    [by split_and!|done|by rewrite Hl|by rewrite Hl|]. rewrite Hl in E, Hct.
  exists iv, ct. split; [|done]. unfold inbound_encode. cbn [ic_state ic_dh_x ic_dh ic_iv_enc ic_iv_dec ic_decrypted].
  unfold array_ref_256. rewrite Hx. cbn [Z.ltb Z.compare Pos.compare Pos.compare_cont obind]. rewrite ztake_all by done.
  rewrite Hk. cbn [obind]. unfold Aes256_new. destruct Hive as [_ Hive]. destruct Hivd as [_ Hivd]. rewrite Hkl, Hive, Hivd.
  cbn [Z.eqb Pos.eqb andb obind]. unfold encrypt_created.
  pose proof (fills_created_dec s [] 48) as Hf. rewrite Hl in Hf. cbn [app] in Hf.
  change (len (@nil Z)) with 0 in Hf. change (0 + 48) with 48 in Hf. rewrite Hf by done. cbn [obind GOk]. change (zeros (48 - 48)) with (@nil Z).
  rewrite app_nil_r, E. cbn [Z.eqb Pos.eqb obind].
  rewrite (gen_into_fills _ (sc_dh_y s ++ ct)); [done|apply fills_writes, writes_seq; apply writes_slice|].
  rewrite len_app, Hy, Hct. unfold NTCP_MTU. lia.
Qed.

Lemma encode_confirm_a dh ive ri a sca m : fills (gen_session_confirm_a sca) m -> wf_Aes256 a -> bytes_ok m ->
  0 < len m -> len m mod 16 = 0 -> len m <= NTCP_MTU ->
  exists iv ct, outbound_encode (mkOutbound dh ive ri StSessionConfirmA (Some a) 0) (HfSessionConfirmA sca) [] =
      Ret (mkOutbound dh ive ri StSessionConfirmB (Some (mkAes256 (aes_key a) iv (iv_dec a))) 0, ct, Ok tt) /\
    len ct = len m /\ bytes_ok ct /\ wf_iv iv /\ cbc_decrypt (key_bytes (aes_key a)) (iv_enc a) ct = (m, iv).
Proof.
  intros Hf Ha Hb H0 Hm Hl. destruct (gen_encrypted_fills _ m a Hf Ha Hb H0 Hm Hl) as (iv & ct & E & H).
  exists iv, ct. split; [|exact H]. unfold outbound_encode. cbn [oc_state oc_aes]. by rewrite E.
Qed.

Lemma encode_confirm_b dh x ive ivd a scb m : fills (gen_session_confirm_b scb) m -> wf_Aes256 a -> bytes_ok m ->
  0 < len m -> len m mod 16 = 0 -> len m <= NTCP_MTU ->
  exists iv ct, inbound_encode (mkInbound dh x ive ivd StSessionConfirmB (Some a) 0) (HfSessionConfirmB scb) [] =
      Ret (mkInbound dh x ive ivd StEstablished (Some (mkAes256 (aes_key a) iv (iv_dec a))) 0, ct, Ok tt) /\
    len ct = len m /\ bytes_ok ct /\ wf_iv iv /\ cbc_decrypt (key_bytes (aes_key a)) (iv_enc a) ct = (m, iv).
Proof.
  intros Hf Ha Hb H0 Hm Hl. destruct (gen_encrypted_fills _ m a Hf Ha Hb H0 Hm Hl) as (iv & ct & E & H).
  exists iv, ct. split; [|exact H]. unfold inbound_encode. cbn [ic_state ic_aes]. by rewrite E.
Qed.

(** a ciphertext that is on its way *)
Lemma block_awaits_start K iv_e iv_d iv_d' m ct rd unread : len (key_bytes K) = 32 -> wf_iv iv_d -> bytes_ok ct -> len ct mod 16 = 0 ->
  m <> [] -> cbc_decrypt (key_bytes K) iv_d ct = (m, iv_d') -> rd ++ unread = ct ->
  block_awaits K iv_e iv_d' m (mkAes256 K iv_e iv_d) 0 rd unread.
Proof. intros Hk Hiv Hb Hm Hne Hc <-. do 4 (split; [done|]). by exists [], m, rd. Qed.

(** *** What any input leaves as it is *)

Lemma decrypt_blocks_key a buf : aes_key (decrypt_blocks a buf).1.1 = aes_key a.
Proof. unfold decrypt_blocks. destruct (len buf <? AES_BLOCK_SIZE); [done|]. cbv zeta. by destruct (cbc_decrypt _ _ (ztake _ _)). Qed.

Lemma encrypt_blocks_key a buf : aes_key (encrypt_blocks a buf).1.1 = aes_key a.
Proof. unfold encrypt_blocks. destruct (len buf <? AES_BLOCK_SIZE); [done|]. cbv zeta. by destruct (cbc_encrypt _ _ (ztake _ _)). Qed.

Lemma decrypt_more_key aes d buf a buf' r : decrypt_more aes d buf = Ret (a, buf', r) -> Some (aes_key a) = aes_key <$> aes.
Proof.
  unfold decrypt_more. destruct aes as [a0|]; cbn [unwrap obind]; [|done]. destruct (len buf <? d); [done|].
  pose proof (decrypt_blocks_key a0 (zdrop d buf)) as Hk. destruct (decrypt_blocks a0 (zdrop d buf)) as [[a1 t] o].
  intros [= <- _ _]. cbn in *. by rewrite Hk.
Qed.

Lemma gen_encrypted_key g aes buf aes' buf' r : gen_encrypted g aes buf = Ret (aes', buf', r) -> aes_key <$> aes' = aes_key <$> aes.
Proof.
  unfold gen_encrypted. destruct (gen_into g buf) as [[b [sz|e]]|]; cbn [obind]; [| |done].
  - destruct aes as [a0|]; cbn [unwrap obind]; [|done].
    pose proof (encrypt_blocks_key a0 (zdrop (len buf) b)) as Hk. destruct (encrypt_blocks a0 _) as [[a1 t] o].
    intros [= <- _ _]. cbn in *. by rewrite Hk.
  - by intros [= <- _ _].
Qed.

Lemma inbound_parsed_keeps c buf n p c' buf' r : inbound_parsed c buf n p = Ret (c', buf', r) ->
  ic_dh c' = ic_dh c /\ ic_aes c' = ic_aes c /\
  forall f, r = Ok (Some f) -> (exists i, p = POk i f) /\ forall sr, f = HfSessionRequest sr -> ic_dh_x c' = sr_dh_x sr.
Proof.
  unfold inbound_parsed. destruct p as [[[i f]|[k|e|e]]|]; cbn [obind]; try done; [|by intros [= <- _ <-]..].
  assert (forall c0 : InboundHandshakeCodec, ic_dh c0 = ic_dh c -> ic_aes c0 = ic_aes c ->
    (forall sr, f = HfSessionRequest sr -> ic_dh_x c0 = sr_dh_x sr) ->
    (let! (state, decrypted) := match ic_state c0 with
       | StSessionRequest => Ret (StSessionCreated, ic_decrypted c0)
       | StSessionConfirmA => Ret (StSessionConfirmB, ic_decrypted c0 - (n - len i))
       | _ => Panic
       end in
     Ret (mkInbound (ic_dh c0) (ic_dh_x c0) (ic_iv_enc c0) (ic_iv_dec c0) state (ic_aes c0) decrypted, zdrop (n - len i) buf,
       @Ok _ HsCodecError (Some f))) = Ret (c', buf', r) ->
    ic_dh c' = ic_dh c /\ ic_aes c' = ic_aes c /\
    forall f', r = Ok (Some f') -> (exists i', POk i f = POk i' f') /\ forall sr, f' = HfSessionRequest sr -> ic_dh_x c' = sr_dh_x sr) as Hend.
  { intros c0 H1 H2 H3. destruct (ic_state c0); cbn [obind]; try done; intros [= <- _ <-]; (split; [done|]); (split; [done|]);
      intros f' [= <-]; (split; [by exists i|exact H3]). }
  destruct f as [sr|s|s|s]; cbn [obind].
  - destruct (copy_block _) as [iv|]; cbn [obind]; [|done]. apply Hend; [done|done|]. by intros sr' [= ->].
  - by apply Hend.
  - by apply Hend.
  - by apply Hend.
Qed.

Lemma inbound_decode_keeps c buf c' buf' r : decode c buf = Ret (c', buf', r) ->
  ic_dh c' = ic_dh c /\ aes_key <$> ic_aes c' = aes_key <$> ic_aes c /\
  forall sr, r = Ok (Some (HfSessionRequest sr)) -> ic_dh_x c' = sr_dh_x sr /\ len (sr_dh_x sr) = 256.
Proof.
  unfold decode, inbound_decode. destruct (ic_state c); try by intros [= <- _ <-].
  - intros H. destruct (inbound_parsed_keeps _ _ _ _ _ _ _ H) as (H1 & H2 & H3). rewrite H2. split; [done|]. split; [done|].
    intros sr E. destruct (H3 _ E) as [[i Ei] H4]. split; [by apply H4|].
    by destruct (session_request_read _ _ _ Ei) as (sr' & [= <-] & ?).
  - destruct (decrypt_more _ _ _) as [[[a b] o]|] eqn:E; cbn [obind]; [|done]. apply decrypt_more_key in E.
    destruct o as [e|]; [|by intros [= <- _ <-]].
    intros H. destruct (inbound_parsed_keeps _ _ _ _ _ _ _ H) as (H1 & H2 & H3). rewrite H2. split; [done|]. split; [done|].
    intros sr Es. destruct (H3 _ Es) as [[i Ei] _]. by destruct (session_confirm_a_read _ _ _ Ei).
Qed.

(** the cipher's key is the one agreed on with the peer's value *)
Definition agreed_key (dh : DHSessionKeyBuilder) (peer : bytes) (aes : option Aes256) : Prop :=
  exists k, build_session_key dh peer = Ret k /\ aes_key <$> aes = Some k.

Lemma inbound_encode_keeps c f buf c' buf' : inbound_encode c f buf = Ret (c', buf', Ok tt) ->
  ic_dh c' = ic_dh c /\ ic_dh_x c' = ic_dh_x c /\
  match f with
  | HfSessionCreated _ => agreed_key (ic_dh c) (ztake 256 (ic_dh_x c)) (ic_aes c')
  | _ => aes_key <$> ic_aes c' = aes_key <$> ic_aes c
  end.
Proof.
  unfold inbound_encode. destruct (ic_state c), f as [s|s|s|s]; try by intros.
  - unfold array_ref_256. destruct (len (ic_dh_x c) <? 256); cbn [obind]; [done|].
    destruct (build_session_key _ _) as [k|] eqn:Ek; cbn [obind]; [|done].
    destruct (Aes256_new _ _ _) as [a|] eqn:Ea; cbn [obind]; [|done].
    assert (aes_key a = k) as Hak by (unfold Aes256_new in Ea; destruct (_ && _); [by injection Ea as <-|done]).
    destruct (encrypt_created a s _) as [[a1 t]|] eqn:E1; cbn [obind]; [|done].
    assert (aes_key a1 = aes_key a) as Ha1.
    { revert E1. unfold encrypt_created. destruct (gen_session_created_dec s _) as [[b [sz|[n| | |]]]|]; cbn [obind]; try by intros [= <- _].
      pose proof (encrypt_blocks_key a b) as Hk. destruct (encrypt_blocks a b) as [[a2 t2] o]. by intros [= <- _]. }
    destruct t as [t|e]; [|done]. destruct (gen_into _ _) as [[b [sz|e]]|]; cbn [obind]; try done.
    intros [= <- _]. split; [done|]. split; [done|]. exists k. split; [done|]. cbn. by rewrite Ha1, Hak.
  - destruct (gen_encrypted _ _ _) as [[[a b] [u|e]]|] eqn:E; cbn [obind]; try done. apply gen_encrypted_key in E.
    by intros [= <- _].
Qed.

Lemma outbound_parsed_keeps c buf n p c' buf' r : outbound_parsed c buf n p = Ret (c', buf', r) ->
  oc_dh c' = oc_dh c /\ oc_aes c' = oc_aes c /\ (forall f, r = Ok (Some f) -> exists i, p = POk i f) /\
  (oc_state c <> StSessionCreated -> oc_state c' <> StSessionCreated).
Proof.
  unfold outbound_parsed. destruct p as [[[i f]|[k|e|e]]|]; cbn [obind]; try done; [|by intros [= <- _ <-]..].
  destruct (oc_state c); cbn [obind]; intros H; inversion H; subst; (split; [done|]); (split; [done|]); (split; [intros f' [= ->]; by exists i|by intros]).
Qed.

Lemma outbound_decode_keeps c buf c' buf' r : decode c buf = Ret (c', buf', r) ->
  oc_dh c' = oc_dh c /\
  (forall s, r = Ok (Some (HfSessionCreated s)) -> agreed_key (oc_dh c) (sc_dh_y s) (oc_aes c') /\ len (sc_dh_y s) = 256) /\
  (oc_state c <> StSessionCreated -> aes_key <$> oc_aes c' = aes_key <$> oc_aes c /\ oc_state c' <> StSessionCreated).
Proof.
  unfold decode, outbound_decode. destruct (oc_state c) eqn:Est; try by intros [= <- _ <-]; rewrite Est.
  - unfold decode_created. destruct (session_created_enc buf) as [[[i [y ct]]|[k|e|e]]|] eqn:Ep; cbn [obind]; try done; [|by intros [= <- _ <-]..].
    apply session_created_read in Ep. unfold array_ref_256. rewrite Ep. cbn [Z.ltb Z.compare Pos.compare Pos.compare_cont obind].
    rewrite ztake_all by done. destruct (build_session_key _ _) as [k|] eqn:Ek; cbn [obind]; [|done].
    destruct (Aes256_new _ _ _) as [a|] eqn:Ea; cbn [obind]; [|done].
    assert (aes_key a = k) as Hak by (unfold Aes256_new in Ea; destruct (_ && _); [by injection Ea as <-|done]).
    pose proof (decrypt_blocks_key a ct) as Hk. destruct (decrypt_blocks a ct) as [[a1 pt] o]. cbn in Hk.
    destruct o as [e|]; [|by intros [= <- _ <-]]. destruct (e =? len ct); [|by intros [= <- _ <-]].
    destruct (session_created_dec pt) as [[[i2 [h t]]|[k2|e2|e2]]|]; cbn [obind]; try done; [|by intros [= <- _ <-]..].
    intros H. destruct (outbound_parsed_keeps _ _ _ _ _ _ _ H) as (H1 & H2 & H3 & _). split; [by rewrite H1|]. split; [|done].
    intros s Es. destruct (H3 _ Es) as [j Ej]. injection Ej as _ <-. split; [|exact Ep]. exists k. split; [exact Ek|].
    rewrite H2. cbn. by rewrite Hk, Hak.
  - destruct (decrypt_more _ _ _) as [[[a b] o]|] eqn:E; cbn [obind]; [|done]. apply decrypt_more_key in E.
    destruct o as [e|]; [|by intros [= <- _ <-]].
    intros H. destruct (outbound_parsed_keeps _ _ _ _ _ _ _ H) as (H1 & H2 & H3 & H4). rewrite H2. split; [done|].
    split; [|by intros _; split; [|apply H4]]. intros s Es. destruct (H3 _ Es) as [j Ej]. by destruct (session_confirm_b_read _ _ _ _ Ej).
Qed.

Lemma outbound_encode_keeps c f buf c' buf' : outbound_encode c f buf = Ret (c', buf', Ok tt) ->
  oc_dh c' = oc_dh c /\ aes_key <$> oc_aes c' = aes_key <$> oc_aes c /\
  (forall s, f = HfSessionConfirmA s -> oc_state c' = StSessionConfirmB).
Proof.
  unfold outbound_encode. destruct (oc_state c), f as [s|s|s|s]; try by intros.
  - destruct (gen_into _ _) as [[b [sz|e]]|]; cbn [obind]; try done. by intros [= <- _].
  - destruct (gen_encrypted _ _ _) as [[[a b] [u|e]]|] eqn:E; cbn [obind]; try done. apply gen_encrypted_key in E.
    by intros [= <- _].
Qed.

End Codecs.
