(* ===== verification/NtcpHandshake.v ===== *)
(** * The NTCP handshake

    [IBHandshake] and [OBHandshake] of [src/transport/ntcp/handshake/mod.rs]:
    both sides publish a DH value, each signs what both have said together with
    the other's identity, and checks the other's signature; what they then have
    are the codecs of a session.  The random bytes of a DH key and the clock
    readings of a handshake are arguments; every poll gets what it meets at the
    connection. *)

From S2P Require Import Prelude Nom Cookie Util Wire Crypto ElGamal Aes Data Dest I2np Message Framed Duplex.
From S2P Require Import NtcpFrame NtcpCodec NtcpHsFrame NtcpHsCodec.

(** the I/O errors *)
Inductive HsError := HeConn (e : StreamErr HsCodecError) | HeUnexpected | HeTerminated | HeHash | HeSignature | HeSign.

(** The clock readings of one handshake: when its round trip starts, when it is
    over, and the one for its timestamp. *)
Record HsClock := mkHsClock { ck_timer : Z; ck_later : Z; ck_now : Z }.

Section Machines.
Context {nom : Nom} {cf : CookieFactory} {bu : BigUintOps} {sc : SigCrates} {sha : Sha2} {aes_crate : AesCrate} {grp : DhGroup}.

(** [DsaPublicKey::verify] *)
Context (dsa_verify : DsaPublicKey -> bytes -> DsaSignature -> bool).

(** [try_poll!]; [expected] picks the content of the frame that must come *)
Definition try_poll {C A} {codec : FramedCodec C HandshakeFrame HsCodecError} (expected : HandshakeFrame -> option A)
    (env : IoEnv) (conn : Framed C) (inp : bytes) : outcome (Framed C * bytes * Poll A HsError) :=
  let! (conn, inp, r) := stream_poll (S (length inp)) env conn inp in
  Ret (conn, inp,
       match r with
       | NotReady => NotReady
       | PollErr e => PollErr (HeConn e)
       | Ready None => PollErr HeTerminated
       | Ready (Some f) => match expected f with Some a => Ready a | None => PollErr HeUnexpected end
       end).

Definition is_session_request (f : HandshakeFrame) : option SessionRequest :=
  match f with HfSessionRequest s => Some s | _ => None end.
Definition is_session_created (f : HandshakeFrame) : option SessionCreated :=
  match f with HfSessionCreated s => Some s | _ => None end.
Definition is_session_confirm_a (f : HandshakeFrame) : option SessionConfirmA :=
  match f with HfSessionConfirmA s => Some s | _ => None end.
Definition is_session_confirm_b (f : HandshakeFrame) : option SessionConfirmB :=
  match f with HfSessionConfirmB s => Some s | _ => None end.

(** [Framed::from_parts] with another codec: what has been read and what has not
    been written stay *)
Definition transmute_framed {C} (to_codec : C -> outcome Codec) (conn : Framed C) : outcome (Framed Codec) :=
  let! codec := to_codec (fr_codec conn) in
  Ret (mkFramed codec (fr_rd conn) (negb (len (fr_rd conn) =? 0)) (fr_wr conn)).

Record SharedHandshakeState := mkShared {
  own_ri : RouterIdentity;
  own_key : SigningPrivateKey;
  ri_remote : option RouterIdentity;
  dh_x : bytes;
  dh_y : bytes;
  ts_a : Z;
  ts_b : Z
}.

(** [gen_session_confirm_sig_msg] of the handshakes: what is signed for one of
    the identities *)
Definition session_confirm_sig_msg (s : SharedHandshakeState) (own : bool) : comp bytes :=
  let! ri := if own then Ret (own_ri s) else unwrap (ri_remote s) in
  let* hash := RouterIdentity_hash ri in
  serialize (gen_session_confirm_sig_msg (dh_x s) (dh_y s) hash (ts_a s) (ts_b s)).

(** checking the peer's signature of what was said to us *)
Definition verify_remote (s : SharedHandshakeState) (sig : Signature) : comp bool :=
  let* msg := session_confirm_sig_msg s true in
  let! remote := unwrap (ri_remote s) in
  let! r := spk_verify dsa_verify (signing_key_ remote) msg sig in
  cret (match r with Ok _ => true | Err _ => false end).

(** ** Bob *)

Inductive IBHandshakeState :=
| IbSessionRequest
| IbSessionCreated (item : option HandshakeFrame) (timer : Z)
| IbSessionConfirmA (timer : Z)
| IbSessionConfirmB (item : option HandshakeFrame).

Record IBHandshake := mkIBHandshake {
  ib_shared : SharedHandshakeState;
  ib_conn : Framed InboundHandshakeCodec;
  ib_state : IBHandshakeState
}.

(** [draw]: the random bytes of the DH key *)
Definition IBHandshake_new (draw : bytes) (own_ri : RouterIdentity) (own_key : SigningPrivateKey) : outcome IBHandshake :=
  let dh_key_builder := DHSessionKeyBuilder_new draw in
  let! dh_y := get_pub dh_key_builder in
  let! iv_enc := copy_block (zdrop (len dh_y - AES_BLOCK_SIZE) dh_y) in
  Ret (mkIBHandshake (mkShared own_ri own_key None [] dh_y 0 0)
         (framed (InboundHandshakeCodec_new dh_key_builder iv_enc)) IbSessionRequest).

(** One round of [IBHandshake::poll]: the handshake, the bytes that are left to
    read, the bytes written. *)
Definition ib_step (clk : HsClock) (env : IoEnv) : Round IBHandshake (RouterIdentity * Framed Codec) HsError := fun h inp =>
  let s := ib_shared h in
  match ib_state h with
  | IbSessionRequest =>
      let! (conn, inp, r) := try_poll is_session_request env (ib_conn h) inp in
      let stay := mkIBHandshake s conn IbSessionRequest in
      match r with
      | NotReady => cret (stay, inp, [], Pending)
      | PollErr e => cret (stay, inp, [], Failed e)
      | Ready sr =>
          let* hb := RouterIdentity_hash (own_ri s) in
          if decide (Hash_xor (Hash_digest (sr_dh_x sr)) hb = sr_hash sr) then
            let! ts_b := timestamp (ck_timer clk) in
            let s := mkShared (own_ri s) (own_key s) (ri_remote s) (sr_dh_x sr) (dh_y s) (ts_a s) ts_b in
            let f := HfSessionCreated (mkSessionCreated (dh_y s) (Hash_digest (dh_x s ++ dh_y s)) ts_b) in
            cret (mkIBHandshake s conn (IbSessionCreated (Some f) (ck_timer clk)), inp, [], Again)
          else cret (stay, inp, [], Failed HeHash)
      end
  | IbSessionCreated item timer =>
      let! (conn, out, r) := send_poll inbound_encode env (ib_conn h) item in
      cret (match r with
            | Ready _ => (mkIBHandshake s conn (IbSessionConfirmA timer), inp, out, Again)
            | NotReady => (mkIBHandshake s conn (IbSessionCreated None timer), inp, out, Pending)
            | PollErr e => (mkIBHandshake s conn (IbSessionCreated None timer), inp, out, Failed (HeConn e))
            end)
  | IbSessionConfirmA timer =>
      let! (conn, inp, r) := try_poll is_session_confirm_a env (ib_conn h) inp in
      let stay := mkIBHandshake s conn (IbSessionConfirmA timer) in
      match r with
      | NotReady => cret (stay, inp, [], Pending)
      | PollErr e => cret (stay, inp, [], Failed e)
      | Ready sca =>
          let! _ := elapsed timer (ck_later clk) in
          let s := mkShared (own_ri s) (own_key s) (Some (sca_ri_a sca)) (dh_x s) (dh_y s) (sca_ts_a sca) (ts_b s) in
          let* valid := verify_remote s (sca_sig sca) in
          if (valid : bool) then
            let* msg := session_confirm_sig_msg s false in
            let! sig := ssk_sign (own_key s) msg in
            match sig with
            | Ok sig =>
                cret (mkIBHandshake s conn (IbSessionConfirmB (Some (HfSessionConfirmB (mkSessionConfirmB sig)))), inp, [], Again)
            | Err _ => cret (mkIBHandshake s conn (IbSessionConfirmA timer), inp, [], Failed HeSign)
            end
          else cret (mkIBHandshake s conn (IbSessionConfirmA timer), inp, [], Failed HeSignature)
      end
  | IbSessionConfirmB item =>
      let! (conn, out, r) := send_poll inbound_encode env (ib_conn h) item in
      let stay := mkIBHandshake s conn (IbSessionConfirmB None) in
      match r with
      | Ready _ =>
          let! remote := unwrap (ri_remote s) in
          let! conn := transmute_framed inbound_codec conn in
          cret (stay, inp, out, Finished (remote, conn))
      | NotReady => cret (stay, inp, out, Pending)
      | PollErr e => cret (stay, inp, out, Failed (HeConn e))
      end
  end.

(** ** Alice *)

Inductive OBHandshakeState :=
| ObSessionRequest (item : option HandshakeFrame) (timer : Z)
| ObSessionCreated (timer : Z)
| ObSessionConfirmA (item : option HandshakeFrame)
| ObSessionConfirmB.

Record OBHandshake := mkOBHandshake {
  ob_shared : SharedHandshakeState;
  ob_conn : Framed OutboundHandshakeCodec;
  ob_state : OBHandshakeState
}.

Definition OBHandshake_new (clk : HsClock) (draw : bytes) (own_ri : RouterIdentity) (own_key : SigningPrivateKey)
    (ri_remote : RouterIdentity) : comp OBHandshake :=
  let dh_key_builder := DHSessionKeyBuilder_new draw in
  let! dh_x := get_pub dh_key_builder in
  let* hb := RouterIdentity_hash ri_remote in
  let hxxorhb := Hash_xor (Hash_digest dh_x) hb in
  let! iv_enc := copy_block (zdrop AES_BLOCK_SIZE (hash_bytes hxxorhb)) in
  let sr := HfSessionRequest (mkSessionRequest dh_x hxxorhb) in
  cret (mkOBHandshake (mkShared own_ri own_key (Some ri_remote) dh_x [] 0 0)
          (framed (OutboundHandshakeCodec_new dh_key_builder iv_enc ri_remote)) (ObSessionRequest (Some sr) (ck_timer clk))).

(** one round of [OBHandshake::poll] *)
Definition ob_step (clk : HsClock) (env : IoEnv) : Round OBHandshake (RouterIdentity * Framed Codec) HsError := fun h inp =>
  let s := ob_shared h in
  match ob_state h with
  | ObSessionRequest item timer =>
      let! (conn, out, r) := send_poll outbound_encode env (ob_conn h) item in
      cret (match r with
            | Ready _ => (mkOBHandshake s conn (ObSessionCreated timer), inp, out, Again)
            | NotReady => (mkOBHandshake s conn (ObSessionRequest None timer), inp, out, Pending)
            | PollErr e => (mkOBHandshake s conn (ObSessionRequest None timer), inp, out, Failed (HeConn e))
            end)
  | ObSessionCreated timer =>
      let! (conn, inp, r) := try_poll is_session_created env (ob_conn h) inp in
      let stay := mkOBHandshake s conn (ObSessionCreated timer) in
      match r with
      | NotReady => cret (stay, inp, [], Pending)
      | PollErr e => cret (stay, inp, [], Failed e)
      | Ready scr =>
          let! _ := elapsed timer (ck_later clk) in
          let! ts_a := timestamp (ck_now clk) in
          let s := mkShared (own_ri s) (own_key s) (ri_remote s) (dh_x s) (sc_dh_y scr) ts_a (sc_ts_b scr) in
          let* msg := session_confirm_sig_msg s false in
          if len msg <? 512 then Panic
          else if decide (Hash_digest (ztake 512 msg) = sc_hash scr) then
            let! sig := ssk_sign (own_key s) msg in
            match sig with
            | Ok sig =>
                let f := HfSessionConfirmA (mkSessionConfirmA (own_ri s) ts_a sig) in
                cret (mkOBHandshake s conn (ObSessionConfirmA (Some f)), inp, [], Again)
            | Err _ => cret (mkOBHandshake s conn (ObSessionCreated timer), inp, [], Failed HeSign)
            end
          else cret (mkOBHandshake s conn (ObSessionCreated timer), inp, [], Failed HeHash)
      end
  | ObSessionConfirmA item =>
      let! (conn, out, r) := send_poll outbound_encode env (ob_conn h) item in
      cret (match r with
            | Ready _ => (mkOBHandshake s conn ObSessionConfirmB, inp, out, Again)
            | NotReady => (mkOBHandshake s conn (ObSessionConfirmA None), inp, out, Pending)
            | PollErr e => (mkOBHandshake s conn (ObSessionConfirmA None), inp, out, Failed (HeConn e))
            end)
  | ObSessionConfirmB =>
      let! (conn, inp, r) := try_poll is_session_confirm_b env (ob_conn h) inp in
      let stay := mkOBHandshake s conn ObSessionConfirmB in
      match r with
      | NotReady => cret (stay, inp, [], Pending)
      | PollErr e => cret (stay, inp, [], Failed e)
      | Ready scb =>
          let* valid := verify_remote s (scb_sig scb) in
          if (valid : bool) then
            let! remote := unwrap (ri_remote s) in
            let! conn := transmute_framed outbound_codec conn in
            cret (stay, inp, [], Finished (remote, conn))
          else cret (stay, inp, [], Failed HeSignature)
      end
  end.

(** ** What a round keeps up, whatever arrives *)

Lemma sig_msg_signed s own msg : session_confirm_sig_msg s own = cret msg ->
  exists ri h, (if own then Ret (own_ri s) else unwrap (ri_remote s)) = Ret ri /\ RouterIdentity_hash ri = cret h /\
    msg = sig_msg (dh_x s) (dh_y s) h (ts_a s) (ts_b s).
Proof.
  unfold session_confirm_sig_msg. destruct (if own then _ else _) as [ri|]; cbn [obind]; [|done].
  destruct (RouterIdentity_hash ri) as [[h|]|] eqn:Eh; cbn [cbind]; try done.
  intros H. exists ri, h. split; [done|]. split; [done|]. eapply serialize_sound; [apply writes_sig_msg|exact H].
Qed.

(** [remote] signed, for [own], the exchange of [x] and [y] *)
Definition signed_for (own remote : RouterIdentity) (x y : bytes) : Prop :=
  exists h ts_a ts_b sig, RouterIdentity_hash own = cret h /\
    spk_verify dsa_verify (signing_key_ remote) (sig_msg x y h ts_a ts_b) sig = Ret (Ok tt).

Lemma verify_remote_signed s sig : verify_remote s sig = cret true ->
  exists remote, ri_remote s = Some remote /\ signed_for (own_ri s) remote (dh_x s) (dh_y s).
Proof.
  unfold verify_remote. destruct (session_confirm_sig_msg s true) as [[msg|]|] eqn:Em; cbn [cbind]; try done.
  destruct (sig_msg_signed s true msg Em) as (ri & h & [= <-] & Hh & ->).
  destruct (ri_remote s) as [remote|]; cbn [unwrap obind]; [|done].
  destruct (spk_verify _ _ _ _) as [[[]|e]|] eqn:Ev; cbn [obind]; try done.
  intros _. exists remote. split; [done|]. by exists h, (ts_a s), (ts_b s), sig.
Qed.

Lemma try_poll_keeps {C A} {codec : FramedCodec C HandshakeFrame HsCodecError} (expected : HandshakeFrame -> option A)
    (inv : C -> Prop) (post : C -> HandshakeFrame -> Prop) env conn inp conn' inp' r :
  (forall c buf c' buf' r, inv c -> decode c buf = Ret (c', buf', r) -> inv c' /\ forall f, r = Ok (Some f) -> post c' f) ->
  inv (fr_codec conn) -> try_poll expected env conn inp = Ret (conn', inp', r) ->
  inv (fr_codec conn') /\ forall v, r = Ready v -> exists f, expected f = Some v /\ post (fr_codec conn') f.
Proof.
  intros Hd Hi. unfold try_poll. destruct (stream_poll _ _ _ _) as [[[conn1 inp1] r1]|] eqn:E; cbn [obind]; [|done].
  destruct (stream_poll_keeps inv post Hd _ _ _ _ _ _ _ Hi E) as [H1 H2]. intros [= <- _ <-]. split; [done|].
  intros v Hv. destruct r1 as [[f|]| |e]; try done. destruct (expected f) as [a|] eqn:Ef; [|done].
  injection Hv as ->. exists f. split; [done|]. by apply H2.
Qed.

(** *** Bob *)

Section Bob.
Context (own : RouterIdentity) (dh : DHSessionKeyBuilder) (y : bytes).

(** once Alice's value is known, it is what the codec's key comes from; once she
    is known, she has signed *)
Definition ib_inv (h : IBHandshake) : Prop :=
  let s := ib_shared h in
  let c := fr_codec (ib_conn h) in
  own_ri s = own /\ dh_y s = y /\ ic_dh c = dh /\
  match ib_state h with
  | IbSessionRequest => True
  | IbSessionCreated (Some f) _ => ic_dh_x c = dh_x s /\ len (dh_x s) = 256 /\ exists scr, f = HfSessionCreated scr
  | IbSessionCreated None _ | IbSessionConfirmA _ => len (dh_x s) = 256 /\ agreed_key dh (dh_x s) (ic_aes c)
  | IbSessionConfirmB item => len (dh_x s) = 256 /\ agreed_key dh (dh_x s) (ic_aes c) /\
      (exists remote, ri_remote s = Some remote /\ signed_for own remote (dh_x s) y) /\
      forall f, item = Some f -> exists scb, f = HfSessionConfirmB scb
  end.

Ltac ib_keeps := unfold round_keeps, ib_inv; cbn [ib_shared ib_conn ib_state own_ri own_key ri_remote dh_x dh_y]; split_and!; try done.

Definition ib_post (r : RouterIdentity * Framed Codec) : Prop :=
  exists x, len x = 256 /\ signed_for own r.1 x y /\ build_session_key dh x = Ret (aes_key (aes (fr_codec r.2))).

Lemma ib_step_keeps clk env h inp h' inp' out s : ib_inv h -> ib_step clk env h inp = cret (h', inp', out, s) ->
  round_keeps ib_inv ib_post s h'.
Proof.
  intros (Ho & Hy & Hd & Hst). unfold ib_step. destruct (ib_state h) as [|item t|t|item] eqn:Es.
  - destruct (try_poll _ _ _ _) as [[[conn inp1] r]|] eqn:E; cbn [obind]; [|done].
    destruct (try_poll_keeps is_session_request (fun c => ic_dh c = dh) (fun c f => forall sr, f = HfSessionRequest sr ->
      ic_dh_x c = sr_dh_x sr /\ len (sr_dh_x sr) = 256) _ _ _ _ _ _
      ltac:(intros c buf c' buf' o Hc Hdec; destruct (inbound_decode_keeps _ _ _ _ _ Hdec) as (H1 & _ & H3);
        split; [by rewrite H1|intros f Ef sr ->; by apply H3]) Hd E) as [Hd' Hf].
    destruct r as [sr| |e]; [|by intros [= <- _ _ <-]..].
    destruct (Hf sr eq_refl) as (f & Ef & Hx). destruct f as [sr'| | |]; try done. injection Ef as ->.
    destruct (Hx sr eq_refl) as [Hx1 Hx2].
    destruct (RouterIdentity_hash _) as [[hb|]|]; cbn [cbind]; try done.
    destruct (decide _); [|by intros [= <- _ _ <-]]. destruct (timestamp _) as [ts|]; cbn [obind]; [|done].
    intros [= <- _ _ <-]. ib_keeps. by eexists.
  - destruct (send_poll _ _ _ _) as [[[conn out1] r]|] eqn:E; cbn [obind]; [|done].
    assert ((forall e, r <> PollErr e) -> own_ri (ib_shared h) = own /\ dh_y (ib_shared h) = y /\ ic_dh (fr_codec conn) = dh /\
      len (dh_x (ib_shared h)) = 256 /\ agreed_key dh (dh_x (ib_shared h)) (ic_aes (fr_codec conn))) as Hkey.
    { intros Hr. pose proof (send_poll_codec _ _ _ _ _ _ _ E Hr) as Hc. split; [done|]. split; [done|]. destruct item as [f|].
      - destruct Hc as [wr Hc]. destruct Hst as (Hx & Hl & scr & ->).
        destruct (inbound_encode_keeps _ _ _ _ _ Hc) as (H1 & H2 & H3). rewrite Hx, Hd in H3. rewrite ztake_all in H3 by done.
        rewrite H1. by split_and!.
      - rewrite Hc. by destruct Hst. }
    destruct r as [u| |e]; [| |by intros [= <- _ _ <-]]; (intros [= <- _ _ <-]; apply Hkey; by intros).
  - destruct (try_poll _ _ _ _) as [[[conn inp1] r]|] eqn:E; cbn [obind]; [|done].
    destruct Hst as [Hl Hk].
    destruct (try_poll_keeps is_session_confirm_a (fun c => ic_dh c = dh /\ agreed_key dh (dh_x (ib_shared h)) (ic_aes c)) (fun _ _ => True)
      _ _ _ _ _ _ ltac:(intros c buf c' buf' o [Hc1 (k & Hk1 & Hk2)] Hdec; destruct (inbound_decode_keeps _ _ _ _ _ Hdec) as (H1 & H2 & _);
        split; [split; [by rewrite H1|exists k; by rewrite H2]|done]) (conj Hd Hk) E) as [[Hd' Hk'] _].
    destruct r as [sca| |e]; [|by intros [= <- _ _ <-]..].
    destruct (elapsed _ _); cbn [obind]; [|done].
    destruct (verify_remote _ _) as [[[]|]|] eqn:Ev; cbn [cbind]; try done.
    + destruct (session_confirm_sig_msg _ false) as [[msg|]|]; cbn [cbind]; try done.
      destruct (ssk_sign _ _) as [[sig|e]|]; cbn [obind]; try done; [|by intros [= <- _ _ <-]].
      destruct (verify_remote_signed _ _ Ev) as (remote & Hr & Hs). cbn [ri_remote own_ri dh_x dh_y] in *.
      intros [= <- _ _ <-]. rewrite Ho, Hy in Hs. ib_keeps; [by exists remote|]. intros f [= <-]. by eexists.
    + by intros [= <- _ _ <-].
  - destruct (send_poll _ _ _ _) as [[[conn out1] r]|] eqn:E; cbn [obind]; [|done].
    destruct Hst as (Hl & (k & Hk1 & Hk2) & Hr & Hit).
    assert ((forall e, r <> PollErr e) -> ic_dh (fr_codec conn) = dh /\ aes_key <$> ic_aes (fr_codec conn) = Some k) as Hkey.
    { intros Hne. pose proof (send_poll_codec _ _ _ _ _ _ _ E Hne) as Hc. destruct item as [f|].
      - destruct Hc as [wr Hc]. destruct (Hit f eq_refl) as [scb ->].
        destruct (inbound_encode_keeps _ _ _ _ _ Hc) as (H1 & H2 & H3). by rewrite H1, H3.
      - by rewrite Hc. }
    destruct r as [u| |e]; [| |by intros [= <- _ _ <-]].
    + destruct Hr as (remote & Hr & Hs). rewrite Hr. cbn [unwrap obind]. unfold transmute_framed, inbound_codec.
      destruct (Hkey ltac:(by intros)) as [_ Hk']. destruct (ic_aes (fr_codec conn)) as [a|]; cbn [unwrap obind]; [|done].
      intros [= _ _ _ <-]. exists (dh_x (ib_shared h)). cbn. injection Hk' as ->. by split_and!.
    + intros [= <- _ _ <-]. destruct (Hkey ltac:(by intros)) as [Hd' Hk']. ib_keeps. by exists k.
Qed.

End Bob.

(** *** Alice *)

Section Alice.
Context (own remote : RouterIdentity) (dh : DHSessionKeyBuilder) (x : bytes).

Definition ob_inv (h : OBHandshake) : Prop :=
  let s := ob_shared h in
  let c := fr_codec (ob_conn h) in
  own_ri s = own /\ ri_remote s = Some remote /\ dh_x s = x /\ oc_dh c = dh /\
  match ob_state h with
  | ObSessionRequest _ _ | ObSessionCreated _ => True
  | ObSessionConfirmA (Some f) => len (dh_y s) = 256 /\ agreed_key dh (dh_y s) (oc_aes c) /\ exists sca, f = HfSessionConfirmA sca
  | ObSessionConfirmA None | ObSessionConfirmB =>
      len (dh_y s) = 256 /\ agreed_key dh (dh_y s) (oc_aes c) /\ oc_state c <> StSessionCreated
  end.

Ltac ob_keeps := unfold round_keeps, ob_inv; cbn [ob_shared ob_conn ob_state own_ri own_key ri_remote dh_x dh_y]; split_and!; try done.

Definition ob_post (r : RouterIdentity * Framed Codec) : Prop :=
  r.1 = remote /\ exists y, len y = 256 /\ signed_for own remote x y /\ build_session_key dh y = Ret (aes_key (aes (fr_codec r.2))).

Lemma ob_step_keeps clk env h inp h' inp' out s : ob_inv h -> ob_step clk env h inp = cret (h', inp', out, s) ->
  round_keeps ob_inv ob_post s h'.
Proof.
  intros (Ho & Hr & Hx & Hd & Hst). unfold ob_step. destruct (ob_state h) as [item t|t|item|] eqn:Es.
  - destruct (send_poll _ _ _ _) as [[[conn out1] r]|] eqn:E; cbn [obind]; [|done].
    assert ((forall e, r <> PollErr e) -> oc_dh (fr_codec conn) = dh) as Hkey.
    { intros Hne. pose proof (send_poll_codec _ _ _ _ _ _ _ E Hne) as Hc. destruct item as [f|]; [|by rewrite Hc].
      destruct Hc as [wr Hc]. destruct (outbound_encode_keeps _ _ _ _ _ Hc) as (H1 & _). by rewrite H1. }
    destruct r as [u| |e]; [| |by intros [= <- _ _ <-]]; (intros [= <- _ _ <-]; ob_keeps; apply Hkey; by intros).
  - destruct (try_poll _ _ _ _) as [[[conn inp1] r]|] eqn:E; cbn [obind]; [|done].
    destruct (try_poll_keeps is_session_created (fun c => oc_dh c = dh) (fun c f => forall scr, f = HfSessionCreated scr ->
      agreed_key dh (sc_dh_y scr) (oc_aes c) /\ len (sc_dh_y scr) = 256) _ _ _ _ _ _
      ltac:(intros c buf c' buf' o Hc Hdec; destruct (outbound_decode_keeps _ _ _ _ _ Hdec) as (H1 & H2 & _); rewrite Hc in H2;
        split; [by rewrite H1|intros f Ef scr ->; by apply H2]) Hd E) as [Hd' Hf].
    destruct r as [scr| |e]; [|by intros [= <- _ _ <-]..].
    destruct (Hf scr eq_refl) as (f & Ef & Hk). destruct f as [|scr'| |]; try done. injection Ef as ->.
    destruct (Hk scr eq_refl) as [Hk1 Hk2].
    destruct (elapsed _ _); cbn [obind]; [|done]. destruct (timestamp _) as [ts|]; cbn [obind]; [|done].
    destruct (session_confirm_sig_msg _ false) as [[msg|]|]; cbn [cbind]; try done.
    destruct (len msg <? 512); [done|]. destruct (decide _); [|by intros [= <- _ _ <-]].
    destruct (ssk_sign _ _) as [[sig|e']|]; cbn [obind]; try done; [|by intros [= <- _ _ <-]].
    intros [= <- _ _ <-]. ob_keeps. by eexists.
  - destruct (send_poll _ _ _ _) as [[[conn out1] r]|] eqn:E; cbn [obind]; [|done].
    assert ((forall e, r <> PollErr e) -> oc_dh (fr_codec conn) = dh /\ len (dh_y (ob_shared h)) = 256 /\
      agreed_key dh (dh_y (ob_shared h)) (oc_aes (fr_codec conn)) /\ oc_state (fr_codec conn) <> StSessionCreated) as Hkey.
    { intros Hne. pose proof (send_poll_codec _ _ _ _ _ _ _ E Hne) as Hc. destruct item as [f|]; [|by rewrite Hc].
      destruct Hc as [wr Hc]. destruct Hst as (Hl & (k & Hk1 & Hk2) & sca & ->).
      destruct (outbound_encode_keeps _ _ _ _ _ Hc) as (H1 & H2 & H3). rewrite H1, (H3 sca eq_refl).
      split_and!; try done. exists k. by rewrite H2. }
    destruct r as [u| |e]; [| |by intros [= <- _ _ <-]]; (intros [= <- _ _ <-]; ob_keeps; apply Hkey; by intros).
  - destruct (try_poll _ _ _ _) as [[[conn inp1] r]|] eqn:E; cbn [obind]; [|done]. destruct Hst as (Hl & Hk & Hs).
    destruct (try_poll_keeps is_session_confirm_b (fun c => oc_dh c = dh /\ agreed_key dh (dh_y (ob_shared h)) (oc_aes c) /\
      oc_state c <> StSessionCreated) (fun _ _ => True)
      _ _ _ _ _ _ ltac:(intros c buf c' buf' o (Hc1 & (k & Hk1 & Hk2) & Hc2) Hdec;
        destruct (outbound_decode_keeps _ _ _ _ _ Hdec) as (H1 & _ & H3); destruct (H3 Hc2) as [H4 H5];
        split; [split; [by rewrite H1|split; [exists k; by rewrite H4|done]]|done]) (conj Hd (conj Hk Hs)) E) as [(Hd' & Hk' & Hs') _].
    destruct r as [scb| |e]; [|by intros [= <- _ _ <-]..].
    destruct (verify_remote _ _) as [[[]|]|] eqn:Ev; cbn [cbind]; try done; [|by intros [= <- _ _ <-]].
    destruct (verify_remote_signed _ _ Ev) as (remote' & Hr' & Hsig). rewrite Hr' in Hr |- *. injection Hr as ->. cbn [unwrap obind].
    unfold transmute_framed, outbound_codec. destruct Hk' as (k & Hk1 & Hk2).
    destruct (oc_aes (fr_codec conn)) as [a|]; cbn [unwrap obind]; [|done].
    intros [= _ _ _ <-]. split; [done|]. exists (dh_y (ob_shared h)). cbn. injection Hk2 as ->. rewrite Ho, Hx in Hsig. by split_and!.
Qed.

End Alice.
(** the machines as they are made *)
Lemma ob_new_keeps ck draw own key remote a0 : OBHandshake_new ck draw own key remote = cret a0 ->
  exists x, get_pub (DHSessionKeyBuilder_new draw) = Ret x /\ ob_inv own remote (DHSessionKeyBuilder_new draw) x a0.
Proof.
  unfold OBHandshake_new. generalize (DHSessionKeyBuilder_new draw) as dh. intros dh.
  destruct (get_pub dh) as [x|]; cbn [obind]; [|done]. destruct (RouterIdentity_hash remote) as [[hb|]|]; cbn [cbind]; try done.
  destruct (copy_block _) as [iv|]; cbn [obind]; [|done]. intros [= <-]. exists x. split; [done|]. unfold ob_inv. cbn. by split_and!.
Qed.

Lemma ib_new_keeps draw own key b0 : IBHandshake_new draw own key = Ret b0 ->
  exists y, get_pub (DHSessionKeyBuilder_new draw) = Ret y /\ ib_inv own (DHSessionKeyBuilder_new draw) y b0.
Proof.
  unfold IBHandshake_new. generalize (DHSessionKeyBuilder_new draw) as dh. intros dh.
  destruct (get_pub dh) as [y|]; cbn [obind]; [|done].
  destruct (copy_block _) as [iv|]; cbn [obind]; [|done]. intros [= <-]. exists y. split; [done|]. unfold ib_inv. cbn. by split_and!.
Qed.

End Machines.
