(* ===== verification/NtcpHsRun.v ===== *)
(** * Running the NTCP handshake

    Both machines of [NtcpHandshake] at the two ends of a connection.  What the
    two sides say is fixed by their keys, draws and clocks ([Script]); where each
    can be in the exchange ([alice_at], [bob_at]); that a round of either goes on
    from every such place; and that the handshake ends. *)

From S2P Require Import Prelude Nom Cookie Util Wire Crypto ElGamal Aes Data Dest I2np Message Framed Duplex.
From S2P Require Import NtcpFrame NtcpCodec NtcpHsFrame NtcpHsCodec NtcpHandshake.

Section Run.
Context {nom : Nom} {cf : CookieFactory} {bu : BigUintOps} {sc : SigCrates} {sha : Sha2} {aes_crate : AesCrate} {grp : DhGroup}.
Context (dsa_verify : DsaPublicKey -> bytes -> DsaSignature -> bool).

(** A round goes to the next state or to itself, so six are enough. *)
Definition ntcp_run (ca cb : HsClock) := net_run (ob_step dsa_verify ca) (ib_step dsa_verify cb) 6.

(** ** The exchange *)

(** The codecs of both sides after each frame, and the frames with their bytes:
    what is encoded is what the other side reads. *)
Record CodecScript (fr : SessionRequest) (fc : SessionCreated) (fa : SessionConfirmA) (fb : SessionConfirmB)
    (m1 m2 m3 m4 : bytes) (oc0 : OutboundHandshakeCodec) (ic0 : InboundHandshakeCodec) (aa ab : Aes256) := {
  oc1 : OutboundHandshakeCodec; oc2 : OutboundHandshakeCodec; oc3 : OutboundHandshakeCodec; oc4 : OutboundHandshakeCodec;
  ic1 : InboundHandshakeCodec; ic2 : InboundHandshakeCodec; ic3 : InboundHandshakeCodec; ic4 : InboundHandshakeCodec;
  wait3 : InboundHandshakeCodec -> bytes -> bytes -> Prop;
  wait4 : OutboundHandshakeCodec -> bytes -> bytes -> Prop;

  cs_e1 : outbound_encode oc0 (HfSessionRequest fr) [] = Ret (oc1, m1, Ok tt);
  cs_r1 : reads_one (codec := inbound_decode) (HfSessionRequest fr) (fun unread => len m3 < len unread)
    (fun c rd unread => c = ic0 /\ rd ++ unread = m1 ++ m3) (fun c rd unread => c = ic1 /\ rd ++ unread = m3);
  cs_e2 : inbound_encode ic1 (HfSessionCreated fc) [] = Ret (ic2, m2, Ok tt);
  cs_r2 : reads_one (codec := outbound_decode) (HfSessionCreated fc) (fun unread => len m4 < len unread)
    (fun c rd unread => c = oc1 /\ rd ++ unread = m2 ++ m4) (fun c rd unread => c = oc2 /\ rd ++ unread = m4);
  cs_e3 : outbound_encode oc2 (HfSessionConfirmA fa) [] = Ret (oc3, m3, Ok tt);
  cs_w3 : forall rd unread, rd ++ unread = m3 -> wait3 ic2 rd unread;
  cs_r3 : reads_one (codec := inbound_decode) (HfSessionConfirmA fa) (fun unread => unread <> [])
    wait3 (fun c rd unread => c = ic3 /\ rd = [] /\ unread = []);
  cs_e4 : inbound_encode ic3 (HfSessionConfirmB fb) [] = Ret (ic4, m4, Ok tt);
  cs_w4 : forall rd unread, rd ++ unread = m4 -> wait4 oc3 rd unread;
  cs_r4 : reads_one (codec := outbound_decode) (HfSessionConfirmB fb) (fun unread => unread <> [])
    wait4 (fun c rd unread => c = oc4 /\ rd = [] /\ unread = []);
  cs_oc4 : outbound_codec oc4 = Ret (mkCodec aa 0);
  cs_ic4 : inbound_codec ic4 = Ret (mkCodec ab 0);
  cs_l1 : 0 < len m1 <= NTCP_MTU; cs_l2 : 0 < len m2 <= NTCP_MTU; cs_l3 : 0 < len m3 <= NTCP_MTU; cs_l4 : 0 < len m4 <= NTCP_MTU
}.

(** what both say and sign *)
Record Words (ck_a ck_b : HsClock) (ra rb : RouterIdentity) (ka kb : SigningPrivateKey) (x y : bytes) (ha hb : Hash)
    (tsa tsb : Z) (sga sgb : Signature) : Prop := {
  wd_hash_a : RouterIdentity_hash ra = cret ha;
  wd_hash_b : RouterIdentity_hash rb = cret hb;
  wd_msg_b : serialize (gen_session_confirm_sig_msg x y hb tsa tsb) = cret (sig_msg x y hb tsa tsb);
  wd_msg_a : serialize (gen_session_confirm_sig_msg x y ha tsa tsb) = cret (sig_msg x y ha tsa tsb);
  wd_xy : len (x ++ y) = 512;
  wd_sign_a : ssk_sign ka (sig_msg x y hb tsa tsb) = Ret (Ok sga);
  wd_sign_b : ssk_sign kb (sig_msg x y ha tsa tsb) = Ret (Ok sgb);
  wd_verify_a : spk_verify dsa_verify (signing_key_ ra) (sig_msg x y hb tsa tsb) sga = Ret (Ok tt);
  wd_verify_b : spk_verify dsa_verify (signing_key_ rb) (sig_msg x y ha tsa tsb) sgb = Ret (Ok tt);
  wd_ts_a : timestamp (ck_now ck_a) = Ret tsa;
  wd_ts_b : timestamp (ck_timer ck_b) = Ret tsb;
  wd_later_a : ck_timer ck_a <= ck_later ck_a;
  wd_later_b : ck_timer ck_b <= ck_later ck_b
}.

Section Exchange.
Context (ck_a ck_b : HsClock) (ra rb : RouterIdentity) (ka kb : SigningPrivateKey) (x y : bytes) (ha hb : Hash)
  (tsa tsb : Z) (sga sgb : Signature) (m1 m2 m3 m4 : bytes) (oc0 : OutboundHandshakeCodec) (ic0 : InboundHandshakeCodec)
  (aa ab : Aes256).

Let hx : Hash := Hash_xor (Hash_digest x) hb.
Let sr : SessionRequest := mkSessionRequest x hx.
Let scr : SessionCreated := mkSessionCreated y (Hash_digest (x ++ y)) tsb.
Let sca : SessionConfirmA := mkSessionConfirmA ra tsa sga.
Let scb : SessionConfirmB := mkSessionConfirmB sgb.

Context (wd : Words ck_a ck_b ra rb ka kb x y ha hb tsa tsb sga sgb).
Context (cs : CodecScript sr scr sca scb m1 m2 m3 m4 oc0 ic0 aa ab).

Notation "'at' f" := (f _ _ _ _ _ _ _ _ _ _ _ _ cs) (at level 10, f at level 9).

Let result_a : RouterIdentity * Framed Codec := (rb, mkFramed (mkCodec aa 0) [] false []).
Let result_b : RouterIdentity * Framed Codec := (ra, mkFramed (mkCodec ab 0) [] false []).

Definition alice_shared (dh_y : bytes) (ts_a ts_b : Z) : SharedHandshakeState := mkShared ra ka (Some rb) x dh_y ts_a ts_b.
Definition bob_shared (remote : option RouterIdentity) (dh_x : bytes) (ts_a ts_b : Z) : SharedHandshakeState :=
  mkShared rb kb remote dh_x y ts_a ts_b.

(** where Alice is: what she will still write, what she will still read *)
Inductive alice_at : nat -> OBHandshake -> bytes -> bytes -> Prop :=
| A0 conn item rem : sending outbound_encode conn item (at oc1) rem -> len rem <= len m1 ->
    fr_rd conn = [] -> fr_readable conn = false ->
    alice_at 3 (mkOBHandshake (alice_shared [] 0 0) conn (ObSessionRequest item (ck_timer ck_a))) (rem ++ m3) (m2 ++ m4)
| A1 conn unread : fr_wr conn = [] ->
    conn_waits (fun u => len m4 < len u) (fun c rd u => c = at oc1 /\ rd ++ u = m2 ++ m4) conn unread ->
    alice_at 2 (mkOBHandshake (alice_shared [] 0 0) conn (ObSessionCreated (ck_timer ck_a))) m3 unread
| A2 conn item rem unread : sending outbound_encode conn item (at oc3) rem -> len rem <= len m3 ->
    fr_rd conn ++ unread = m4 -> fr_readable conn = true ->
    alice_at 1 (mkOBHandshake (alice_shared y tsa tsb) conn (ObSessionConfirmA item)) rem unread
| A3 conn unread : fr_wr conn = [] -> conn_waits (fun u => u <> []) (at wait4) conn unread ->
    alice_at 0 (mkOBHandshake (alice_shared y tsa tsb) conn ObSessionConfirmB) [] unread.

(** and Bob *)
Inductive bob_at : nat -> IBHandshake -> bytes -> bytes -> Prop :=
| B0 conn unread : fr_wr conn = [] ->
    conn_waits (fun u => len m3 < len u) (fun c rd u => c = ic0 /\ rd ++ u = m1 ++ m3) conn unread ->
    bob_at 3 (mkIBHandshake (bob_shared None [] 0 0) conn IbSessionRequest) (m2 ++ m4) unread
| B1 conn item rem unread : sending inbound_encode conn item (at ic2) rem -> len rem <= len m2 ->
    fr_rd conn ++ unread = m3 -> fr_readable conn = true ->
    bob_at 2 (mkIBHandshake (bob_shared None x 0 tsb) conn (IbSessionCreated item (ck_timer ck_b))) (rem ++ m4) unread
| B2 conn unread : fr_wr conn = [] -> conn_waits (fun u => u <> []) (at wait3) conn unread ->
    bob_at 1 (mkIBHandshake (bob_shared None x 0 tsb) conn (IbSessionConfirmA (ck_timer ck_b))) m4 unread
| B3 conn item rem : sending inbound_encode conn item (at ic4) rem -> len rem <= len m4 -> fr_rd conn = [] ->
    bob_at 0 (mkIBHandshake (bob_shared (Some ra) x tsa tsb) conn (IbSessionConfirmB item)) rem [].

(** a poll without faults, and one with room for everything *)
Definition env_ok (env : IoEnv) : Prop := io_fault env = false /\ io_eof env = false.
Definition env_room (env : IoEnv) : Prop := NTCP_MTU <= io_room env.

Definition alice_stuck (fut fb : bytes) : Prop := (fut = m3 /\ len m4 < len fb) \/ (fut = [] /\ fb <> []).
Definition bob_stuck (fut fa : bytes) : Prop := (fut = m2 ++ m4 /\ len m3 < len fa) \/ (fut = m4 /\ fa <> []).

(** with all that the other will write, neither is stuck *)
Lemma alice_unstuck f : ~ alice_stuck f [].
Proof.
  unfold alice_stuck. change (len (@nil Z)) with 0. pose proof (len_nonneg m4). intros [[_ Hl]|[_ Hne]]; [lia|done].
Qed.

Lemma bob_unstuck f : ~ bob_stuck f [].
Proof.
  unfold bob_stuck. change (len (@nil Z)) with 0. pose proof (len_nonneg m3). intros [[_ Hl]|[_ Hne]]; [lia|done].
Qed.

(** reading a frame: it is not there yet, or it is *)
Lemma try_poll_reads {C A} {codec : FramedCodec C HandshakeFrame HsCodecError} (expected : HandshakeFrame -> option A) f v short
    wait got env conn inp fb :
  reads_one f short wait got -> expected f = Some v -> env_ok env -> conn_waits short wait conn (inp ++ fb) -> fr_wr conn = [] ->
  (exists conn', try_poll expected env conn inp = Ret (conn', [], NotReady) /\ conn_waits short wait conn' fb /\ fr_wr conn' = [] /\ short fb) \/
  (exists conn' inp', try_poll expected env conn inp = Ret (conn', inp', Ready v) /\ got (fr_codec conn') (fr_rd conn') (inp' ++ fb) /\
     fr_wr conn' = [] /\ fr_readable conn' = true).
Proof.
  intros Hr He [Hf Heof] Hw Hwr. unfold try_poll.
  destruct (stream_poll_reads f short wait got env fb (S (length inp)) Hr Hf Heof conn inp (Nat.lt_succ_diag_r _) Hw)
    as [(conn' & -> & H & Hwr' & Hs)|(conn' & inp' & -> & H & Hwr' & Hs)]; cbn [obind]; rewrite Hwr in Hwr'.
  - left. exists conn'. by split_and!.
  - right. exists conn', inp'. rewrite He. by split_and!.
Qed.

(** the first 512 bytes of what is signed *)
Lemma sig_msg_front h t u : len (x ++ y) = 512 -> (len (sig_msg x y h t u) <? 512) = false /\ ztake 512 (sig_msg x y h t u) = x ++ y.
Proof.
  intros Hl. unfold sig_msg. rewrite app_assoc. split; [|by apply ztake_app].
  apply Z.ltb_ge. rewrite len_app, Hl. match goal with |- _ <= _ + len ?t => pose proof (len_nonneg t) end. lia.
Qed.

Lemma ntcp_alice_round k h fut unread inp fb env :
  alice_at k h fut unread -> inp ++ fb = unread -> env_ok env ->
  exists h' inp' out s, ob_step dsa_verify ck_a env h inp = cret (h', inp', out, s) /\
    round_ok alice_at result_a (env_room env) alice_stuck k fut unread fb h' inp' out s.
Proof.
  intros Ha Hi Henv. pose proof (at cs_l1). pose proof (at cs_l3). pose proof (at cs_l4). unfold ob_step, env_room.
  destruct Ha as [conn item rem Hs Hrem Hrd Hfr|conn unread Hwr Hw|conn item rem unread Hs Hrem Hrd Hfr|conn unread Hwr Hw];
    cbn [ob_shared ob_conn ob_state].
  - destruct (send_poll_sending outbound_encode env conn item _ _ Hs (proj1 Henv)) as [->|(b & rem' & -> & E & Hroom & Hl)];
      cbn [obind]; eexists _, _, _, _; (split; [done|]).
    + exists 2%nat, m3, (m2 ++ m4). split; [lia|]. split; [|done]. apply A1; [done|]. cbn [fr_codec fr_rd].
      rewrite Hrd. split; [done|]. intros _. apply len_more. intros Em. destruct (at cs_l2) as [Hz _]. apply (f_equal len) in Em. change (len (@nil Z)) with 0 in Em. lia.
    + exists ((b :: rem') ++ m3), (m2 ++ m4). split; [apply A0; [by split|lia|done|done]|]. split; [by rewrite app_assoc, E|]. split; [done|]. lia.
  - rewrite <- Hi in Hw.
    destruct (try_poll_reads is_session_created _ scr _ _ _ env conn inp fb (at cs_r2) eq_refl Henv Hw Hwr)
      as [(conn' & -> & Hw' & Hwr' & Hsh)|(conn' & inp' & -> & [Hc Hrd] & Hwr' & Hfr)]; cbn [obind].
    + eexists _, _, _, _. split; [done|]. exists m3, fb. split; [by apply A1|]. split; [done|]. split; [done|]. by left.
    + rewrite (elapsed_ok _ _ (wd_later_a _ _ _ _ _ _ _ _ _ _ _ _ _ _ wd)). cbn [obind].
      rewrite (wd_ts_a _ _ _ _ _ _ _ _ _ _ _ _ _ _ wd). cbn [obind scr sc_dh_y sc_ts_b sc_hash own_ri own_key ri_remote dh_x alice_shared].
      unfold session_confirm_sig_msg. cbn [own_ri ri_remote dh_x dh_y ts_a ts_b unwrap obind].
      rewrite (wd_hash_b _ _ _ _ _ _ _ _ _ _ _ _ _ _ wd). cbn [cret cbind].
      rewrite (wd_msg_b _ _ _ _ _ _ _ _ _ _ _ _ _ _ wd). cbn [cret cbind].
      pose proof (wd_xy _ _ _ _ _ _ _ _ _ _ _ _ _ _ wd) as Hxy.
      destruct (sig_msg_front hb tsa tsb Hxy) as [-> ->]. rewrite decide_True by done.
      rewrite (wd_sign_a _ _ _ _ _ _ _ _ _ _ _ _ _ _ wd). cbn [obind].
      eexists _, _, _, _. split; [done|]. exists 1%nat, m3, (inp' ++ fb). split; [lia|]. split; [|done].
      apply A2; [|done|done|done]. split; [done|]. rewrite Hc. exact (at cs_e3).
  - destruct (send_poll_sending outbound_encode env conn item _ _ Hs (proj1 Henv)) as [->|(b & rem' & -> & E & Hroom & Hl)];
      cbn [obind]; eexists _, _, _, _; (split; [done|]).
    + exists 0%nat, [], unread. split; [lia|]. split; [|by rewrite app_nil_r]. apply A3; [done|]. split; [by apply (at cs_w4)|].
      cbn [fr_readable]. by rewrite Hfr.
    + exists (b :: rem'), unread. split; [apply A2; [by split|lia|done|done]|]. split; [done|]. split; [done|]. lia.
  - rewrite <- Hi in Hw.
    destruct (try_poll_reads is_session_confirm_b _ scb _ _ _ env conn inp fb (at cs_r4) eq_refl Henv Hw Hwr)
      as [(conn' & -> & Hw' & Hwr' & Hsh)|(conn' & inp' & -> & (Hc & Hrd & Hnil) & Hwr' & Hfr)]; cbn [obind].
    + eexists _, _, _, _. split; [done|]. exists [], fb. split; [by apply A3|]. split; [done|]. split; [done|]. by right.
    + unfold verify_remote, session_confirm_sig_msg. cbn [own_ri ri_remote dh_x dh_y ts_a ts_b unwrap obind alice_shared].
      rewrite (wd_hash_a _ _ _ _ _ _ _ _ _ _ _ _ _ _ wd). cbn [cret cbind].
      rewrite (wd_msg_a _ _ _ _ _ _ _ _ _ _ _ _ _ _ wd). cbn [cret cbind scb scb_sig].
      rewrite (wd_verify_b _ _ _ _ _ _ _ _ _ _ _ _ _ _ wd). cbn [obind cret cbind].
      unfold transmute_framed. rewrite Hc, (at cs_oc4), Hrd, Hwr'. cbn [obind].
      eexists _, _, _, _. split; [done|]. by split_and!.
Qed.

Lemma ntcp_bob_round k h fut unread inp fb env :
  bob_at k h fut unread -> inp ++ fb = unread -> env_ok env ->
  exists h' inp' out s, ib_step dsa_verify ck_b env h inp = cret (h', inp', out, s) /\
    round_ok bob_at result_b (env_room env) bob_stuck k fut unread fb h' inp' out s.
Proof.
  intros Hb Hi Henv. pose proof (at cs_l2). pose proof (at cs_l3). pose proof (at cs_l4). unfold ib_step, env_room.
  destruct Hb as [conn unread Hwr Hw|conn item rem unread Hs Hrem Hrd Hfr|conn unread Hwr Hw|conn item rem Hs Hrem Hrd];
    cbn [ib_shared ib_conn ib_state].
  - rewrite <- Hi in Hw.
    destruct (try_poll_reads is_session_request _ sr _ _ _ env conn inp fb (at cs_r1) eq_refl Henv Hw Hwr)
      as [(conn' & -> & Hw' & Hwr' & Hsh)|(conn' & inp' & -> & [Hc Hrd] & Hwr' & Hfr)]; cbn [obind].
    + eexists _, _, _, _. split; [done|]. exists (m2 ++ m4), fb. split; [by apply B0|]. split; [done|]. split; [done|]. by left.
    + cbn [own_ri bob_shared]. rewrite (wd_hash_b _ _ _ _ _ _ _ _ _ _ _ _ _ _ wd). cbn [cret cbind sr sr_dh_x sr_hash].
      rewrite decide_True by done. rewrite (wd_ts_b _ _ _ _ _ _ _ _ _ _ _ _ _ _ wd). cbn [obind].
      cbn [own_ri own_key ri_remote dh_x dh_y ts_a].
      eexists _, _, _, _. split; [done|]. exists 2%nat, (m2 ++ m4), (inp' ++ fb). split; [lia|]. split; [|done].
      apply B1; [|done|done|done]. split; [done|]. rewrite Hc. exact (at cs_e2).
  - destruct (send_poll_sending inbound_encode env conn item _ _ Hs (proj1 Henv)) as [->|(b & rem' & -> & E & Hroom & Hl)];
      cbn [obind]; eexists _, _, _, _; (split; [done|]).
    + exists 1%nat, m4, unread. split; [lia|]. split; [|done]. apply B2; [done|]. split; [by apply (at cs_w3)|].
      cbn [fr_readable]. by rewrite Hfr.
    + exists ((b :: rem') ++ m4), unread. split; [apply B1; [by split|lia|done|done]|]. split; [by rewrite app_assoc, E|]. split; [done|]. lia.
  - rewrite <- Hi in Hw.
    destruct (try_poll_reads is_session_confirm_a _ sca _ _ _ env conn inp fb (at cs_r3) eq_refl Henv Hw Hwr)
      as [(conn' & -> & Hw' & Hwr' & Hsh)|(conn' & inp' & -> & (Hc & Hrd & Hnil) & Hwr' & Hfr)]; cbn [obind].
    + eexists _, _, _, _. split; [done|]. exists m4, fb. split; [by apply B2|]. split; [done|]. split; [done|]. by right.
    + rewrite (elapsed_ok _ _ (wd_later_b _ _ _ _ _ _ _ _ _ _ _ _ _ _ wd)). cbn [obind].
      unfold verify_remote, session_confirm_sig_msg.
      cbn [own_ri own_key ri_remote dh_x dh_y ts_a ts_b unwrap obind bob_shared sca sca_ri_a sca_ts_a sca_sig].
      rewrite (wd_hash_b _ _ _ _ _ _ _ _ _ _ _ _ _ _ wd), (wd_hash_a _ _ _ _ _ _ _ _ _ _ _ _ _ _ wd). cbn [cret cbind].
      rewrite (wd_msg_b _ _ _ _ _ _ _ _ _ _ _ _ _ _ wd), (wd_msg_a _ _ _ _ _ _ _ _ _ _ _ _ _ _ wd). cbn [cret cbind].
      rewrite (wd_verify_a _ _ _ _ _ _ _ _ _ _ _ _ _ _ wd). cbn [obind cret cbind].
      rewrite (wd_sign_b _ _ _ _ _ _ _ _ _ _ _ _ _ _ wd). cbn [obind].
      eexists _, _, _, _. split; [done|]. exists 0%nat, m4, []. split; [lia|]. split; [|done].
      apply B3; [|done|done]. split; [done|]. rewrite Hc. exact (at cs_e4).
  - apply app_nil in Hi as [-> ->].
    destruct (send_poll_sending inbound_encode env conn item _ _ Hs (proj1 Henv)) as [->|(b & rem' & -> & E & Hroom & Hl)]; cbn [obind].
    + cbn [ri_remote bob_shared unwrap obind]. unfold transmute_framed. cbn [fr_codec fr_rd fr_wr].
      rewrite (at cs_ic4), Hrd. cbn [obind]. eexists _, _, _, _. split; [done|]. by split_and!.
    + eexists _, _, _, _. split; [done|]. exists (b :: rem'), []. split; [apply B3; [by split|lia|done]|]. split; [done|]. split; [done|]. lia.
Qed.

(** *** Whole polls *)

Lemma ntcp_alice_rounds env : env_ok env ->
  rounds_ok (ob_step dsa_verify ck_a env) alice_at result_a (env_room env) alice_stuck.
Proof. intros He k h fut unread inp fb Hat Hi. by apply ntcp_alice_round with (unread := unread). Qed.

Lemma ntcp_bob_rounds env : env_ok env ->
  rounds_ok (ib_step dsa_verify ck_b env) bob_at result_b (env_room env) bob_stuck.
Proof. intros He k h fut unread inp fb Hat Hi. by apply ntcp_bob_round with (unread := unread). Qed.

Definition exchange_at : Net OBHandshake (RouterIdentity * Framed Codec) HsError IBHandshake (RouterIdentity * Framed Codec) HsError ->
    bytes -> bytes -> Prop :=
  net_at 6 alice_at result_a bob_at result_b.

Definition roomy (env : IoEnv) : Prop := env_ok env /\ env_room env.

Lemma exchange_polls_alice w fa fb env : exchange_at w fa fb -> roomy env ->
  exists w' fa', net_step (ob_step dsa_verify ck_a) (ib_step dsa_verify ck_b) 6 w (PollAlice env) = cret w' /\
    exchange_at w' fa' fb /\ bob w' = bob w /\ ((fa' = [] /\ exists r, alice w' = Through r) \/ alice_stuck fa' fb).
Proof.
  intros Hw [Hok Hroom].
  destruct (alice_polls (ob_step dsa_verify ck_a) (ib_step dsa_verify ck_b) 6 alice_at _ env_ok env_room bob_at _ alice_stuck
    ntcp_alice_rounds w fa fb env Hw Hok) as (w' & fa' & H1 & H2 & H3 & H4).
  exists w', fa'. split_and!; try done. by apply H4.
Qed.

Lemma exchange_polls_bob w fa fb env : exchange_at w fa fb -> roomy env ->
  exists w' fb', net_step (ob_step dsa_verify ck_a) (ib_step dsa_verify ck_b) 6 w (PollBob env) = cret w' /\
    exchange_at w' fa fb' /\ alice w' = alice w /\ ((fb' = [] /\ exists r, bob w' = Through r) \/ bob_stuck fb' fa).
Proof.
  intros Hw [Hok Hroom].
  destruct (bob_polls (ob_step dsa_verify ck_a) (ib_step dsa_verify ck_b) 6 alice_at _ bob_at _ env_ok env_room bob_stuck
    ntcp_bob_rounds w fa fb env Hw Hok) as (w' & fb' & H1 & H2 & H3 & H4).
  exists w', fb'. split_and!; try done. by apply H4.
Qed.

(** Five polls with room bring both through: each waits only for what the other
    has not written. *)
Lemma exchange_finishes w fa fb e1 e2 e3 e4 e5 :
  exchange_at w fa fb -> roomy e1 -> roomy e2 -> roomy e3 -> roomy e4 -> roomy e5 ->
  exists w', ntcp_run ck_a ck_b w [PollAlice e1; PollBob e2; PollAlice e3; PollBob e4; PollAlice e5] = cret w' /\
    alice w' = Through result_a /\ bob w' = Through result_b.
Proof.
  intros Hw R1 R2 R3 R4 R5. unfold ntcp_run. cbn [net_run].
  assert (forall l : bytes, len l < len (@nil Z) -> False) as H0 by (intros l H; change (len (@nil Z)) with 0 in H; pose proof (len_nonneg l); lia).
  destruct (exchange_polls_alice w fa fb e1 Hw R1) as (w1 & fa1 & -> & Hw1 & _ & S1). cbn [cret cbind].
  destruct (exchange_polls_bob w1 fa1 fb e2 Hw1 R2) as (w2 & fb2 & -> & Hw2 & _ & S2). cbn [cret cbind].
  assert (fb2 = [] \/ fb2 = m4) as Hfb2.
  { destruct S2 as [[-> _]|[[_ Hl]|[-> _]]]; [by left| |by right]. left.
    destruct S1 as [[-> _]|[[-> _]|[-> _]]]; [|lia|]; by destruct (H0 _ Hl). }
  destruct (exchange_polls_alice w2 fa1 fb2 e3 Hw2 R3) as (w3 & fa3 & -> & Hw3 & _ & S3). cbn [cret cbind].
  assert (fa3 = []) as ->.
  { destruct S3 as [[-> _]|[[_ Hl]|[-> _]]]; [done| |done]. destruct Hfb2 as [-> | ->]; [by destruct (H0 _ Hl)|lia]. }
  destruct (exchange_polls_bob w3 [] fb2 e4 Hw3 R4) as (w4 & fb4 & -> & Hw4 & _ & S4). cbn [cret cbind].
  destruct S4 as [[-> [rb4 Hb4]]|[[_ Hl]|[_ Hne]]]; [|by destruct (H0 _ Hl)|done].
  destruct (exchange_polls_alice w4 [] [] e5 Hw4 R5) as (w5 & fa5 & -> & Hw5 & Hb5 & S5). cbn [cret cbind].
  destruct S5 as [[-> [ra5 Ha5]]|[[_ Hl]|[_ Hne]]]; [|by destruct (H0 _ Hl)|done].
  exists w5. split; [done|]. destruct (net_at_ends _ _ _ _ _ w5 _ _ Hw5) as [Ea Eb]. rewrite Hb5, Hb4 in *.
  split; [by destruct Ea as [[h E]|E]; [congruence|]|by destruct Eb as [[h E]|E]; [congruence|]].
Qed.

End Exchange.
(** ** There is always such an exchange *)

(** [key] is the signing key of [ri]; its signatures are made of bytes. *)
Definition signer (key : SigningPrivateKey) (ri : RouterIdentity) : Prop :=
  wf_ssk key /\ spk_from_secret key = Ret (Ok (signing_key_ ri)) /\
  forall msg s b, ssk_sign key msg = Ret (Ok s) -> Signature_to_bytes s = Ret b -> bytes_ok b.

(** an identity whose bytes fit a handshake frame *)
Definition sendable_identity (ri : RouterIdentity) : Prop :=
  wf_RouterIdentity ri /\ exists b, writes (gen_router_identity ri) b /\ bytes_ok b /\ len b <= 16000.

Definition clock_ok (ck : HsClock) : Prop := 0 <= ck_timer ck <= ck_later ck /\ 0 <= ck_now ck.

Lemma signer_signs key ri msg : signer key ri ->
  exists s b, ssk_sign key msg = Ret (Ok s) /\ spk_verify dsa_verify (signing_key_ ri) msg s = Ret (Ok tt) /\
    wf_sig (id_sig_type ri) s /\ Signature_to_bytes s = Ret b /\ bytes_ok b /\ len b = 64 /\ sig_len (id_sig_type ri) = 64.
Proof.
  intros (Hwf & Hpk & Hb). destruct key as [| | | |seed sk pk]; try done. destruct Hwf as [_ ->].
  cbn [spk_from_secret] in Hpk. unfold id_sig_type. injection Hpk as <-. cbn [spk_sig_type spk_verify ssk_sign].
  exists (SigEd25519 (ed_sign sk msg (ed_public sk))), (ed_sig_bytes (ed_sign sk msg (ed_public sk))).
  split; [done|]. rewrite ed_sign_verify. split; [done|]. split; [done|]. split; [done|].
  split; [by eapply Hb|]. split; [apply ed_sig_len|done].
Qed.

Lemma xor_hash_ok a b : wf_Hash a -> wf_Hash b -> wf_Hash (Hash_xor a b).
Proof.
  intros [Ha La] [Hb Lb]. split; cbn [Hash_xor hash_bytes]; [by apply xor_ok|].
  change (len (xor_bytes (hash_bytes a) (hash_bytes b)) = 32). rewrite len_xor; lia.
Qed.

Lemma block_iv n b : bytes_ok b -> len b = n + 16 -> 0 <= n -> wf_iv (zdrop n b).
Proof. intros Hb Hl Hn. split; [by apply bytes_ok_zdrop|]. rewrite len_zdrop; lia. Qed.

Lemma words_exist ck_a ck_b ra rb ka kb x y ha hb tsa tsb :
  RouterIdentity_hash ra = cret ha -> RouterIdentity_hash rb = cret hb -> signer ka ra -> signer kb rb ->
  len x = 256 -> len y = 256 -> timestamp (ck_now ck_a) = Ret tsa -> timestamp (ck_timer ck_b) = Ret tsb ->
  clock_ok ck_a -> clock_ok ck_b ->
  exists sga sgb, Words ck_a ck_b ra rb ka kb x y ha hb tsa tsb sga sgb /\
    (exists b, wf_sig (id_sig_type ra) sga /\ Signature_to_bytes sga = Ret b /\ bytes_ok b /\ len b = 64 /\ sig_len (id_sig_type ra) = 64) /\
    (exists b, wf_sig (id_sig_type rb) sgb /\ Signature_to_bytes sgb = Ret b /\ bytes_ok b /\ len b = 64 /\ sig_len (id_sig_type rb) = 64).
Proof.
  intros Hha Hhb Hka Hkb Hx Hy Hta Htb [[_ Ha] _] [[_ Hb] _].
  destruct (signer_signs ka ra (sig_msg x y hb tsa tsb) Hka) as (sga & ba & A1 & A2 & A3).
  destruct (signer_signs kb rb (sig_msg x y ha tsa tsb) Hkb) as (sgb & bb & B1 & B2 & B3).
  exists sga, sgb. split; [|by split; [exists ba|exists bb]].
  assert (forall h, wf_Hash h -> serialize (gen_session_confirm_sig_msg x y h tsa tsb) = cret (sig_msg x y h tsa tsb)) as Hser.
  { intros h [_ Hh]. apply serialize_writes; [apply writes_sig_msg|]. unfold sig_msg.
    rewrite !len_app, !len_be_bytes, Hx, Hy, Hh. lia. }
  constructor; try done; [apply Hser; by eapply hash_wf|apply Hser; by eapply hash_wf|by rewrite len_app, Hx, Hy].
Qed.

Lemma confirm_a_ok rb ts sb : bytes_ok rb -> bytes_ok sb -> bytes_ok (confirm_a rb ts sb).
Proof.
  intros Hr Hs. unfold confirm_a.
  repeat first [exact Hr|exact Hs|apply be_bytes_ok|apply zeros_ok|apply bytes_ok_app; split].
Qed.

Lemma confirm_b_ok sb : bytes_ok sb -> bytes_ok (confirm_b sb).
Proof. intros Hs. unfold confirm_b. apply bytes_ok_app. split; [done|apply zeros_ok]. Qed.

Section Codecs.
Context (dha dhb : DHSessionKeyBuilder) (x y : bytes) (K : SessionKey) (ra rb : RouterIdentity) (hb : Hash) (tsa tsb : Z)
  (sga sgb : Signature) (rab sab sbb : bytes).
Context (Hx : len x = 256) (Hy : len y = 256) (Hyb : bytes_ok y) (Ka : build_session_key dha y = Ret K)
  (Kb : build_session_key dhb x = Ret K) (HK : wf_SessionKey K) (Hhb : wf_Hash hb) (Htsa : u32_ok tsa) (Htsb : u32_ok tsb).
Context (Hra : wf_RouterIdentity ra) (Wra : writes (gen_router_identity ra) rab) (Bra : bytes_ok rab) (Lra : len rab <= 16000).
Context (Gsa : wf_sig (id_sig_type ra) sga) (Ssa : Signature_to_bytes sga = Ret sab) (Bsa : bytes_ok sab) (Lsa : len sab = 64)
  (Tsa : sig_len (id_sig_type ra) = 64).
Context (Gsb : wf_sig (id_sig_type rb) sgb) (Ssb : Signature_to_bytes sgb = Ret sbb) (Bsb : bytes_ok sbb) (Lsb : len sbb = 64)
  (Tsb : sig_len (id_sig_type rb) = 64).

Let hx : Hash := Hash_xor (Hash_digest x) hb.
Let h16 : bytes := zdrop 16 (hash_bytes hx).
Let y16 : bytes := zdrop (256 - 16) y.
Let sr : SessionRequest := mkSessionRequest x hx.
Let scr : SessionCreated := mkSessionCreated y (Hash_digest (x ++ y)) tsb.
Let sca : SessionConfirmA := mkSessionConfirmA ra tsa sga.
Let scb : SessionConfirmB := mkSessionConfirmB sgb.

Lemma codecs_exist : exists m1 m2 m3 m4 u v, wf_iv u /\ wf_iv v /\
  exists cs : CodecScript sr scr sca scb m1 m2 m3 m4 (OutboundHandshakeCodec_new dha h16 rb) (InboundHandshakeCodec_new dhb y16)
    (mkAes256 K u v) (mkAes256 K v u), True.
Proof.
  assert (wf_Hash hx) as Hhx by (apply xor_hash_ok; [split; [apply sha256_ok|apply sha256_len]|done]).
  assert (wf_iv h16) as Ih by (destruct Hhx; by apply block_iv).
  assert (wf_iv y16) as Iy by (by apply block_iv).
  assert (wf_Hash (sc_hash scr)) as Hxy by (split; [apply sha256_ok|apply sha256_len]).
  pose proof (proj2 HK) as HKl.
  destruct (encode_created dhb x y16 h16 scr K Hx Kb HK Iy Ih Hy Hxy) as (v1 & ct2 & E2 & L2 & Iv1 & C2).
  destruct (len_confirm_a rab tsa sab) as [La Ma]. destruct (len_confirm_b sbb) as [Lb Mb].
  pose proof (len_nonneg rab). destruct (padding_len_bound (len rab + 6 + len sab)) as [Pa _]; [lia|].
  destruct (padding_len_bound (len sbb)) as [Pb _]; [lia|].
  assert (fills (gen_session_confirm_a sca) (confirm_a rab tsa sab)) as Fa
    by (apply fills_confirm_a; [done|by apply writes_slice_of|exact (eq_trans Lsa (eq_sym Tsa))]).
  assert (fills (gen_session_confirm_b scb) (confirm_b sbb)) as Fb by (apply fills_confirm_b; by apply writes_slice_of).
  destruct (encode_confirm_a dha h16 rb (mkAes256 K h16 v1) sca _ Fa) as (u1 & ct3 & E3 & L3 & B3 & Iu1 & C3);
    [by split_and!|by apply confirm_a_ok|lia|done|unfold NTCP_MTU; lia|].
  destruct (encode_confirm_b dhb x y16 h16 (mkAes256 K v1 u1) scb _ Fb) as (v2 & ct4 & E4 & L4 & B4 & Iv2 & C4);
    [by split_and!|by apply confirm_b_ok|lia|done|unfold NTCP_MTU; lia|].
  cbn [aes_key iv_enc iv_dec] in *.
  destruct (reads_session_request sr Hx Hhx) as [P1 W1].
  destruct (reads_session_created y ct2 Hy L2) as [P2 W2].
  destruct (reads_confirm_a sca rab sab Hra Gsa Htsa Wra) as [P3 W3]; [lia|done|exact (eq_trans Lsa (eq_sym Tsa))|].
  destruct (reads_confirm_b rb scb sbb Gsb Ssb) as [P4 W4]; [by rewrite Tsb|].
  exists (x ++ hash_bytes hx), (y ++ ct2), ct3, ct4, u1, v2. split; [done|]. split; [done|].
  unshelve eexists; [|exact I].
  refine {|
    oc1 := mkOutbound dha h16 rb StSessionCreated None 0;
    oc2 := mkOutbound dha h16 rb StSessionConfirmA (Some (mkAes256 K h16 v1)) 0;
    oc3 := mkOutbound dha h16 rb StSessionConfirmB (Some (mkAes256 K u1 v1)) 0;
    oc4 := mkOutbound dha h16 rb StEstablished (Some (mkAes256 K u1 v2)) 0;
    ic1 := mkInbound dhb x y16 h16 StSessionCreated None 0;
    ic2 := mkInbound dhb x y16 h16 StSessionConfirmA (Some (mkAes256 K v1 h16)) 0;
    ic3 := mkInbound dhb x y16 h16 StSessionConfirmB (Some (mkAes256 K v1 u1)) 0;
    ic4 := mkInbound dhb x y16 h16 StEstablished (Some (mkAes256 K v2 u1)) 0;
    wait3 := inbound_deciphers dhb x y16 h16 K v1 u1 (confirm_a rab tsa sab);
    wait4 := outbound_deciphers dha h16 rb K u1 v2 (confirm_b sbb) |}.
  - by apply encode_request.
  - apply inbound_reads_request; [exact P1|exact W1|apply Ih].
  - exact E2.
  - apply outbound_reads_created with (inner := created_inner scr); try done; [apply Ih|by apply reads_created_dec].
  - exact E3.
  - intros rd unread E. eexists _, _. split; [done|]. apply (block_awaits_start _ _ _ _ _ ct3); try done. by rewrite L3.
  - apply inbound_reads_confirm; [exact P3|exact W3].
  - exact E4.
  - intros rd unread E. eexists _, _. split; [done|]. apply (block_awaits_start _ _ _ _ _ ct4); try done; [by rewrite L4|].
    intros En. rewrite En, len_nil in Lb. lia.
  - apply outbound_reads_confirm; [exact P4|exact W4].
  - done.
  - done.
  - rewrite len_app, Hx, (proj2 Hhx). unfold NTCP_MTU. lia.
  - rewrite len_app, Hy, L2. unfold NTCP_MTU. lia.
  - unfold NTCP_MTU. lia.
  - unfold NTCP_MTU. lia.
Qed.

End Codecs.
Lemma copy_block_ok b : len b = 16 -> copy_block b = Ret b.
Proof. intros H. unfold copy_block, AES_BLOCK_SIZE. by rewrite H. Qed.

(** the machines as they are made *)
Lemma ob_new_eq ck draw own key remote a0 x : get_pub (DHSessionKeyBuilder_new draw) = Ret x ->
  OBHandshake_new ck draw own key remote = cret a0 ->
  exists hb, RouterIdentity_hash remote = cret hb /\ wf_Hash hb /\
    a0 = mkOBHandshake (mkShared own key (Some remote) x [] 0 0)
      (framed (OutboundHandshakeCodec_new (DHSessionKeyBuilder_new draw) (zdrop 16 (hash_bytes (Hash_xor (Hash_digest x) hb))) remote))
      (ObSessionRequest (Some (HfSessionRequest (mkSessionRequest x (Hash_xor (Hash_digest x) hb)))) (ck_timer ck)).
Proof.
  intros Gx. unfold OBHandshake_new. rewrite Gx. cbn [obind].
  destruct (RouterIdentity_hash remote) as [[hb|]|] eqn:Hhb; cbn [cbind]; try done. intros H.
  pose proof (hash_wf remote hb Hhb) as Whb. exists hb. split; [done|]. split; [done|].
  assert (wf_Hash (Hash_xor (Hash_digest x) hb)) as [_ Lhx] by (apply xor_hash_ok; [split; [apply sha256_ok|apply sha256_len]|done]).
  revert H. rewrite copy_block_ok by (unfold AES_BLOCK_SIZE; rewrite len_zdrop; lia). cbn [obind]. by intros [= <-].
Qed.

Lemma ib_new_eq draw own key b0 y : get_pub (DHSessionKeyBuilder_new draw) = Ret y -> len y = 256 ->
  IBHandshake_new draw own key = Ret b0 ->
  b0 = mkIBHandshake (mkShared own key None [] y 0 0)
    (framed (InboundHandshakeCodec_new (DHSessionKeyBuilder_new draw) (zdrop (256 - 16) y))) IbSessionRequest.
Proof.
  intros Gy Ly. unfold IBHandshake_new. rewrite Gy. cbn [obind]. rewrite Ly.
  rewrite copy_block_ok by (unfold AES_BLOCK_SIZE; rewrite len_zdrop; lia). cbn [obind]. by intros [= <-].
Qed.

(** The two machines as they are made, at the start of an exchange that ends
    with ciphers in step. *)
Lemma exchange_exists (Hgrp : group_ok grp) ck_a ck_b draw_a draw_b ra rb ka kb a0 b0 ha :
  bytes_ok draw_a -> bytes_ok draw_b -> clock_ok ck_a -> clock_ok ck_b ->
  OBHandshake_new ck_a draw_a ra ka rb = cret a0 -> IBHandshake_new draw_b rb kb = Ret b0 ->
  signer ka ra -> signer kb rb -> sendable_identity ra -> RouterIdentity_hash ra = cret ha ->
  exists x y hb tsa tsb sga sgb m1 m2 m3 m4 oc0 ic0 aa ab,
    wf_Aes256 aa /\ wf_Aes256 ab /\ in_sync aa ab /\ in_sync ab aa /\
    Words ck_a ck_b ra rb ka kb x y ha hb tsa tsb sga sgb /\
    exists cs : CodecScript (mkSessionRequest x (Hash_xor (Hash_digest x) hb)) (mkSessionCreated y (Hash_digest (x ++ y)) tsb)
        (mkSessionConfirmA ra tsa sga) (mkSessionConfirmB sgb) m1 m2 m3 m4 oc0 ic0 aa ab,
      alice_at ck_a ra rb ka x y hb tsa tsb sga sgb m1 m2 m3 m4 oc0 ic0 aa ab cs 3 a0 (m1 ++ m3) (m2 ++ m4) /\
      bob_at ck_b ra rb kb x y hb tsa tsb sga sgb m1 m2 m3 m4 oc0 ic0 aa ab cs 3 b0 (m2 ++ m4) (m1 ++ m3).
Proof.
  intros Hda Hdb Hca Hcb Hob Hib Hka Hkb (Hra & rab & Wra & Bra & Lra) Hha.
  destruct (dh_agrees Hgrp draw_a draw_b Hda Hdb) as (x & y & K & Gx & Gy & [Lx Bx] & [Ly By] & Ka & Kb & HK).
  destruct (ob_new_eq _ _ _ _ _ _ _ Gx Hob) as (hb & Hhb & Whb & ->). rewrite (ib_new_eq _ _ _ _ _ Gy Ly Hib).
  destruct (timestamp_ok (ck_now ck_a)) as (tsa & Ta & Oa); [apply Hca|].
  destruct (timestamp_ok (ck_timer ck_b)) as (tsb & Tb & Ob); [apply Hcb|].
  destruct (words_exist ck_a ck_b ra rb ka kb x y ha hb tsa tsb Hha Hhb Hka Hkb Lx Ly Ta Tb Hca Hcb)
    as (sga & sgb & wd & (sab & A1 & A2 & A3 & A4 & A5) & (sbb & B1 & B2 & B3 & B4 & B5)).
  destruct (codecs_exist (DHSessionKeyBuilder_new draw_a) (DHSessionKeyBuilder_new draw_b) x y K ra rb hb tsa tsb sga sgb rab sab sbb
    Lx Ly By Ka Kb HK Whb Oa Ob Hra Wra Bra Lra A1 A2 A3 A4 A5 B1 B2 B3 B4 B5) as (m1 & m2 & m3 & m4 & u & v & Hu & Hv & cs & _).
  exists x, y, hb, tsa, tsb, sga, sgb, m1, m2, m3, m4,
    (OutboundHandshakeCodec_new (DHSessionKeyBuilder_new draw_a) (zdrop 16 (hash_bytes (Hash_xor (Hash_digest x) hb))) rb),
    (InboundHandshakeCodec_new (DHSessionKeyBuilder_new draw_b) (zdrop (256 - 16) y)), (mkAes256 K u v), (mkAes256 K v u).
  split; [exact (conj HK (conj Hu Hv))|]. split; [exact (conj HK (conj Hv Hu))|]. do 2 (split; [by split|]).
  split; [exact wd|]. exists cs. split.
  - apply A0; [|done|done|done]. split; [done|]. exact (cs_e1 _ _ _ _ _ _ _ _ _ _ _ _ cs).
  - apply B0; [done|]. split; [done|]. intros _. apply len_more. intros E.
    destruct (cs_l1 _ _ _ _ _ _ _ _ _ _ _ _ cs) as [Hz _]. apply (f_equal len) in E. change (len (@nil Z)) with 0 in E. lia.
Qed.

(** The machines can be made. *)
Lemma machines_exist (Hgrp : group_ok grp) ck_a draw_a draw_b ra rb ka kb :
  bytes_ok draw_a -> bytes_ok draw_b -> wf_RouterIdentity rb ->
  exists a0 b0, OBHandshake_new ck_a draw_a ra ka rb = cret a0 /\ IBHandshake_new draw_b rb kb = Ret b0.
Proof.
  intros Ha Hb Hrb. destruct (dh_agrees Hgrp draw_a draw_b Ha Hb) as (x & y & _ & Gx & Gy & _ & [Ly _] & _).
  destruct (hash_returns rb Hrb) as [hb Hhb]. pose proof (hash_wf rb hb Hhb) as Whb.
  assert (wf_Hash (Hash_xor (Hash_digest x) hb)) as [_ Lhx] by (apply xor_hash_ok; [split; [apply sha256_ok|apply sha256_len]|done]).
  unfold OBHandshake_new, IBHandshake_new. rewrite Gx, Gy. cbn [obind]. rewrite Hhb. cbn [cret cbind].
  rewrite !copy_block_ok by (unfold AES_BLOCK_SIZE; rewrite len_zdrop; lia). cbn [obind]. by eexists _, _.
Qed.

(** An end that has everything the other will say is through after one poll. *)
Lemma alone_finishes {H R E : Type} (step : IoEnv -> Round H R E) at_ result stuck h k fut unread env :
  rounds_ok (step env) at_ result (env_room env) stuck -> env_room env -> (forall f, ~ stuck f []) ->
  at_ k h fut unread -> (k < 6)%nat -> exists h' inp', polls step 6 h [] [(env, unread)] = cret (h', inp', Finished result).
Proof.
  intros Hr Hroom Hst Hat Hk. cbn [polls app].
  destruct (poll_rounds (step env) at_ result (env_room env) stuck Hr 6 k h fut unread unread [] Hk Hat (app_nil_r _))
    as (h' & inp' & out & s & -> & Hs). cbn [cret cbind].
  destruct s as [| |r|e]; [done| | |done].
  - destruct Hs as (k' & fut' & unread' & _ & _ & _ & _ & Hs). by destruct (Hst fut' (Hs Hroom)).
  - destruct Hs as (-> & _). by exists h', inp'.
Qed.

Lemma both_finish (Hgrp : group_ok grp) ck_a ck_b draw_a draw_b ra rb ka kb env :
  bytes_ok draw_a -> bytes_ok draw_b -> clock_ok ck_a -> clock_ok ck_b ->
  signer ka ra -> signer kb rb -> sendable_identity ra -> wf_RouterIdentity rb -> roomy env ->
  exists a0 b0 in_a in_b ha hb ra' rb' ca cb,
    OBHandshake_new ck_a draw_a ra ka rb = cret a0 /\ IBHandshake_new draw_b rb kb = Ret b0 /\
    polls (ob_step dsa_verify ck_a) 6 a0 [] [(env, in_a)] = cret (ha, ra', Finished (rb, ca)) /\
    polls (ib_step dsa_verify ck_b) 6 b0 [] [(env, in_b)] = cret (hb, rb', Finished (ra, cb)).
Proof.
  intros Hda Hdb Hca Hcb Hka Hkb Hra Hrb [Hok Hroom].
  destruct (machines_exist Hgrp ck_a draw_a draw_b ra rb ka kb Hda Hdb Hrb) as (a0 & b0 & Hob & Hib).
  destruct (hash_returns ra (proj1 Hra)) as [h Hh].
  destruct (exchange_exists Hgrp ck_a ck_b draw_a draw_b ra rb ka kb a0 b0 h Hda Hdb Hca Hcb Hob Hib Hka Hkb Hra Hh)
    as (x & y & hb & tsa & tsb & sga & sgb & m1 & m2 & m3 & m4 & oc0 & ic0 & aa & ab & _ & _ & _ & _ & wd & cs & Ha & Hb).
  destruct (alone_finishes (ob_step dsa_verify ck_a) _ _ _ _ _ _ _ env
    (ntcp_alice_rounds ck_a ck_b ra rb ka kb x y h hb tsa tsb sga sgb m1 m2 m3 m4 oc0 ic0 aa ab wd cs env Hok) Hroom
    (alice_unstuck m3 m4) Ha ltac:(lia)) as (ha' & ra' & Ea).
  destruct (alone_finishes (ib_step dsa_verify ck_b) _ _ _ _ _ _ _ env
    (ntcp_bob_rounds ck_a ck_b ra rb ka kb x y h hb tsa tsb sga sgb m1 m2 m3 m4 oc0 ic0 aa ab wd cs env Hok) Hroom
    (bob_unstuck m2 m3 m4) Hb ltac:(lia)) as (hb' & rb' & Eb).
  eexists a0, b0, _, _, ha', hb', ra', rb', _, _. split; [exact Hob|]. split; [exact Hib|]. split; [exact Ea|exact Eb].
Qed.

(** Both ends of a connection come through. *)
Lemma ntcp_handshake_runs (ck_a ck_b : HsClock) (draw_a draw_b : bytes) (ra rb : RouterIdentity) (ka kb : SigningPrivateKey) (es : list (NetEvent IoEnv IoEnv)) :
  group_ok grp -> bytes_ok draw_a -> bytes_ok draw_b -> clock_ok ck_a -> clock_ok ck_b ->
  signer ka ra -> signer kb rb -> sendable_identity ra -> wf_RouterIdentity rb ->
  Forall (event_ok env_ok env_ok) es ->
  exists a0 b0 ca cb w, OBHandshake_new ck_a draw_a ra ka rb = cret a0 /\ IBHandshake_new draw_b rb kb = Ret b0 /\
    (wf_Aes256 (aes ca) /\ wf_Aes256 (aes cb) /\ in_sync (aes ca) (aes cb) /\ in_sync (aes cb) (aes ca) /\
     decrypted ca = 0 /\ decrypted cb = 0) /\
    ntcp_run ck_a ck_b (mkNet (Running a0) (Running b0) [] []) es = cret w /\
    ((exists a, alice w = Running a) \/ alice w = Through (rb, mkFramed ca [] false [])) /\
    ((exists b, bob w = Running b) \/ bob w = Through (ra, mkFramed cb [] false [])) /\
    forall e1 e2 e3 e4 e5, roomy e1 -> roomy e2 -> roomy e3 -> roomy e4 -> roomy e5 ->
      exists w', ntcp_run ck_a ck_b w [PollAlice e1; PollBob e2; PollAlice e3; PollBob e4; PollAlice e5] = cret w' /\
        alice w' = Through (rb, mkFramed ca [] false []) /\ bob w' = Through (ra, mkFramed cb [] false []).
Proof.
  intros Hgrp Hda Hdb Hca Hcb Hka Hkb Hra Hrb Hes.
  destruct (machines_exist Hgrp ck_a draw_a draw_b ra rb ka kb Hda Hdb Hrb) as (a0 & b0 & Hob & Hib).
  destruct (hash_returns ra (proj1 Hra)) as [ha Hha].
  destruct (exchange_exists Hgrp ck_a ck_b draw_a draw_b ra rb ka kb a0 b0 ha Hda Hdb Hca Hcb Hob Hib Hka Hkb Hra Hha)
    as (x & y & hb & tsa & tsb & sga & sgb & m1 & m2 & m3 & m4 & oc0 & ic0 & aa & ab & Wa & Wb & S1 & S2 & wd & cs & Ha & Hb).
  set (w0 := mkNet (Running a0) (Running b0) [] [] : Net OBHandshake (RouterIdentity * Framed Codec) HsError IBHandshake (RouterIdentity * Framed Codec) HsError).
  assert (exchange_at ck_a ck_b ra rb ka kb x y hb tsa tsb sga sgb m1 m2 m3 m4 oc0 ic0 aa ab cs w0 (m1 ++ m3) (m2 ++ m4)) as Hw0
    by (split; exists 3%nat; (split; [lia|]); [exact Ha|exact Hb]).
  destruct (net_runs (ob_step dsa_verify ck_a) (ib_step dsa_verify ck_b) 6 _ _ env_ok env_room _ _ env_ok env_room _ _
    (ntcp_alice_rounds ck_a ck_b ra rb ka kb x y ha hb tsa tsb sga sgb m1 m2 m3 m4 oc0 ic0 aa ab wd cs)
    (ntcp_bob_rounds ck_a ck_b ra rb ka kb x y ha hb tsa tsb sga sgb m1 m2 m3 m4 oc0 ic0 aa ab wd cs) es _ _ _ Hw0 Hes)
    as (w & fa & fb & Hrun & Hw). destruct (net_at_ends _ _ _ _ _ w fa fb Hw) as [Wwa Wwb].
  exists a0, b0, (mkCodec aa 0), (mkCodec ab 0), w. split; [exact Hob|]. split; [exact Hib|]. split; [by do 5 (split; [done|])|].
  split; [exact Hrun|]. split; [exact Wwa|]. split; [exact Wwb|].
  intros e1 e2 e3 e4 e5. by eapply exchange_finishes.
Qed.

End Run.

(** ** Samples *)
Module NtcpHsSamples.
Section Samples.
Context {nom : Nom} {cf : CookieFactory} {bu : BigUintOps} {sha : Sha2}.
#[local] Existing Instance sigcrates_ref.
Import DataSamples.

Lemma toy_sig_bytes (pk : fixed 32) (m : bytes) : proj1_sig (toy_sig pk m) = proj1_sig pk ++ be_bytes 32 (be_val m).
Proof. unfold toy_sig. by destruct (decide _). Qed.

Lemma ref_signer : signer ref_ssk ref_rid.
Proof.
  split; [by split|]. split; [done|]. intros msg s b. cbn [ref_ssk ssk_sign]. intros [= <-]. cbn [Signature_to_bytes].
  intros [= <-]. change (bytes_ok (proj1_sig (toy_sig ref_ed_pk msg))). rewrite toy_sig_bytes.
  apply bytes_ok_app. split; [apply zeros_ok|apply be_bytes_ok].
Qed.

End Samples.

(** what a generator writes, by running it *)
Lemma writes_run {cf : CookieFactory} g bs n k :
  writes g bs -> 0 <= n -> match g (zeros n, 0) with Ret (buf, Ok idx) => bytes_okb buf && (idx =? k) | _ => false end = true ->
  0 <= k -> len bs = k /\ bytes_ok bs.
Proof.
  intros Hw Hn Hk H0. destruct (Z.le_gt_cases (len bs) n) as [Hl|Hl].
  - destruct (writes_room _ _ (zeros n) 0 Hw) as (pre & old & post & _ & _ & _ & E); [lia|rewrite len_zeros; lia|].
    rewrite E in Hk. cbn [GOk] in Hk. apply andb_true_iff in Hk as [Hb%bytes_okb_ok Hi%Z.eqb_eq].
    split; [lia|]. apply bytes_ok_app in Hb as [_ Hb]. by apply bytes_ok_app in Hb as [Hb _].
  - destruct (writes_small _ _ Hw (zeros n) 0) as (m & b & E & _); [rewrite len_zeros; lia|rewrite len_zeros; lia|].
    by rewrite E in Hk.
Qed.

#[local] Existing Instances nom_ref cf_ref biguint_ref sigcrates_ref.
Import DataSamples.

Lemma ref_sendable : sendable_identity ref_rid.
Proof.
  split; [exact ref_rid_wf|]. destruct (rt_router_identity ref_rid ref_rid_wf) as (b & Hw & _).
  assert (match gen_router_identity ref_rid (zeros 500, 0) with Ret (buf, Ok idx) => bytes_okb buf && (idx =? 391) | _ => false end = true) as Hk
    by (vm_compute; reflexivity).
  destruct (writes_run _ b 500 391 Hw) as [Hl Hb]; [done|exact Hk|done|]. exists b. split; [exact Hw|]. split; [exact Hb|]. lia.
Qed.

Definition sample_clock : HsClock := mkHsClock 1000000000000 1000000000005 1000000000005.

Lemma sample_clock_ok : clock_ok sample_clock.
Proof. split; [split; discriminate|discriminate]. Qed.

(** a slow connection, and a fast one *)
Definition slow : IoEnv := mkIoEnv false false 1 1.
Definition fast : IoEnv := mkIoEnv false false 100 20000.

Lemma slow_ok : env_ok slow.
Proof. by split. Qed.

Lemma fast_roomy : roomy fast.
Proof. split; [by split|discriminate]. Qed.

Definition sample_events : list (NetEvent IoEnv IoEnv) := [PollBob slow; PollAlice slow; PollBob slow; PollAlice slow].

Lemma sample_events_ok : Forall (event_ok env_ok env_ok) sample_events.
Proof. repeat constructor. Qed.

Lemma draws_ok : bytes_ok [5] /\ bytes_ok [9].
Proof. by repeat constructor. Qed.

End NtcpHsSamples.

(** ** Properties *)
Module NtcpHsRunProps.
Section Props.
Context {nom : Nom} {cf : CookieFactory} {bu : BigUintOps} {sc : SigCrates} {sha : Sha2} {aes_crate : AesCrate} {grp : DhGroup}.

(** C4: Two routers that sign with the keys of their identities, and Alice
    connects to Bob: both machines can be made.  However their polls interleave,
    whatever pieces the bytes arrive in and however few the connection takes at a
    time, neither panics nor fails; whoever is through has the other's identity,
    nothing unread or unwritten, and a codec whose cipher is in step with the
    other's in both directions; and from wherever they are, five polls with room
    bring both through. *)
Theorem ntcp_handshake_completes (dsa_verify : DsaPublicKey -> bytes -> DsaSignature -> bool) (ck_a ck_b : HsClock)
    (draw_a draw_b : bytes) (ra rb : RouterIdentity) (ka kb : SigningPrivateKey) (es : list (NetEvent IoEnv IoEnv)) :
  group_ok grp -> bytes_ok draw_a -> bytes_ok draw_b -> clock_ok ck_a -> clock_ok ck_b ->
  signer ka ra -> signer kb rb -> sendable_identity ra -> wf_RouterIdentity rb ->
  Forall (event_ok env_ok env_ok) es ->
  exists a0 b0 ca cb w, OBHandshake_new ck_a draw_a ra ka rb = cret a0 /\ IBHandshake_new draw_b rb kb = Ret b0 /\
    (wf_Aes256 (aes ca) /\ wf_Aes256 (aes cb) /\ in_sync (aes ca) (aes cb) /\ in_sync (aes cb) (aes ca) /\
     decrypted ca = 0 /\ decrypted cb = 0) /\
    ntcp_run dsa_verify ck_a ck_b (mkNet (Running a0) (Running b0) [] []) es = cret w /\
    ((exists a, alice w = Running a) \/ alice w = Through (rb, mkFramed ca [] false [])) /\
    ((exists b, bob w = Running b) \/ bob w = Through (ra, mkFramed cb [] false [])) /\
    forall e1 e2 e3 e4 e5, roomy e1 -> roomy e2 -> roomy e3 -> roomy e4 -> roomy e5 ->
      exists w', ntcp_run dsa_verify ck_a ck_b w [PollAlice e1; PollBob e2; PollAlice e3; PollBob e4; PollAlice e5] = cret w' /\
        alice w' = Through (rb, mkFramed ca [] false []) /\ bob w' = Through (ra, mkFramed cb [] false []).
Proof. apply ntcp_handshake_runs. Qed.

(** C5: Whatever the other end sends, in whatever pieces: if Alice's handshake
    succeeds, it is with the identity she connected to, whose key has signed both
    DH values for her; if Bob's succeeds, the key of the identity he then has has
    signed both DH values for him.  The session key of either is the one agreed
    on with exactly the value that was signed. *)
Theorem ntcp_handshake_authenticates (dsa_verify : DsaPublicKey -> bytes -> DsaSignature -> bool) (ck : HsClock)
    (draw : bytes) (own : RouterIdentity) (key : SigningPrivateKey) (fuel : nat) :
  (forall (remote peer : RouterIdentity) (a0 a : OBHandshake) (ea : list (IoEnv * bytes)) (la : bytes) (ca : Framed Codec),
    OBHandshake_new ck draw own key remote = cret a0 ->
    polls (ob_step dsa_verify ck) fuel a0 [] ea = cret (a, la, Finished (peer, ca)) ->
    peer = remote /\ exists mine y, get_pub (DHSessionKeyBuilder_new draw) = Ret mine /\ len y = 256 /\
      signed_for dsa_verify own remote mine y /\
      build_session_key (DHSessionKeyBuilder_new draw) y = Ret (aes_key (aes (fr_codec ca)))) /\
  (forall (peer : RouterIdentity) (b0 b : IBHandshake) (eb : list (IoEnv * bytes)) (lb : bytes) (cb : Framed Codec),
    IBHandshake_new draw own key = Ret b0 ->
    polls (ib_step dsa_verify ck) fuel b0 [] eb = cret (b, lb, Finished (peer, cb)) ->
    exists mine x, get_pub (DHSessionKeyBuilder_new draw) = Ret mine /\ len x = 256 /\
      signed_for dsa_verify own peer x mine /\
      build_session_key (DHSessionKeyBuilder_new draw) x = Ret (aes_key (aes (fr_codec cb)))).
Proof.
  split.
  - intros remote peer a0 a ea la ca Hob Pa. destruct (ob_new_keeps ck draw own key remote a0 Hob) as (mine & Gx & Ia).
    destruct (polls_keep _ fuel _ _ (ob_step_keeps dsa_verify own remote _ mine ck) _ _ _ _ _ _ Ia Pa) as (E & y & H).
    split; [exact E|]. by exists mine, y.
  - intros peer b0 b eb lb cb Hib Pb. destruct (ib_new_keeps dsa_verify draw own key b0 Hib) as (mine & Gy & Ib).
    destruct (polls_keep _ fuel _ _ (ib_step_keeps dsa_verify own _ mine ck) _ _ _ _ _ _ Ib Pb) as (x & H). by exists mine, x.
Qed.

End Props.

#[local] Existing Instances nom_ref cf_ref biguint_ref sigcrates_ref sha2_ref aes_ref mersenne_group.
Import DataSamples NtcpHsSamples.

Definition no_dsa (_ : DsaPublicKey) (_ : bytes) (_ : DsaSignature) : bool := false.

Lemma ntcp_handshake_completes_witness :
  exists a0 b0 ca cb w, OBHandshake_new sample_clock [5] ref_rid ref_ssk ref_rid = cret a0 /\ IBHandshake_new [9] ref_rid ref_ssk = Ret b0 /\
    (wf_Aes256 (aes ca) /\ wf_Aes256 (aes cb) /\ in_sync (aes ca) (aes cb) /\ in_sync (aes cb) (aes ca) /\
     decrypted ca = 0 /\ decrypted cb = 0) /\
    ntcp_run no_dsa sample_clock sample_clock (mkNet (Running a0) (Running b0) [] []) sample_events = cret w /\
    ((exists a, alice w = Running a) \/ alice w = Through (ref_rid, mkFramed ca [] false [])) /\
    ((exists b, bob w = Running b) \/ bob w = Through (ref_rid, mkFramed cb [] false [])) /\
    forall e1 e2 e3 e4 e5, roomy e1 -> roomy e2 -> roomy e3 -> roomy e4 -> roomy e5 ->
      exists w', ntcp_run no_dsa sample_clock sample_clock w [PollAlice e1; PollBob e2; PollAlice e3; PollBob e4; PollAlice e5] = cret w' /\
        alice w' = Through (ref_rid, mkFramed ca [] false []) /\ bob w' = Through (ref_rid, mkFramed cb [] false []).
Proof.
  exact (ntcp_handshake_completes no_dsa sample_clock sample_clock [5] [9] ref_rid ref_rid ref_ssk ref_ssk sample_events
    mersenne_group_ok (proj1 draws_ok) (proj2 draws_ok) sample_clock_ok sample_clock_ok ref_signer ref_signer ref_sendable ref_rid_wf
    sample_events_ok).
Defined.

Lemma ntcp_handshake_authenticates_witness :
  exists ca cb : Framed Codec,
    (ref_rid = ref_rid /\ exists mine y, get_pub (DHSessionKeyBuilder_new [5]) = Ret mine /\ len y = 256 /\
       signed_for no_dsa ref_rid ref_rid mine y /\
       build_session_key (DHSessionKeyBuilder_new [5]) y = Ret (aes_key (aes (fr_codec ca)))) /\
    (exists mine x, get_pub (DHSessionKeyBuilder_new [9]) = Ret mine /\ len x = 256 /\
       signed_for no_dsa ref_rid ref_rid x mine /\
       build_session_key (DHSessionKeyBuilder_new [9]) x = Ret (aes_key (aes (fr_codec cb)))).
Proof.
  destruct (both_finish no_dsa mersenne_group_ok sample_clock sample_clock [5] [9] ref_rid ref_rid ref_ssk ref_ssk fast (proj1 draws_ok) (proj2 draws_ok)
    sample_clock_ok sample_clock_ok ref_signer ref_signer ref_sendable ref_rid_wf fast_roomy)
    as (a0 & b0 & in_a & in_b & ha & hb & la & lb & ca & cb & Ha & Hb & Pa & Pb).
  exists ca, cb. split.
  - exact (proj1 (ntcp_handshake_authenticates no_dsa sample_clock [5] ref_rid ref_ssk 6) ref_rid ref_rid a0 ha [(fast, in_a)] la ca Ha Pa).
  - exact (proj2 (ntcp_handshake_authenticates no_dsa sample_clock [9] ref_rid ref_ssk 6) ref_rid b0 hb [(fast, in_b)] lb cb Hb Pb).
Defined.

End NtcpHsRunProps.
