(* ===== verification/Transport.v ===== *)
(** * The transports together

    [Bid], [Transport] and [Manager] of [src/transport/mod.rs], with the two
    transports' managers from [src/transport/ntcp/mod.rs] and
    [src/transport/ntcp2/mod.rs]: which transport takes a message, how a
    connection is started while the session table is locked, and what a router
    publishes of its transports.  Listening and the spawned tasks are I/O. *)

From S2P Require Import Prelude Nom Cookie Util Wire Crypto Data Address Dest I2np Message.
From S2P Require Import Ntcp2Frame Ntcp2Codec Session Ntcp2Handshake.
From S2P Require NtcpFrame NtcpCodec.

(** ** A table behind a lock *)

(** A panic while the lock is held poisons it; [lock().unwrap()] then panics. *)
Record Locked (F : Type) := mkLocked { table : Shared F; poisoned : bool }.
Arguments mkLocked {F} table poisoned.
Arguments table {F} _.
Arguments poisoned {F} _.

Section Lock.
Context {F : Type}.

Definition lock (s : Locked F) : outcome (Shared F) := if poisoned s then Panic else Ret (table s).

(** [SessionState::contains] *)
Definition contains (s : Locked F) (hash : Hash) : outcome bool := let! t := lock s in Ret (have_session t hash).

(** [SessionState::send]: the state afterwards, even of a panic; [connect] runs
    with the lock held, when there is neither a session nor a pending one *)
Definition state_send {C} (s : Locked F) (hash : Hash) (frame : F) (connect : comp C)
  : Locked F * option C * comp SendResult :=
  match lock s with
  | Panic => (s, None, Panic)
  | Ret t =>
      let '(t', conn, r) := session_send t hash frame in
      if (conn : bool) then
        match connect with
        | Panic => (mkLocked t true, None, Panic)
        | Ret None => (s, None, Ret None)
        | Ret (Some c) => (mkLocked t' false, Some c, cret r)
        end
      else (mkLocked t' false, None, cret r)
  end.

End Lock.

(** ** Bids *)

Inductive TransportId := TNtcp | TNtcp2.

Record Bid := mkBid { bid : Z; sink : TransportId }.

(** [Iterator::min_by_key]: the first of the least *)
Definition min_by_bid (bids : list Bid) : option Bid :=
  match bids with
  | [] => None
  | b :: bids => Some (foldl (fun best b => if bid b <? bid best then b else best) b bids)
  end.

Section Transport.
Context {nom : Nom} {cf : CookieFactory} {bu : BigUintOps} {sc : SigCrates} {sha : Sha2} {fl : Flate2}.
Context {noise : NoiseTransport} {sip : SipHash} {hs : NoiseHandshake} {txt : IpText} {b64 : Base64}.

(** *** NTCP *)

(** [ctx]: whether [set_context] has been called *)
Record NtcpManager := mkNtcpManager {
  nm_addr : SocketAddr;
  nm_sessions : Locked NtcpFrame.Frame;
  nm_ctx : bool
}.

Definition NtcpManager_new (addr : SocketAddr) : NtcpManager := mkNtcpManager addr (mkLocked Shared_new false) false.

Definition ntcp_set_context (m : NtcpManager) : NtcpManager := mkNtcpManager (nm_addr m) (nm_sessions m) true.

Definition ntcp_manager_address (m : NtcpManager) : RouterAddress := RouterAddress_new NTCP_STYLE (nm_addr m).

Definition ntcp_is_established (m : NtcpManager) (hash : Hash) : outcome bool := contains (nm_sessions m) hash.

Definition ntcp_bid (m : NtcpManager) (peer : RouterInfo) (msg_size : Z) : comp (option Bid) :=
  if NtcpCodec.NTCP_MTU <? msg_size then cret None
  else
    match address peer NTCP_STYLE (fun _ => true) with
    | None => cret None
    | Some _ =>
        let* h := RouterIdentity_hash (router_id peer) in
        let! e := ntcp_is_established m h in
        let! _ := unwrap (if nm_ctx m then Some tt else None) in
        cret (Some (mkBid (if (e : bool) then 25 else 70) TNtcp))
    end.

(** [connect], up to the connection itself: where to, or why not *)
Definition ntcp_connect (peer_ri : RouterInfo) : comp (option SocketAddr) :=
  match address peer_ri NTCP_STYLE (fun _ => true) with
  | Some ra => let! a := unwrap (addr ra) in cret (Some a)
  | None => cret None
  end.

(** [OutboundSink::start_send]: the manager afterwards, the connection started,
    and the result *)
Definition ntcp_start_send (m : NtcpManager) (peer : RouterInfo) (msg : Message)
  : comp (NtcpManager * option (option SocketAddr) * comp SendResult) :=
  let* h := RouterIdentity_hash (router_id peer) in
  let '(s, c, r) := state_send (nm_sessions m) h (NtcpFrame.Standard msg) (ntcp_connect peer) in
  cret (mkNtcpManager (nm_addr m) s (nm_ctx m), c, r).

(** *** NTCP2 *)

Record Ntcp2Manager := mkNtcp2Manager {
  n2_addr : SocketAddr;
  static_private_key : bytes;
  static_public_key : bytes;
  n2_aesobfse_iv : bytes;
  n2_sessions : Locked Block;
  n2_ctx : bool
}.

(** the key pair and the IV are drawn *)
Definition Ntcp2Manager_new (addr : SocketAddr) (private public iv : bytes) : Ntcp2Manager :=
  mkNtcp2Manager addr private public iv (mkLocked Shared_new false) false.

(** [from_file] of a file that can be read, with these contents: slices out of
    range and an IV of another length panic *)
Definition ntcp2_from_file (addr : SocketAddr) (data : bytes) : outcome Ntcp2Manager :=
  if len data <? 64 then Panic
  else if len (zdrop 64 data) =? 16 then Ret (Ntcp2Manager_new addr (ztake 32 data) (slice 32 64 data) (zdrop 64 data))
  else Panic.

(** what [to_file] writes *)
Definition ntcp2_to_file (m : Ntcp2Manager) : bytes := static_private_key m ++ static_public_key m ++ n2_aesobfse_iv m.

Definition ntcp2_set_context (m : Ntcp2Manager) : Ntcp2Manager :=
  mkNtcp2Manager (n2_addr m) (static_private_key m) (static_public_key m) (n2_aesobfse_iv m) (n2_sessions m) true.

Definition ntcp2_manager_address (m : Ntcp2Manager) : RouterAddress :=
  let ra := RouterAddress_new NTCP2_STYLE (n2_addr m) in
  let ra := RouterAddress_set_option ra NTCP2_OPT_V NTCP2_VERSION in
  let ra := RouterAddress_set_option ra NTCP2_OPT_S (mkI2PString (b64_encode (static_public_key m))) in
  RouterAddress_set_option ra NTCP2_OPT_I (mkI2PString (b64_encode (n2_aesobfse_iv m))).

Definition ntcp2_is_established (m : Ntcp2Manager) (hash : Hash) : outcome bool := contains (n2_sessions m) hash.

Definition ntcp2_bid (m : Ntcp2Manager) (peer : RouterInfo) (msg_size : Z) : comp (option Bid) :=
  if NTCP2_MTU <? msg_size then cret None
  else
    match address peer NTCP2_STYLE ntcp2_filter, address peer NTCP_STYLE ntcp2_filter with
    | None, None => cret None
    | _, _ =>
        let* h := RouterIdentity_hash (router_id peer) in
        let! e := ntcp2_is_established m h in
        let! _ := unwrap (if n2_ctx m then Some tt else None) in
        cret (Some (mkBid (if (e : bool) then 10 else 40) TNtcp2))
    end.

(** [own_ri]: our router info, from the context; [draw], [padlen]: the padding
    that a handshake draws *)
Definition ntcp2_start_send (draw : nat -> Z -> bytes) (padlen : Z) (own_ri : RouterInfo) (m : Ntcp2Manager)
    (peer : RouterInfo) (msg : Message)
  : comp (Ntcp2Manager * option (result (OBHandshake * SocketAddr) HsNewError) * comp SendResult) :=
  let* h := RouterIdentity_hash (router_id peer) in
  let '(s, c, r) := state_send (n2_sessions m) h (BlkMessage msg)
                      (OBHandshake_new draw padlen (static_private_key m) own_ri peer) in
  cret (mkNtcp2Manager (n2_addr m) (static_private_key m) (static_public_key m) (n2_aesobfse_iv m) s (n2_ctx m), c, r).

(** *** Both *)

Record Manager := mkManager { ntcp : NtcpManager; ntcp2 : Ntcp2Manager }.

(** what [start] does before it spawns the listeners *)
Definition Manager_start (m : Manager) : Manager := mkManager (ntcp_set_context (ntcp m)) (ntcp2_set_context (ntcp2 m)).

Definition Manager_addresses (m : Manager) : list RouterAddress := [ntcp_manager_address (ntcp m); ntcp2_manager_address (ntcp2 m)].

Definition Manager_is_established (m : Manager) (hash : Hash) : outcome bool :=
  let! e := ntcp_is_established (ntcp m) hash in
  if (e : bool) then Ret true else ntcp2_is_established (ntcp2 m) hash.

(** the winning bid, whose sink takes the message, or the message back *)
Definition Manager_send (m : Manager) (peer : RouterInfo) (msg : Message) : comp (result Bid (RouterInfo * Message)) :=
  let* size := Message_size msg in
  let* b1 := ntcp_bid (ntcp m) peer size in
  let* size := Message_ntcp2_size msg in
  let* b2 := ntcp2_bid (ntcp2 m) peer size in
  match min_by_bid (option_list b1 ++ option_list b2) with
  | Some b => cret (Ok b)
  | None => cret (Err (peer, msg))
  end.

End Transport.

(** ** Lemmas *)

Section Lemmas.
Context {nom : Nom} {cf : CookieFactory} {bu : BigUintOps} {sc : SigCrates} {sha : Sha2} {fl : Flate2}.
Context {noise : NoiseTransport} {sip : SipHash} {hs : NoiseHandshake} {txt : IpText} {b64 : Base64}.

(** a manager that works: not poisoned, and given its context *)
Definition ntcp_works (m : NtcpManager) : Prop := poisoned (nm_sessions m) = false /\ nm_ctx m = true.
Definition ntcp2_works (m : Ntcp2Manager) : Prop := poisoned (n2_sessions m) = false /\ n2_ctx m = true.

(** whether a transport can take a message of a size *)
Definition ntcp_takes (peer : RouterInfo) (n : Z) : bool :=
  (n <=? NtcpCodec.NTCP_MTU) && bool_decide (is_Some (address peer NTCP_STYLE (fun _ => true))).
Definition ntcp2_takes (peer : RouterInfo) (n : Z) : bool :=
  (n <=? NTCP2_MTU) && bool_decide (is_Some (ntcp2_address peer)).

Lemma ntcp_bid_eq m peer n h : ntcp_works m -> RouterIdentity_hash (router_id peer) = cret h ->
  ntcp_bid m peer n = cret (if ntcp_takes peer n
    then Some (mkBid (if have_session (table (nm_sessions m)) h then 25 else 70) TNtcp) else None).
Proof.
  intros [Hp Hc] Hh. unfold ntcp_bid, ntcp_takes, ntcp_is_established, contains, lock.
  destruct (Z.ltb_spec NtcpCodec.NTCP_MTU n) as [Hl|Hl].
  { by rewrite (proj2 (Z.leb_gt _ _)) by lia. }
  rewrite (proj2 (Z.leb_le _ _)) by lia. destruct (address peer NTCP_STYLE _) as [ra|].
  - rewrite bool_decide_eq_true_2 by eauto. rewrite Hh. cbn [cret cbind]. by rewrite Hp, Hc.
  - by rewrite bool_decide_eq_false_2 by (intros [? [=]]).
Qed.

Lemma ntcp2_bid_eq m peer n h : ntcp2_works m -> RouterIdentity_hash (router_id peer) = cret h ->
  ntcp2_bid m peer n = cret (if ntcp2_takes peer n
    then Some (mkBid (if have_session (table (n2_sessions m)) h then 10 else 40) TNtcp2) else None).
Proof.
  intros [Hp Hc] Hh. unfold ntcp2_bid, ntcp2_takes, ntcp2_address, ntcp2_is_established, contains, lock.
  destruct (Z.ltb_spec NTCP2_MTU n) as [Hl|Hl].
  { by rewrite (proj2 (Z.leb_gt _ _)) by lia. }
  rewrite (proj2 (Z.leb_le _ _)) by lia.
  destruct (address peer NTCP2_STYLE _) as [ra|]; [|destruct (address peer NTCP_STYLE ntcp2_filter) as [ra|]].
  - rewrite bool_decide_eq_true_2 by eauto. rewrite Hh. cbn [cret cbind]. rewrite Hp, Hc. by destruct (address peer NTCP_STYLE ntcp2_filter).
  - rewrite bool_decide_eq_true_2 by eauto. rewrite Hh. cbn [cret cbind]. by rewrite Hp, Hc.
  - by rewrite bool_decide_eq_false_2 by (intros [? [=]]).
Qed.

Lemma ntcp_connect_ok peer : exists a, ntcp_connect peer = cret a /\
  (is_Some (address peer NTCP_STYLE (fun _ => true)) -> is_Some a).
Proof.
  unfold ntcp_connect. destruct (address peer NTCP_STYLE _) as [ra|] eqn:E.
  - apply address_some in E as (_ & _ & Hr & _). destruct (reachable_addr _ Hr) as (o & p & ->). cbn [unwrap obind].
    eexists. split; [done|]. by eexists.
  - exists None. split; [done|]. by intros [? [=]].
Qed.

(** the size of a message, when its bytes are known *)
Lemma message_size_eq m bs : writes (gen_message m) bs -> len bs < 2 ^ 64 -> Message_size m = cret (len bs).
Proof. intros Hw Hl. unfold Message_size. by rewrite (serialize_writes _ _ Hw Hl). Qed.
Lemma message_ntcp2_size_eq m bs : writes (gen_ntcp2_message m) bs -> len bs < 2 ^ 64 -> Message_ntcp2_size m = cret (len bs).
Proof. intros Hw Hl. unfold Message_ntcp2_size. by rewrite (serialize_writes _ _ Hw Hl). Qed.

(** a poisoned table panics whoever locks it *)
Lemma poisoned_send {F C} (s : Locked F) h f (c : comp C) : poisoned s = true -> state_send s h f c = (s, None, Panic).
Proof. intros H. unfold state_send, lock. by rewrite H. Qed.

(** what a manager publishes, and how it is read *)
Lemma set_option_same a k v : RouterAddress_option (RouterAddress_set_option a k v) k = Some v.
Proof. unfold RouterAddress_option, RouterAddress_set_option. cbn [Data.options entries]. by rewrite lookup_insert_eq. Qed.
Lemma set_option_other a k k' v : k <> k' ->
  RouterAddress_option (RouterAddress_set_option a k v) k' = RouterAddress_option a k'.
Proof. intros H. unfold RouterAddress_option, RouterAddress_set_option. cbn [Data.options entries]. by rewrite lookup_insert_ne. Qed.

Lemma opts_distinct : NTCP2_OPT_V <> NTCP2_OPT_S /\ NTCP2_OPT_V <> NTCP2_OPT_I /\ NTCP2_OPT_S <> NTCP2_OPT_I.
Proof. by split_and!. Qed.

Lemma styles_differ : NTCP_STYLE <> NTCP2_STYLE.
Proof. done. Qed.

Lemma addr_set_option a k v : k <> OPT_HOST -> k <> OPT_PORT -> addr (RouterAddress_set_option a k v) = addr a.
Proof. intros H1 H2. unfold addr, RouterAddress_set_option. cbn [Data.options entries]. by rewrite !lookup_insert_ne. Qed.

Lemma ntcp2_manager_addr m : wf_SocketAddr (n2_addr m) -> addr (ntcp2_manager_address m) = Some (n2_addr m).
Proof.
  intros H. unfold ntcp2_manager_address. rewrite !addr_set_option by done. by apply new_addr.
Qed.

Lemma ntcp2_manager_options m :
  RouterAddress_option (ntcp2_manager_address m) NTCP2_OPT_V = Some NTCP2_VERSION /\
  RouterAddress_option (ntcp2_manager_address m) NTCP2_OPT_S = Some (mkI2PString (b64_encode (static_public_key m))) /\
  RouterAddress_option (ntcp2_manager_address m) NTCP2_OPT_I = Some (mkI2PString (b64_encode (n2_aesobfse_iv m))).
Proof.
  destruct opts_distinct as (H1 & H2 & H3). unfold ntcp2_manager_address.
  split; [|split].
  - rewrite set_option_other by done. rewrite set_option_other by done. by rewrite set_option_same.
  - rewrite set_option_other by done. by rewrite set_option_same.
  - by rewrite set_option_same.
Qed.

Lemma ntcp2_manager_filter m : ntcp2_filter (ntcp2_manager_address m) = true.
Proof.
  destruct (ntcp2_manager_options m) as (H1 & H2 & H3). unfold ntcp2_filter. rewrite H1, H2, H3. by vm_compute.
Qed.

(** the addresses of a manager, as a peer finds them in a router info *)
Lemma addresses_work (m : Manager) (ri : RouterInfo) :
  wf_SocketAddr (nm_addr (ntcp m)) -> wf_SocketAddr (n2_addr (ntcp2 m)) ->
  is_ipv4 (nm_addr (ntcp m)) = true -> is_ipv4 (n2_addr (ntcp2 m)) = true ->
  let own := set_addresses ri (Manager_addresses m) in
  ntcp_connect own = cret (Some (nm_addr (ntcp m))) /\
  ntcp2_address own = Some (ntcp2_manager_address (ntcp2 m)) /\
  addr (ntcp2_manager_address (ntcp2 m)) = Some (n2_addr (ntcp2 m)) /\
  publishes own (static_public_key (ntcp2 m)) (n2_aesobfse_iv (ntcp2 m)).
Proof.
  intros W1 W2 V1 V2 own.
  pose proof (new_addr NTCP_STYLE _ W1) as A1. pose proof (ntcp2_manager_addr _ W2) as A2.
  assert (reachable (ntcp_manager_address (ntcp m)) = true) as R1 by (unfold reachable, ntcp_manager_address; by rewrite A1).
  assert (reachable (ntcp2_manager_address (ntcp2 m)) = true) as R2 by (unfold reachable; by rewrite A2).
  assert (ntcp2_address own = Some (ntcp2_manager_address (ntcp2 m))) as E2.
  { unfold ntcp2_address, address, own, set_addresses, Manager_addresses. cbn [addresses].
    rewrite filter_cons_False by exact styles_differ. rewrite filter_cons_True by (cbv beta; reflexivity). rewrite filter_nil.
    rewrite filter_cons_True by (cbv beta; by rewrite R2). cbn [List.find]. by rewrite ntcp2_manager_filter. }
  split; [|split; [done|split; [done|]]].
  - unfold ntcp_connect, address, own, set_addresses, Manager_addresses. cbn [addresses].
    rewrite filter_cons_True by (cbv beta; reflexivity). rewrite (filter_cons_False _ (ntcp2_manager_address (ntcp2 m))) by exact (not_eq_sym styles_differ). rewrite filter_nil.
    rewrite filter_cons_True by (cbv beta; by rewrite R1). cbn [List.find]. unfold ntcp_manager_address. by rewrite A1.
  - destruct (ntcp2_manager_options (ntcp2 m)) as (_ & O2 & O3). eexists _, _, _. split; [exact E2|].
    split; [exact O2|]. split; [apply b64_ok|]. split; [exact O3|apply b64_ok].
Qed.

End Lemmas.

(** ** Properties *)
Module TransportProps.
Section Props.
Context {nom : Nom} {cf : CookieFactory} {bu : BigUintOps} {sc : SigCrates} {sha : Sha2} {fl : Flate2}.
Context {noise : NoiseTransport} {sip : SipHash} {hs : NoiseHandshake} {txt : IpText} {b64 : Base64}.

(** C27: A message goes over the cheapest transport that takes it: an NTCP2
    session first, then an NTCP session, then a new NTCP2 connection, then a new
    NTCP one; when neither transport has an address of the peer and room for the
    message, it is given back. *)
Theorem transport_choice (m : Manager) (peer : RouterInfo) (msg : Message) (n1 n2 : Z) (h : Hash) :
  ntcp_works (ntcp m) -> ntcp2_works (ntcp2 m) -> RouterIdentity_hash (router_id peer) = cret h ->
  Message_size msg = cret n1 -> Message_ntcp2_size msg = cret n2 ->
  let a1 := ntcp_takes peer n1 in
  let a2 := ntcp2_takes peer n2 in
  let e1 := have_session (table (nm_sessions (ntcp m))) h in
  let e2 := have_session (table (n2_sessions (ntcp2 m))) h in
  Manager_send m peer msg = cret
    (if a2 && (e2 || negb (a1 && e1)) then Ok (mkBid (if e2 then 10 else 40) TNtcp2)
     else if a1 then Ok (mkBid (if e1 then 25 else 70) TNtcp)
     else Err (peer, msg)).
Proof.
  intros W1 W2 Hh H1 H2 a1 a2 e1 e2. unfold Manager_send. rewrite H1. cbn [cret cbind].
  rewrite (ntcp_bid_eq _ _ _ h W1 Hh). cbn [cret cbind]. rewrite H2. cbn [cret cbind].
  rewrite (ntcp2_bid_eq _ _ _ h W2 Hh). cbn [cret cbind]. fold a1 a2 e1 e2.
  by destruct a1, a2, e1, e2.
Qed.

(** Sending over NTCP never panics and leaves the table usable, whatever the
    peer's router info holds; a connection is started exactly when there is
    neither a session nor a pending one, and then to the address that the bid
    was made for. *)
Theorem ntcp_send_safe (m : NtcpManager) (peer : RouterInfo) (msg : Message) (h : Hash) :
  poisoned (nm_sessions m) = false -> RouterIdentity_hash (router_id peer) = cret h ->
  exists m' c r, ntcp_start_send m peer msg = cret (m', c, cret r) /\ poisoned (nm_sessions m') = false /\
    (is_Some c <-> sessions (table (nm_sessions m)) !! h = None /\ pending_sessions (table (nm_sessions m)) !! h = None) /\
    (forall n b, ntcp_bid m peer n = cret (Some b) -> c <> Some None).
Proof.
  intros Hp Hh. unfold ntcp_start_send, state_send, lock. rewrite Hh, Hp. cbn [cret cbind].
  destruct (ntcp_connect_ok peer) as (a & Ha & Hsome). unfold session_send.
  assert (forall n b, ntcp_bid m peer n = cret (Some b) -> a <> None) as Hbid.
  { intros n b Hb ->. unfold ntcp_bid in Hb. destruct (NtcpCodec.NTCP_MTU <? n); [done|].
    destruct (address peer NTCP_STYLE _); [|done]. destruct (Hsome ltac:(eauto)) as [? [=]]. }
  destruct (sessions _ !! h) as [tx|] eqn:Es.
  - destruct (channels _ !! tx); eexists _, _, _; (split; [done|]); (split; [done|]); (split; [|done]);
      (split; [by intros [? [=]]|by intros [[=] _]]).
  - case_bool_decide as Hc.
    + rewrite Ha. cbn [cret]. eexists _, _, _. split; [done|]. split; [done|]. split; [split; [done|by eexists]|].
      intros n b Hb [= ->]. by apply (Hbid n b Hb).
    + eexists _, _, _. split; [done|]. split; [done|]. split; [|done]. split; [by intros [? [=]]|by intros [_ ?]].
Qed.

(** C38: One router info whose NTCP2 address has an IV of the wrong length stops
    NTCP2: starting a connection to it panics while the session table is locked,
    and from then on every question whether a session exists and every message
    to any peer panics too. *)
Theorem one_bad_iv_stops_ntcp2 (draw : nat -> Z -> bytes) (padlen : Z) (own_ri peer : RouterInfo) (m : Ntcp2Manager)
    (msg : Message) (ra : RouterAddress) (s i : I2PString) (iv : bytes) (h : Hash) :
  poisoned (n2_sessions m) = false -> RouterIdentity_hash (router_id peer) = cret h ->
  sessions (table (n2_sessions m)) !! h = None -> pending_sessions (table (n2_sessions m)) !! h = None ->
  ntcp2_address peer = Some ra ->
  RouterAddress_option ra NTCP2_OPT_S = Some s -> b64_decode (str s) <> None ->
  RouterAddress_option ra NTCP2_OPT_I = Some i -> b64_decode (str i) = Some iv -> len iv <> 16 ->
  exists m', ntcp2_start_send draw padlen own_ri m peer msg = cret (m', None, Panic) /\
    (forall h', ntcp2_is_established m' h' = Panic) /\
    forall draw' padlen' own_ri' peer' msg' h', RouterIdentity_hash (router_id peer') = cret h' ->
      ntcp2_start_send draw' padlen' own_ri' m' peer' msg' = cret (m', None, Panic).
Proof.
  intros Hp Hh Hs Hq Hra Hos Hds Hoi Hdi Hl.
  pose proof (ob_new_iv_panics draw padlen (static_private_key m) iv own_ri peer ra s i h Hra Hos Hoi Hh Hds Hdi Hl) as Hpanic.
  exists (mkNtcp2Manager (n2_addr m) (static_private_key m) (static_public_key m) (n2_aesobfse_iv m)
    (mkLocked (table (n2_sessions m)) true) (n2_ctx m)).
  split; [|split].
  - unfold ntcp2_start_send. rewrite Hh. cbn [cret cbind]. unfold state_send, lock, session_send.
    rewrite Hp, Hs, Hq, bool_decide_eq_true_2 by done. by rewrite Hpanic.
  - intros h'. done.
  - intros draw' padlen' own_ri' peer' msg' h' Hh'. unfold ntcp2_start_send. rewrite Hh'. cbn [cret cbind].
    by rewrite poisoned_send.
Qed.

(** NTCP bids on messages that its codec then refuses: of a message of [n]
    bytes it takes at most 16384, but the frame adds a size, padding and a
    checksum, so that from 16379 bytes on the encoder fails and the session with
    it. *)
Theorem ntcp_bid_exceeds_frame {aes : Aes.AesCrate} (m : NtcpManager) (peer : RouterInfo) (msg : Message) (h : Hash)
    (mb buf : bytes) (e : NtcpCodec.Codec) (depth : nat) :
  ntcp_works m -> RouterIdentity_hash (router_id peer) = cret h -> is_Some (address peer NTCP_STYLE (fun _ => true)) ->
  sendable_f depth msg -> writes (gen_message msg) mb -> bytes_ok mb -> len mb < 65530 -> Aes.wf_Aes256 (NtcpCodec.aes e) ->
  Message_size msg = cret (len mb) /\
  (len mb <= 16378 -> (exists b, ntcp_bid m peer (len mb) = cret (Some b)) /\
     exists e' buf', NtcpCodec.encode e (NtcpFrame.Standard msg) buf = Ret (e', buf', Ok tt)) /\
  (16378 < len mb <= 16384 -> (exists b, ntcp_bid m peer (len mb) = cret (Some b)) /\
     exists buf' n, NtcpCodec.encode e (NtcpFrame.Standard msg) buf = Ret (e, buf', Err (NtcpCodec.CeTooLarge n))) /\
  (16384 < len mb -> ntcp_bid m peer (len mb) = cret None).
Proof.
  intros W Hh Ha Hs Hw Hb Hl He. pose proof (len_nonneg mb) as Hpos.
  destruct (NtcpFrame.sendable_content (NtcpFrame.Standard msg)) as [c Hc]; [by split; [exists depth|exists mb]|].
  assert (c = be_bytes 2 (len mb) ++ mb) as -> by (inversion Hc as [? mb' Hw'|]; subst; by rewrite (writes_det _ _ _ Hw Hw')).
  set (c := be_bytes 2 (len mb) ++ mb) in *. assert (len c = len mb + 2) as Hlc by (unfold c; rewrite len_app, len_be_bytes; lia).
  destruct (NtcpCodec.ntcp_encode_sizes e (NtcpFrame.Standard msg) c buf He Hc) as [Hok Hbad].
  { apply bytes_ok_app. split; [apply be_bytes_ok|done]. }
  destruct (NtcpFrame.padding_len_bound (len c + 4)) as [Hp1 Hp2]; [lia|]. fold (NtcpFrame.pad_of c) in Hp1, Hp2.
  assert (len c + NtcpFrame.pad_of c + 4 = len c + 4 + NtcpFrame.pad_of c) as Hsum by lia.
  unfold NtcpCodec.NTCP_MTU in Hok, Hbad. rewrite (ntcp_bid_eq m peer (len mb) h W Hh). unfold ntcp_takes, NtcpCodec.NTCP_MTU.
  rewrite bool_decide_eq_true_2 by done. rewrite andb_true_r.
  split; [apply message_size_eq; [done|lia]|]. split; [|split].
  - intros H. rewrite (proj2 (Z.leb_le _ _)) by lia. split; [by eexists|].
    destruct Hok as (e' & ct & Henc & _); [Z.div_mod_to_equations; lia|]. by eexists _, _.
  - intros H. rewrite (proj2 (Z.leb_le _ _)) by lia. split; [by eexists|].
    destruct Hbad as (buf' & n & Henc & _); [lia|]. by eexists _, _.
  - intros H. by rewrite (proj2 (Z.leb_gt _ _)) by lia.
Qed.

(** NTCP2 does too: it bids on messages of up to 65535 bytes, of which the
    block header and the tag of the Noise message leave room for 65516. *)
Theorem ntcp2_bid_exceeds_frame (draw : nat -> Z -> bytes) (m : Ntcp2Manager) (peer : RouterInfo) (msg : Message) (h : Hash)
    (mb buf : bytes) (e d : Codec) :
  ntcp2_works m -> RouterIdentity_hash (router_id peer) = cret h -> is_Some (ntcp2_address peer) ->
  writes (gen_ntcp2_message msg) mb -> len mb < 2 ^ 16 -> in_sync e d ->
  Message_ntcp2_size msg = cret (len mb) /\
  (exists b, ntcp2_bid m peer (len mb) = cret (Some b)) /\
  exists e' buf' r, encode draw e [BlkMessage msg] buf = Ret (e', buf', r) /\ (r = Ok tt <-> len mb <= 65516).
Proof.
  intros W Hh Ha Hw Hl Hsync. pose proof (len_nonneg mb) as Hpos.
  assert (writes (gen_frame draw [BlkMessage msg]) (be_bytes 1 3 ++ be_bytes 2 (len mb) ++ mb)) as Hf.
  { eapply writes_eq; [apply (writes_many_each _ _ [be_bytes 1 3 ++ be_bytes 2 (len mb) ++ mb])|cbn [concat]; by rewrite app_nil_r].
    constructor; [|constructor]. apply writes_seq; [apply writes_be_u8|by apply writes_len_prefixed]. }
  destruct (encode_sizes draw e d [BlkMessage msg] (be_bytes 1 3 ++ be_bytes 2 (len mb) ++ mb) buf Hsync Hf) as (e' & buf' & r & Henc & H1 & H2 & H3).
  rewrite !len_app, !len_be_bytes in H1, H2, H3. unfold NTCP2_MTU in H1, H2, H3.
  split; [apply message_ntcp2_size_eq; [done|lia]|]. split.
  - rewrite (ntcp2_bid_eq m peer (len mb) h W Hh). unfold ntcp2_takes, NTCP2_MTU.
    rewrite (proj2 (Z.leb_le _ _)), bool_decide_eq_true_2 by (done || lia). by eexists.
  - exists e', buf', r. split; [done|]. split.
    + intros ->. destruct (Z.le_gt_cases (len mb) 65516) as [H|H]; [done|].
      destruct (Z.le_gt_cases (len mb) 65532) as [H'|H']; [specialize (H2 ltac:(lia)); discriminate|].
      destruct (H3 ltac:(lia)) as [[=] _].
    + intros H. apply H1. lia.
Qed.

(** What a router publishes of its transports works: in any router info with
    these addresses both are found, at the sockets that are listened on, and the
    NTCP2 one gives a handshake the static key and the IV that the listener uses
    - as long as the sockets are IPv4. *)
Theorem published_addresses_work (m : Manager) (ri : RouterInfo) :
  wf_SocketAddr (nm_addr (ntcp m)) -> wf_SocketAddr (n2_addr (ntcp2 m)) ->
  is_ipv4 (nm_addr (ntcp m)) = true -> is_ipv4 (n2_addr (ntcp2 m)) = true ->
  let own := set_addresses ri (Manager_addresses m) in
  ntcp_connect own = cret (Some (nm_addr (ntcp m))) /\
  ntcp2_address own = Some (ntcp2_manager_address (ntcp2 m)) /\
  addr (ntcp2_manager_address (ntcp2 m)) = Some (n2_addr (ntcp2 m)) /\
  publishes own (static_public_key (ntcp2 m)) (n2_aesobfse_iv (ntcp2 m)).
Proof. apply addresses_work. Qed.

(** A key file of exactly eighty bytes is read, any other panics instead of
    failing; what is written for keys of the right length is read back. *)
Theorem ntcp2_keyfile (a : SocketAddr) (data : bytes) (m : Ntcp2Manager) :
  (ntcp2_from_file a data = Panic <-> len data <> 80) /\
  (len (static_private_key m) = 32 -> len (static_public_key m) = 32 -> len (n2_aesobfse_iv m) = 16 ->
   ntcp2_from_file a (ntcp2_to_file m) =
     Ret (Ntcp2Manager_new a (static_private_key m) (static_public_key m) (n2_aesobfse_iv m))).
Proof.
  split.
  - unfold ntcp2_from_file. destruct (Z.ltb_spec (len data) 64) as [H|H]; [split; [lia|done]|].
    rewrite len_zdrop by lia. destruct (Z.eqb_spec (len data - 64) 16) as [E|E]; split; done || lia.
  - intros H1 H2 H3. unfold ntcp2_from_file, ntcp2_to_file. rewrite !len_app, H1, H2, H3. cbn [Z.ltb Z.add Z.compare Pos.compare Pos.compare_cont Pos.add Pos.succ].
    rewrite (app_assoc (static_private_key m)), zdrop_app by (by rewrite len_app, H1, H2). rewrite H3. cbn [Z.eqb Pos.eqb].
    rewrite <- app_assoc, ztake_app by done. by rewrite (slice_app (static_private_key m) (static_public_key m)) by (rewrite ?H1, ?H2; lia).
Qed.

End Props.

#[local] Existing Instances nom_ref cf_ref biguint_ref sigcrates_ref sha2_ref flate_ref ip_ref.
#[local] Existing Instances Ntcp2CodecSamples.toy_noise Ntcp2CodecSamples.toy_sip.
Import Ntcp2FrameSamples DataSamples Ntcp2HandshakeSamples.
#[local] Existing Instances toy_handshake toy_sip_keys toy_base64.

Definition here : SocketAddr := mkSocketAddr (V4 [127; 0; 0; 1]) 9001.

Definition both : Manager := Manager_start (mkManager (NtcpManager_new here) (Ntcp2Manager_new here (zeros 32) (zeros 32) (zeros 16))).

(** a peer with an address of each transport *)
Definition peer_ri (iv : bytes) : RouterInfo := set_addresses ref_ri [RouterAddress_new NTCP_STYLE here; Ntcp2HandshakeProps.bob_addr iv].

Definition sample_msg : Message := NtcpCodec.NtcpCodecSamples.status.

Lemma peer_hash : exists h, RouterIdentity_hash (router_id (peer_ri (zeros 16))) = cret h.
Proof. exact Ntcp2HandshakeProps.ref_hash. Qed.

Lemma here_wf : wf_SocketAddr here.
Proof. split; [split; [apply bytes_okb_ok; reflexivity|reflexivity]|split; [discriminate|reflexivity]]. Qed.

Lemma transport_choice_witness : Manager_send both (peer_ri (zeros 16)) sample_msg = cret (Ok (mkBid 40 TNtcp2)).
Proof.
  destruct peer_hash as [h Hh].
  assert (Message_size sample_msg = cret 28) as H1 by (vm_compute; reflexivity).
  assert (Message_ntcp2_size sample_msg = cret 21) as H2 by (vm_compute; reflexivity).
  assert (ntcp_works (ntcp both)) as W1 by (split; reflexivity).
  assert (ntcp2_works (ntcp2 both)) as W2 by (split; reflexivity).
  assert (ntcp2_takes (peer_ri (zeros 16)) 21 = true) as T2 by (vm_compute; reflexivity).
  assert (ntcp_takes (peer_ri (zeros 16)) 28 = true) as T1 by (vm_compute; reflexivity).
  pose proof (transport_choice both (peer_ri (zeros 16)) sample_msg 28 21 h W1 W2 Hh H1 H2) as H.
  rewrite T1, T2 in H. exact H.
Defined.

Lemma ntcp_send_safe_witness :
  exists m' c r, ntcp_start_send (ntcp both) (peer_ri [1]) sample_msg = cret (m', c, cret r) /\ poisoned (nm_sessions m') = false.
Proof.
  destruct Ntcp2HandshakeProps.ref_hash as [h Hh].
  destruct (ntcp_send_safe (ntcp both) (peer_ri [1]) sample_msg h eq_refl Hh) as (m' & c & r & H & Hp & _).
  exact (ex_intro _ m' (ex_intro _ c (ex_intro _ r (conj H Hp)))).
Defined.

Lemma one_bad_iv_stops_ntcp2_witness :
  exists m', ntcp2_start_send draw 3 ref_signed_ri (ntcp2 both) (peer_ri [1]) sample_msg = cret (m', None, Panic) /\
    forall h', ntcp2_is_established m' h' = Panic.
Proof.
  destruct Ntcp2HandshakeProps.ref_hash as [h Hh].
  assert (ntcp2_address (peer_ri [1]) = Some (Ntcp2HandshakeProps.bob_addr [1])) as Ha by (vm_compute; reflexivity).
  assert (b64_decode [7] <> None) as Hd by discriminate.
  assert (len [1] <> 16) as Hl by discriminate.
  destruct (one_bad_iv_stops_ntcp2 draw 3 ref_signed_ri (peer_ri [1]) (ntcp2 both) sample_msg (Ntcp2HandshakeProps.bob_addr [1])
    (mkI2PString [7]) (mkI2PString [1]) [1] h eq_refl Hh (lookup_empty _) (lookup_empty _) Ha eq_refl Hd eq_refl eq_refl Hl)
    as (m' & H1 & H2 & _).
  exact (ex_intro _ m' (conj H1 H2)).
Defined.

(** a data message with so many bytes of data *)
Definition data_msg (n : Z) : Message := mkMessage 5 (mkI2PDate 1000) (MData (zeros n)).
Definition data_payload (n : Z) : bytes := be_bytes 4 n ++ zeros n.

Lemma zeros_bytes_ok n : bytes_ok (zeros n).
Proof. apply Forall_replicate. by split. Qed.

Lemma data_msg_payload n : 0 <= n < 2 ^ 16 -> writes (gen_payload (msg_payload (data_msg n))) (data_payload n).
Proof.
  intros H. unfold data_payload. cbn [gen_payload msg_payload data_msg]. unfold gen_data. rewrite len_zeros by lia.
  apply writes_seq; [apply writes_be_u32|apply writes_slice].
Qed.

Lemma data_msg_sendable n : 0 <= n <= 65531 -> sendable_f 1 (data_msg n).
Proof.
  intros H. split; [by split|]. split; [by split|]. split; [split; [apply zeros_bytes_ok|]|].
  { rewrite len_zeros by lia. split; lia. }
  split; [done|]. exists (data_payload n). split; [apply data_msg_payload; lia|].
  unfold data_payload. rewrite len_app, len_be_bytes, len_zeros by lia. lia.
Qed.

(** its bytes *)
Lemma data_msg_writes n : 0 <= n <= 65531 ->
  exists mb, writes (gen_message (data_msg n)) mb /\ bytes_ok mb /\ len mb = n + 20.
Proof.
  intros H. eexists. split; [apply (writes_message 5 (mkI2PDate 1000) _ _ (data_msg_payload n ltac:(lia)))|].
  unfold data_payload. split.
  - repeat first [apply be_bytes_ok | apply zeros_bytes_ok | apply bytes_ok_app; split].
  - rewrite !len_app, !len_be_bytes, len_zeros by lia. lia.
Qed.

Lemma data_msg_ntcp2_writes n : 0 <= n <= 65531 ->
  exists mb, writes (gen_ntcp2_message (data_msg n)) mb /\ len mb = n + 13.
Proof.
  intros H. eexists. split.
  - unfold gen_ntcp2_message. apply writes_seq; [apply writes_be_u8|]. apply writes_seq; [apply writes_be_u32|].
    apply writes_seq; [apply writes_be_u32|]. apply data_msg_payload. lia.
  - unfold data_payload. rewrite !len_app, !len_be_bytes, len_zeros by lia. lia.
Qed.

(** one of 16380 bytes: a bid, and no frame *)
Lemma ntcp_bid_exceeds_frame_witness :
  exists b buf' n, ntcp_bid (ntcp both) (peer_ri (zeros 16)) 16380 = cret (Some b) /\
    NtcpCodec.encode (aes_crate := Aes.aes_ref) NtcpCodec.NtcpCodecSamples.toy_end (NtcpFrame.Standard (data_msg 16360)) [] =
      Ret (NtcpCodec.NtcpCodecSamples.toy_end, buf', Err (NtcpCodec.CeTooLarge n)).
Proof.
  destruct peer_hash as [h Hh].
  assert (0 <= 16360 <= 65531) as Hn by lia.
  destruct (data_msg_writes 16360 Hn) as (mb & Hw & Hb & Hl).
  assert (ntcp_works (ntcp both)) as W by (split; reflexivity).
  assert (is_Some (address (peer_ri (zeros 16)) NTCP_STYLE (fun _ => true))) as Ha by (eexists; vm_compute; reflexivity).
  assert (len mb < 65530) as Hlt by lia. assert (16378 < len mb <= 16384) as Hbad by lia.
  destruct (ntcp_bid_exceeds_frame (aes := Aes.aes_ref) (ntcp both) (peer_ri (zeros 16)) (data_msg 16360) h mb []
    NtcpCodec.NtcpCodecSamples.toy_end 1%nat W Hh Ha (data_msg_sendable 16360 Hn) Hw Hb Hlt NtcpCodec.NtcpCodecSamples.toy_wf)
    as (_ & _ & H & _).
  destruct (H Hbad) as [[b H1] (buf' & n & H2)]. rewrite Hl in H1.
  exact (ex_intro _ b (ex_intro _ buf' (ex_intro _ n (conj H1 H2)))).
Defined.

Lemma ntcp2_bid_exceeds_frame_witness :
  exists b e' buf' r, ntcp2_bid (ntcp2 both) (peer_ri (zeros 16)) 65517 = cret (Some b) /\
    encode draw Ntcp2CodecSamples.toy_end [BlkMessage (data_msg 65504)] [] = Ret (e', buf', r) /\ r <> Ok tt.
Proof.
  destruct peer_hash as [h Hh].
  assert (0 <= 65504 <= 65531) as Hn by lia.
  destruct (data_msg_ntcp2_writes 65504 Hn) as (mb & Hw & Hl).
  assert (ntcp2_works (ntcp2 both)) as W by (split; reflexivity).
  assert (is_Some (ntcp2_address (peer_ri (zeros 16)))) as Ha by (eexists; vm_compute; reflexivity).
  assert (len mb < 2 ^ 16) as Hlt by lia.
  destruct (ntcp2_bid_exceeds_frame draw (ntcp2 both) (peer_ri (zeros 16)) (data_msg 65504) h mb []
    Ntcp2CodecSamples.toy_end Ntcp2CodecSamples.toy_end W Hh Ha Hw Hlt Ntcp2CodecProps.toy_sync)
    as (_ & [b H1] & e' & buf' & r & H2 & H3).
  rewrite Hl in H1. assert (r <> Ok tt) as Hr by (intros E; apply H3 in E; lia).
  exact (ex_intro _ b (ex_intro _ e' (ex_intro _ buf' (ex_intro _ r (conj H1 (conj H2 Hr)))))).
Defined.

Lemma published_addresses_work_witness :
  ntcp_connect (set_addresses ref_ri (Manager_addresses both)) = cret (Some here) /\
  ntcp2_address (set_addresses ref_ri (Manager_addresses both)) = Some (ntcp2_manager_address (ntcp2 both)).
Proof.
  destruct (published_addresses_work both ref_ri here_wf here_wf eq_refl eq_refl) as (H1 & H2 & _).
  exact (conj H1 H2).
Defined.

Lemma ntcp2_keyfile_witness :
  ntcp2_from_file here (zeros 79) = Panic /\
  ntcp2_from_file here (ntcp2_to_file (ntcp2 both)) = Ret (Ntcp2Manager_new here (zeros 32) (zeros 32) (zeros 16)).
Proof.
  destruct (ntcp2_keyfile here (zeros 79) (ntcp2 both)) as [H1 H2].
  assert (len (zeros 79) <> 80) as Hn by discriminate.
  exact (conj (proj2 H1 Hn) (H2 eq_refl eq_refl eq_refl)).
Defined.

End TransportProps.
