(* ===== verification/Su3.v ===== *)
(** * su3 files

    [src/file/mod.rs], [src/file/frame.rs] and the offline signing keys of
    [src/crypto/mod.rs]: the signed archives of router infos that a router
    starts with.  The crates [rsa] and [zip], and the two larger digests of
    [sha2], are classes. *)

From S2P Require Import Prelude Nom Cookie Util Wire Crypto Data Address.

(** ** Crates *)

(** [rsa]: PKCS#1 keys, and signatures over a digest; [sha2] *)
Class RsaCrates := {
  rsa_pk : Type;
  rsa_from_pkcs1_der : bytes -> option rsa_pk;
  rsa_size : rsa_pk -> Z;
  rsa_verify : rsa_pk -> bytes -> bytes -> bool;
  sha384 : bytes -> bytes;
  sha512 : bytes -> bytes
}.

(** [zip]: an archive, its entries by index, and what an entry holds; a size is
    what the archive claims *)
Class ZipCrate := {
  zip_archive : Type;
  zip_file : Type;
  ZipArchive_new : bytes -> option zip_archive;
  zip_len : zip_archive -> nat;
  zip_by_index : zip_archive -> nat -> option zip_file;
  zip_size : zip_file -> Z;
  zip_read_to_end : zip_file -> option bytes;
  zip_read_ok : forall f b, zip_read_to_end f = Some b -> bytes_ok b
}.

(** ** Offline signing keys *)

Section Offline.
Context {sc : SigCrates} {sha : Sha2} {rsa : RsaCrates}.

Inductive OfflineSigningPublicKey :=
| OskRsa2048Sha256 (pk : rsa_pk)
| OskRsa3072Sha384 (pk : rsa_pk)
| OskRsa4096Sha512 (pk : rsa_pk).

(** [OfflineSigningPublicKey::from_bytes] *)
Definition osk_from_bytes (t : SigType) (data : bytes) : outcome (result OfflineSigningPublicKey CryptoError) :=
  match t with
  | Rsa2048Sha256 | Rsa3072Sha384 | Rsa4096Sha512 =>
      Ret (match rsa_from_pkcs1_der data with
           | None => Err InvalidKey
           | Some pk =>
               if rsa_size pk =? pubkey_len t then
                 match t with
                 | Rsa2048Sha256 => Ok (OskRsa2048Sha256 pk)
                 | Rsa3072Sha384 => Ok (OskRsa3072Sha384 pk)
                 | Rsa4096Sha512 => Ok (OskRsa4096Sha512 pk)
                 | _ => Err InvalidKey
                 end
               else Err InvalidKey
           end)
  | _ => Panic
  end.

(** [OfflineSigningPublicKey::verify] *)
Definition osk_verify (k : OfflineSigningPublicKey) (message : bytes) (s : Signature) : result unit CryptoError :=
  let check (b : bool) := if b then Ok tt else Err InvalidSignature in
  match k, s with
  | OskRsa2048Sha256 pk, SigRsa2048Sha256 s => check (rsa_verify pk (sha256 message) s)
  | OskRsa3072Sha384 pk, SigRsa3072Sha384 s => check (rsa_verify pk (sha384 message) s)
  | OskRsa4096Sha512 pk, SigRsa4096Sha512 s => check (rsa_verify pk (sha512 message) s)
  | _, _ => Err TypeMismatch
  end.

Definition osk_sig_type (k : OfflineSigningPublicKey) : SigType :=
  match k with
  | OskRsa2048Sha256 _ => Rsa2048Sha256
  | OskRsa3072Sha384 _ => Rsa3072Sha384
  | OskRsa4096Sha512 _ => Rsa4096Sha512
  end.

(** a key verifies signatures of its own type only *)
Lemma osk_verify_type k m t s : osk_verify k m s = Ok tt -> wf_sig t s -> osk_sig_type k = t.
Proof. by destruct k, s, t. Qed.

End Offline.

(** ** Files *)

Definition SU3_MAGIC : bytes := ascii_bytes "I2Psu3".

Inductive FileError := FeCrypto (e : CryptoError) | FeHttp (status : Z) | FeRead (e : ReadError) | FeUnknownSigner.

(** [Vec::with_capacity] panics above [isize::MAX]; that memory runs out is not modelled *)
Definition with_capacity (n : Z) : outcome unit := if n <? 2 ^ 63 then Ret tt else Panic.

Section Su3.
Context {nom : Nom} {text : NomText} {bu : BigUintOps} {sc : SigCrates} {sha : Sha2} {rsa : RsaCrates} {zip : ZipCrate}.

Inductive Su3Content := Reseed (ris : list RouterInfo).

Record Su3File := mkSu3File {
  su3_version_of : bytes;
  su3_signer_of : bytes;
  su3_content_of : Su3Content;
  su3_sig_type : SigType;
  su3_msg_len : Z;
  su3_sig : Signature
}.

(** [str::from_utf8] *)
Definition from_utf8 (b : bytes) : outcome (result bytes unit) := Ret (if utf8_ok b then Ok b else Err tt).

Definition su3_sig_len (t : SigType) : parser bytes Z := nom_verify be_u16 (fun n => n =? sig_len t).

Definition su3_version (version_len : Z) : parser bytes bytes :=
  map_res (length_value (nom_success version_len) (nom_take_while (fun ch => negb (ch =? 0)))) from_utf8.

Definition su3_signer (signer_len : Z) : parser bytes bytes := map_res (nom_take signer_len) from_utf8.

(** the entries [js] of an archive: [filter_map] and [collect], which stops at
    the first error *)
Fixpoint zip_router_infos (input : bytes) (z : zip_archive) (js : list nat) : outcome (result (list RouterInfo) (NomErr bytes)) :=
  match js with
  | [] => Ret (Ok [])
  | j :: js =>
      let! file := unwrap (zip_by_index z j) in
      let! _ := with_capacity (zip_size file) in
      match zip_read_to_end file with
      | None => Ret (Err (Error input KEof))
      | Some buf =>
          let! r := router_info buf in
          match r with
          | Ok (_, ri) => let? ris := zip_router_infos input z js in Ret (Ok (ri :: ris))
          | Err _ => zip_router_infos input z js
          end
      end
  end.

Definition su3_zip_reseed (content_len : Z) : parser bytes Su3Content := fun input =>
  let_p (i, content) := nom_take content_len input in
  match ZipArchive_new content with
  | None => PErr (Error input KVerify)
  | Some z => let? ri := zip_router_infos input z (seq 0 (zip_len z)) in POk i (Reseed ri)
  end.

Definition su3_content (content_len file_type content_type : Z) : parser bytes Su3Content :=
  if (file_type =? 0) && (content_type =? 3) then su3_zip_reseed content_len else fun _ => Panic.

(** [oc]: with overflow checks *)
Definition su3_file (oc : bool) : parser bytes Su3File := fun i =>
  let_p (i, _) := nom_tag SU3_MAGIC i in
  let_p (i, _) := be_u8 i in
  let_p (i, _) := nom_tag [0] i in
  let_p (i, t) := sig_type i in
  let_p (i, _) := su3_sig_len t i in
  let_p (i, _) := be_u8 i in
  let_p (i, version_len) := nom_verify be_u8 (fun n => 16 <=? n) i in
  let_p (i, _) := be_u8 i in
  let_p (i, signer_len) := be_u8 i in
  let_p (i, content_len) := be_u64 i in
  let_p (i, _) := be_u8 i in
  let_p (i, file_type) := be_u8 i in
  let_p (i, _) := be_u8 i in
  let_p (i, content_type) := be_u8 i in
  let_p (i, _) := nom_take 12 i in
  let_p (i, version) := su3_version version_len i in
  let_p (i, signer) := su3_signer signer_len i in
  let_p (i, content) := su3_content content_len file_type content_type i in
  let_p (i, sig) := signature t i in
  let! n := checked oc 64 (40 + version_len) in
  let! n := checked oc 64 (n + signer_len) in
  let! msg_len := checked oc 64 (n + content_len) in
  POk i (mkSu3File version signer content t msg_len sig).

(** the status of an HTTP response as an error *)
Definition http_status (status : bytes) : result unit FileError :=
  if utf8_ok status then
    match parse_u16 status with
    | Some status => if status =? 200 then Ok tt else Err (FeHttp status)
    | None => Err (FeRead RParser)
    end
  else Err (FeRead RParser).

Definition http_status_line : parser bytes (result unit FileError) :=
  map_pure (preceded (nom_pair (nom_tag (ascii_bytes "HTTP/1.")) (nom_pair (one_of (ascii_bytes "01")) (nom_char 32))) (nom_take 3))
    http_status.

(** [Su3File::from_bytes] *)
Definition Su3File_from_bytes (oc : bool) (data : bytes) (signers : gmap bytes OfflineSigningPublicKey)
  : outcome (result Su3File FileError) :=
  let! r := su3_file oc data in
  match r with
  | Err e => Ret (Err (FeRead (ReadError_from e)))
  | Ok (_, f) =>
      match signers !! su3_signer_of f with
      | Some pk =>
          if len data <? su3_msg_len f then Panic
          else match osk_verify pk (ztake (su3_msg_len f) data) (su3_sig f) with
               | Ok _ => Ret (Ok f)
               | Err e => Ret (Err (FeCrypto e))
               end
      | None => Ret (Err FeUnknownSigner)
      end
  end.

(** [Su3File::from_http_data] *)
Definition Su3File_from_http_data (oc : bool) (input : bytes) (signers : gmap bytes OfflineSigningPublicKey)
  : outcome (result Su3File FileError) :=
  let! r := http_status_line input in
  match r with
  | Err e => Ret (Err (FeRead (ReadError_from e)))
  | Ok (_, Err e) => Ret (Err e)
  | Ok (input, Ok _) =>
      let! r := nom_take_until SU3_MAGIC input in
      match r with
      | Err e => Ret (Err (FeRead (ReadError_from e)))
      | Ok (data, _) => Su3File_from_bytes oc data signers
      end
  end.

End Su3.

(** ** What a file is, and what is signed of it *)

Section Facts.
Context {nom : Nom} {text : NomText} {bu : BigUintOps} {sc : SigCrates} {sha : Sha2} {rsa : RsaCrates} {zip : ZipCrate}.

(** the part in front of the signature *)
Record Su3Message := mkSu3Message {
  sm_type : SigType; sm_version : bytes; sm_signer : bytes; sm_content : Su3Content;
  sm_version_len : Z; sm_signer_len : Z; sm_content_len : Z
}.

Definition sm_len (m : Su3Message) : Z := 40 + sm_version_len m + sm_signer_len m + sm_content_len m.

Definition su3_message : parser bytes Su3Message := fun i =>
  let_p (i, _) := nom_tag SU3_MAGIC i in
  let_p (i, _) := be_u8 i in
  let_p (i, _) := nom_tag [0] i in
  let_p (i, t) := sig_type i in
  let_p (i, _) := su3_sig_len t i in
  let_p (i, _) := be_u8 i in
  let_p (i, version_len) := nom_verify be_u8 (fun n => 16 <=? n) i in
  let_p (i, _) := be_u8 i in
  let_p (i, signer_len) := be_u8 i in
  let_p (i, content_len) := be_u64 i in
  let_p (i, _) := be_u8 i in
  let_p (i, file_type) := be_u8 i in
  let_p (i, _) := be_u8 i in
  let_p (i, content_type) := be_u8 i in
  let_p (i, _) := nom_take 12 i in
  let_p (i, version) := su3_version version_len i in
  let_p (i, signer) := su3_signer signer_len i in
  let_p (i, content) := su3_content content_len file_type content_type i in
  POk i (mkSu3Message t version signer content version_len signer_len content_len).

Definition su3_signed (m : Su3Message) (s : Signature) : Su3File :=
  mkSu3File (sm_version m) (sm_signer m) (sm_content m) (sm_type m) (sm_len m) s.

Lemma pbind_assoc {I A B C} (p : IResult I A) (f : I -> A -> IResult I B) (g : I -> B -> IResult I C) :
  pbind (pbind p f) g = pbind p (fun i a => pbind (f i a) g).
Proof. by destruct p as [[[]|]|]. Qed.

Lemma pbind_ext {I A B} (p : IResult I A) (f g : I -> A -> IResult I B) :
  (forall i a, f i a = g i a) -> pbind p f = pbind p g.
Proof. intros H. destruct p as [[[]|]|]; cbn; auto. Qed.

(** [P] of what an entry of an archive holds *)
Lemma zip_router_infos_wf input z js ris :
  zip_router_infos input z js = Ret (Ok ris) -> Forall wf_RouterInfo ris.
Proof.
  revert ris. induction js as [|j js IH]; intros ris; cbn [zip_router_infos]; [by intros [= <-]|].
  destruct (zip_by_index z j) as [f|]; [|done]. cbn. destruct (with_capacity _); [|done]. cbn.
  destruct (zip_read_to_end f) as [b|] eqn:Ef; [|done].
  destruct (router_info b) as [[[r ri]|e]|] eqn:E; cbn; [|by apply IH|done].
  destruct (zip_router_infos input z js) as [[l|]|]; [|done..]. intros [= <-].
  constructor; [|by apply IH]. by destruct (sound_router_info _ _ _ (zip_read_ok _ _ Ef) E).
Qed.

(** the input is only named in errors *)
Lemma zip_router_infos_input i i' z js ris :
  zip_router_infos i z js = Ret (Ok ris) -> zip_router_infos i' z js = Ret (Ok ris).
Proof.
  revert ris. induction js as [|j js IH]; intros ris; cbn [zip_router_infos]; [done|].
  destruct (zip_by_index z j) as [f|]; [|done]. cbn. destruct (with_capacity _); [|done]. cbn.
  destruct (zip_read_to_end f) as [b|]; [|done].
  destruct (router_info b) as [[[r ri]|e]|]; cbn; [|by apply IH|done].
  destruct (zip_router_infos i z js) as [[l|]|] eqn:E; [|done..]. intros [= <-].
  by rewrite (IH l eq_refl).
Qed.

Definition content_wf (c : Su3Content) : Prop := match c with Reseed ris => Forall wf_RouterInfo ris end.

Lemma cuts_zip n : 0 <= n -> cuts (su3_zip_reseed n) (fun c a => len c = n /\ content_wf a).
Proof.
  intros Hn i r a Hi H. unfold su3_zip_reseed in H. destruct (nom_take n i) as [[[i' content]|]|] eqn:E; [|done..].
  cbn in H. destruct (cuts_take n Hn i i' content Hi E) as (c & -> & Hp & Hl & ->).
  destruct (ZipArchive_new c) as [z|] eqn:Ez; [|done].
  destruct (zip_router_infos _ z _) as [[ris|]|] eqn:Er; [|done..]. injection H as <- <-.
  exists c. split; [done|]. split; [|split; [done|by eapply zip_router_infos_wf]].
  intros rest. unfold su3_zip_reseed. rewrite Hp. cbn. rewrite Ez.
  by rewrite (zip_router_infos_input _ (c ++ rest) _ _ _ Er).
Qed.

Lemma cuts_content n ft ct : 0 <= n -> cuts (su3_content n ft ct) (fun c a => len c = n /\ content_wf a).
Proof. intros Hn. unfold su3_content. destruct (_ && _); [by apply cuts_zip|]. by intros i r a _ [=]. Qed.

Lemma cuts_version n : 0 <= n -> cuts (su3_version n) (fun c _ => len c = n).
Proof. intros Hn. eapply cuts_map_res; [by apply cuts_length_value|]. by intros c a b _ [Hl _] _. Qed.

Lemma cuts_signer n : 0 <= n -> cuts (su3_signer n) (fun c _ => len c = n).
Proof. intros Hn. eapply cuts_map_res; [by apply cuts_take|]. by intros c a b _ [Hl _] _. Qed.

Lemma cuts_sig_type : cuts sig_type (fun c _ => len c = 2).
Proof. eapply cuts_map_opt; [apply cuts_be_u16|]. by intros c a b _ [Hl _] _. Qed.

Lemma cuts_signature t : cuts (signature t) (fun c s => len c = sig_len t /\ Signature_from_bytes t c = Ret (Ok s)).
Proof. eapply cuts_map_res; [apply cuts_take, sig_len_pos|]. by intros c a b _ [Hl ->] H. Qed.

Lemma cuts_message : cuts su3_message (fun c m => len c = sm_len m /\ content_wf (sm_content m) /\
  u8_ok (sm_version_len m) /\ u8_ok (sm_signer_len m) /\ u64_ok (sm_content_len m)).
Proof.
  unfold su3_message, su3_sig_len.
  eapply cuts_bind; [apply cuts_tag|]. intros c0 ? ->.
  eapply cuts_bind; [apply cuts_be_u8|]. intros c1 ? [L1 _].
  eapply cuts_bind; [apply cuts_tag|]. intros c2 ? ->.
  eapply cuts_bind; [apply cuts_sig_type|]. intros c3 t L3.
  eapply cuts_bind; [apply cuts_verify, cuts_be_u16|]. intros c4 ? [[L4 _] _].
  eapply cuts_bind; [apply cuts_be_u8|]. intros c5 ? [L5 _].
  eapply cuts_bind; [apply cuts_verify, cuts_be_u8|]. intros c6 vl [[L6 Hvl] _].
  eapply cuts_bind; [apply cuts_be_u8|]. intros c7 ? [L7 _].
  eapply cuts_bind; [apply cuts_be_u8|]. intros c8 sl [L8 Hsl].
  eapply cuts_bind; [apply cuts_be_u64|]. intros c9 cl [L9 Hcl].
  eapply cuts_bind; [apply cuts_be_u8|]. intros d0 ? [M0 _].
  eapply cuts_bind; [apply cuts_be_u8|]. intros d1 ft [M1 _].
  eapply cuts_bind; [apply cuts_be_u8|]. intros d2 ? [M2 _].
  eapply cuts_bind; [apply cuts_be_u8|]. intros d3 ct [M3 _].
  eapply cuts_bind; [by apply cuts_take|]. intros d4 ? [M4 _].
  eapply cuts_bind; [apply cuts_version, Hvl|]. intros d5 v M5.
  eapply cuts_bind; [apply cuts_signer, Hsl|]. intros d6 s M6.
  eapply cuts_bind; [apply cuts_content, Hcl|]. intros d7 c [M7 Hc].
  apply cuts_ret. cbn [sm_content sm_version_len sm_signer_len sm_content_len]. split; [|done].
  unfold sm_len. cbn [sm_version_len sm_signer_len sm_content_len]. rewrite !len_app.
  rewrite L1, L3, L4, L5, L6, L7, L8, L9, M0, M1, M2, M3, M4, M5, M6, M7.
  change (len SU3_MAGIC) with 6. change (len [0]) with 1. change (len (@nil Z)) with 0. lia.
Qed.

(** a file is its message and a signature; the length is that of the message *)
Lemma su3_file_split oc i : bytes_ok i -> len i < 2 ^ 64 ->
  su3_file oc i = pbind (su3_message i) (fun i m => pbind (signature (sm_type m) i) (fun i s => POk i (su3_signed m s))).
Proof.
  intros Hi Hl. assert (forall r m, su3_message i = POk r m ->
    sm_len m < 2 ^ 64 /\ 0 <= sm_version_len m /\ 0 <= sm_signer_len m /\ 0 <= sm_content_len m) as Hm.
  { intros r m H. destruct (cuts_message _ _ _ Hi H) as (c & -> & _ & <- & _ & Hv & Hs & Hc).
    unfold u8_ok, u64_ok in *. split_and!; [llia|lia..]. }
  revert Hm. unfold su3_file, su3_message.
  repeat match goal with
  | |- context [pbind ?p _] => match p with pbind _ _ => fail 1 | POk _ _ => fail 1 | _ => destruct p as [[[? ?]|?]|]; cbn [pbind POk]; [|done..] end
  end.
  intros Hm. destruct (Hm _ _ eq_refl) as (H & Hv & Hs & Hc). unfold sm_len in H.
  cbn [sm_version_len sm_signer_len sm_content_len] in H, Hv, Hs, Hc.
  cbn [sm_type]. apply pbind_ext. intros i' s'.
  rewrite checked_ok by lia. cbn [obind]. rewrite checked_ok by lia. cbn [obind]. by rewrite checked_ok by lia.
Qed.

(** a file that is accepted has a signature of a known signer over its message,
    and everything but the signature is the message's *)
Lemma from_bytes_accepts oc data signers f : bytes_ok data -> len data < 2 ^ 64 ->
  Su3File_from_bytes oc data signers = Ret (Ok f) ->
  exists msg sig rest m pk, data = msg ++ sig ++ rest /\ parses su3_message msg m /\ len msg = sm_len m /\
    content_wf (sm_content m) /\ len sig = sig_len (sm_type m) /\
    Signature_from_bytes (sm_type m) sig = Ret (Ok (su3_sig f)) /\ f = su3_signed m (su3_sig f) /\
    signers !! sm_signer m = Some pk /\ osk_verify pk msg (su3_sig f) = Ok tt.
Proof.
  intros Hi Hl H. unfold Su3File_from_bytes in H. rewrite su3_file_split in H by done.
  destruct (su3_message data) as [[[i m]|e]|] eqn:Em; [|done..]. cbn [pbind] in H.
  destruct (cuts_message _ _ _ Hi Em) as (msg & -> & Hp & Hlm & Hwf & _).
  apply bytes_ok_app in Hi as [_ Hi].
  destruct (signature (sm_type m) i) as [[[r s]|e]|] eqn:Es; [|done..]. cbn in H.
  destruct (cuts_signature _ _ _ _ Hi Es) as (sig & -> & _ & Hls & Hsb).
  destruct (signers !! sm_signer m) as [pk|] eqn:Epk; [|done].
  destruct (Z.ltb_spec (len (msg ++ sig ++ r)) (sm_len m)); [done|].
  rewrite ztake_app in H by done.
  destruct (osk_verify pk msg s) as [[]|] eqn:Ev; [|done]. injection H as <-.
  exists msg, sig, r, m, pk. by split_and!.
Qed.

(** a response with status [c1 c2 c3] *)
Definition http_response (v c1 c2 c3 : Z) (rest : bytes) : bytes := ascii_bytes "HTTP/1." ++ [v; 32; c1; c2; c3] ++ rest.

Lemma status_line_read v c1 c2 c3 rest : v ∈ ascii_bytes "01" ->
  http_status_line (http_response v c1 c2 c3 rest) = POk rest (http_status [c1; c2; c3]).
Proof.
  intros Hv. change (http_response v c1 c2 c3 rest) with
    ((((ascii_bytes "HTTP/1.") ++ [v] ++ [32]) ++ [c1; c2; c3]) ++ rest).
  eapply parses_map_pure; [|done]. apply parses_preceded with (a := (ascii_bytes "HTTP/1.", (v, 32))); [|by apply parses_take].
  apply parses_pair; [apply parses_tag|]. apply parses_pair; [by apply parses_one_of|apply parses_char].
Qed.

Lemma status_line_suffix i r a : bytes_ok i -> http_status_line i = POk r a -> exists c, i = c ++ r.
Proof.
  assert (sound http_status_line (fun _ => True)) as Hs; [|intros Hi H; exact (proj2 (Hs i r a Hi H))].
  eapply sound_map_pure; [|done]. eapply sound_preceded; [|by apply sound_take]. eapply sound_pair; [apply sound_tag|].
  eapply sound_pair; [apply sound_one_of|apply sound_char].
Qed.

(** the file is what follows the status line and whatever is in front of the
    first magic bytes *)
Lemma from_http_data_accepts oc input signers f : bytes_ok input -> len input < 2 ^ 64 ->
  Su3File_from_http_data oc input signers = Ret (Ok f) ->
  exists pre rest msg sig m pk, input = pre ++ msg ++ sig ++ rest /\ parses su3_message msg m /\ len msg = sm_len m /\
    content_wf (sm_content m) /\ len sig = sig_len (sm_type m) /\
    Signature_from_bytes (sm_type m) sig = Ret (Ok (su3_sig f)) /\ f = su3_signed m (su3_sig f) /\
    signers !! sm_signer m = Some pk /\ osk_verify pk msg (su3_sig f) = Ok tt.
Proof.
  intros Hi Hl H. unfold Su3File_from_http_data in H.
  destruct (http_status_line input) as [[[i [[]|]]|]|] eqn:Es; [|done..].
  destruct (status_line_suffix _ _ _ Hi Es) as [c ->]. apply bytes_ok_app in Hi as [_ Hi].
  cbn [obind] in H. destruct (nom_take_until SU3_MAGIC i) as [[[data h]|]|] eqn:Eu; [|done..]. cbn [obind] in H.
  destruct (sound_take_until_seq _ _ _ _ Hi Eu) as [_ [d ->]]. apply bytes_ok_app in Hi as [_ Hi].
  destruct (from_bytes_accepts oc data signers f Hi) as (msg & sig & rest & m & pk & -> & H'); [llia|done|].
  exists (c ++ d), rest, msg, sig, m, pk. split; [by rewrite <- app_assoc|exact H'].
Qed.

(** ** Files that are put together as the format says *)

(** the unused bytes *)
Record Su3Fill := mkSu3Fill { f0 : Z; f1 : Z; f2 : Z; f3 : Z; f4 : Z; f5 : bytes }.

Definition fill_ok (x : Su3Fill) : Prop :=
  u8_ok (f0 x) /\ u8_ok (f1 x) /\ u8_ok (f2 x) /\ u8_ok (f3 x) /\ u8_ok (f4 x) /\ bytes_ok (f5 x) /\ len (f5 x) = 12.

(** the fixed part, and the two texts *)
Definition su3_header (x : Su3Fill) (t : SigType) (version signer : bytes) (content_len file_type content_type : Z) : bytes :=
  SU3_MAGIC ++ be_bytes 1 (f0 x) ++ [0] ++ be_bytes 2 (SigType_code t) ++ be_bytes 2 (sig_len t) ++
  be_bytes 1 (f1 x) ++ be_bytes 1 (len version) ++ be_bytes 1 (f2 x) ++ be_bytes 1 (len signer) ++
  be_bytes 8 content_len ++ be_bytes 1 (f3 x) ++ be_bytes 1 file_type ++ be_bytes 1 (f4 x) ++
  be_bytes 1 content_type ++ f5 x ++ version ++ signer.

(** a version is padded to at least 16 bytes with a byte 0 and what follows it *)
Definition version_text (version text : bytes) : Prop :=
  bytes_ok version /\ 16 <= len version < 256 /\ utf8_ok text = true /\
  exists pad, version = text ++ 0 :: pad /\ Forall (fun c => c <> 0) text.

Definition signer_text (signer : bytes) : Prop := bytes_ok signer /\ len signer < 256 /\ utf8_ok signer = true.

Lemma parses_version version v : version_text version v -> parses (su3_version (len version)) version v.
Proof.
  intros (_ & _ & Hu & pad & -> & Hv). eapply parses_map_res; [|unfold from_utf8; by rewrite Hu].
  apply (parses_length_value _ [] (len (v ++ 0 :: pad)) _ _ (0 :: pad)); [apply parses_success|done|].
  apply take_while_ok; [|done]. eapply Forall_impl; [exact Hv|]. cbn. intros c Hc. by apply Z.eqb_neq in Hc as ->.
Qed.

Lemma parses_signer s : signer_text s -> parses (su3_signer (len s)) s s.
Proof. intros (_ & _ & Hu). eapply parses_map_res; [by apply parses_take|]. unfold from_utf8. by rewrite Hu. Qed.

(** what follows the header is the content *)
Lemma su3_header_read x t version v signer cl ft ct rest :
  fill_ok x -> version_text version v -> signer_text signer -> u64_ok cl -> u8_ok ft -> u8_ok ct ->
  su3_message (su3_header x t version signer cl ft ct ++ rest) =
  pbind (su3_content cl ft ct rest) (fun i c => POk i (mkSu3Message t v signer c (len version) (len signer) cl)).
Proof.
  intros (F0 & F1 & F2 & F3 & F4 & F5 & F5l) Hv Hs Hcl Hft Hct.
  pose proof Hv as (_ & Hvl & _). pose proof Hs as (_ & Hsl & _). pose proof (len_nonneg signer).
  unfold su3_message, su3_header, su3_sig_len. rewrite <- !app_assoc.
  rewrite (parses_tag SU3_MAGIC). cbn [pbind POk].
  rewrite parses_be_u8 by done. cbn [pbind POk].
  rewrite (parses_tag [0]). cbn [pbind POk].
  rewrite parses_sig_type. cbn [pbind POk].
  rewrite (parses_verify _ _ _ (sig_len t)) by (try apply parses_be_u16; try apply Z.eqb_refl; by destruct t).
  cbn [pbind POk]. rewrite parses_be_u8 by done. cbn [pbind POk].
  rewrite (parses_verify _ _ _ (len version)) by (try (apply parses_be_u8; unfold u8_ok); try apply Z.leb_le; lia).
  cbn [pbind POk]. rewrite parses_be_u8 by done. cbn [pbind POk].
  rewrite parses_be_u8 by (unfold u8_ok; lia). cbn [pbind POk].
  rewrite parses_be_u64 by done. cbn [pbind POk].
  rewrite parses_be_u8 by done. cbn [pbind POk]. rewrite parses_be_u8 by done. cbn [pbind POk].
  rewrite parses_be_u8 by done. cbn [pbind POk]. rewrite parses_be_u8 by done. cbn [pbind POk].
  rewrite (parses_take 12 (f5 x)) by done. cbn [pbind POk].
  rewrite (parses_version version v) by done. cbn [pbind POk].
  by rewrite (parses_signer signer).
Qed.

Lemma su3_header_ok x t version v signer cl ft ct :
  fill_ok x -> version_text version v -> signer_text signer -> bytes_ok (su3_header x t version signer cl ft ct).
Proof.
  intros (_ & _ & _ & _ & _ & F5 & _) (Hv & _) (Hs & _). unfold su3_header.
  rewrite !bytes_ok_app. split_and!; try apply be_bytes_ok; try done; by apply bytes_okb_ok.
Qed.

Lemma len_su3_header x t version signer cl ft ct : len (f5 x) = 12 ->
  len (su3_header x t version signer cl ft ct) = 40 + len version + len signer.
Proof.
  intros Hf. unfold su3_header. rewrite !len_app, !len_be_bytes, Hf. change (len SU3_MAGIC) with 6. change (len [0]) with 1. lia.
Qed.

End Facts.

(** ** Reference crates, and a sample *)

(** a signature that verifies starts with the digest *)
Definition rsa_ref : RsaCrates := {|
  rsa_pk := bytes;
  rsa_from_pkcs1_der := fun d => Some d;
  rsa_size := len;
  rsa_verify := fun _ digest s => bytes_eqb (ztake (len digest) s) digest;
  sha384 := fun m => m;
  sha512 := fun m => m
|}.

(** an archive with one entry *)
Definition zip_ref : ZipCrate.
Proof.
  refine {|
    zip_archive := bytes; zip_file := bytes;
    ZipArchive_new := Some; zip_len := fun _ => 1%nat; zip_by_index := fun z _ => Some z;
    zip_size := len; zip_read_to_end := fun f => if bytes_okb f then Some f else None
  |}.
  intros f b. destruct (bytes_okb f) eqn:E; [|done]. intros [= <-]. by apply bytes_okb_ok.
Defined.

Module Su3Samples.
#[local] Existing Instances nom_ref nom_text_ref biguint_ref sigcrates_ref sha2_ref rsa_ref zip_ref.

Definition signer : bytes := ascii_bytes "meeh@mail.i2p".
Definition version : bytes := ascii_bytes "1539145006" ++ zeros 6.
Definition fill : Su3Fill := mkSu3Fill 0 0 0 0 0 (zeros 12).
Definition key : OfflineSigningPublicKey := OskRsa2048Sha256 (zeros 256).
Definition signers : gmap bytes OfflineSigningPublicKey := {[signer := key]}.
Definition message : bytes := su3_header fill Rsa2048Sha256 version signer (len ref_ri_bytes) 0 3 ++ ref_ri_bytes.
Definition sig : bytes := sha256 message ++ zeros 224.

Lemma fill_fine : fill_ok fill.
Proof. unfold fill_ok, u8_ok. cbn. split_and!; try lia; [apply zeros_ok|done]. Qed.

Lemma version_fine : version_text version (ascii_bytes "1539145006").
Proof.
  split; [by apply bytes_okb_ok|]. split; [done|]. split; [done|].
  exists (zeros 5). split; [done|]. cbn. repeat constructor; done.
Qed.

Lemma signer_fine : signer_text signer.
Proof. split; [by apply bytes_okb_ok|]. split; done. Qed.

Lemma archive_reads : zip_router_infos [] ref_ri_bytes (seq 0 1) = Ret (Ok [ref_parsed]).
Proof. vm_cast_no_check (@eq_refl (outcome (result (list RouterInfo) (NomErr bytes))) (Ret (Ok [ref_parsed]))). Qed.

Lemma sig_verifies : osk_verify key message (SigRsa2048Sha256 sig) = Ok tt.
Proof.
  unfold osk_verify, key, sig. cbn [rsa_verify rsa_ref]. rewrite ztake_app by done. by rewrite bytes_eqb_refl.
Qed.

Lemma sig_len_ok : bytes_ok sig /\ len sig = 256.
Proof.
  unfold sig. split; [apply bytes_ok_app; split; [apply sha256_ok|apply zeros_ok]|].
  rewrite len_app, sha256_len. done.
Qed.

Lemma ref_bytes_ok : bytes_ok ref_ri_bytes.
Proof. apply bytes_okb_ok. vm_compute. reflexivity. Qed.

Lemma sample_len : len (message ++ sig ++ [0]) < 2 ^ 64.
Proof. vm_compute. reflexivity. Qed.

Lemma sig_reads : Signature_from_bytes Rsa2048Sha256 sig = Ret (Ok (SigRsa2048Sha256 sig)).
Proof. by destruct (sig_roundtrip Rsa2048Sha256 (SigRsa2048Sha256 sig) (proj2 sig_len_ok)) as (b & [= <-] & _ & H). Qed.

Definition response : bytes := ascii_bytes "HTTP/1.1 200 OK" ++ [13; 10] ++ message ++ sig ++ [0].

Definition accepted : Su3File :=
  match Su3File_from_http_data true response signers with
  | Ret (Ok f) => f
  | _ => mkSu3File [] [] (Reseed []) Rsa2048Sha256 0 (SigRsa2048Sha256 [])
  end.

Lemma response_accepted : Su3File_from_http_data true response signers = Ret (Ok accepted).
Proof. vm_cast_no_check (@eq_refl (outcome (result Su3File FileError)) (Ret (Ok accepted))). Qed.

Lemma response_ok : bytes_ok response.
Proof. by apply bytes_okb_ok. Qed.

Lemma response_len : len response < 2 ^ 64.
Proof. vm_compute. reflexivity. Qed.

Lemma message_found : split_on SU3_MAGIC ([13; 10] ++ message ++ sig ++ [0]) = Some ([13; 10], message ++ sig ++ [0]).
Proof. vm_cast_no_check (@eq_refl (option (bytes * bytes)) (Some ([13; 10], message ++ sig ++ [0]))). Qed.

End Su3Samples.

(** ** Properties *)

Module Su3Props.
Section Props.
Context {nom : Nom} {text : NomText} {bu : BigUintOps} {sc : SigCrates} {sha : Sha2} {rsa : RsaCrates} {zip : ZipCrate}.

(** three digits are read as the number they show *)
Definition status_shown (n : Z) : bool :=
  match http_status [48 + n / 100; 48 + n / 10 mod 10; 48 + n mod 10] with
  | Ok _ => n =? 200
  | Err (FeHttp m) => (m =? n) && negb (n =? 200)
  | Err _ => false
  end.

Lemma status_digits n : 0 <= n < 1000 -> n <> 200 ->
  http_status [48 + n / 100; 48 + n / 10 mod 10; 48 + n mod 10] = Err (FeHttp n).
Proof.
  intros Hn Hne. assert (forallb status_shown (map Z.of_nat (seq 0 1000)) = true) as H by (vm_compute; reflexivity).
  rewrite forallb_forall in H. assert (status_shown n = true) as Hs.
  { apply H, in_map_iff. exists (Z.to_nat n). split; [lia|]. apply in_seq. lia. }
  unfold status_shown in Hs. destruct (http_status _) as [[]|[]]; try done; [by apply Z.eqb_eq in Hs|].
  apply andb_true_iff in Hs as [->%Z.eqb_eq _]. done.
Qed.

(** C6: Whatever a reseed server answers, the file that is accepted carries a
    signature of one of the known signers, made with a key of the type the file
    names, over exactly the bytes in front of the signature; and everything else
    that was read of the file is determined by those bytes: any file that starts
    with them says the same. *)
Theorem su3_accepts_signed (oc : bool) (input : bytes) (signers : gmap bytes OfflineSigningPublicKey) (f : Su3File) :
  bytes_ok input -> len input < 2 ^ 64 -> Su3File_from_http_data oc input signers = Ret (Ok f) ->
  exists pre msg sig rest pk, input = pre ++ msg ++ sig ++ rest /\
    signers !! su3_signer_of f = Some pk /\ osk_verify pk msg (su3_sig f) = Ok tt /\
    osk_sig_type pk = su3_sig_type f /\ Signature_from_bytes (su3_sig_type f) sig = Ret (Ok (su3_sig f)) /\
    len msg = su3_msg_len f /\ content_wf (su3_content_of f) /\
    forall rest' r g, bytes_ok rest' -> len (msg ++ rest') < 2 ^ 64 -> su3_file oc (msg ++ rest') = POk r g ->
      g = mkSu3File (su3_version_of f) (su3_signer_of f) (su3_content_of f) (su3_sig_type f) (su3_msg_len f) (su3_sig g).
Proof.
  intros Hi Hl H.
  destruct (from_http_data_accepts oc input signers f Hi Hl H) as (pre & rest & msg & sig & m & pk & -> & Hp & Hlm & Hwf & Hls & Hsb & Hf & Hpk & Hv).
  assert (wf_sig (sm_type m) (su3_sig f)) as Hws by exact (proj1 (sig_from_bytes_sound _ _ _ Hls Hsb)).
  destruct f as [fv fs fc ft fn fsig]. cbn [su3_sig] in *. injection Hf as -> -> -> -> ->.
  exists pre, msg, sig, rest, pk. cbn [su3_signer_of su3_sig_type su3_msg_len su3_content_of su3_version_of].
  split; [done|]. split; [done|]. split; [done|]. split; [by eapply osk_verify_type|]. do 3 (split; [done|]).
  intros rest' r g Hr Hlen Hg. rewrite !bytes_ok_app in Hi. destruct Hi as (_ & Hmsg & _).
  rewrite su3_file_split in Hg by (try apply bytes_ok_app; done). rewrite Hp in Hg. cbn [pbind POk] in Hg.
  destruct (signature (sm_type m) rest') as [[[i' s']|]|]; [|done..]. by injection Hg as _ <-.
Qed.

(** C23: A file that is put together as the format says is accepted, whatever its
    unused bytes are, if its signer is known and the signature verifies: after a
    response of status 200, with anything in front of it that does not contain the
    magic bytes and anything behind it, and it says what it was made from. *)
Theorem su3_complete (oc : bool) (signers : gmap bytes OfflineSigningPublicKey) (x : Su3Fill) (t : SigType)
    (version v signer content sig rest headers : bytes) (s : Signature) (pk : OfflineSigningPublicKey)
    (z : zip_archive) (ris : list RouterInfo) (http : Z) :
  fill_ok x -> version_text version v -> signer_text signer -> bytes_ok content -> bytes_ok sig -> bytes_ok rest ->
  let msg := su3_header x t version signer (len content) 0 3 ++ content in
  len (msg ++ sig ++ rest) < 2 ^ 64 -> len sig = sig_len t -> Signature_from_bytes t sig = Ret (Ok s) ->
  ZipArchive_new content = Some z -> zip_router_infos [] z (seq 0 (zip_len z)) = Ret (Ok ris) ->
  signers !! signer = Some pk -> osk_verify pk msg s = Ok tt ->
  http ∈ ascii_bytes "01" ->
  split_on SU3_MAGIC (headers ++ msg ++ sig ++ rest) = Some (headers, msg ++ sig ++ rest) ->
  Su3File_from_http_data oc (http_response http 50 48 48 (headers ++ msg ++ sig ++ rest)) signers =
    Ret (Ok (mkSu3File v signer (Reseed ris) t (len msg) s)).
Proof.
  intros Hx Hv Hs Hc Hsig Hrest msg Hl Hls Hsb Hz Hr Hpk Hver Hh Hsp.
  assert (bytes_ok msg) as Hmsg by (apply bytes_ok_app; split; [by eapply su3_header_ok|done]).
  unfold Su3File_from_http_data. rewrite status_line_read by done. cbn [obind POk].
  change (http_status [50; 48; 48]) with (@Ok unit FileError tt). cbn [obind]. rewrite (nom_take_until_ok _ _ _ _ Hsp). cbn [obind POk].
  unfold Su3File_from_bytes. rewrite su3_file_split by (try done; by rewrite !bytes_ok_app).
  pose proof (len_nonneg content). rewrite !len_app in Hl. pose proof (len_nonneg sig). pose proof (len_nonneg rest).
  assert (len msg = 40 + len version + len signer + len content) as Hlm.
  { unfold msg. rewrite len_app, len_su3_header by apply Hx. lia. }
  unfold msg at 1. rewrite <- app_assoc. rewrite (su3_header_read x t version v) by (try done; unfold u64_ok, u8_ok; llia).
  change (su3_content (len content) 0 3) with (su3_zip_reseed (len content)).
  unfold su3_zip_reseed. rewrite (parses_take (len content) content) by done. cbn [pbind POk]. rewrite Hz.
  rewrite (zip_router_infos_input _ (content ++ sig ++ rest) _ _ _ Hr). cbn [pbind POk sm_type].
  assert (parses (signature t) sig s) as Hps by (eapply parses_map_res; [by apply parses_take|done]).
  rewrite Hps. cbn [pbind POk obind].
  unfold su3_signed, sm_len. cbn [su3_signer_of su3_msg_len su3_sig sm_signer sm_version sm_content sm_type sm_version_len sm_signer_len sm_content_len].
  rewrite Hpk, <- Hlm. destruct (Z.ltb_spec (len (msg ++ sig ++ rest)) (len msg)) as [Hlt|_]; [rewrite !len_app in Hlt; lia|].
  rewrite ztake_app by done. by rewrite Hver.
Qed.

(** A response with another status is reported with that status. *)
Theorem http_status_reported (oc : bool) (signers : gmap bytes OfflineSigningPublicKey) (http n : Z) (rest : bytes) :
  http ∈ ascii_bytes "01" -> 0 <= n < 1000 -> n <> 200 ->
  Su3File_from_http_data oc (http_response http (48 + n / 100) (48 + n / 10 mod 10) (48 + n mod 10) rest) signers =
    Ret (Err (FeHttp n)).
Proof.
  intros Hh Hn Hne. unfold Su3File_from_http_data. rewrite status_line_read by done. cbn [obind POk].
  by rewrite status_digits.
Qed.

(** A file of another type or with other content panics the parser, before
    anything is known of its signature. *)
Theorem su3_other_content_panics (oc : bool) (signers : gmap bytes OfflineSigningPublicKey) (x : Su3Fill) (t : SigType)
    (version v signer rest : bytes) (content_len file_type content_type : Z) :
  fill_ok x -> version_text version v -> signer_text signer -> u64_ok content_len -> u8_ok file_type -> u8_ok content_type ->
  (file_type, content_type) <> (0, 3) -> bytes_ok rest ->
  let data := su3_header x t version signer content_len file_type content_type ++ rest in
  len data < 2 ^ 64 -> Su3File_from_bytes oc data signers = Panic.
Proof.
  intros Hx Hv Hs Hcl Hft Hct Hne Hr data Hl. unfold Su3File_from_bytes. rewrite su3_file_split; [|apply bytes_ok_app; split; [by eapply su3_header_ok|done]|done].
  unfold data. rewrite (su3_header_read x t version v) by done. unfold su3_content.
  destruct (Z.eqb_spec file_type 0) as [->|]; [|done]. destruct (Z.eqb_spec content_type 3) as [->|]; [done|done].
Qed.

End Props.

#[local] Existing Instances nom_ref nom_text_ref biguint_ref sigcrates_ref sha2_ref rsa_ref zip_ref.
Import Su3Samples.

Lemma su3_accepts_signed_witness :
  exists pre msg sig rest pk, response = pre ++ msg ++ sig ++ rest /\
    signers !! su3_signer_of accepted = Some pk /\ osk_verify pk msg (su3_sig accepted) = Ok tt /\
    osk_sig_type pk = su3_sig_type accepted /\
    Signature_from_bytes (su3_sig_type accepted) sig = Ret (Ok (su3_sig accepted)) /\
    len msg = su3_msg_len accepted /\ content_wf (su3_content_of accepted) /\
    forall rest' r g, bytes_ok rest' -> len (msg ++ rest') < 2 ^ 64 -> su3_file true (msg ++ rest') = POk r g ->
      g = mkSu3File (su3_version_of accepted) (su3_signer_of accepted) (su3_content_of accepted) (su3_sig_type accepted)
            (su3_msg_len accepted) (su3_sig g).
Proof. exact (su3_accepts_signed true response signers accepted response_ok response_len response_accepted). Defined.

Lemma su3_complete_witness :
  Su3File_from_http_data true (http_response 49 50 48 48 ([13; 10] ++ message ++ sig ++ [0])) signers =
    Ret (Ok (mkSu3File (ascii_bytes "1539145006") signer (Reseed [ref_parsed]) Rsa2048Sha256 (len message) (SigRsa2048Sha256 sig))).
Proof.
  apply (su3_complete true signers fill Rsa2048Sha256 version (ascii_bytes "1539145006") signer ref_ri_bytes sig [0] [13; 10]
    (SigRsa2048Sha256 sig) key (ref_ri_bytes : @zip_archive zip_ref) [ref_parsed] 49).
  - exact fill_fine.
  - exact version_fine.
  - exact signer_fine.
  - exact ref_bytes_ok.
  - exact (proj1 sig_len_ok).
  - by apply bytes_okb_ok.
  - exact sample_len.
  - exact (proj2 sig_len_ok).
  - exact sig_reads.
  - reflexivity.
  - exact archive_reads.
  - exact (lookup_singleton_eq signer key).
  - exact sig_verifies.
  - apply list_elem_of_In. right. left. reflexivity.
  - exact message_found.
Defined.

Lemma http_status_reported_witness :
  Su3File_from_http_data true (http_response 48 52 48 52 []) signers = Ret (Err (FeHttp 404)).
Proof. apply (http_status_reported true signers 48 404 []); [apply list_elem_of_In; left; reflexivity|lia|lia]. Defined.

Lemma su3_other_content_panics_witness :
  Su3File_from_bytes true (su3_header fill Rsa2048Sha256 version signer 7 1 3 ++ [0]) signers = Panic.
Proof.
  apply (su3_other_content_panics true signers fill Rsa2048Sha256 version (ascii_bytes "1539145006") signer [0] 7 1 3).
  - exact fill_fine.
  - exact version_fine.
  - exact signer_fine.
  - unfold u64_ok. lia.
  - unfold u8_ok. lia.
  - unfold u8_ok. lia.
  - discriminate.
  - by apply bytes_okb_ok.
  - vm_compute. reflexivity.
Defined.

End Su3Props.
