(* ===== verification/Tunnel.v ===== *)
(** * Tunnels: hop data, layered encryption and tunnel messages

    [src/tunnel.rs], [src/tunnel/encryption.rs] and [src/tunnel/frame.rs]: what
    a router remembers of a tunnel it takes part in, the layer of encryption
    each hop adds, and the 1024-byte plaintext format the fragments of I2NP
    messages travel in. *)

From S2P Require Import Prelude Nom Cookie Util Wire Crypto Aes Data I2np.

(** ** Layered encryption *)

(** the IV cipher is kept as its key *)
Record LayerCipher := mkLayerCipher { iv_cipher : SessionKey; lc_layer_key : SessionKey }.

Definition wf_LayerCipher (c : LayerCipher) : Prop :=
  wf_SessionKey (iv_cipher c) /\ wf_SessionKey (lc_layer_key c).

Definition LayerCipher_new (iv_key layer_key : SessionKey) : LayerCipher := mkLayerCipher iv_key layer_key.

Section Layers.
Context {aes : AesCrate}.

(** the IV block is encrypted in place, the 1008 bytes after it with the
    result as IV, and the IV block once more *)
Definition encrypt_layer (c : LayerCipher) (td : TunnelData) : outcome TunnelData :=
  let iv := aes_encrypt_block (key_bytes (iv_cipher c)) (slice 0 16 (td_data td)) in
  let! cipher := Aes256_new (lc_layer_key c) iv (zeros 16) in
  let '(_, data, n) := encrypt_blocks cipher (zdrop 16 (td_data td)) in
  if bool_decide (n = Some 1008) then
    Ret (mkTunnelData (td_tid td) (aes_encrypt_block (key_bytes (iv_cipher c)) iv ++ data))
  else Panic.

Definition decrypt_layer (c : LayerCipher) (td : TunnelData) : outcome TunnelData :=
  let iv := aes_decrypt_block (key_bytes (iv_cipher c)) (slice 0 16 (td_data td)) in
  let! cipher := Aes256_new (lc_layer_key c) (zeros 16) iv in
  let '(_, data, n) := decrypt_blocks cipher (zdrop 16 (td_data td)) in
  if bool_decide (n = Some 1008) then
    Ret (mkTunnelData (td_tid td) (aes_decrypt_block (key_bytes (iv_cipher c)) iv ++ data))
  else Panic.

(** *** Lemmas *)

Lemma wf_zeros_iv : wf_iv (zeros 16).
Proof. split; [apply zeros_ok|done]. Qed.

Lemma Aes256_new_ok k ie id : wf_SessionKey k -> wf_iv ie -> wf_iv id ->
  Aes256_new k ie id = Ret (mkAes256 k ie id) /\ wf_Aes256 (mkAes256 k ie id).
Proof.
  intros [Hk1 Hk2] [He1 He2] [Hd1 Hd2]. unfold Aes256_new. rewrite Hk2, He2, Hd2. by split_and!.
Qed.

(** the IV block and the data of a tunnel data message *)
Lemma split_tunnel_data td : wf_TunnelData td ->
  wf_iv (slice 0 16 (td_data td)) /\ bytes_ok (zdrop 16 (td_data td)) /\ len (zdrop 16 (td_data td)) = 16 * 63 /\
  td = mkTunnelData (td_tid td) (slice 0 16 (td_data td) ++ zdrop 16 (td_data td)).
Proof.
  intros (_ & Hok & Hl). unfold slice, wf_iv. change (zdrop 0 ?l) with l. rewrite Z.sub_0_r.
  split_and!; [by apply bytes_ok_ztake|by rewrite len_ztake by lia|by apply bytes_ok_zdrop| |].
  - rewrite len_zdrop by lia. lia.
  - rewrite ztake_zdrop. by destruct td.
Qed.

Lemma join_tunnel_data tid iv d : wf_TunnelId tid -> wf_iv iv -> bytes_ok d -> len d = 16 * 63 ->
  let td := mkTunnelData tid (iv ++ d) in
  wf_TunnelData td /\ slice 0 16 (td_data td) = iv /\ zdrop 16 (td_data td) = d.
Proof.
  intros Ht [Hi1 Hi2] Hd Hl. cbn. split_and!.
  - split; [done|]. split; [by apply bytes_ok_app|]. cbn. rewrite len_app. lia.
  - unfold slice. change (zdrop 0 ?l) with l. by apply ztake_app.
  - by apply zdrop_app.
Qed.

Lemma wf_iv_enc k iv : wf_SessionKey k -> wf_iv iv -> wf_iv (aes_encrypt_block (key_bytes k) iv).
Proof. intros [] []. split; [by apply aes_enc_ok|by apply aes_enc_len]. Qed.
Lemma wf_iv_dec k iv : wf_SessionKey k -> wf_iv iv -> wf_iv (aes_decrypt_block (key_bytes k) iv).
Proof. intros [] []. split; [by apply aes_dec_ok|by apply aes_dec_len]. Qed.

(** a layer never fails its assertion, and the other direction takes it off *)
Lemma encrypt_layer_ok c td : wf_LayerCipher c -> wf_TunnelData td ->
  exists td', encrypt_layer c td = Ret td' /\ wf_TunnelData td' /\ td_tid td' = td_tid td /\
              decrypt_layer c td' = Ret td.
Proof.
  intros [Hik Hlk] Htd. pose proof (proj1 Htd) as Htid.
  destruct (split_tunnel_data td Htd) as (Hiv & Hd & Hl & Etd).
  set (iv := slice 0 16 (td_data td)) in *. set (d := zdrop 16 (td_data td)) in *.
  pose proof (wf_iv_enc _ _ Hik Hiv) as Hiv1. pose proof (wf_iv_enc _ _ Hik Hiv1) as Hiv2.
  unfold encrypt_layer. fold iv d. set (iv1 := aes_encrypt_block _ iv) in *.
  destruct (Aes256_new_ok _ _ _ Hlk Hiv1 wf_zeros_iv) as [-> Hwa].
  destruct (Aes256_new_ok _ _ _ Hlk wf_zeros_iv Hiv1) as [Enew _]. cbn [obind].
  destruct (encrypt_blocks_whole 63 (mkAes256 (lc_layer_key c) iv1 (zeros 16)) d) as (a' & ct & E); [lia|done|].
  destruct (encrypt_decrypt_blocks _ (mkAes256 (lc_layer_key c) (zeros 16) iv1) _ Hwa (conj eq_refl eq_refl) Hd _ _ _ E)
    as (Hct & Hcto & _ & _ & b' & Ed & _).
  rewrite E. cbn match. eexists. split; [done|].
  destruct (join_tunnel_data (td_tid td) _ ct Htid Hiv2 Hcto ltac:(lia)) as (Hwf & Es & Ez).
  split; [done|]. split; [done|].
  unfold decrypt_layer. rewrite Es, Ez. cbn [td_tid].
  destruct Hik as [Hk1 Hk2], Hiv as [Hi1 Hi2], Hiv1 as [Hj1 Hj2].
  rewrite aes_dec_enc by done. rewrite Enew. cbn [obind]. rewrite Ed. cbn match.
  unfold iv1. rewrite aes_dec_enc by done. cbn [bool_decide]. by rewrite Etd at 2.
Qed.

Lemma decrypt_layer_ok c td : wf_LayerCipher c -> wf_TunnelData td ->
  exists td', decrypt_layer c td = Ret td' /\ wf_TunnelData td' /\ td_tid td' = td_tid td /\
              encrypt_layer c td' = Ret td.
Proof.
  intros [Hik Hlk] Htd. pose proof (proj1 Htd) as Htid.
  destruct (split_tunnel_data td Htd) as (Hiv & Hd & Hl & Etd).
  set (iv := slice 0 16 (td_data td)) in *. set (d := zdrop 16 (td_data td)) in *.
  pose proof (wf_iv_dec _ _ Hik Hiv) as Hiv1. pose proof (wf_iv_dec _ _ Hik Hiv1) as Hiv2.
  unfold decrypt_layer. fold iv d. set (iv1 := aes_decrypt_block _ iv) in *.
  destruct (Aes256_new_ok _ _ _ Hlk wf_zeros_iv Hiv1) as [-> Hwa].
  destruct (Aes256_new_ok _ _ _ Hlk Hiv1 wf_zeros_iv) as [Enew _]. cbn [obind].
  destruct (decrypt_blocks_whole 63 (mkAes256 (lc_layer_key c) (zeros 16) iv1) d) as (a' & pt & E); [lia|done|].
  destruct (decrypt_encrypt_blocks _ (mkAes256 (lc_layer_key c) iv1 (zeros 16)) _ Hwa (conj eq_refl eq_refl) Hd _ _ _ E)
    as (Hct & Hcto & b' & Ed).
  rewrite E. cbn match. eexists. split; [done|].
  destruct (join_tunnel_data (td_tid td) _ pt Htid Hiv2 Hcto ltac:(lia)) as (Hwf & Es & Ez).
  split; [done|]. split; [done|].
  unfold encrypt_layer. rewrite Es, Ez. cbn [td_tid].
  destruct Hik as [Hk1 Hk2], Hiv as [Hi1 Hi2], Hiv1 as [Hj1 Hj2].
  rewrite aes_enc_dec by done. rewrite Enew. cbn [obind]. rewrite Ed. cbn match.
  unfold iv1. rewrite aes_enc_dec by done. cbn [bool_decide]. by rewrite Etd at 2.
Qed.

End Layers.

(** ** Hops *)

(** Lifetime of a tunnel in seconds *)
Definition TUNNEL_LIFETIME : Z := 10 * 60.

Section Hops.
Context {sc : SigCrates}.

Inductive HopData :=
| HdInboundGateway (next_hop : RouterInfo * TunnelId)
| HdIntermediate (from_ident : Hash) (next_hop : RouterInfo * TunnelId)
| HdOutboundEndpoint (from_ident : Hash).

(** [expires]: nanoseconds since the epoch *)
Record HopConfig := mkHopConfig {
  hop_data : HopData;
  layer_cipher : LayerCipher;
  expires : Z
}.

End Hops.

(** ** Tunnel messages *)

Inductive TunnelMessageDeliveryType :=
| DtLocal
| DtTunnel (tid : TunnelId) (to : Hash)
| DtRouter (to : Hash).

Record FirstFragmentDeliveryInstructions := mkFfdi {
  delivery_type : TunnelMessageDeliveryType;
  ff_msg_id : option Z
}.

Record FollowOnFragmentDeliveryInstructions := mkFofdi {
  fragment_number : Z;
  last_fragment : bool;
  fo_msg_id : Z
}.

Inductive TunnelMessageDeliveryInstructions :=
| TmdiFirst (di : FirstFragmentDeliveryInstructions)
| TmdiFollowOn (di : FollowOnFragmentDeliveryInstructions).

Definition tmdi_byte_len (d : TunnelMessageDeliveryInstructions) : Z :=
  match d with
  | TmdiFirst di =>
      let len := 1 + match delivery_type di with DtLocal => 0 | DtTunnel _ _ => 36 | DtRouter _ => 32 end in
      if is_some (ff_msg_id di) then len + 4 else len
  | TmdiFollowOn _ => 5
  end.

Abbreviation TunnelMessage := (list (TunnelMessageDeliveryInstructions * bytes)).

Definition tm_byte_len (tm : TunnelMessage) : Z :=
  foldl (fun acc '(d, frag) => acc + tmdi_byte_len d + 2 + len frag) 0 tm.

Section Frame.
Context {nom : Nom} {cf : CookieFactory} {sha : Sha2}.

Definition checksum (buf iv : bytes) : Z := be_val (slice 0 4 (sha256 (buf ++ iv))).

Definition validate_checksum (input : bytes) (cs : Z) (buf iv : bytes) : IResult bytes unit :=
  if cs =? checksum buf iv then POk input tt else PErr (Error input KVerify).

Definition gen_checksum (start end_ : Z) (iv : bytes) : gen := fun '(buf, idx) =>
  gen_be_u32 (checksum (slice start end_ buf) iv) (buf, idx).

Definition gen_nonzero_padding (length : Z) : gen := gen_many (replicate (Z.to_nat length) 1) gen_be_u8.

(** *** Delivery instructions *)

Definition first_frag_di : parser bytes FirstFragmentDeliveryInstructions := fun i =>
  let_p (i, (delivery_type, fragmented)) :=
    map_pure
      (nom_bits (nom_pair (take_bits 1) (nom_pair (take_bits 2)
                  (nom_pair (take_bits 1) (nom_pair (take_bits 1) (take_bits 3))))))
      (fun '(_, (delivery_type, (_, (fragmented, _)))) => (delivery_type, fragmented >? 0)) i in
  let_p (i, delivery_type) :=
    (if delivery_type =? 0 then POk i DtLocal
     else if delivery_type =? 1 then map_pure (nom_pair tunnel_id hash) (fun '(tid, to) => DtTunnel tid to) i
     else if delivery_type =? 2 then map_pure hash DtRouter i
     else PErr (Error i KChar)) in
  let_p (i, msg_id) := nom_cond fragmented be_u32 i in
  POk i (mkFfdi delivery_type msg_id).

Definition ffdi_flags (di : FirstFragmentDeliveryInstructions) : Z :=
  let code := match delivery_type di with DtLocal => 0 | DtTunnel _ _ => 1 | DtRouter _ => 2 end in
  let x := Z.lor 0 (Z.land (as_u8 (Z.shiftl code 5)) 96) in
  if is_some (ff_msg_id di) then Z.lor x 8 else x.

Definition gen_msg_id (o : option Z) : gen := gen_cond (is_some o) (gen_unwrap o gen_be_u32).

Definition gen_first_frag_di (di : FirstFragmentDeliveryInstructions) : gen :=
  let x := ffdi_flags di in
  match delivery_type di with
  | DtLocal => gen_be_u8 x >>> gen_msg_id (ff_msg_id di)
  | DtTunnel tid to => gen_be_u8 x >>> gen_tunnel_id tid >>> gen_hash to >>> gen_msg_id (ff_msg_id di)
  | DtRouter to => gen_be_u8 x >>> gen_hash to >>> gen_msg_id (ff_msg_id di)
  end.

Definition follow_on_frag_di : parser bytes FollowOnFragmentDeliveryInstructions :=
  map_pure
    (nom_pair
      (map_pure (nom_bits (nom_pair (take_bits 1) (nom_pair (take_bits 6) (take_bits 1))))
        (fun '(_, (fragment_number, last_fragment)) => (fragment_number, last_fragment >? 0)))
      be_u32)
    (fun '(flags, msg_id) => mkFofdi flags.1 flags.2 msg_id).

Definition fofdi_flags (di : FollowOnFragmentDeliveryInstructions) : Z :=
  let x := 128 in
  let x := Z.lor x (Z.land (as_u8 (Z.shiftl (fragment_number di) 1)) 126) in
  if last_fragment di then Z.lor x 1 else x.

Definition gen_follow_on_frag_di (di : FollowOnFragmentDeliveryInstructions) : gen :=
  gen_be_u8 (fofdi_flags di) >>> gen_be_u32 (fo_msg_id di).

Definition tmdi : parser bytes TunnelMessageDeliveryInstructions := fun i =>
  let_p (i, first) := nom_peek (map_pure (nom_bits (take_bits 1)) (fun b => b =? 0)) i in
  if first : bool then map_pure first_frag_di TmdiFirst i
  else map_pure follow_on_frag_di TmdiFollowOn i.

Definition gen_tmdi (d : TunnelMessageDeliveryInstructions) : gen :=
  match d with
  | TmdiFirst di => gen_first_frag_di di
  | TmdiFollowOn di => gen_follow_on_frag_di di
  end.

(** *** The message *)

(** [oc]: overflow checks, for the number of bytes after the padding *)
Definition tunnel_message (oc : bool) : parser bytes TunnelMessage := fun i =>
  let_p (i, (iv, (cs, padding))) :=
    terminated (nom_pair (nom_take 16) (nom_pair be_u32 (take_until_byte 0))) (nom_tag [0]) i in
  let! n := checked oc 64 (1008 - 4 - len padding - 1) in
  preceded
    (nom_verify (nom_peek (nom_take n)) (fun msg_bytes => checksum msg_bytes iv =? cs))
    (map_pure (many0 (complete (nom_pair tmdi (length_data be_u16)))) id) i.

Definition gen_tmdi_fragment_pair (p : TunnelMessageDeliveryInstructions * bytes) : gen :=
  gen_tmdi p.1 >>> gen_be_u16 (as_u16 (len p.2)) >>> gen_slice p.2.

Definition gen_tunnel_message (oc : bool) (iv : bytes) (tm : TunnelMessage) : gen :=
  gen_slice iv >>>
  label cs : gen_skip 4 >>>
  (fun s => let! n := checked oc 64 (1008 - 4 - 1 - tm_byte_len tm) in gen_nonzero_padding n s) >>>
  gen_be_u8 0 >>>
  label msg_start : gen_many tm gen_tmdi_fragment_pair >>>
  gen_label (fun msg_end => gen_at_offset cs (gen_checksum msg_start msg_end iv)).

(** *** Well-formedness and encodings *)

Definition wf_ffdi (di : FirstFragmentDeliveryInstructions) : Prop :=
  match delivery_type di with
  | DtLocal => True
  | DtTunnel tid to => wf_TunnelId tid /\ wf_Hash to
  | DtRouter to => wf_Hash to
  end /\ wf_opt u32_ok (ff_msg_id di).

Definition wf_fofdi (di : FollowOnFragmentDeliveryInstructions) : Prop :=
  0 <= fragment_number di < 2 ^ 6 /\ u32_ok (fo_msg_id di).

Definition wf_tmdi (d : TunnelMessageDeliveryInstructions) : Prop :=
  match d with TmdiFirst di => wf_ffdi di | TmdiFollowOn di => wf_fofdi di end.

Definition wf_fragment (p : TunnelMessageDeliveryInstructions * bytes) : Prop :=
  wf_tmdi p.1 /\ bytes_ok p.2 /\ u16_ok (len p.2).

Definition enc_msg_id (o : option Z) : bytes :=
  match o with Some v => be_bytes 4 v | None => [] end.

Definition enc_dt (t : TunnelMessageDeliveryType) : bytes :=
  match t with
  | DtLocal => []
  | DtTunnel tid to => be_bytes 4 (tid_val tid) ++ hash_bytes to
  | DtRouter to => hash_bytes to
  end.

Definition enc_ffdi_tail (di : FirstFragmentDeliveryInstructions) : bytes :=
  enc_dt (delivery_type di) ++ enc_msg_id (ff_msg_id di).

Definition enc_tmdi (d : TunnelMessageDeliveryInstructions) : bytes :=
  match d with
  | TmdiFirst di => [ffdi_flags di] ++ enc_ffdi_tail di
  | TmdiFollowOn di => [fofdi_flags di] ++ be_bytes 4 (fo_msg_id di)
  end.

Definition enc_fragment (p : TunnelMessageDeliveryInstructions * bytes) : bytes :=
  enc_tmdi p.1 ++ be_bytes 2 (len p.2) ++ p.2.

(** *** Flag bytes *)

Lemma first_bit_peek b i :
  nom_peek (map_pure (nom_bits (take_bits 1)) (fun b => b =? 0)) (b :: i) =
  POk (b :: i) (b / 2 ^ 7 mod 2 ^ 1 =? 0).
Proof.
  rewrite nom_peek_eq. unfold map_pure. rewrite nom_map_eq, nom_bits_eq, (take_bits_in 1 0) by lia. done.
Qed.

Lemma first_frag_bits b i :
  nom_bits (nom_pair (take_bits 1) (nom_pair (take_bits 2)
    (nom_pair (take_bits 1) (nom_pair (take_bits 1) (take_bits 3))))) (b :: i) =
  POk i (b / 2 ^ 7 mod 2 ^ 1, (b / 2 ^ 5 mod 2 ^ 2, (b / 2 ^ 4 mod 2 ^ 1, (b / 2 ^ 3 mod 2 ^ 1, b mod 2 ^ 3)))).
Proof.
  apply bits_byte. rewrite nom_pair_eq, (take_bits_in 1 0) by lia. cbn [pbind POk].
  rewrite nom_pair_eq, (take_bits_in 2 (0 + 1)) by lia. cbn [pbind POk].
  rewrite nom_pair_eq, (take_bits_in 1 (0 + 1 + 2)) by lia. cbn [pbind POk].
  rewrite nom_pair_eq, (take_bits_in 1 (0 + 1 + 2 + 1)) by lia. cbn [pbind POk].
  by rewrite take_bits_end by lia.
Qed.

Lemma follow_on_bits b i :
  nom_bits (nom_pair (take_bits 1) (nom_pair (take_bits 6) (take_bits 1))) (b :: i) =
  POk i (b / 2 ^ 7 mod 2 ^ 1, (b / 2 ^ 1 mod 2 ^ 6, b mod 2 ^ 1)).
Proof.
  apply bits_byte. rewrite nom_pair_eq, (take_bits_in 1 0) by lia. cbn [pbind POk].
  rewrite nom_pair_eq, (take_bits_in 6 (0 + 1)) by lia. cbn [pbind POk].
  by rewrite take_bits_end by lia.
Qed.

Definition dt_code (t : TunnelMessageDeliveryType) : Z :=
  match t with DtLocal => 0 | DtTunnel _ _ => 1 | DtRouter _ => 2 end.

Lemma ffdi_flags_spec di :
  let b := ffdi_flags di in
  byte_ok b /\ b / 2 ^ 7 mod 2 ^ 1 = 0 /\ b / 2 ^ 5 mod 2 ^ 2 = dt_code (delivery_type di) /\
  (b / 2 ^ 3 mod 2 ^ 1 >? 0) = is_some (ff_msg_id di).
Proof. by destruct di as [[] []]. Qed.

Lemma fofdi_flags_spec di : wf_fofdi di ->
  let b := fofdi_flags di in
  byte_ok b /\ b / 2 ^ 7 mod 2 ^ 1 = 1 /\ b / 2 ^ 1 mod 2 ^ 6 = fragment_number di /\
  (b mod 2 ^ 1 >? 0) = last_fragment di.
Proof.
  destruct di as [n l id]. intros [Hn _]. cbn in Hn. unfold fofdi_flags. cbn [fragment_number last_fragment].
  assert (n = 0 \/ Exists (eq n) (seqZ 1 63)) as [->|Hin].
  { destruct (Z.eq_dec n 0) as [|Hne]; [by left|right]. apply Exists_exists. exists n. split; [|done].
    apply elem_of_seqZ. lia. }
  - by destruct l.
  - revert Hin. cbn. intros Hin.
    repeat (apply Exists_cons in Hin as [->|Hin]; [by destruct l|]). by apply Exists_nil in Hin.
Qed.

(** *** Delivery instructions on the wire *)

Lemma writes_msg_id o : writes (gen_msg_id o) (enc_msg_id o).
Proof. destruct o; [apply writes_cond_true, writes_unwrap, writes_be_u32|apply writes_cond_false]. Qed.

Lemma parses_msg_id o : wf_opt u32_ok o -> parses (nom_cond (is_some o) be_u32) (enc_msg_id o) o.
Proof. destruct o; intros H; [by apply parses_cond_true, parses_be_u32|apply parses_cond_false]. Qed.

Lemma writes_tmdi d : wf_tmdi d -> writes (gen_tmdi d) (enc_tmdi d).
Proof.
  intros Hwf. destruct d as [di|di]; cbn [gen_tmdi enc_tmdi].
  - destruct (ffdi_flags_spec di) as [Hb _]. rewrite <- be_bytes_1 by done.
    destruct di as [[|tid to|to] o]; unfold gen_first_frag_di, enc_ffdi_tail; cbn [delivery_type ff_msg_id enc_dt];
      rewrite <- ?app_assoc, ?app_nil_l; repeat apply writes_seq;
      apply writes_be_u8 || apply writes_msg_id || apply writes_be_u32 || apply writes_slice.
  - destruct (fofdi_flags_spec di Hwf) as [Hb _]. rewrite <- be_bytes_1 by done.
    apply writes_seq; [apply writes_be_u8|apply writes_be_u32].
Qed.

Lemma parses_first_frag_di di : wf_ffdi di -> parses first_frag_di ([ffdi_flags di] ++ enc_ffdi_tail di) di.
Proof.
  intros [Hdt Hid]. destruct (ffdi_flags_spec di) as (Hb & _ & Ht & Hf).
  unfold first_frag_di. eapply parses_bind.
  { intros rest. unfold map_pure. rewrite nom_map_eq. cbn [app]. rewrite first_frag_bits. reflexivity. }
  intros rest. cbv beta iota. rewrite Ht, Hf. unfold enc_ffdi_tail. rewrite <- app_assoc.
  assert (forall r, (if dt_code (delivery_type di) =? 0 then POk (enc_dt (delivery_type di) ++ r) DtLocal
    else if dt_code (delivery_type di) =? 1
    then map_pure (nom_pair tunnel_id hash) (fun '(tid, to) => DtTunnel tid to) (enc_dt (delivery_type di) ++ r)
    else if dt_code (delivery_type di) =? 2 then map_pure hash DtRouter (enc_dt (delivery_type di) ++ r)
    else PErr (Error (enc_dt (delivery_type di) ++ r) KChar)) = POk r (delivery_type di)) as ->.
  { destruct (delivery_type di) as [|tid to|to]; cbn [dt_code enc_dt Z.eqb Pos.eqb]; intros r.
    + reflexivity.
    + eapply parses_map_pure; [apply parses_pair|reflexivity].
      * eapply rt_parses; [apply rt_tunnel_id, Hdt|apply writes_be_u32].
      * eapply rt_parses; [apply rt_hash, Hdt|apply writes_slice].
    + eapply parses_map_pure; [|reflexivity]. eapply rt_parses; [apply rt_hash, Hdt|apply writes_slice]. }
  cbn [pbind POk]. rewrite (parses_msg_id _ Hid). by destruct di.
Qed.

Lemma parses_follow_on_frag_di di :
  wf_fofdi di -> parses follow_on_frag_di ([fofdi_flags di] ++ be_bytes 4 (fo_msg_id di)) di.
Proof.
  intros Hwf. destruct (fofdi_flags_spec di Hwf) as (Hb & _ & Hn & Hl).
  eapply parses_map_pure; [apply parses_pair|].
  - eapply parses_map_pure; [intros rest; apply follow_on_bits|reflexivity].
  - apply parses_be_u32, Hwf.
  - cbv beta iota. rewrite Hn, Hl. by destruct di.
Qed.

Lemma parses_tmdi d : wf_tmdi d -> parses tmdi (enc_tmdi d) d.
Proof.
  intros Hwf rest. unfold tmdi. destruct d as [di|di]; cbn [enc_tmdi].
  - rewrite <- app_assoc. cbn [app]. rewrite first_bit_peek.
    destruct (ffdi_flags_spec di) as (_ & -> & _). cbn [pbind POk Z.eqb].
    pose proof (parses_first_frag_di di Hwf) as H.
    change (ffdi_flags di :: enc_ffdi_tail di ++ rest) with (([ffdi_flags di] ++ enc_ffdi_tail di) ++ rest).
    by apply (parses_map_pure _ TmdiFirst _ _ _ H).
  - rewrite <- app_assoc. cbn [app]. rewrite first_bit_peek.
    destruct (fofdi_flags_spec di Hwf) as (_ & -> & _). cbn [pbind POk Z.eqb].
    pose proof (parses_follow_on_frag_di di Hwf) as H.
    change (fofdi_flags di :: be_bytes 4 (fo_msg_id di) ++ rest)
      with (([fofdi_flags di] ++ be_bytes 4 (fo_msg_id di)) ++ rest).
    by apply (parses_map_pure _ TmdiFollowOn _ _ _ H).
Qed.

Lemma len_enc_tmdi d : wf_tmdi d -> len (enc_tmdi d) = tmdi_byte_len d.
Proof.
  destruct d as [[t o]|di]; [|intros _; cbn [enc_tmdi tmdi_byte_len]; llia].
  intros [Ht _]. cbn [enc_tmdi tmdi_byte_len]. unfold enc_ffdi_tail. cbn in *.
  rewrite !len_cons, !len_app. destruct t as [|tid to|to], o; cbn [is_some enc_msg_id enc_dt];
    unfold wf_Hash in Ht; llia.
Qed.

(** *** The message on the wire *)

Lemma writes_fragment p : wf_fragment p -> writes (gen_tmdi_fragment_pair p) (enc_fragment p).
Proof.
  intros (Hd & _ & Hl). unfold gen_tmdi_fragment_pair, enc_fragment, as_u16.
  rewrite Z.mod_small by done. repeat apply writes_seq; [by apply writes_tmdi|apply writes_be_u16|apply writes_slice].
Qed.

Lemma parses_fragment p : wf_fragment p -> parses (nom_pair tmdi (length_data be_u16)) (enc_fragment p) p.
Proof.
  intros (Hd & _ & Hl). destruct p as [d f]. apply parses_pair; [by apply parses_tmdi|].
  eapply parses_length_data; [by apply parses_be_u16|done].
Qed.

Lemma fragment_nil : exists k, nom_pair tmdi (length_data be_u16) [] = PErr (Incomplete k).
Proof.
  destruct (take_bits_short 1) as [k Hk]; [lia|]. destruct (nom_bits_short _ _ _ _ Hk) as [k' Hk'].
  exists k'. rewrite nom_pair_eq. unfold tmdi, map_pure. by rewrite nom_peek_eq, nom_map_eq, Hk'.
Qed.

Lemma len_enc_fragment p : wf_fragment p ->
  len (enc_fragment p) = tmdi_byte_len p.1 + 2 + len p.2 /\ 0 < len (enc_fragment p).
Proof.
  intros (Hd & _ & Hl). unfold enc_fragment. rewrite !len_app, len_be_bytes, (len_enc_tmdi _ Hd).
  assert (0 < tmdi_byte_len p.1) by (destruct p as [[[[]  []]|] ?]; cbn; lia).
  split; llia.
Qed.

(** [byte_len] is the number of bytes the fragments take *)
Lemma len_fragments tm : Forall wf_fragment tm -> len (concat (map enc_fragment tm)) = tm_byte_len tm.
Proof.
  intros H. unfold tm_byte_len.
  assert (forall acc, acc + len (concat (map enc_fragment tm)) =
    foldl (fun acc '(d, frag) => acc + tmdi_byte_len d + 2 + len frag) acc tm) as Hg.
  { induction H as [|p l Hp _ IH]; intros acc; cbn [map concat foldl]; [rewrite len_nil; lia|].
    rewrite len_app, (proj1 (len_enc_fragment _ Hp)). destruct p as [d f]. cbn [fst snd].
    rewrite <- IH. lia. }
  rewrite <- Hg. lia.
Qed.

Lemma tm_byte_len_nonneg tm : Forall wf_fragment tm -> 0 <= tm_byte_len tm.
Proof. intros H. rewrite <- len_fragments by done. apply len_nonneg. Qed.

Definition enc_tunnel_message (iv : bytes) (tm : TunnelMessage) : bytes :=
  let body := concat (map enc_fragment tm) in
  iv ++ be_bytes 4 (checksum body iv) ++ replicate (Z.to_nat (1003 - tm_byte_len tm)) 1 ++ [0] ++ body.

Lemma writes_nonzero_padding n : writes (gen_nonzero_padding n) (replicate (Z.to_nat n) 1).
Proof.
  unfold gen_nonzero_padding. generalize (Z.to_nat n) as k. intros k.
  assert (forall k : nat, concat (map (be_bytes 1) (replicate k 1)) = replicate k 1) as E.
  { induction k0 as [|k0 IH]; [done|]. cbn [replicate map concat]. by rewrite IH. }
  eapply writes_eq; [|apply E]. apply writes_many. apply Forall_forall. intros x _. apply writes_be_u8.
Qed.

Lemma writes_tunnel_message oc iv tm :
  len iv = 16 -> Forall wf_fragment tm -> tm_byte_len tm <= 1003 ->
  writes (gen_tunnel_message oc iv tm) (enc_tunnel_message iv tm).
Proof.
  intros Hiv Hwf Hl. pose proof (tm_byte_len_nonneg tm Hwf).
  unfold gen_tunnel_message, enc_tunnel_message.
  apply writes_seq; [apply writes_slice|]. apply writes_patched.
  - assert (checked oc 64 (1008 - 4 - 1 - tm_byte_len tm) = Ret (1003 - tm_byte_len tm)) as ->.
    { unfold checked. rewrite (proj2 (Z.leb_le 0 _)), (proj2 (Z.ltb_lt _ _)) by lia. cbn. do 2 f_equal. }
    cbn [obind]. apply writes_nonzero_padding.
  - change [0] with (be_bytes 1 0). apply writes_be_u8.
  - apply writes_many. eapply Forall_impl; [exact Hwf|]. apply writes_fragment.
  - by rewrite len_be_bytes.
  - intros pre old post Ho. unfold gen_checksum.
    set (pad := replicate _ 1). set (body := concat _).
    replace (pre ++ old ++ pad ++ [0] ++ body ++ post) with ((pre ++ old ++ pad ++ [0]) ++ body ++ post) at 1
      by (by rewrite <- !app_assoc).
    rewrite slice_app by done. by apply writes_at; [apply writes_be_u32|rewrite len_be_bytes|].
Qed.

Lemma len_tunnel_message iv tm :
  len iv = 16 -> Forall wf_fragment tm -> tm_byte_len tm <= 1003 -> len (enc_tunnel_message iv tm) = 1024.
Proof.
  intros Hiv Hwf Hl. pose proof (tm_byte_len_nonneg tm Hwf). unfold enc_tunnel_message.
  rewrite !len_app, len_be_bytes, len_replicate, len_fragments by done. llia.
Qed.

Lemma checksum_u32 buf iv : u32_ok (checksum buf iv).
Proof.
  unfold checksum. set (s := slice 0 4 _).
  assert (len s = 4 /\ bytes_ok s) as [Hs Ho].
  { subst s. unfold slice. pose proof (sha256_len (buf ++ iv)). change (zdrop 0 ?l) with l.
    rewrite len_ztake by lia. split; [done|]. apply bytes_ok_ztake, sha256_ok. }
  pose proof (be_val_bound s Ho) as H. by rewrite Hs in H.
Qed.

Lemma parses_tunnel_message oc iv tm :
  len iv = 16 -> Forall wf_fragment tm -> tm_byte_len tm <= 1003 ->
  tunnel_message oc (enc_tunnel_message iv tm) = POk [] tm.
Proof.
  intros Hiv Hwf Hl. pose proof (tm_byte_len_nonneg tm Hwf). unfold enc_tunnel_message, tunnel_message.
  set (body := concat _). set (n := 1003 - tm_byte_len tm).
  rewrite terminated_eq, !nom_pair_eq, (parses_take 16) by done. cbn [pbind POk].
  rewrite nom_pair_eq, (parses_be_u32 _ (checksum_u32 _ _)). cbn [pbind POk].
  change ([0] ++ body) with (0 :: body).
  rewrite take_until_ok by (apply Forall_replicate; lia). cbn [pbind POk].
  change (0 :: body) with ([0] ++ body). rewrite parses_tag. cbn [pbind POk].
  rewrite len_replicate.
  assert (checked oc 64 (1008 - 4 - Z.of_nat (Z.to_nat n) - 1) = Ret (tm_byte_len tm)) as ->.
  { unfold checked. rewrite (proj2 (Z.leb_le 0 _)), (proj2 (Z.ltb_lt _ _)) by lia. cbn. f_equal. lia. }
  cbn [obind]. rewrite preceded_eq, nom_verify_eq, nom_peek_eq.
  rewrite (parses_exact _ _ _ (parses_take _ body ltac:(symmetry; by apply len_fragments))). cbn [pbind POk].
  rewrite Z.eqb_refl. cbn [pbind POk]. unfold map_pure. rewrite nom_map_eq.
  destruct fragment_nil as [k Hk]. unfold body.
  rewrite (many0_complete_all _ enc_fragment tm k); [done| |exact Hk].
  eapply Forall_impl; [exact Hwf|]. intros p Hp. split; [by apply parses_fragment|by apply len_enc_fragment].
Qed.

(** *** What the parser accepts *)

Lemma total_bits {A} (p : parser bit_input A) (f : Z -> A) :
  (forall b i, nom_bits p (b :: i) = POk i (f b)) -> (exists k, p ([], 0) = PErr (Incomplete k)) ->
  total (nom_bits p).
Proof.
  intros Hp [k Hk] [|b i] _; [by destruct (bits_nil p k Hk) as [k' ->]|by rewrite Hp].
Qed.

Lemma sound_bits_f {A} (p : parser bit_input A) (f : Z -> A) P :
  (forall b i, nom_bits p (b :: i) = POk i (f b)) -> (exists k, p ([], 0) = PErr (Incomplete k)) ->
  (forall b, byte_ok b -> P (f b)) -> sound (nom_bits p) P.
Proof.
  intros Hp [k Hk] HP [|b i] r a Hi H.
  - destruct (bits_nil p k Hk) as [k' Hk']. rewrite Hk' in H. discriminate H.
  - rewrite Hp in H. injection H as <- <-. apply Forall_cons in Hi as [Hb _].
    split; [by apply HP|by exists [b]].
Qed.

Lemma pair_bits_nil {A} n (q : parser bit_input A) : 0 < n ->
  exists k, nom_pair (take_bits n) q ([], 0) = PErr (Incomplete k).
Proof. intros Hn. destruct (take_bits_short n Hn) as [k Hk]. exists k. by rewrite nom_pair_eq, Hk. Qed.

Lemma sound_wf_cond (b : bool) : sound (nom_cond b be_u32) (wf_opt u32_ok).
Proof. eapply sound_weaken; [apply sound_cond, sound_be_u32|]. by intros [v|]; [intros []|]. Qed.

Lemma total_hash : total hash.
Proof. by apply total_map_pure, total_take. Qed.
Lemma total_tunnel_id : total tunnel_id.
Proof. apply total_map_pure, total_be_u32. Qed.

(** the delivery type is read by four branches *)
Lemma delivery_type_branches (t : Z) :
  let p := fun i =>
    if t =? 0 then POk i DtLocal
    else if t =? 1 then map_pure (nom_pair tunnel_id hash) (fun '(tid, to) => DtTunnel tid to) i
    else if t =? 2 then map_pure hash DtRouter i
    else PErr (Error i KChar) in
  total p /\ sound p (fun t => match t with
                               | DtLocal => True
                               | DtTunnel tid to => wf_TunnelId tid /\ wf_Hash to
                               | DtRouter to => wf_Hash to
                               end).
Proof.
  cbv zeta. destruct (t =? 0); [|destruct (t =? 1); [|destruct (t =? 2)]].
  - split; [apply total_ok|by apply sound_ret].
  - split; [eapply total_map_pure, total_pair; [apply total_tunnel_id|apply sound_tunnel_id|apply total_hash]|].
    eapply sound_map_pure; [apply sound_pair; [apply sound_tunnel_id|apply sound_hash]|by intros []].
  - split; [apply total_map_pure, total_hash|by eapply sound_map_pure; [apply sound_hash|]].
  - split; [apply total_err|apply sound_err].
Qed.

Lemma first_frag_di_spec : total first_frag_di /\ sound first_frag_di wf_ffdi.
Proof.
  assert (forall P, (forall b, byte_ok b -> P (b / 2 ^ 7 mod 2 ^ 1, (b / 2 ^ 5 mod 2 ^ 2,
    (b / 2 ^ 4 mod 2 ^ 1, (b / 2 ^ 3 mod 2 ^ 1, b mod 2 ^ 3))))) ->
    sound (nom_bits (nom_pair (take_bits 1) (nom_pair (take_bits 2)
      (nom_pair (take_bits 1) (nom_pair (take_bits 1) (take_bits 3)))))) P) as Hs.
  { intros P. eapply sound_bits_f; [apply first_frag_bits|by apply pair_bits_nil]. }
  split.
  - eapply total_bind; [|eapply (sound_map_pure _ _ (fun _ => True) (fun _ => True)); [by apply Hs|done]|].
    { eapply total_map_pure, total_bits; [apply first_frag_bits|by apply pair_bits_nil]. }
    intros [t f] _. cbv beta iota. destruct (delivery_type_branches t) as [Ht Hsd].
    eapply total_bind; [exact Ht|exact Hsd|]. intros dt Hdt. cbv beta.
    eapply total_bind; [apply total_cond, total_be_u32|apply sound_wf_cond|]. intros o _. apply total_ok.
  - eapply sound_bind; [eapply (sound_map_pure _ _ (fun _ => True) (fun _ => True)); [by apply Hs|done]|].
    intros [t f] _. cbv beta iota. destruct (delivery_type_branches t) as [_ Hsd].
    eapply sound_bind; [exact Hsd|]. intros dt Hdt. cbv beta.
    eapply sound_bind; [apply sound_wf_cond|]. intros o Ho. by apply sound_ret.
Qed.

Lemma follow_on_frag_di_spec : total follow_on_frag_di /\ sound follow_on_frag_di wf_fofdi.
Proof.
  assert (sound (map_pure (nom_bits (nom_pair (take_bits 1) (nom_pair (take_bits 6) (take_bits 1))))
    (fun '(_, (n, l)) => (n, l >? 0))) (fun v => 0 <= v.1 < 2 ^ 6)) as Hs.
  { eapply (sound_map_pure _ _ (fun v => 0 <= v.2.1 < 2 ^ 6)); [|by intros (? & ? & ?)].
    eapply sound_bits_f; [apply follow_on_bits|by apply pair_bits_nil|].
    intros b Hb. cbn [fst snd]. apply Z.mod_pos_bound. lia. }
  split.
  - eapply total_map_pure, total_pair; [|exact Hs|apply total_be_u32].
    eapply total_map_pure, total_bits; [apply follow_on_bits|by apply pair_bits_nil].
  - eapply sound_map_pure; [apply sound_pair; [exact Hs|apply sound_be_u32]|]. by intros [[n l] id].
Qed.

Lemma tmdi_spec : total tmdi /\ sound tmdi wf_tmdi.
Proof.
  assert (forall b i, nom_bits (take_bits 1) (b :: i) = POk i (b / 2 ^ 7 mod 2 ^ 1)) as Hb.
  { intros b i. by rewrite nom_bits_eq, (take_bits_in 1 0) by lia. }
  assert (exists k, take_bits 1 ([], 0) = PErr (Incomplete k)) as Hn by by apply take_bits_short.
  assert (sound (nom_peek (map_pure (nom_bits (take_bits 1)) (fun b => b =? 0))) (fun _ => True)) as Hs.
  { apply sound_peek. eapply (sound_map_pure _ _ (fun _ => True)); [eapply (sound_bits_f _ _ _ Hb Hn); done|done]. }
  destruct first_frag_di_spec as [F1 F2], follow_on_frag_di_spec as [O1 O2]. split.
  - eapply total_bind; [|exact Hs|].
    { eapply total_peek, total_map_pure, total_bits; [exact Hb|exact Hn]. }
    intros [] _; by apply total_map_pure.
  - eapply sound_bind; [exact Hs|]. intros [] _; by eapply sound_map_pure.
Qed.

Lemma fragment_spec : total (nom_pair tmdi (length_data be_u16)) /\
  sound (nom_pair tmdi (length_data be_u16)) wf_fragment.
Proof.
  destruct tmdi_spec as [T1 T2].
  pose proof (sound_length_data be_u16 u16_ok sound_be_u16 ltac:(by intros ? [])) as Hd.
  split.
  - eapply total_pair; [exact T1|exact T2|].
    eapply total_length_data; [apply total_be_u16|apply sound_be_u16|by intros ? []].
  - eapply sound_weaken; [by apply sound_pair|]. by intros [d f] (? & ? & ?).
Qed.

Lemma sound_tunnel_message oc : sound (tunnel_message oc) (Forall wf_fragment).
Proof.
  unfold tunnel_message. destruct fragment_spec as [_ F].
  eapply (sound_bind _ _ (fun _ => True)).
  - eapply sound_weaken; [eapply sound_terminated|done].
    + apply sound_pair; [by apply sound_take|]. apply sound_pair; [apply sound_be_u32|apply sound_take_until].
    + apply sound_tag.
  - intros (iv & cs & padding) _. cbv beta iota.
    unfold checked. destruct (_ && _) eqn:E; [|destruct oc; [apply sound_panic|]]; cbn [obind].
    + apply andb_prop in E as [E _]. apply Z.leb_le in E. eapply sound_preceded.
      * eapply sound_verify, sound_peek, sound_take, E.
      * eapply sound_map_pure; [eapply sound_many0, sound_complete, F|done].
    + eapply sound_preceded.
      * eapply sound_verify, sound_peek, sound_take. by apply Z.mod_pos_bound.
      * eapply sound_map_pure; [eapply sound_many0, sound_complete, F|done].
Qed.

(** in a message of 1024 bytes the padding is too short for an underflow *)
Lemma tunnel_message_never_panics oc i :
  bytes_ok i -> len i <= 1024 -> tunnel_message oc i <> Panic.
Proof.
  intros Hi Hl. unfold tunnel_message.
  set (p := terminated _ _). assert (total p) as Hp.
  { eapply total_terminated; [|apply (sound_pair _ _ (fun b => bytes_ok b /\ len b = 16) (fun _ => True))|apply total_tag].
    - eapply total_pair; [by apply total_take|by apply sound_take|].
      eapply total_pair; [apply total_be_u32|apply sound_be_u32|apply total_take_until].
    - by apply sound_take.
    - eapply sound_weaken; [apply sound_pair; [apply sound_be_u32|apply sound_take_until]|done]. }
  destruct (p i) as [[[i1 [iv [cs padding]]]|e]|] eqn:E; [|done|by destruct (Hp i Hi)].
  cbn [pbind]. assert (bytes_ok i1 /\ len padding <= 1003) as [Hi1 Hpad].
  { subst p. rewrite terminated_eq, nom_pair_eq in E.
    destruct (Z.le_gt_cases 16 (len i)) as [H16|H16].
    2: { destruct (nom_take_short 16 i) as [k Hk]; [lia|]. rewrite Hk in E. discriminate E. }
    rewrite nom_take_ok in E by lia. cbn [pbind POk] in E. rewrite nom_pair_eq in E.
    assert (len (zdrop 16 i) = len i - 16) as L1 by (rewrite len_zdrop by lia; done).
    destruct (Z.le_gt_cases 4 (len (zdrop 16 i))) as [H4|H4].
    2: { destruct (be_u32_short (zdrop 16 i)) as [k Hk]; [lia|]. rewrite Hk in E. discriminate E. }
    rewrite be_u32_ok in E by lia. cbn [pbind POk] in E. set (j := zdrop 4 (zdrop 16 i)) in *.
    assert (bytes_ok j) as Hj by (by do 2 apply bytes_ok_zdrop).
    assert (len j <= 1004) as Hlj by (subst j; rewrite len_zdrop by lia; lia).
    destruct (first_occurrence 0 j) as [Hn|(l & r & Ej & Hn)].
    { destruct (take_until_short 0 j Hn) as [k Hk]. rewrite Hk in E. discriminate E. }
    rewrite Ej in *. rewrite take_until_ok in E by done. cbn [pbind POk] in E.
    change (0 :: r) with ([0] ++ r) in E. rewrite parses_tag in E. cbn [pbind POk] in E.
    injection E as <- _ _ <-. apply bytes_ok_app in Hj as [_ Hr]. apply Forall_cons in Hr as [_ Hr].
    split; [done|llia]. }
  assert (exists n, 0 <= n /\ checked oc 64 (1008 - 4 - len padding - 1) = Ret n) as (n & Hn & ->).
  { eexists. split; [|unfold checked; rewrite (proj2 (Z.leb_le 0 _)), (proj2 (Z.ltb_lt _ _)) by llia; done]. lia. }
  cbn [obind]. destruct fragment_spec as [F1 F2].
  eapply total_preceded; [| | |exact Hi1].
  - by eapply total_verify, total_peek, total_take.
  - by apply sound_verify, sound_peek, sound_take.
  - eapply total_map_pure, total_many0; [by apply total_complete|by apply sound_complete].
Qed.

End Frame.

(** ** Properties *)

(** what the hops of a tunnel do to a message on its way, and what the
    creator does to one it sends out or gets back *)
Definition hops_add {aes : AesCrate} (hops : list LayerCipher) (td : TunnelData) : outcome TunnelData :=
  foldl (fun o c => let! td := o in encrypt_layer c td) (Ret td) hops.
Definition creator_removes {aes : AesCrate} (hops : list LayerCipher) (td : TunnelData) : outcome TunnelData :=
  foldr (fun c o => let! td := o in decrypt_layer c td) (Ret td) hops.

Section Hops.
Context {aes : AesCrate}.

Lemma hops_add_cons c hops td td' :
  encrypt_layer c td = Ret td' -> hops_add (c :: hops) td = hops_add hops td'.
Proof. intros E. unfold hops_add. cbn [foldl obind]. by rewrite E. Qed.

Lemma creator_then_hops hops td : Forall wf_LayerCipher hops -> wf_TunnelData td ->
  exists pre, creator_removes hops td = Ret pre /\ wf_TunnelData pre /\ td_tid pre = td_tid td /\
              hops_add hops pre = Ret td.
Proof.
  intros H Htd. induction H as [|c hops Hc _ (pre & Ep & Hp & Ht & Ea)]; [by exists td|].
  destruct (decrypt_layer_ok c pre Hc Hp) as (pre' & Ed & Hp' & Ht' & Ee).
  exists pre'. unfold creator_removes. cbn [foldr]. change (foldr _ _ hops) with (creator_removes hops td).
  rewrite Ep. cbn [obind]. split; [done|]. split; [done|]. split; [congruence|].
  by rewrite (hops_add_cons _ _ _ _ Ee).
Qed.

Lemma hops_then_creator hops td : Forall wf_LayerCipher hops -> wf_TunnelData td ->
  exists ct, hops_add hops td = Ret ct /\ wf_TunnelData ct /\ td_tid ct = td_tid td /\
             creator_removes hops ct = Ret td.
Proof.
  intros H. revert td. induction H as [|c hops Hc _ IH]; intros td Htd; [by exists td|].
  destruct (encrypt_layer_ok c td Hc Htd) as (td' & Ee & Htd' & Ht & Ed).
  destruct (IH td' Htd') as (ct & Ea & Hct & Ht' & Er). exists ct.
  rewrite (hops_add_cons _ _ _ _ Ee). split; [done|]. split; [done|]. split; [congruence|].
  unfold creator_removes in *. cbn [foldr]. by rewrite Er.
Qed.

End Hops.

Module TunnelSamples.

Definition k (n : Z) : SessionKey := mkSessionKey (replicate 32 n).
Definition hops : list LayerCipher := [LayerCipher_new (k 1) (k 2); LayerCipher_new (k 3) (k 4)].
Definition td : TunnelData := mkTunnelData (mkTunnelId 1234) (replicate 1024 7).

Lemma k_wf n : byte_ok n -> wf_SessionKey (k n).
Proof. intros H. split; [by apply Forall_replicate|done]. Qed.
Lemma hops_wf : Forall wf_LayerCipher hops.
Proof. repeat first [apply Forall_nil_2 | apply Forall_cons_2]; by split; apply k_wf. Qed.
Lemma td_wf : wf_TunnelData td.
Proof. split; [by split|]. split; [by apply bytes_okb_ok|done]. Qed.

(** a tunnel message with the three kinds of fragments *)
Definition h : Hash := mkHash (replicate 32 9).
Definition tm : TunnelMessage :=
  [(TmdiFirst (mkFfdi DtLocal None), [1; 2; 3]);
   (TmdiFirst (mkFfdi (DtTunnel (mkTunnelId 77) h) (Some 5)), replicate 100 0);
   (TmdiFollowOn (mkFofdi 63 true 5), [])].
Definition big_tm : TunnelMessage := [(TmdiFollowOn (mkFofdi 1 false 5), replicate 1000 4)].

Lemma h_wf : wf_Hash h.
Proof. split; [by apply bytes_okb_ok|done]. Qed.

Lemma tm_wf : Forall wf_fragment tm.
Proof.
  repeat first [apply Forall_nil_2 | apply Forall_cons_2];
    (split; [|split; [by apply bytes_okb_ok|done]]).
  - done.
  - split; [split; [done|apply h_wf]|done].
  - done.
Qed.
Lemma big_tm_wf : Forall wf_fragment big_tm.
Proof. apply Forall_cons_2; [|apply Forall_nil_2]. split; [done|split; [by apply bytes_okb_ok|done]]. Qed.

End TunnelSamples.

Module TunnelProps.

#[local] Existing Instances nom_ref cf_ref sha2_ref aes_ref.

(** Layers cancel.  What the creator strips in advance the hops of an
    outbound tunnel put back, one after the other, so the endpoint sees the
    message that was prepared; and what the hops of an inbound tunnel add the
    creator takes off again.  No assertion about the block count fails, and
    the tunnel id is left alone. *)
Theorem tunnel_layers_cancel {aes : AesCrate} (hops : list LayerCipher) (td : TunnelData) :
  Forall wf_LayerCipher hops -> wf_TunnelData td ->
  (exists pre, creator_removes hops td = Ret pre /\ hops_add hops pre = Ret td /\ td_tid pre = td_tid td) /\
  (exists ct, hops_add hops td = Ret ct /\ creator_removes hops ct = Ret td /\ td_tid ct = td_tid td).
Proof.
  intros Hh Htd. split.
  - destruct (creator_then_hops hops td Hh Htd) as (pre & ? & _ & ? & ?). by exists pre.
  - destruct (hops_then_creator hops td Hh Htd) as (ct & ? & _ & ? & ?). by exists ct.
Qed.

Lemma tunnel_layers_cancel_witness :
  exists pre, creator_removes TunnelSamples.hops TunnelSamples.td = Ret pre /\
              hops_add TunnelSamples.hops pre = Ret TunnelSamples.td.
Proof.
  destruct (tunnel_layers_cancel TunnelSamples.hops TunnelSamples.td TunnelSamples.hops_wf TunnelSamples.td_wf)
    as [(pre & H1 & H2 & _) _]. exists pre. exact (conj H1 H2).
Defined.

(** C35: A tunnel message whose fragments take at most 1003 bytes is written
    as exactly 1024 bytes (into a buffer of that size, and by [serialize]),
    padded with non-zero bytes, and read back as the same fragments. *)
Theorem tunnel_message_roundtrip {nom : Nom} {cf : CookieFactory} {sha : Sha2}
    (oc : bool) (iv : bytes) (tm : TunnelMessage) (buf : bytes) :
  len iv = 16 -> Forall wf_fragment tm -> tm_byte_len tm <= 1003 -> len buf = 1024 ->
  exists bs, gen_tunnel_message oc iv tm (buf, 0) = GOk bs 1024 /\
             serialize (gen_tunnel_message oc iv tm) = Ret (Some bs) /\
             len bs = 1024 /\ tunnel_message oc bs = POk [] tm.
Proof.
  intros Hiv Hwf Hl Hb. exists (enc_tunnel_message iv tm).
  pose proof (writes_tunnel_message oc iv tm Hiv Hwf Hl) as Hw.
  pose proof (len_tunnel_message iv tm Hiv Hwf Hl) as Hlen. split_and!; [| |done|by apply parses_tunnel_message].
  - pose proof (writes_ok _ _ Hw [] buf [] ltac:(lia)) as E.
    rewrite !app_nil_l, !app_nil_r, len_nil, Hlen in E. exact E.
  - apply serialize_writes; [exact Hw|lia].
Qed.

Lemma tunnel_message_roundtrip_witness :
  exists bs, gen_tunnel_message true (replicate 16 3) TunnelSamples.tm (zeros 1024, 0) = GOk bs 1024 /\
             tunnel_message true bs = POk [] TunnelSamples.tm.
Proof.
  destruct (tunnel_message_roundtrip true (replicate 16 3) TunnelSamples.tm (zeros 1024)
    eq_refl TunnelSamples.tm_wf ltac:(done) eq_refl) as (bs & H1 & _ & _ & H2).
  exists bs. exact (conj H1 H2).
Defined.

(** Fragments that take more than 1003 bytes do not make a tunnel
    message: the padding length underflows, which panics in a build with
    overflow checks, and otherwise asks for more padding than any buffer
    has. *)
Theorem tunnel_message_capacity {cf : CookieFactory} {sha : Sha2}
    (oc : bool) (iv : bytes) (tm : TunnelMessage) (buf : bytes) :
  len iv = 16 -> Forall wf_fragment tm -> 1003 < tm_byte_len tm < 2 ^ 63 -> len buf = 1024 ->
  if oc then gen_tunnel_message oc iv tm (buf, 0) = Panic
  else exists buf' n, gen_tunnel_message oc iv tm (buf, 0) = GErr buf' (BufferTooSmall n).
Proof.
  intros Hiv Hwf Hl Hb. unfold gen_tunnel_message.
  destruct (writes_room _ _ buf 0 (writes_slice iv)) as (p & o & q & E & Hp & Ho & Es); [lia|lia|].
  rewrite gen_seq_eq, Es. cbn [gbind GOk]. rewrite gen_label_eq, gen_seq_eq, Hiv. cbn [snd].
  assert (len (p ++ iv ++ q) = 1024) as Hlb by (rewrite E in Hb; llia).
  rewrite gen_skip_ok by lia. cbn [gbind GOk]. rewrite gen_seq_eq.
  unfold checked. rewrite (proj2 (Z.leb_gt 0 _)) by lia. cbn [andb]. destruct oc; [done|].
  cbn [obind]. set (n := _ mod 2 ^ 64).
  assert (n = 2 ^ 64 + (1003 - tm_byte_len tm)) as Hn.
  { subst n. rewrite <- (Z.mod_add _ 1), Z.mod_small; lia. }
  destruct (writes_small _ _ (writes_nonzero_padding n) (p ++ iv ++ q) (0 + 16 + 4)) as (k & b' & -> & _).
  - lia.
  - rewrite len_replicate. lia.
  - by exists b', k.
Qed.

Lemma tunnel_message_capacity_witness :
  gen_tunnel_message true (replicate 16 3) TunnelSamples.big_tm (zeros 1024, 0) = Panic.
Proof.
  apply (tunnel_message_capacity true (replicate 16 3) TunnelSamples.big_tm (zeros 1024) eq_refl
    TunnelSamples.big_tm_wf); [split; vm_compute; reflexivity|reflexivity].
Defined.

(** Parsing the 1024 bytes of a tunnel message never panics (the padding
    is too short for the underflow), and every fragment it accepts is
    well-formed, so its fields can be written again. *)
Theorem tunnel_message_safe {nom : Nom} {sha : Sha2} (oc : bool) (i : bytes) :
  bytes_ok i -> len i <= 1024 ->
  (exists r, tunnel_message oc i = Ret r) /\
  forall r tm, tunnel_message oc i = POk r tm -> Forall wf_fragment tm.
Proof.
  intros Hi Hl. split.
  - pose proof (tunnel_message_never_panics oc i Hi Hl). destruct (tunnel_message oc i); [eauto|done].
  - intros r tm H. by apply (sound_tunnel_message oc i r tm Hi H).
Qed.

Lemma tunnel_message_safe_witness : exists r, tunnel_message true (zeros 1024) = Ret r.
Proof. exact (proj1 (tunnel_message_safe true (zeros 1024) (zeros_ok 1024) ltac:(done))). Defined.

End TunnelProps.
