(* ===== verification/Participant.v ===== *)
(** * Participating tunnels

    [src/tunnel/processor.rs]: the task that handles the tunnel data of the
    tunnels this router is a hop of, and the task it spawns for each message.

    Both are futures: a [poll] runs until it has to wait or is done.  What the
    runtime and the other tasks contribute to one pass of the loop is an
    argument ([HopEnv], [Turn]): which futures are ready, the clocks, the
    messages in the channels.  A schedule is a list of turns. *)

From S2P Require Import Prelude Nom Cookie Util Wire Crypto Aes Data I2np Message Tunnel.
Import Decaying.

(** ** A single message: [HopProcessor] *)

Section Hop.
Context {sc : SigCrates} {aes : AesCrate}.

Inductive HopProcessorState :=
| HpProcessing (next_hop : RouterInfo * TunnelId) (td : TunnelData) (lc : LayerCipher)
| HpSending.

(** the [blocking] thread pool, the message id and time of
    [Message::from_payload], [CommSystem::send] (whether a transport takes the
    message) and the future it returns *)
Record HopEnv := mkHopEnv {
  he_blocking : Poll unit unit;
  he_rand_id : Z;
  he_now : Z;
  he_send : RouterInfo -> Message -> bool;
  he_sending : Poll unit unit
}.

Definition HopProcessor_new (next_hop : RouterInfo * TunnelId) (td : TunnelData) (lc : LayerCipher)
  : option HopProcessorState := Some (HpProcessing next_hop td lc).

(** One pass of the loop: the messages handed to the transports, and either
    the next state or what [poll] returns with the state it leaves. *)
Definition hp_step (env : HopEnv) (st : HopProcessorState)
  : outcome (list (RouterInfo * Message) * (HopProcessorState + (option HopProcessorState * Poll unit unit))) :=
  match st with
  | HpProcessing next_hop td lc =>
      match he_blocking env with
      | NotReady => Ret ([], inr (Some st, NotReady))
      | PollErr e => Ret ([], inr (None, PollErr tt))
      | Ready _ =>
          let! td := encrypt_layer lc td in
          let td := mkTunnelData next_hop.2 (td_data td) in
          let msg := Message_from_payload (he_rand_id env) (he_now env) (MTunnelData td) in
          if he_send env next_hop.1 msg then Ret ([(next_hop.1, msg)], inl HpSending)
          else Ret ([], inr (None, PollErr tt))
      end
  | HpSending =>
      match he_sending env with
      | NotReady => Ret ([], inr (Some st, NotReady))
      | PollErr e => Ret ([], inr (None, PollErr tt))
      | Ready _ => Ret ([], inr (None, Ready tt))
      end
  end.

(** [None]: out of fuel *)
Fixpoint hp_loop (fuel : nat) (env : HopEnv) (st : HopProcessorState)
  : outcome (option (list (RouterInfo * Message) * (option HopProcessorState * Poll unit unit))) :=
  match fuel with
  | O => Ret None
  | S fuel =>
      let! (out, r) := hp_step env st in
      match r with
      | inr r => Ret (Some (out, r))
      | inl st =>
          let! r := hp_loop fuel env st in
          Ret (match r with Some (out', r) => Some (out ++ out', r) | None => None end)
      end
  end.

(** [self.state.take().unwrap()] panics once the future has finished; two
    passes are the most a poll makes *)
Definition HopProcessor_poll (env : HopEnv) (st : option HopProcessorState) :=
  let! st := unwrap st in hp_loop 2 env st.

(** [poll] always comes to an end: *)
Lemma hp_poll_returns env st : st <> None -> HopProcessor_poll env st <> Ret None.
Proof.
  intros Hst. destruct st as [st|]; [|done]. unfold HopProcessor_poll. cbn.
  unfold hp_step. destruct st; repeat (case_match; cbn; try done).
  all: destruct (encrypt_layer _ _); cbn; [|done]; repeat (case_match; cbn; try done).
Qed.

(** with every task ready, one message goes to the next hop *)
Lemma processor_sends env next_hop td lc e :
  encrypt_layer lc td = Ret e -> he_blocking env = Ready tt -> (forall m, he_send env next_hop.1 m = true) ->
  HopProcessor_poll env (HopProcessor_new next_hop td lc) =
    Ret (Some ([(next_hop.1, Message_from_payload (he_rand_id env) (he_now env) (MTunnelData (mkTunnelData next_hop.2 (td_data e))))],
      match he_sending env with
      | Ready _ => (None, Ready tt)
      | NotReady => (Some HpSending, NotReady)
      | PollErr _ => (None, PollErr tt)
      end)).
Proof.
  intros Ee Hb Hs. unfold HopProcessor_poll, HopProcessor_new. cbn [unwrap obind hp_loop hp_step]. rewrite Hb, Ee.
  cbn [obind]. rewrite Hs. cbn [obind hp_step]. destruct (he_sending env) as [[]| |[]]; reflexivity.
Qed.

End Hop.

(** ** All tunnels: [Participant] *)

Section Participating.
Context {sc : SigCrates} {bf : BloomFilter}.

(** seconds *)
Definition EXPIRE_TUNNELS_INTERVAL : Z := 10.

(** the two timers are kept as their deadlines, in nanoseconds *)
Record Participant := mkParticipant {
  participating : gmap TunnelId HopConfig;
  p_filter : DecayingBloomFilter;
  expire_tunnels_timer : Z;
  decay_filter_timer : Z
}.

Definition Participant_new (instant : Z) : Participant :=
  mkParticipant ∅ (new 20000) (instant + EXPIRE_TUNNELS_INTERVAL * 10 ^ 9)
                (instant + TUNNEL_LIFETIME * 10 ^ 9).

(** What one pass of the loop finds: the new tunnels in the channel (and
    whether polling it ends in an error), the monotonic clock, the system
    clock, and the poll of the inbox. *)
Record Turn := mkTurn {
  tn_new : list (TunnelId * HopConfig);
  tn_new_err : bool;
  tn_instant : Z;
  tn_now : Z;
  tn_msg : Poll (option (Hash * Message)) unit
}.

Definition add_tunnels (p : Participant) (l : list (TunnelId * HopConfig)) : Participant :=
  mkParticipant (foldl (fun m tc => <[tc.1 := tc.2]> m) (participating p) l) (p_filter p)
                (expire_tunnels_timer p) (decay_filter_timer p).

Definition expire_tunnels (p : Participant) (instant now : Z) : Participant :=
  if expire_tunnels_timer p <=? instant then
    mkParticipant (base.filter (fun tc => now < expires tc.2) (participating p)) (p_filter p)
                  (instant + EXPIRE_TUNNELS_INTERVAL * 10 ^ 9) (decay_filter_timer p)
  else p.

Definition decay_filter (p : Participant) (instant : Z) : Participant :=
  if decay_filter_timer p <=? instant then
    mkParticipant (participating p) (decay (p_filter p)) (expire_tunnels_timer p)
                  (instant + TUNNEL_LIFETIME * 10 ^ 9)
  else p.

Definition with_filter (p : Participant) (f : DecayingBloomFilter) : Participant :=
  mkParticipant (participating p) f (expire_tunnels_timer p) (decay_filter_timer p).

(** the XOR of the IV and the first block *)
Definition filter_value (td : TunnelData) : bytes :=
  xor_bytes (slice 0 16 (td_data td)) (slice 16 32 (td_data td)).

(** the message came from the hop the tunnel was set up with *)
Definition from_ok (from : Hash) (hd : HopData) : bool :=
  match hd with
  | HdInboundGateway _ => true
  | HdIntermediate from_ident _ | HdOutboundEndpoint from_ident => bool_decide (from = from_ident)
  end.

(** One message: the new state and the processor it spawns. *)
Definition handle_message (p : Participant) (from : Hash) (msg : Message)
  : outcome (Participant * option HopProcessorState) :=
  match msg_payload msg with
  | MTunnelData td =>
      match participating p !! td_tid td with
      | Some config =>
          if negb (from_ok from (hop_data config)) then Ret (p, None)
          else
            let '(f, dup) := feed (p_filter p) (filter_value td) in
            let p := with_filter p f in
            if dup : bool then Ret (p, None)
            else
              match hop_data config with
              | HdInboundGateway _ => Panic
              | HdIntermediate _ next_hop =>
                  Ret (p, HopProcessor_new next_hop td (layer_cipher config))
              | HdOutboundEndpoint _ => Panic
              end
      | None => Ret (p, None)
      end
  | _ => Ret (p, None)
  end.

(** One pass of the loop; the last component is what [poll] returns, if it
    returns. *)
Definition participant_turn (p : Participant) (tn : Turn)
  : outcome (Participant * list HopProcessorState * option (Poll unit unit)) :=
  let p := add_tunnels p (tn_new tn) in
  if tn_new_err tn then Ret (p, [], Some (PollErr tt))
  else
    let p := expire_tunnels p (tn_instant tn) (tn_now tn) in
    let p := decay_filter p (tn_instant tn) in
    match tn_msg tn with
    | NotReady => Ret (p, [], Some NotReady)
    | PollErr _ => Ret (p, [], Some (PollErr tt))
    | Ready None => Ret (p, [], Some (Ready tt))
    | Ready (Some (from, msg)) =>
        let! (p, hp) := handle_message p from msg in
        Ret (p, match hp with Some hp => [hp] | None => [] end, None)
    end.

(** Polls over a schedule: a [NotReady] suspends the task until the next
    turn; with a result (or an error) the task is over. *)
Fixpoint participant_run (p : Participant) (turns : list Turn)
  : outcome (Participant * list HopProcessorState * Poll unit unit) :=
  match turns with
  | [] => Ret (p, [], NotReady)
  | tn :: turns =>
      let! (p, out, r) := participant_turn p tn in
      match r with
      | Some (Ready u) => Ret (p, out, Ready u)
      | Some (PollErr e) => Ret (p, out, PollErr e)
      | Some NotReady | None =>
          let! (p, out', r) := participant_run p turns in Ret (p, out ++ out', r)
      end
  end.

End Participating.

(** ** Lemmas *)

Section Lemmas.
Context {sc : SigCrates} {bf : BloomFilter}.

Definition intermediate (hd : HopData) : Prop := exists from next_hop, hd = HdIntermediate from next_hop.

(** every tunnel in the table is one we are an intermediate hop of *)
Definition only_intermediate (p : Participant) : Prop :=
  map_Forall (fun _ c => intermediate (hop_data c)) (participating p).

Definition turn_intermediate (tn : Turn) : Prop :=
  Forall (fun tc => intermediate (hop_data tc.2)) (tn_new tn).

(** the tunnel data a processor was spawned for *)
Definition hp_data (hp : HopProcessorState) : option TunnelData :=
  match hp with HpProcessing _ td _ => Some td | HpSending => None end.

Definition spawned_values (out : list HopProcessorState) : list bytes :=
  map filter_value (omap hp_data out).

Lemma only_intermediate_add p l :
  only_intermediate p -> Forall (fun tc => intermediate (hop_data tc.2)) l -> only_intermediate (add_tunnels p l).
Proof.
  unfold only_intermediate, add_tunnels. cbn. generalize (participating p) as m.
  intros m Hm Hl. revert m Hm. induction Hl as [|[t c] l Hc _ IH]; intros m Hm; [done|].
  apply IH. by apply map_Forall_insert_2.
Qed.

Lemma only_intermediate_expire p i n : only_intermediate p -> only_intermediate (expire_tunnels p i n).
Proof.
  unfold only_intermediate, expire_tunnels. destruct (_ <=? _); [|done]. cbn. intros H k c Hk.
  apply map_lookup_filter_Some in Hk as [Hk _]. exact (H k c Hk).
Qed.

Lemma only_intermediate_decay p i : only_intermediate p -> only_intermediate (decay_filter p i).
Proof. unfold decay_filter. by destruct (_ <=? _). Qed.

(** the table and the timers do not change *)
Lemma handle_message_inv p from msg p' hp :
  handle_message p from msg = Ret (p', hp) ->
  participating p' = participating p /\ decay_filter_timer p' = decay_filter_timer p /\
  expire_tunnels_timer p' = expire_tunnels_timer p.
Proof.
  unfold handle_message. destruct (msg_payload msg); try by intros [= <- _].
  destruct (participating p !! td_tid td) as [c|]; [|by intros [= <- _]].
  destruct (negb _); [by intros [= <- _]|]. destruct (feed _ _) as [f []]; [by intros [= <- _]|].
  destruct (hop_data c); [done|by intros [= <- _]|done].
Qed.

Lemma handle_message_no_panic p from msg : only_intermediate p -> exists r, handle_message p from msg = Ret r.
Proof.
  intros Hp. unfold handle_message. destruct (msg_payload msg) as [| | | | |td| | | | | |]; eauto.
  destruct (participating p !! td_tid td) as [c|] eqn:E; [|eauto].
  destruct (Hp _ _ E) as (f & nh & Hc). rewrite Hc. destruct (negb _); [eauto|].
  destruct (feed _ _) as [g []]; eauto.
Qed.

(** The filter a message leaves, and when it spawns a processor: the message
    was new, and is in the current generation now. *)
Lemma handle_message_filter p from msg p' hp :
  handle_message p from msg = Ret (p', hp) ->
  (p_filter p' = p_filter p \/ exists x, p_filter p' = (feed (p_filter p) x).1) /\
  match hp with
  | Some hp => exists td, hp_data hp = Some td /\ present (p_filter p) (filter_value td) = false /\
                          bf_contains (current (p_filter p')) (filter_value td) = true
  | None => True
  end.
Proof.
  unfold handle_message. destruct (msg_payload msg) as [| | | | |td| | | | | |];
    try by intros [= <- <-]; split; [left|].
  destruct (participating p !! td_tid td) as [c|]; [|by intros [= <- <-]; split; [left|]].
  destruct (negb _); [by intros [= <- <-]; split; [left|]|].
  pose proof (feed_snd (p_filter p) (filter_value td)) as Hs.
  pose proof (feed_fresh_current (p_filter p) (filter_value td)) as Hf.
  destruct (feed (p_filter p) (filter_value td)) as [f b] eqn:Ef. cbn in Hs, Hf. destruct b.
  - intros [= <- <-]. split; [right; exists (filter_value td); by rewrite Ef|done].
  - destruct (hop_data c) as [|fr nh|]; [done| |done]. intros [= <- <-]. split.
    + right. exists (filter_value td). by rewrite Ef.
    + exists td. split; [done|]. split; [congruence|]. by apply Hf.
Qed.

(** *** No message is forwarded twice *)

Section Replay.
Context (t0 : Z).

Definition within (tn : Turn) : Prop := t0 <= tn_instant tn < t0 + TUNNEL_LIFETIME * 10 ^ 9.

(** the filter will know [x] until the end of the window *)
Definition hidden (p : Participant) (x : bytes) : Prop :=
  bf_contains (current (p_filter p)) x = true \/
  (present (p_filter p) x = true /\ t0 + TUNNEL_LIFETIME * 10 ^ 9 <= decay_filter_timer p).

Lemma hidden_present p x : hidden p x -> present (p_filter p) x = true.
Proof. unfold present. intros [->|[H _]]; [done|exact H]. Qed.

(** the upkeep of one pass *)
Definition upkeep (p : Participant) (tn : Turn) : Participant :=
  decay_filter (expire_tunnels (add_tunnels p (tn_new tn)) (tn_instant tn) (tn_now tn)) (tn_instant tn).

Lemma upkeep_hidden p tn x : within tn -> hidden p x -> hidden (upkeep p tn) x.
Proof.
  intros Hw Hh. unfold upkeep. set (q := expire_tunnels _ _ _).
  assert (p_filter q = p_filter p /\ decay_filter_timer q = decay_filter_timer p) as [Ef Et].
  { subst q. unfold expire_tunnels. by destruct (_ <=? _). }
  assert (hidden q x) as Hq by (unfold hidden; by rewrite Ef, Et).
  unfold decay_filter. destruct (Z.leb_spec (decay_filter_timer q) (tn_instant tn)) as [Hd|Hd]; [|exact Hq].
  unfold within in Hw. destruct Hq as [Hc|[_ Hl]]; [|lia].
  right. cbn. split; [unfold present; cbn; by rewrite Hc, orb_true_r|lia].
Qed.

Lemma handle_hidden p from msg p' hp x :
  handle_message p from msg = Ret (p', hp) -> hidden p x -> hidden p' x.
Proof.
  intros E Hh. destruct (handle_message_filter _ _ _ _ _ E) as [Hf _].
  destruct (handle_message_inv _ _ _ _ _ E) as (_ & Ht & _).
  unfold hidden in *. rewrite Ht. destruct Hf as [-> | [y ->]]; [done|].
  destruct Hh as [Hc|[Hp Hd]]; [left; by apply feed_keeps_current|right].
  split; [by apply feed_keeps_present|done].
Qed.

Lemma turn_values p tn p' out r :
  participant_turn p tn = Ret (p', out, r) -> within tn ->
  (forall x, hidden p x -> hidden p' x /\ ~ In x (spawned_values out)) /\
  (spawned_values out = [] \/ exists x, spawned_values out = [x] /\ hidden p' x).
Proof.
  unfold participant_turn. fold (upkeep p tn). intros E Hw.
  destruct (tn_new_err tn); [injection E as <- <- _; split; [intros x Hx; split; [exact Hx|intros []]|by left]|].
  pose proof (fun x => upkeep_hidden p tn x Hw) as Hup. set (q := upkeep p tn) in *.
  destruct (tn_msg tn) as [[[from msg]|]| |];
    try (injection E as <- <- _; split; [intros x Hx; split; [by apply Hup|intros []]|by left]).
  destruct (handle_message q from msg) as [[p1 hp]|] eqn:Eh; [|discriminate E].
  cbn [obind] in E. injection E as <- <- _.
  destruct (handle_message_filter _ _ _ _ _ Eh) as [_ Hs]. destruct hp as [hp|].
  - destruct Hs as (td & Ed & Habs & Hcur). unfold spawned_values. cbn. rewrite Ed. cbn. split.
    + intros x Hx. specialize (Hup x Hx). split; [by eapply handle_hidden|].
      intros [<-|[]]. pose proof (hidden_present _ _ Hup). congruence.
    + right. eexists. split; [done|by left].
  - split; [|by left]. intros x Hx. split; [by eapply handle_hidden; [|apply Hup]|intros []].
Qed.

Lemma spawned_values_app o1 o2 : spawned_values (o1 ++ o2) = spawned_values o1 ++ spawned_values o2.
Proof. unfold spawned_values. by rewrite omap_app, map_app. Qed.

Lemma run_step p tn turns p' out r :
  participant_run p (tn :: turns) = Ret (p', out, r) ->
  exists p1 o1 o2 rt, participant_turn p tn = Ret (p1, o1, rt) /\ out = o1 ++ o2 /\
    (o2 = [] \/ exists r', participant_run p1 turns = Ret (p', o2, r')).
Proof.
  cbn [participant_run]. destruct (participant_turn p tn) as [[[p1 o1] rt]|]; [|done]. cbn [obind].
  destruct rt as [[u| |e]|]; [| |intros [= <- <- <-]|];
    try (intros [= <- <- <-]; exists p1, o1, [], None; rewrite app_nil_r; eauto; fail).
  - intros [= <- <- <-]. exists p1, o1, [], (Some (Ready u)). rewrite app_nil_r. eauto.
  - destruct (participant_run p1 turns) as [[[p2 o2] r2]|] eqn:E; [|done]. cbn. intros [= <- <- <-].
    exists p1, o1, o2, (Some NotReady). eauto 6.
  - exists p1, o1, [], (Some (PollErr e)). rewrite app_nil_r. eauto.
  - destruct (participant_run p1 turns) as [[[p2 o2] r2]|] eqn:E; [|done]. cbn. intros [= <- <- <-].
    exists p1, o1, o2, None. eauto 6.
Qed.

Lemma run_hidden p turns p' out r x :
  participant_run p turns = Ret (p', out, r) -> Forall within turns -> hidden p x ->
  ~ In x (spawned_values out).
Proof.
  intros E Hw. revert p out r E. induction Hw as [|tn turns Htn _ IH]; intros p out r E Hx.
  - injection E as _ <- _. intros [].
  - destruct (run_step _ _ _ _ _ _ E) as (p1 & o1 & o2 & rt & Et & -> & Ho2).
    destruct (turn_values _ _ _ _ _ Et Htn) as [Hv _]. destruct (Hv x Hx) as [Hx1 Hn1].
    rewrite spawned_values_app, in_app_iff. intros [|Hin]; [done|].
    destruct Ho2 as [->|[r' Er]]; [done|]. by apply (IH _ _ _ Er Hx1).
Qed.

Lemma run_no_replay p turns p' out r :
  participant_run p turns = Ret (p', out, r) -> Forall within turns -> List.NoDup (spawned_values out).
Proof.
  intros E Hw. revert p out r E. induction Hw as [|tn turns Htn Hw IH]; intros p out r E.
  - injection E as _ <- _. constructor.
  - destruct (run_step _ _ _ _ _ _ E) as (p1 & o1 & o2 & rt & Et & -> & Ho2).
    assert (List.NoDup (spawned_values o2)) as Hnd.
    { destruct Ho2 as [->|[r' Er]]; [constructor|by eapply IH]. }
    destruct (turn_values _ _ _ _ _ Et Htn) as [_ Hv]. rewrite spawned_values_app.
    destruct Hv as [->|(x & -> & Hx)]; [done|]. cbn. constructor; [|done].
    destruct Ho2 as [->|[r' Er]]; [intros []|]. by eapply run_hidden.
Qed.

End Replay.

(** *** No panic *)

Lemma turn_no_panic p tn : only_intermediate p -> turn_intermediate tn ->
  exists p' out r, participant_turn p tn = Ret (p', out, r) /\ only_intermediate p'.
Proof.
  intros Hp Ht. unfold participant_turn. pose proof (only_intermediate_add p _ Hp Ht) as Ha.
  destruct (tn_new_err tn); [eauto 6|].
  pose proof (only_intermediate_decay _ (tn_instant tn) (only_intermediate_expire _ (tn_instant tn) (tn_now tn) Ha)) as Hq.
  set (q := decay_filter _ _) in *.
  destruct (tn_msg tn) as [[[from msg]|]| |]; [|eauto 6..].
  destruct (handle_message_no_panic q from msg Hq) as [[p1 hp] E]. rewrite E. cbn [obind].
  do 3 eexists. split; [done|]. unfold only_intermediate.
  by rewrite (proj1 (handle_message_inv _ _ _ _ _ E)).
Qed.

Lemma run_no_panic p turns : only_intermediate p -> Forall turn_intermediate turns ->
  exists p' out r, participant_run p turns = Ret (p', out, r) /\ only_intermediate p'.
Proof.
  intros Hp H. revert p Hp. induction H as [|tn turns Ht _ IH]; intros p Hp; [by exists p, [], NotReady|].
  destruct (turn_no_panic p tn Hp Ht) as (p1 & o1 & r & E & Hp1). cbn [participant_run]. rewrite E. cbn [obind].
  destruct (IH p1 Hp1) as (p2 & o2 & r2 & -> & Hp2). destruct r as [[]|]; cbn [obind]; eauto 6.
Qed.

(** *** A tunnel stays until it expires *)

(** no other tunnel takes the id, and the tunnel has not expired *)
Definition turn_keeps (tid : TunnelId) (config : HopConfig) (tn : Turn) : Prop :=
  tid ∉ (tn_new tn).*1 /\ tn_now tn < expires config.

Lemma add_tunnels_other p l tid : tid ∉ l.*1 -> participating (add_tunnels p l) !! tid = participating p !! tid.
Proof.
  unfold add_tunnels. cbn [participating]. generalize (participating p) as m. induction l as [|[t c] l IH]; intros m H; [done|].
  cbn [foldl]. apply not_elem_of_cons in H as [H1 H2]. rewrite (IH _ H2). by apply lookup_insert_ne.
Qed.

Lemma upkeep_keeps p tn tid config :
  participating (add_tunnels p (tn_new tn)) !! tid = Some config -> tn_now tn < expires config ->
  participating (upkeep p tn) !! tid = Some config.
Proof.
  intros H Ht. unfold upkeep. set (q := add_tunnels p (tn_new tn)) in *.
  assert (participating (expire_tunnels q (tn_instant tn) (tn_now tn)) !! tid = Some config) as He.
  { unfold expire_tunnels. destruct (_ <=? _); [|done]. cbn. by apply map_lookup_filter_Some. }
  unfold decay_filter. by destruct (_ <=? _).
Qed.

Lemma turn_table p tn p' out r : participant_turn p tn = Ret (p', out, r) -> tn_new_err tn = false ->
  participating p' = participating (upkeep p tn).
Proof.
  unfold participant_turn. fold (upkeep p tn). intros E Hn. rewrite Hn in E. destruct (tn_msg tn) as [[[from msg]|]| |]; try by injection E as <- _ _.
  destruct (handle_message (upkeep p tn) from msg) as [[p1 hp]|] eqn:Eh; [|done]. injection E as <- _ _.
  exact (proj1 (handle_message_inv _ _ _ _ _ Eh)).
Qed.

(** a task that goes on *)
Lemma run_waits p tn turns p' out : participant_run p (tn :: turns) = Ret (p', out, NotReady) ->
  exists p1 o1 o2 r, participant_turn p tn = Ret (p1, o1, r) /\ tn_new_err tn = false /\ participant_run p1 turns = Ret (p', o2, NotReady).
Proof.
  cbn [participant_run]. destruct (participant_turn p tn) as [[[p1 o1] r]|] eqn:E; cbn [obind]; [|done]. intros H.
  exists p1, o1. destruct (tn_new_err tn) eqn:En.
  { unfold participant_turn in E. rewrite En in E. injection E as <- <- <-. done. }
  destruct r as [[u| |e]|]; try done; destruct (participant_run p1 turns) as [[[p2 o2] r2]|]; try done;
    cbn [obind] in H; injection H as <- _ ->; by eexists _, _.
Qed.

Lemma run_keeps p turns p' out tid config :
  participant_run p turns = Ret (p', out, NotReady) -> participating p !! tid = Some config ->
  Forall (turn_keeps tid config) turns -> participating p' !! tid = Some config.
Proof.
  intros E Hp Hk. revert p out E Hp. induction Hk as [|tn turns [H1 H2] _ IH]; intros p out E Hp.
  { injection E as <- _. done. }
  destruct (run_waits _ _ _ _ _ E) as (p1 & o1 & o2 & r & Et & En & Er). apply (IH _ _ Er).
  rewrite (turn_table _ _ _ _ _ Et En). apply upkeep_keeps; [by rewrite add_tunnels_other|done].
Qed.

(** upkeep only forgets *)
Lemma upkeep_present p tn x : present (p_filter p) x = false -> present (p_filter (upkeep p tn)) x = false.
Proof.
  intros H. unfold upkeep. set (q := expire_tunnels _ _ _).
  assert (p_filter q = p_filter p) as E by (subst q; unfold expire_tunnels; by destruct (_ <=? _)).
  unfold decay_filter. destruct (_ <=? _); [|by rewrite E]. cbn [p_filter]. rewrite E. unfold present, decay in *. cbn.
  apply orb_false_iff in H as [H _]. by rewrite H, bf_optimal_empty.
Qed.

End Lemmas.

(** ** Properties *)

Module ParticipantSamples.

#[local] Existing Instances nom_ref cf_ref biguint_ref sigcrates_ref sha2_ref bloom_ref aes_ref.

Definition peer : Hash := mkHash (replicate 32 5).
Definition tid : TunnelId := mkTunnelId 1234.
Definition next_hop : RouterInfo * TunnelId := (DataSamples.ref_ri, mkTunnelId 99).
Definition lc : LayerCipher := LayerCipher_new (TunnelSamples.k 1) (TunnelSamples.k 2).
Definition config : HopConfig := mkHopConfig (HdIntermediate peer next_hop) lc (600 * 10 ^ 9).
Definition td : TunnelData := mkTunnelData tid (replicate 16 1 ++ replicate 1008 2).
Definition msg : Message := mkMessage 1 (mkI2PDate 0) (MTunnelData td).

Definition turn (new : list (TunnelId * HopConfig)) (instant : Z) (m : Message) : Turn :=
  mkTurn new false instant instant (Ready (Some (peer, m))).

(** the tunnel arrives with its first message, which is then replayed *)
Definition turns : list Turn := [turn [(tid, config)] 1 msg; turn [] 2 msg; turn [] 3 msg].

Lemma lc_wf : wf_LayerCipher lc.
Proof. by split; apply TunnelSamples.k_wf. Qed.
Lemma sample_td_wf : wf_TunnelData td.
Proof. split; [by split|]. split; [by apply bytes_okb_ok|done]. Qed.
Lemma turns_intermediate : Forall turn_intermediate turns.
Proof.
  apply Forall_cons_2; [apply Forall_cons_2; [|apply Forall_nil_2]|].
  - by exists peer, next_hop.
  - apply Forall_cons_2; [apply Forall_nil_2|apply Forall_cons_2; apply Forall_nil_2].
Qed.
Lemma turns_within : Forall (within 0) turns.
Proof. repeat first [apply Forall_nil_2 | apply Forall_cons_2]; by split. Qed.

End ParticipantSamples.

Module ParticipantProps.

#[local] Existing Instances nom_ref cf_ref biguint_ref sigcrates_ref sha2_ref bloom_ref aes_ref.

(** C31: Over any schedule whose turns all happen within one tunnel lifetime
    (600 s), no tunnel data message is forwarded twice: the processors that are
    spawned are for messages that differ in the XOR of their IV and first
    block, whatever the tunnels, the peers and the timers do in between. *)
Theorem participant_no_replay {sc : SigCrates} {bf : BloomFilter} (t0 : Z) (p p' : Participant)
    (turns : list Turn) (out : list HopProcessorState) (r : Poll unit unit) :
  Forall (within t0) turns -> participant_run p turns = Ret (p', out, r) ->
  List.NoDup (spawned_values out).
Proof. intros Hw E. by eapply run_no_replay. Qed.

Lemma participant_no_replay_witness :
  match participant_run (Participant_new 0) ParticipantSamples.turns with
  | Ret (_, out, _) => List.NoDup (spawned_values out) /\ length out = 1%nat
  | Panic => False
  end.
Proof.
  assert (match participant_run (Participant_new 0) ParticipantSamples.turns with
          | Ret (_, out, _) => length out = 1%nat
          | Panic => False
          end) as H by (vm_compute; reflexivity).
  destruct (participant_run (Participant_new 0) ParticipantSamples.turns) as [[[p' out] r]|] eqn:E; [|exact H].
  split; [|exact H].
  exact (participant_no_replay 0 _ _ _ _ _ ParticipantSamples.turns_within E).
Defined.

(** A processor is spawned for exactly the tunnel data messages with a
    known tunnel id, for which we are an intermediate hop, that come from the
    hop before us and that the filter has not seen; it gets the tunnel's
    cipher and next hop, and the filter has then seen the message. *)
Theorem participant_forwards_iff {sc : SigCrates} {bf : BloomFilter} (p p' : Participant) (from : Hash)
    (msg : Message) (hp : HopProcessorState) :
  handle_message p from msg = Ret (p', Some hp) <->
  exists td config next_hop,
    msg_payload msg = MTunnelData td /\ participating p !! td_tid td = Some config /\
    hop_data config = HdIntermediate from next_hop /\
    present (p_filter p) (filter_value td) = false /\
    hp = HpProcessing next_hop td (layer_cipher config) /\
    p' = with_filter p (feed (p_filter p) (filter_value td)).1.
Proof.
  unfold handle_message. split.
  - destruct (msg_payload msg) as [| | | | |td| | | | | |]; try by intros [=].
    destruct (participating p !! td_tid td) as [c|] eqn:Ec; [|by intros [=]].
    destruct (negb _) eqn:En; [by intros [=]|].
    pose proof (feed_snd (p_filter p) (filter_value td)) as Hs.
    destruct (feed _ _) as [f []] eqn:Ef; [by intros [=]|].
    destruct (hop_data c) as [|fr nh|] eqn:Eh; [done| |done]. intros [= <- <-].
    apply negb_false_iff, bool_decide_eq_true in En as <-.
    exists td, c, nh. by rewrite Ef.
  - intros (td & c & nh & -> & -> & Eh & Hp & -> & ->). rewrite Eh. cbn [from_ok].
    rewrite bool_decide_true by done. cbn [negb].
    pose proof (feed_snd (p_filter p) (filter_value td)) as Hs. rewrite Hp in Hs.
    destruct (feed _ _) as [f b]. cbn in Hs |- *. by rewrite Hs.
Qed.

(** C20: As long as only tunnels we are an intermediate hop of are registered,
    the task never reaches an unimplemented hop type: every schedule runs
    without a panic, and the table stays that way.  A new message for a tunnel
    we are the inbound gateway of would panic. *)
Theorem participant_never_panics {sc : SigCrates} {bf : BloomFilter} (p : Participant) (turns : list Turn) :
  only_intermediate p -> Forall turn_intermediate turns ->
  (exists p' out r, participant_run p turns = Ret (p', out, r) /\ only_intermediate p') /\
  forall q td from msg config next_hop,
    msg_payload msg = MTunnelData td -> participating q !! td_tid td = Some config ->
    hop_data config = HdInboundGateway next_hop -> present (p_filter q) (filter_value td) = false ->
    handle_message q from msg = Panic.
Proof.
  intros Hp Ht. split; [by apply run_no_panic|].
  intros q td from msg c nh Em Ec Eh Hn. unfold handle_message. rewrite Em, Ec, Eh. cbn [from_ok negb].
  pose proof (feed_snd (p_filter q) (filter_value td)) as Hs. rewrite Hn in Hs.
  destruct (feed _ _) as [f b]. cbn in Hs |- *. by rewrite Hs.
Qed.

Lemma participant_never_panics_witness :
  exists p' out r, participant_run (Participant_new 0) ParticipantSamples.turns = Ret (p', out, r) /\
                   only_intermediate p'.
Proof.
  exact (proj1 (participant_never_panics (Participant_new 0) ParticipantSamples.turns
    (map_Forall_empty _) ParticipantSamples.turns_intermediate)).
Defined.

(** When the thread pool is ready and a transport takes the message, a
    processor hands exactly one message to the next hop: the tunnel data under
    the next tunnel id with this hop's layer put on (taking it off again gives
    the data that arrived), valid for a minute; and it then only waits for the
    transport. *)
Theorem hop_processor_forwards {sc : SigCrates} {aes : AesCrate} (env : HopEnv)
    (next_hop : RouterInfo * TunnelId) (td : TunnelData) (lc : LayerCipher) :
  wf_LayerCipher lc -> wf_TunnelData td -> wf_TunnelId next_hop.2 ->
  he_blocking env = Ready tt -> (forall m, he_send env next_hop.1 m = true) ->
  exists td' r,
    HopProcessor_poll env (HopProcessor_new next_hop td lc) =
      Ret (Some ([(next_hop.1, mkMessage (he_rand_id env)
                    (I2PDate_from_system_time (he_now env + 60 * 10 ^ 9)) (MTunnelData td'))], r)) /\
    td_tid td' = next_hop.2 /\
    decrypt_layer lc (mkTunnelData (td_tid td) (td_data td')) = Ret td /\
    r = match he_sending env with
        | Ready _ => (None, Ready tt)
        | NotReady => (Some HpSending, NotReady)
        | PollErr _ => (None, PollErr tt)
        end.
Proof.
  intros Hlc Htd Htid Hb Hs.
  destruct (encrypt_layer_ok lc td Hlc Htd) as (td' & Ee & Hwf & Et & Ed).
  exists (mkTunnelData next_hop.2 (td_data td')).
  exists (match he_sending env with
          | Ready _ => (None, Ready tt)
          | NotReady => (Some HpSending, NotReady)
          | PollErr _ => (None, PollErr tt)
          end).
  split_and!; [|done| |reflexivity].
  - exact (processor_sends env next_hop td lc td' Ee Hb Hs).
  - rewrite <- Et. cbn. by destruct td'.
Qed.

Lemma hop_processor_forwards_witness :
  exists td' r,
    HopProcessor_poll (mkHopEnv (Ready tt) 7 0 (fun _ _ => true) NotReady)
      (HopProcessor_new ParticipantSamples.next_hop ParticipantSamples.td ParticipantSamples.lc) =
      Ret (Some ([(ParticipantSamples.next_hop.1, mkMessage 7
                    (I2PDate_from_system_time (0 + 60 * 10 ^ 9)) (MTunnelData td'))], r)).
Proof.
  assert (wf_TunnelId ParticipantSamples.next_hop.2) as Ht by (split; reflexivity || discriminate).
  destruct (hop_processor_forwards (mkHopEnv (Ready tt) 7 0 (fun _ _ => true) NotReady)
    ParticipantSamples.next_hop ParticipantSamples.td ParticipantSamples.lc
    ParticipantSamples.lc_wf ParticipantSamples.sample_td_wf Ht eq_refl (fun _ => eq_refl))
    as (td' & r & H & _).
  exists td', r. exact H.
Defined.

End ParticipantProps.
