(* ===== verification/Acceptor.v ===== *)
(** * Accepting tunnel build requests

    [src/tunnel/acceptor.rs]: the listener that finds our record in a build
    request, and the task it spawns to decrypt the record, check it, look up
    the next hop, register the tunnel, answer and forward the request.

    As in [Participant], the futures are state machines: what the runtime, the
    clock and the other tasks contribute to one pass is an argument
    ([AcceptorEnv]), and the duplicate filter that all acceptors share is
    threaded through. *)

From S2P Require Import Prelude Nom Cookie Util Wire Crypto ElGamal Aes Data I2np Message Tunnel Participant.
Import Decaying.

(** ** Constants: seconds, and reply codes *)

Definition MAX_REQUEST_AGE : Z := 65 * 60.
Definition MAX_REQUEST_FUTURE : Z := 5 * 60.
Definition MAX_LOOKUP_TIME : Z := 30.

Definition TUNNEL_ACCEPT : Z := 0.
Definition TUNNEL_REJECT_PROBABALISTIC_REJECT : Z := 10.
Definition TUNNEL_REJECT_TRANSIENT_OVERLOAD : Z := 20.
Definition TUNNEL_REJECT_BANDWIDTH : Z := 30.
Definition TUNNEL_REJECT_CRIT : Z := 50.

(** ** The two forms of a build request *)

(** the records a build message carries *)
Definition payload_records {sc : SigCrates} (p : MessagePayload) : option (list bytes) :=
  match p with
  | MTunnelBuild tb | MTunnelBuildReply tb | MVariableTunnelBuild tb | MVariableTunnelBuildReply tb => Some tb
  | _ => None
  end.

(** [rand_id] and [now] are what [Message::from_payload] draws and reads; the
    message ids are then replaced. *)
Class TunnelBuildRequest {sc : SigCrates} (TB : Type) := {
  tb_records : TB -> list bytes;
  tb_with : TB -> list bytes -> TB;
  to_msg : Z -> Z -> TB -> Z -> Message;
  to_reply : Z -> Z -> TB -> Z -> Message;
  tb_records_with : forall tb l, tb_records (tb_with tb l) = l;
  to_msg_id : forall r n tb id, msg_id (to_msg r n tb id) = id;
  to_reply_id : forall r n tb id, msg_id (to_reply r n tb id) = id;
  to_msg_records : forall r n tb id,
    payload_records (msg_payload (to_msg r n tb id)) = Some (tb_records tb);
  to_reply_records : forall r n tb id,
    payload_records (msg_payload (to_reply r n tb id)) = Some (tb_records tb);
}.

(** [Box<[[u8; 528]; 8]>] and [Vec<[u8; 528]>] *)
Record FixedBuild := mkFixedBuild { fixed_records : list bytes }.
Record VariableBuild := mkVariableBuild { variable_records : list bytes }.

Section Requests.
Context {sc : SigCrates}.

Definition with_id (m : Message) (id : Z) : Message := mkMessage id (msg_expiration m) (msg_payload m).

#[export] Instance FixedBuild_request : TunnelBuildRequest FixedBuild.
Proof.
  refine {|
    tb_records := fixed_records;
    tb_with := fun _ l => mkFixedBuild l;
    to_msg := fun r n tb id => with_id (Message_from_payload r n (MTunnelBuild (fixed_records tb))) id;
    to_reply := fun r n tb id => with_id (Message_from_payload r n (MTunnelBuildReply (fixed_records tb))) id
  |}; done.
Defined.

#[export] Instance VariableBuild_request : TunnelBuildRequest VariableBuild.
Proof.
  refine {|
    tb_records := variable_records;
    tb_with := fun _ l => mkVariableBuild l;
    to_msg := fun r n tb id => with_id (Message_from_payload r n (MVariableTunnelBuild (variable_records tb))) id;
    to_reply := fun r n tb id => with_id (Message_from_payload r n (MVariableTunnelBuildReply (variable_records tb))) id
  |}; done.
Defined.

(** [entry_mut]: an index out of range panics *)
Definition entry {TB} {tbr : TunnelBuildRequest TB} (tb : TB) (i : nat) : outcome bytes :=
  unwrap (tb_records tb !! i).
Definition set_entry {TB} {tbr : TunnelBuildRequest TB} (tb : TB) (i : nat) (r : bytes) : TB :=
  tb_with tb (<[i := r]> (tb_records tb)).

End Requests.

(** ** One request: [HopAcceptor] *)

Section Acceptor.
Context {nom : Nom} {cf : CookieFactory} {bu : BigUintOps} {sc : SigCrates} {sha : Sha2} {grp : DhGroup}
  {aes : AesCrate} {bf : BloomFilter} {TB : Type} {tbr : TunnelBuildRequest TB}.

Record EncryptionInfo := mkEncryptionInfo {
  is_obep : bool;
  ei_next_hop : RouterInfo;
  ei_send_msg_id : Z;
  response : BuildResponseRecord;
  ei_tb : TB;
  ei_i : nat;
  ei_reply_key : SessionKey;
  ei_reply_iv : bytes
}.

Inductive HopAcceptorState :=
| AsDecrypt (from : Hash) (tb : TB) (i : nat)
| AsResolving (from_ident : Hash) (brr : BuildRequestRecord) (tb : TB) (i : nat)
| AsRegisterParticipating (entry : TunnelId * HopConfig) (info : EncryptionInfo)
| AsEncrypt (info : EncryptionInfo)
| AsSending.

(** what a pass does to the rest of the router *)
Inductive Effect :=
| ELookup (key : Hash) (timeout_ms : Z)
| ERegister (tid : TunnelId) (config : HopConfig)
| ESend (peer : RouterInfo) (msg : Message).

(** [ac_now]: nanoseconds since the epoch; [ac_padding]: the random bytes of
    the response *)
Record AcceptorEnv := mkAcceptorEnv {
  ac_blocking : Poll unit unit;
  ac_now : Z;
  ac_lookup : Poll RouterInfo unit;
  ac_register : Poll unit unit;
  ac_padding : bytes;
  ac_rand_id : Z;
  ac_send : RouterInfo -> Message -> bool;
  ac_sending : Poll unit unit
}.

Definition HopAcceptor_new (from : Hash) (tb : TB) (i : nat) : option HopAcceptorState :=
  Some (AsDecrypt from tb i).

(** A pass ends in the next state, or in what [poll] returns with the state
    it leaves. *)
Abbreviation step_result := (HopAcceptorState + (option HopAcceptorState * Poll unit unit))%type.
Definition dropped : step_result := inr (None, Ready tt).
Definition failed : step_result := inr (None, PollErr tt).

(** the reasons to drop a request that was decrypted *)
Definition loop_free (our_hash from_ident : Hash) (brr : BuildRequestRecord) : bool :=
  match hop_type brr with
  | OutboundEndpoint => true
  | Intermediate => negb (bool_decide (next_ident brr = our_hash)) && negb (bool_decide (from_ident = next_ident brr))
  | InboundGateway => negb (bool_decide (next_ident brr = our_hash))
  end.

(** [as_secs] of the difference of the two durations *)
Definition timely (now : Z) (brr : BuildRequestRecord) : bool :=
  let request_time := request_time brr * 3600 * 10 ^ 9 in
  if request_time <? now then negb ((now - request_time) / 10 ^ 9 >? MAX_REQUEST_AGE)
  else negb ((request_time - now) / 10 ^ 9 >? MAX_REQUEST_FUTURE).

Definition step_decrypt (decryptor : Decryptor) (our_hash : Hash) (env : AcceptorEnv)
    (f : DecayingBloomFilter) (from_ident : Hash) (tb : TB) (i : nat)
  : outcome (DecayingBloomFilter * list Effect * step_result) :=
  match ac_blocking env with
  | NotReady => Ret (f, [], inr (Some (AsDecrypt from_ident tb i), NotReady))
  | PollErr _ => Ret (f, [], failed)
  | Ready _ =>
      let! record := entry tb i in
      let! r := BuildRequestRecord_decrypt record decryptor in
      match r with
      | Err _ => Ret (f, [], dropped)
      | Ok brr =>
          let '(f, dup) := feed f (key_bytes (reply_key brr)) in
          if dup : bool then Ret (f, [], dropped)
          else if negb (loop_free our_hash from_ident brr) then Ret (f, [], dropped)
          else if ac_now env <? 0 then Panic
          else if negb (timely (ac_now env) brr) then Ret (f, [], dropped)
          else Ret (f, [ELookup (next_ident brr) (MAX_LOOKUP_TIME * 1000)],
                    inl (AsResolving from_ident brr tb i))
      end
  end.

Definition step_resolving (env : AcceptorEnv) (from_ident : Hash) (brr : BuildRequestRecord) (tb : TB) (i : nat)
  : step_result :=
  match ac_lookup env with
  | NotReady => inr (Some (AsResolving from_ident brr tb i), NotReady)
  | PollErr _ => failed
  | Ready next_hop =>
      let reply := match hop_type brr with Intermediate => TUNNEL_ACCEPT | _ => TUNNEL_REJECT_CRIT end in
      let info := mkEncryptionInfo (bool_decide (hop_type brr = OutboundEndpoint)) next_hop (send_msg_id brr)
                    (mkBuildResponseRecord reply) tb i (reply_key brr) (reply_iv brr) in
      if reply =? TUNNEL_ACCEPT then
        let config :=
          mkHopConfig
            (match hop_type brr with
             | InboundGateway => HdInboundGateway (next_hop, next_tid brr)
             | Intermediate => HdIntermediate from_ident (next_hop, next_tid brr)
             | OutboundEndpoint => HdOutboundEndpoint from_ident
             end)
            (LayerCipher_new (iv_key brr) (layer_key brr))
            (ac_now env + TUNNEL_LIFETIME * 10 ^ 9) in
        inl (AsRegisterParticipating (receive_tid brr, config) info)
      else inl (AsEncrypt info)
  end.

(** every record is encrypted on its own, from the reply IV *)
Definition encrypt_entry (info : EncryptionInfo) (r : bytes) : outcome bytes :=
  if (len (key_bytes (ei_reply_key info)) =? 32) && (len (ei_reply_iv info) =? 16)
  then Ret (cbc_encrypt (key_bytes (ei_reply_key info)) (ei_reply_iv info) r).1
  else Panic.

Fixpoint encrypt_entries (info : EncryptionInfo) (l : list bytes) : outcome (list bytes) :=
  match l with
  | [] => Ret []
  | r :: l =>
      let! r := encrypt_entry info r in
      let! l := encrypt_entries info l in Ret (r :: l)
  end.

(** our response, in place of our record, and all the records encrypted *)
Definition write_response (padding : bytes) (info : EncryptionInfo) : outcome TB :=
  let! record := entry (ei_tb info) (ei_i info) in
  let! (record, r) := gen_build_response_record padding (response info) (record, 0) in
  let! _ := unwrap (rok r) in
  let tb := set_entry (ei_tb info) (ei_i info) record in
  let! l := encrypt_entries info (tb_records tb) in
  Ret (tb_with tb l).

Definition step_encrypt (env : AcceptorEnv) (info : EncryptionInfo) : outcome (list Effect * step_result) :=
  match ac_blocking env with
  | NotReady => Ret ([], inr (Some (AsEncrypt info), NotReady))
  | PollErr _ => Ret ([], failed)
  | Ready _ =>
      let! tb := write_response (ac_padding env) info in
      let msg := (if is_obep info then to_reply else to_msg) (ac_rand_id env) (ac_now env) tb (ei_send_msg_id info) in
      if ac_send env (ei_next_hop info) msg then Ret ([ESend (ei_next_hop info) msg], inl AsSending)
      else Ret ([], failed)
  end.

Definition acceptor_step (decryptor : Decryptor) (our_hash : Hash) (env : AcceptorEnv)
    (f : DecayingBloomFilter) (st : HopAcceptorState)
  : outcome (DecayingBloomFilter * list Effect * step_result) :=
  match st with
  | AsDecrypt from tb i => step_decrypt decryptor our_hash env f from tb i
  | AsResolving from brr tb i => Ret (f, [], step_resolving env from brr tb i)
  | AsRegisterParticipating (tid, config) info =>
      match ac_register env with
      | NotReady => Ret (f, [], inr (Some st, NotReady))
      | PollErr _ => Ret (f, [], failed)
      | Ready _ => Ret (f, [ERegister tid config], inl (AsEncrypt info))
      end
  | AsEncrypt info => let! (eff, r) := step_encrypt env info in Ret (f, eff, r)
  | AsSending =>
      match ac_sending env with
      | NotReady => Ret (f, [], inr (Some AsSending, NotReady))
      | PollErr _ => Ret (f, [], failed)
      | Ready _ => Ret (f, [], inr (None, Ready tt))
      end
  end.

(** [None]: out of fuel *)
Fixpoint acceptor_loop (fuel : nat) (decryptor : Decryptor) (our_hash : Hash) (env : AcceptorEnv)
    (f : DecayingBloomFilter) (st : HopAcceptorState)
  : outcome (option (DecayingBloomFilter * list Effect * (option HopAcceptorState * Poll unit unit))) :=
  match fuel with
  | O => Ret None
  | S fuel =>
      let! (f, eff, r) := acceptor_step decryptor our_hash env f st in
      match r with
      | inr r => Ret (Some (f, eff, r))
      | inl st =>
          let! r := acceptor_loop fuel decryptor our_hash env f st in
          Ret (match r with Some (f, eff', r) => Some (f, eff ++ eff', r) | None => None end)
      end
  end.

(** the states come in a fixed order, so five passes are the most *)
Definition HopAcceptor_poll (decryptor : Decryptor) (our_hash : Hash) (env : AcceptorEnv)
    (f : DecayingBloomFilter) (st : option HopAcceptorState) :=
  let! st := unwrap st in acceptor_loop 5 decryptor our_hash env f st.

End Acceptor.
Arguments HopAcceptorState {sc} TB.
Arguments EncryptionInfo {sc} TB.

(** ** The listener *)

Section Listener.
Context {sc : SigCrates}.

Definition find_our_entry (our_hash : Hash) (tb : list bytes) : option nat :=
  (fix go (i : nat) (l : list bytes) :=
     match l with
     | [] => None
     | r :: l => if bytes_eqb (slice 0 16 r) (slice 0 16 (hash_bytes our_hash)) then Some i else go (S i) l
     end) 0%nat tb.

(** the acceptor that is spawned for a message, in one of the two forms *)
Definition listener_message (our_hash from : Hash) (msg : Message)
  : option (option (HopAcceptorState FixedBuild) + option (HopAcceptorState VariableBuild)) :=
  match msg_payload msg with
  | MTunnelBuild tb =>
      match find_our_entry our_hash tb with
      | Some i => Some (inl (HopAcceptor_new from (mkFixedBuild tb) i))
      | None => None
      end
  | MVariableTunnelBuild vtb =>
      match find_our_entry our_hash vtb with
      | Some i => Some (inr (HopAcceptor_new from (mkVariableBuild vtb) i))
      | None => None
      end
  | _ => None
  end.

(** what the polls of the inbox yield, and what the loop spawns until it has
    to wait, the inbox is closed or polling it fails *)
Fixpoint Listener_poll (our_hash : Hash) (inbox : list (Poll (option (Hash * Message)) unit))
  : list (option (HopAcceptorState FixedBuild) + option (HopAcceptorState VariableBuild)) * Poll unit unit :=
  match inbox with
  | [] | NotReady :: _ => ([], NotReady)
  | PollErr _ :: _ => ([], PollErr tt)
  | Ready None :: _ => ([], Ready tt)
  | Ready (Some (from, msg)) :: inbox =>
      let '(out, r) := Listener_poll our_hash inbox in
      (option_list (listener_message our_hash from msg) ++ out, r)
  end.

End Listener.

(** ** Lemmas *)

Section Lemmas.
Context {nom : Nom} {cf : CookieFactory} {bu : BigUintOps} {sc : SigCrates} {sha : Sha2} {grp : DhGroup}
  {aes : AesCrate} {bf : BloomFilter} {TB : Type} {tbr : TunnelBuildRequest TB}.
Implicit Types (st : HopAcceptorState TB) (info : EncryptionInfo TB).

(** *** Every poll ends *)

Definition rank st : nat :=
  match st with
  | AsDecrypt _ _ _ => 5
  | AsResolving _ _ _ _ => 4
  | AsRegisterParticipating _ _ => 3
  | AsEncrypt _ => 2
  | AsSending => 1
  end.

Lemma step_rank d h env f st f' eff st' :
  acceptor_step d h env f st = Ret (f', eff, inl st') -> (rank st' < rank st)%nat.
Proof.
  destruct st as [from tb i|from brr tb i|[tid config] info|info|]; cbn [acceptor_step rank].
  - unfold step_decrypt, dropped, failed. destruct (ac_blocking env); [|done..].
    destruct (entry tb i) as [rec|]; [|done]. cbn [obind].
    destruct (BuildRequestRecord_decrypt rec d) as [[brr|]|]; [|done..]. cbn [obind].
    destruct (feed f _) as [g []]; [done|]. repeat (case_match; try done). intros [= _ _ <-]. cbn. lia.
  - unfold step_resolving, failed. destruct (ac_lookup env); [|done..].
    destruct (_ =? _); intros [= _ _ <-]; cbn; lia.
  - unfold failed. destruct (ac_register env); [|done..]. intros [= _ _ <-]. cbn. lia.
  - unfold step_encrypt, failed. destruct (ac_blocking env); cbn [obind]; [|done..].
    destruct (write_response _ _); cbn [obind]; [|done].
    destruct (ac_send _ _ _); cbn [obind]; [|done]. intros [= _ _ <-]. cbn. lia.
  - unfold failed. by destruct (ac_sending env).
Qed.

Lemma loop_returns fuel d h env f st : (rank st <= fuel)%nat -> acceptor_loop fuel d h env f st <> Ret None.
Proof.
  revert f st. induction fuel as [|fuel IH]; intros f st Hr.
  - destruct st; cbn in Hr; lia.
  - cbn [acceptor_loop]. destruct (acceptor_step d h env f st) as [[[f' eff] [st'|r]]|] eqn:E; [|done..].
    cbn [obind]. pose proof (step_rank _ _ _ _ _ _ _ _ E).
    specialize (IH f' st' ltac:(lia)).
    destruct (acceptor_loop fuel d h env f' st') as [[x|]|]; [by destruct x as [[]]|by destruct IH|done].
Qed.

(** *** What is registered *)

Definition reg_ok st : Prop :=
  match st with AsRegisterParticipating e _ => intermediate (hop_data e.2) | _ => True end.

Definition effect_ok (e : Effect) : Prop :=
  match e with ERegister _ config => intermediate (hop_data config) | _ => True end.

Definition result_ok (r : HopAcceptorState TB + (option (HopAcceptorState TB) * Poll unit unit)) : Prop :=
  match r with inl st => reg_ok st | inr (Some st, _) => reg_ok st | inr (None, _) => True end.

Lemma step_registers d h env f st f' eff r :
  reg_ok st -> acceptor_step d h env f st = Ret (f', eff, r) -> Forall effect_ok eff /\ result_ok r.
Proof.
  intros Hst. destruct st as [from tb i|from brr tb i|[tid config] info|info|]; cbn [acceptor_step].
  - unfold step_decrypt, dropped, failed. destruct (ac_blocking env); try by intros [= <- <- <-].
    destruct (entry tb i) as [rec|]; [|done]. cbn [obind].
    destruct (BuildRequestRecord_decrypt rec d) as [[brr|]|]; cbn [obind]; [|by intros [= <- <- <-]|done].
    destruct (feed f _) as [g []]; [by intros [= <- <- <-]|].
    repeat (case_match; try by intros [= <- <- <-]). intros [= <- <- <-]. split; [|done]. by repeat constructor.
  - intros [= <- <- <-]. split; [constructor|]. unfold step_resolving, failed.
    destruct (ac_lookup env) as [nh| |]; [|done..].
    destruct (hop_type brr); cbn; [done| |done]. by do 2 eexists.
  - unfold failed. destruct (ac_register env); intros [= <- <- <-]; try by split.
    split; [|done]. apply Forall_cons_2; [exact Hst|apply Forall_nil_2].
  - unfold step_encrypt, failed. destruct (ac_blocking env); cbn [obind]; try by intros [= <- <- <-].
    destruct (write_response _ _); cbn [obind]; [|done].
    destruct (ac_send _ _ _); cbn [obind]; intros [= <- <- <-]; (split; [|done]);
      [apply Forall_cons_2; [done|]|]; apply Forall_nil_2.
  - unfold failed. destruct (ac_sending env); intros [= <- <- <-]; by split.
Qed.

Lemma loop_registers fuel d h env f st f' eff o p :
  reg_ok st -> acceptor_loop fuel d h env f st = Ret (Some (f', eff, (o, p))) ->
  Forall effect_ok eff /\ match o with Some st => reg_ok st | None => True end.
Proof.
  revert f st eff. induction fuel as [|fuel IH]; intros f st eff Hst; [done|]. cbn [acceptor_loop].
  destruct (acceptor_step d h env f st) as [[[f1 eff1] [st1|r]]|] eqn:E; cbn [obind]; [| |done].
  - destruct (step_registers _ _ _ _ _ _ _ _ Hst E) as [H1 H2].
    destruct (acceptor_loop fuel d h env f1 st1) as [[[[f2 eff2] r2]|]|] eqn:E2; cbn [obind]; [|done..].
    intros [= <- <- ->]. destruct (IH _ _ _ H2 E2). split; [by apply Forall_app|done].
  - intros [= <- <- ->]. by destruct (step_registers _ _ _ _ _ _ _ _ Hst E).
Qed.

(** *** The answer *)

Definition wf_info info : Prop :=
  wf_SessionKey (ei_reply_key info) /\ wf_iv (ei_reply_iv info) /\ u8_ok (reply (response info)) /\
  Forall (fun r => bytes_ok r /\ len r = 528) (tb_records (ei_tb info)) /\
  (ei_i info < length (tb_records (ei_tb info)))%nat.

(** what the creator of the tunnel sees when it takes this hop's encryption
    off the records *)
Definition decrypt_entry info (r : bytes) : bytes :=
  (cbc_decrypt (key_bytes (ei_reply_key info)) (ei_reply_iv info) r).1.

(** a record with this hop's encryption *)
Definition seal_entry info (r : bytes) : bytes :=
  (cbc_encrypt (key_bytes (ei_reply_key info)) (ei_reply_iv info) r).1.

Definition record_ok (r : bytes) : Prop := bytes_ok r /\ len r = 528.

Lemma open_sealed info r : wf_info info -> record_ok r -> record_ok (seal_entry info r) /\ decrypt_entry info (seal_entry info r) = r.
Proof.
  intros ([Hk Hkl] & Hiv & _) [Hr Hl]. unfold seal_entry, decrypt_entry.
  destruct (cbc_encrypt (key_bytes (ei_reply_key info)) (ei_reply_iv info) r) as [o iv'] eqn:E.
  destruct (cbc_dec_enc _ Hk Hkl 33 (ei_reply_iv info) r ltac:(lia) Hr Hiv _ _ E) as (Hol & Ho & _ & Hd).
  cbn [fst]. rewrite Hd. split; [split; [done|lia]|done].
Qed.

Lemma encrypt_entries_eq info l : wf_info info -> encrypt_entries info l = Ret (map (seal_entry info) l).
Proof.
  intros ([_ Hkl] & [_ Hivl] & _). induction l as [|r l IH]; [done|]. cbn [encrypt_entries]. unfold encrypt_entry.
  rewrite Hkl, Hivl. cbn [obind Z.eqb Pos.eqb andb]. by rewrite IH.
Qed.

(** the record of an answer *)
Definition response_bytes (padding : bytes) (code : Z) : bytes :=
  calculate_build_response_record_hash padding code ++ padding ++ be_bytes 1 code.

Lemma response_bytes_ok padding (r : BuildResponseRecord) : bytes_ok padding -> len padding = 495 -> u8_ok (reply r) ->
  record_ok (response_bytes padding (reply r)) /\ writes (gen_build_response_record padding r) (response_bytes padding (reply r)) /\
  build_response_record (response_bytes padding (reply r)) = POk [] r.
Proof.
  intros Hp Hpl Hr. assert (writes (gen_build_response_record padding r) (response_bytes padding (reply r))) as Hw.
  { unfold gen_build_response_record. repeat apply writes_seq; apply writes_slice || apply writes_be_u8. }
  split; [|split; [exact Hw|]].
  - unfold response_bytes, calculate_build_response_record_hash. split.
    + apply bytes_ok_app; split; [apply sha256_ok|]. apply bytes_ok_app; split; [done|apply be_bytes_ok].
    + by rewrite !len_app, sha256_len, len_be_bytes, Hpl.
  - exact (parses_exact _ _ _ (rt_parses _ _ _ _ (rt_build_response_record padding r Hp Hpl Hr) Hw)).
Qed.

(** our answer in our place, and everything encrypted *)
Lemma write_response_eq padding info :
  wf_info info -> bytes_ok padding -> len padding = 495 ->
  exists tb', write_response padding info = Ret tb' /\
    tb_records tb' = map (seal_entry info) (<[ei_i info := response_bytes padding (reply (response info))]> (tb_records (ei_tb info))).
Proof.
  intros Hwf Hp Hpl. pose proof Hwf as (_ & _ & Hr & Hl & Hi).
  destruct (response_bytes_ok padding (response info) Hp Hpl Hr) as ([_ Hbl] & Hw & _).
  unfold write_response, entry.
  destruct (tb_records (ei_tb info) !! ei_i info) as [old|] eqn:Eo; [|apply lookup_ge_None in Eo; lia].
  pose proof (Forall_lookup_1 _ _ _ _ Hl Eo) as [_ Hol]. cbn [unwrap obind].
  pose proof (writes_ok _ _ Hw [] old [] ltac:(lia)) as E.
  rewrite !app_nil_l, !app_nil_r in E. change (len []) with 0 in E. rewrite E. cbn [obind GOk rok unwrap].
  unfold set_entry. rewrite tb_records_with, (encrypt_entries_eq _ _ Hwf). cbn [obind]. eexists. split; [done|].
  apply tb_records_with.
Qed.

(** the creator finds our answer in our record and the other records as they
    were *)
Lemma records_opened padding info :
  wf_info info -> bytes_ok padding -> len padding = 495 ->
  let rs := <[ei_i info := response_bytes padding (reply (response info))]> (tb_records (ei_tb info)) in
  map (decrypt_entry info) (map (seal_entry info) rs) = rs.
Proof.
  intros Hwf Hp Hpl rs. pose proof Hwf as (_ & _ & Hr & Hl & _).
  assert (Forall record_ok rs) as Hrs by (apply Forall_insert; [exact Hl|exact (proj1 (response_bytes_ok padding _ Hp Hpl Hr))]).
  clearbody rs. induction Hrs as [|r rs H _ IH]; [done|]. cbn [map]. by rewrite IH, (proj2 (open_sealed info r Hwf H)).
Qed.

(** *** Admission *)

Lemma timely_iff now brr :
  timely now brr = true <->
  now - request_time brr * 3600 * 10 ^ 9 < (MAX_REQUEST_AGE + 1) * 10 ^ 9 /\
  request_time brr * 3600 * 10 ^ 9 - now < (MAX_REQUEST_FUTURE + 1) * 10 ^ 9.
Proof.
  unfold timely, MAX_REQUEST_AGE, MAX_REQUEST_FUTURE. set (t := request_time brr * 3600 * 10 ^ 9).
  destruct (Z.ltb_spec t now); rewrite negb_true_iff, Z.gtb_ltb, Z.ltb_ge;
    Z.div_mod_to_equations; lia.
Qed.

Lemma loop_free_iff our from brr :
  loop_free our from brr = true <->
  (hop_type brr <> OutboundEndpoint -> next_ident brr <> our) /\
  (hop_type brr = Intermediate -> from <> next_ident brr).
Proof.
  unfold loop_free. destruct (hop_type brr);
    rewrite ?andb_true_iff, ?negb_true_iff, ?bool_decide_eq_false; naive_solver.
Qed.

(** a record that decrypts is well-formed *)
Lemma decrypted_wf ct d brr :
  group_ok grp -> BuildRequestRecord_decrypt ct d = Ret (Ok brr) -> wf_BuildRequestRecord brr.
Proof.
  intros Hg. pose proof (grp_p_lo _ Hg). unfold BuildRequestRecord_decrypt, decrypt, decrypt_basic.
  destruct (_ <? 16); [done|]. destruct (negb _); [done|]. destruct (_ <? dec_key d); [done|]. cbn [obind].
  set (data := to_bytes_be _). assert (bytes_ok data) as Hd.
  { apply to_bytes_be_ok, Z.mod_pos_bound. lia. }
  destruct (_ <? 33); [done|]. destruct (bytes_eqb _ _); [|done]. cbn [obind].
  destruct (build_request_record (zdrop 33 data)) as [[[r b]|]|] eqn:E; cbn [obind]; [|done..].
  destruct (bytes_eqb _ _); [|done]. intros [= <-].
  by apply (sound_build_request_record _ _ _ (bytes_ok_zdrop 33 _ Hd) E).
Qed.

(** one poll of an admitted request with every task ready *)
Lemma admitted_poll (d : Decryptor) (our_hash from : Hash) (tb : TB) (i : nat) (env : AcceptorEnv) (f : DecayingBloomFilter)
    (record : bytes) (brr : BuildRequestRecord) (next_hop : RouterInfo) :
  group_ok grp -> Forall record_ok (tb_records tb) ->
  tb_records tb !! i = Some record -> BuildRequestRecord_decrypt record d = Ret (Ok brr) ->
  present f (key_bytes (reply_key brr)) = false -> loop_free our_hash from brr = true ->
  0 <= ac_now env -> timely (ac_now env) brr = true ->
  ac_blocking env = Ready tt -> ac_lookup env = Ready next_hop -> ac_register env = Ready tt ->
  (forall m, ac_send env next_hop m = true) -> bytes_ok (ac_padding env) -> len (ac_padding env) = 495 ->
  let code := if bool_decide (hop_type brr = Intermediate) then 0 else 50 in
  let obep := bool_decide (hop_type brr = OutboundEndpoint) in
  let info := mkEncryptionInfo obep next_hop (send_msg_id brr) (mkBuildResponseRecord code) tb i (reply_key brr) (reply_iv brr) in
  wf_info info /\
  exists f' tb' r,
    HopAcceptor_poll d our_hash env f (HopAcceptor_new from tb i) =
      Ret (Some (f', [ELookup (next_ident brr) 30000] ++
             (if bool_decide (hop_type brr = Intermediate) then
                [ERegister (receive_tid brr)
                   (mkHopConfig (HdIntermediate from (next_hop, next_tid brr))
                      (LayerCipher_new (iv_key brr) (layer_key brr)) (ac_now env + 600 * 10 ^ 9))]
              else []) ++
             [ESend next_hop ((if obep then to_reply else to_msg) (ac_rand_id env) (ac_now env) tb' (send_msg_id brr))], r)) /\
    tb_records tb' = map (seal_entry info) (<[i := response_bytes (ac_padding env) code]> (tb_records tb)).
Proof.
  intros Hg Hrec Hi Hd Hp Hl Hn Ht Eb El Er Hs Hpad Hpl code obep info.
  destruct (decrypted_wf _ _ _ Hg Hd) as (_ & _ & _ & _ & _ & _ & Hrk & Hriv & _).
  assert (wf_info info) as Hinfo.
  { split; [exact Hrk|]. split; [exact Hriv|]. split; [subst code; cbn; by case_bool_decide|].
    split; [exact Hrec|]. by eapply lookup_lt_Some. }
  split; [exact Hinfo|].
  destruct (write_response_eq (ac_padding env) info Hinfo Hpad Hpl) as (tb' & Hw & Htb).
  pose proof (feed_snd f (key_bytes (reply_key brr))) as Hfs. rewrite Hp in Hfs.
  exists (feed f (key_bytes (reply_key brr))).1, tb'.
  exists (match ac_sending env with
          | Ready _ => (None, Ready tt) | NotReady => (Some AsSending, NotReady) | PollErr _ => (None, PollErr tt)
          end).
  split; [|exact Htb].
  set (msg := (if obep then to_reply else to_msg) (ac_rand_id env) (ac_now env) tb' (send_msg_id brr)).
  unfold HopAcceptor_poll, HopAcceptor_new. cbn [unwrap obind acceptor_loop acceptor_step].
  unfold step_decrypt, entry. rewrite Eb, Hi. cbn [unwrap obind]. rewrite Hd. cbn [obind].
  destruct (feed f _) as [g b]. cbn in Hfs |- *. subst b. rewrite Hl. cbn [negb].
  rewrite (proj2 (Z.ltb_ge _ 0)) by done. rewrite Ht. cbn [negb obind].
  cbn [acceptor_loop acceptor_step obind]. unfold step_resolving. rewrite El. fold code.
  assert (step_encrypt env info = Ret ([ESend next_hop msg], inl AsSending)) as Henc.
  { unfold step_encrypt. rewrite Eb, Hw. cbn [obind ei_next_hop info]. fold msg. by rewrite Hs. }
  destruct (hop_type brr) eqn:Eh; cbn in code, obep, info; subst code;
    cbn [Z.eqb TUNNEL_ACCEPT TUNNEL_REJECT_CRIT Pos.eqb obind acceptor_loop acceptor_step];
    rewrite ?Er; cbn [obind acceptor_step];
    match goal with |- context [step_encrypt env ?x] => change x with info end; rewrite Henc; cbn [obind acceptor_step]; destruct (ac_sending env) as [[]| |[]]; reflexivity.
Qed.

End Lemmas.

(** ** Properties *)

Module AcceptorSamples.

#[local] Existing Instances nom_ref cf_ref biguint_ref sigcrates_ref sha2_ref mersenne_group aes_ref bloom_ref.

Definition our_hash : Hash := mkHash (replicate 32 3).
Definition from : Hash := mkHash (replicate 32 5).
Definition brr : BuildRequestRecord :=
  mkBuildRequestRecord (mkTunnelId 7) our_hash (mkTunnelId 9) (mkHash (replicate 32 4))
    (mkSessionKey (replicate 32 5)) (mkSessionKey (replicate 32 6)) (mkSessionKey (replicate 32 7))
    (replicate 16 8) Intermediate 400000 12.

(** the key pair drawn from [9] *)
Definition keys : PrivateKey * PublicKey :=
  (mkPrivateKey (be_bytes 256 9), mkPublicKey (be_bytes 256 (2 ^ 9 mod (2 ^ 2047 - 1)))).

(** five seconds after the hour of the request *)
Definition env : AcceptorEnv :=
  mkAcceptorEnv (Ready tt) ((400000 * 3600 + 5) * 10 ^ 9) (Ready DataSamples.ref_ri) (Ready tt) (zeros 495) 1
    (fun _ _ => true) NotReady.

Lemma brr_wf : wf_BuildRequestRecord brr.
Proof.
  unfold wf_BuildRequestRecord, wf_Hash, wf_SessionKey. split_and!; try done; by apply bytes_okb_ok.
Qed.

Lemma sample_record : exists record, bytes_ok record /\ len record = 528 /\
  BuildRequestRecord_decrypt record (Decryptor_from keys.1) = Ret (Ok brr).
Proof.
  destruct (record_encrypt_decrypt [[9]] [[3]] [1] (zeros 29) brr keys.1 keys.2) as (ct & _ & Hl & Ho & Hd & _).
  - exact mersenne_group_ok.
  - vm_compute. discriminate.
  - by repeat constructor.
  - by repeat constructor.
  - by repeat constructor.
  - apply Exists_cons_hd. vm_compute. reflexivity.
  - apply Exists_cons_hd. vm_compute. reflexivity.
  - apply Exists_cons_hd. reflexivity.
  - vm_compute. reflexivity.
  - exact brr_wf.
  - apply zeros_ok.
  - reflexivity.
  - exists ct. exact (conj Ho (conj Hl Hd)).
Qed.

End AcceptorSamples.

Module AcceptorProps.
Section Polls.
Context {nom : Nom} {cf : CookieFactory} {bu : BigUintOps} {sc : SigCrates} {sha : Sha2} {grp : DhGroup}
  {aes : AesCrate} {bf : BloomFilter} {TB : Type} {tbr : TunnelBuildRequest TB}.

(** Polls of one acceptor until it is done; between two polls the other
    acceptors may change the shared filter. *)
Fixpoint acceptor_polls (d : Decryptor) (our_hash : Hash) (st : option (HopAcceptorState TB))
    (polls : list (AcceptorEnv * DecayingBloomFilter)) : outcome (option (list Effect)) :=
  match polls with
  | [] => Ret (Some [])
  | (env, f) :: polls =>
      let! r := HopAcceptor_poll d our_hash env f st in
      match r with
      | None => Ret None
      | Some (_, eff, (st, NotReady)) =>
          let! r := acceptor_polls d our_hash st polls in
          Ret (match r with Some eff' => Some (eff ++ eff') | None => None end)
      | Some (_, eff, _) => Ret (Some eff)
      end
  end.

Lemma polls_register d h st polls :
  match st with Some st => reg_ok st | None => True end ->
  match acceptor_polls d h st polls with
  | Ret (Some eff) => Forall effect_ok eff
  | Ret None => False
  | Panic => True
  end.
Proof.
  revert st. induction polls as [|[env f] polls IH]; intros st Hst; [constructor|]. cbn [acceptor_polls].
  unfold HopAcceptor_poll. destruct st as [st|]; [|done]. cbn [unwrap obind].
  pose proof (loop_returns 5 d h env f st ltac:(destruct st; cbn; lia)) as Hn.
  destruct (acceptor_loop 5 d h env f st) as [[[[f' eff] [o p]]|]|] eqn:E; [|by destruct Hn|done]. cbn [obind].
  destruct (loop_registers _ _ _ _ _ _ _ _ _ _ Hst E) as [He Ho].
  destruct p as [u| |e]; [exact He| |exact He]. specialize (IH o Ho).
  destruct (acceptor_polls d h o polls) as [[eff'|]|]; cbn [obind]; [|done..]. by apply Forall_app.
Qed.

End Polls.

(** C32: Over any sequence of polls a build request is handled with, every
    poll comes to an end, and the only tunnels it registers are ones we are an
    intermediate hop of: what the participant task needs never to reach its
    unimplemented hop types. *)
Theorem acceptor_registers_intermediate {nom : Nom} {cf : CookieFactory} {bu : BigUintOps} {sc : SigCrates}
    {sha : Sha2} {grp : DhGroup} {aes : AesCrate} {bf : BloomFilter} {TB : Type} {tbr : TunnelBuildRequest TB}
    (d : Decryptor) (our_hash from : Hash) (tb : TB) (i : nat)
    (polls : list (AcceptorEnv * DecayingBloomFilter)) :
  match acceptor_polls d our_hash (HopAcceptor_new from tb i) polls with
  | Ret (Some eff) =>
      Forall (fun e => match e with ERegister _ config => intermediate (hop_data config) | _ => True end) eff
  | Ret None => False
  | Panic => True
  end.
Proof. by apply polls_register. Qed.

(** C33: A request goes on to the lookup of the next hop exactly when our
    record decrypts, its reply key is new to the filter, it is free of the
    loops we can see (we are not our own next hop, the next hop is not the
    previous one) and its time is at most 65 minutes and less than a second in
    the past, or 5 minutes and less than a second in the future. *)
Theorem acceptor_admits_iff {nom : Nom} {cf : CookieFactory} {bu : BigUintOps} {sc : SigCrates}
    {sha : Sha2} {grp : DhGroup} {aes : AesCrate} {bf : BloomFilter} {TB : Type} {tbr : TunnelBuildRequest TB}
    (d : Decryptor) (our_hash from : Hash) (tb : TB) (i : nat) (env : AcceptorEnv)
    (f f' : DecayingBloomFilter) (eff : list Effect) (st' : HopAcceptorState TB) :
  acceptor_step d our_hash env f (AsDecrypt from tb i) = Ret (f', eff, inl st') <->
  exists record brr,
    ac_blocking env = Ready tt /\ tb_records tb !! i = Some record /\
    BuildRequestRecord_decrypt record d = Ret (Ok brr) /\
    present f (key_bytes (reply_key brr)) = false /\
    (hop_type brr <> OutboundEndpoint -> next_ident brr <> our_hash) /\
    (hop_type brr = Intermediate -> from <> next_ident brr) /\
    0 <= ac_now env /\
    ac_now env - request_time brr * 3600 * 10 ^ 9 < (65 * 60 + 1) * 10 ^ 9 /\
    request_time brr * 3600 * 10 ^ 9 - ac_now env < (5 * 60 + 1) * 10 ^ 9 /\
    f' = (feed f (key_bytes (reply_key brr))).1 /\
    eff = [ELookup (next_ident brr) 30000] /\ st' = AsResolving from brr tb i.
Proof.
  cbn [acceptor_step]. unfold step_decrypt, dropped, failed, entry. split.
  - destruct (ac_blocking env) as [[]| |] eqn:Eb; [|done..].
    destruct (tb_records tb !! i) as [rec|] eqn:Er; cbn [unwrap obind]; [|done].
    destruct (BuildRequestRecord_decrypt rec d) as [[brr|]|] eqn:Ed; cbn [obind]; [|done..].
    pose proof (feed_snd f (key_bytes (reply_key brr))) as Hs. destruct (feed f _) as [g []] eqn:Ef; [done|].
    destruct (loop_free our_hash from brr) eqn:El; cbn [negb]; [|done].
    destruct (Z.ltb_spec (ac_now env) 0); [done|].
    destruct (timely (ac_now env) brr) eqn:Et; cbn [negb]; [|done]. intros [= <- <- <-].
    apply loop_free_iff in El as [L1 L2]. apply timely_iff in Et as [T1 T2].
    exists rec, brr. rewrite Ef. by split_and!.
  - intros (rec & brr & -> & -> & Ed & Hp & L1 & L2 & Hn & T1 & T2 & -> & -> & ->). cbn [unwrap obind].
    rewrite Ed. cbn [obind]. pose proof (feed_snd f (key_bytes (reply_key brr))) as Hs. rewrite Hp in Hs.
    destruct (feed f _) as [g b]. cbn in Hs |- *. subst b.
    rewrite (proj2 (loop_free_iff our_hash from brr)) by done.
    rewrite (proj2 (Z.ltb_ge _ 0)) by done. rewrite (proj2 (timely_iff _ brr)) by done. done.
Qed.

(** A request that is admitted is answered and forwarded.  With the next
    hop found and every task ready, one poll registers the tunnel (only when
    we are an intermediate hop; under the receiving id, for ten minutes, with
    the record's keys and next hop) and sends the records to the next hop under
    the record's message id.  The creator, taking our encryption off them,
    finds our answer (0 to accept, 50 to reject) in our place and the other
    records unchanged. *)
Theorem acceptor_forwards {nom : Nom} {cf : CookieFactory} {bu : BigUintOps} {sc : SigCrates}
    {sha : Sha2} {grp : DhGroup} {aes : AesCrate} {bf : BloomFilter} {TB : Type} {tbr : TunnelBuildRequest TB}
    (d : Decryptor) (our_hash from : Hash) (tb : TB) (i : nat) (env : AcceptorEnv) (f : DecayingBloomFilter)
    (record : bytes) (brr : BuildRequestRecord) (next_hop : RouterInfo) :
  group_ok grp -> Forall (fun r => bytes_ok r /\ len r = 528) (tb_records tb) ->
  tb_records tb !! i = Some record -> BuildRequestRecord_decrypt record d = Ret (Ok brr) ->
  present f (key_bytes (reply_key brr)) = false -> loop_free our_hash from brr = true ->
  0 <= ac_now env -> timely (ac_now env) brr = true ->
  ac_blocking env = Ready tt -> ac_lookup env = Ready next_hop -> ac_register env = Ready tt ->
  (forall m, ac_send env next_hop m = true) -> bytes_ok (ac_padding env) -> len (ac_padding env) = 495 ->
  exists f' registered msg records answer r,
    HopAcceptor_poll d our_hash env f (HopAcceptor_new from tb i) =
      Ret (Some (f', [ELookup (next_ident brr) 30000] ++ registered ++ [ESend next_hop msg], r)) /\
    registered = (if bool_decide (hop_type brr = Intermediate) then
                    [ERegister (receive_tid brr)
                       (mkHopConfig (HdIntermediate from (next_hop, next_tid brr))
                          (LayerCipher_new (iv_key brr) (layer_key brr)) (ac_now env + 600 * 10 ^ 9))]
                  else []) /\
    msg_id msg = send_msg_id brr /\ payload_records (msg_payload msg) = Some records /\
    map (fun r => (cbc_decrypt (key_bytes (reply_key brr)) (reply_iv brr) r).1) records
      = <[i := answer]> (tb_records tb) /\
    build_response_record answer =
      POk [] (mkBuildResponseRecord (if bool_decide (hop_type brr = Intermediate) then 0 else 50)).
Proof.
  intros Hg Hrec Hi Hd Hp Hl Hn Ht Eb El Er Hs Hpad Hpl.
  destruct (admitted_poll d our_hash from tb i env f record brr next_hop Hg Hrec Hi Hd Hp Hl Hn Ht Eb El Er Hs Hpad Hpl)
    as (Hinfo & f' & tb' & r & Hpoll & Htb).
  set (code := if bool_decide (hop_type brr = Intermediate) then 0 else 50) in *.
  eexists f', _, _, (tb_records tb'), (response_bytes (ac_padding env) code), r.
  split; [exact Hpoll|]. split; [reflexivity|].
  split; [destruct (bool_decide (hop_type brr = OutboundEndpoint)); apply to_reply_id || apply to_msg_id|].
  split; [destruct (bool_decide (hop_type brr = OutboundEndpoint)); apply to_reply_records || apply to_msg_records|]. split.
  - rewrite Htb. exact (records_opened (ac_padding env) _ Hinfo Hpad Hpl).
  - destruct Hinfo as (_ & _ & Hr & _). exact (proj2 (proj2 (response_bytes_ok (ac_padding env) (mkBuildResponseRecord code) Hpad Hpl Hr))).
Qed.

#[local] Existing Instances nom_ref cf_ref biguint_ref sigcrates_ref sha2_ref mersenne_group aes_ref bloom_ref.

Lemma acceptor_forwards_witness :
  exists record f' msg records answer r,
    HopAcceptor_poll (Decryptor_from AcceptorSamples.keys.1) AcceptorSamples.our_hash AcceptorSamples.env (new 10)
      (HopAcceptor_new AcceptorSamples.from (mkVariableBuild [zeros 528; record]) 1) =
      Ret (Some (f', [ELookup (next_ident AcceptorSamples.brr) 30000] ++
                     [ERegister (mkTunnelId 7)
                        (mkHopConfig (HdIntermediate AcceptorSamples.from (DataSamples.ref_ri, mkTunnelId 9))
                           (LayerCipher_new (iv_key AcceptorSamples.brr) (layer_key AcceptorSamples.brr))
                           (ac_now AcceptorSamples.env + 600 * 10 ^ 9))] ++
                     [ESend DataSamples.ref_ri msg], r)) /\
    payload_records (msg_payload msg) = Some records /\
    build_response_record answer = POk [] (mkBuildResponseRecord 0).
Proof.
  destruct AcceptorSamples.sample_record as (record & Ho & Hl & Hd). exists record.
  destruct (acceptor_forwards (Decryptor_from AcceptorSamples.keys.1) AcceptorSamples.our_hash
    AcceptorSamples.from (mkVariableBuild [zeros 528; record]) 1 AcceptorSamples.env (new 10) record
    AcceptorSamples.brr DataSamples.ref_ri) as (f' & reg & msg & records & answer & r & H1 & -> & _ & H3 & _ & H5).
  - exact mersenne_group_ok.
  - apply Forall_cons_2; [exact (conj (zeros_ok 528) eq_refl)|].
    apply Forall_cons_2; [exact (conj Ho Hl)|apply Forall_nil_2].
  - reflexivity.
  - exact Hd.
  - reflexivity.
  - reflexivity.
  - vm_compute. discriminate.
  - reflexivity.
  - reflexivity.
  - reflexivity.
  - reflexivity.
  - intros m. reflexivity.
  - apply zeros_ok.
  - reflexivity.
  - exists f', msg, records, answer, r. exact (conj H1 (conj H3 H5)).
Defined.

End AcceptorProps.
