(* ===== verification/TunnelPath.v ===== *)
(** * A tunnel from its build request to its data

    The composition of the acceptors and participants of several routers: a
    build request on its way through the hops, each of which runs the listener,
    the acceptor and the participant of [src/tunnel/], and then a tunnel data
    message on the same way.  The creator's part, which the sources do not have,
    is what the protocol asks of it: it takes the replies' encryption off the
    later records in advance ([prepare]), and off the answers at the end
    ([answers]); it does the same with the layers ([Tunnel.creator_removes]). *)

From S2P Require Import Prelude Nom Cookie Util Wire Crypto ElGamal Aes Data I2np Message Tunnel Participant Acceptor.
Import Decaying.

Section Path.
Context {nom : Nom} {cf : CookieFactory} {bu : BigUintOps} {sc : SigCrates} {sha : Sha2} {grp : DhGroup}
  {aes : AesCrate} {bf : BloomFilter}.

(** ** The hops *)

(** A router on the way: what the creator asks of it; its key, the filter of its
    acceptors and what the poll that handles the request meets; the next hop, as
    it knows it; its participant task when the tunnel is registered, the clocks
    (monotonic and system) of that turn, the turns since, the clocks of the turn
    with the data, and what the poll that forwards the data meets. *)
Record Hop := mkHop {
  h_brr : BuildRequestRecord;
  h_decryptor : Decryptor;
  h_filter : DecayingBloomFilter;
  h_env : AcceptorEnv;
  h_next : RouterInfo;
  h_participant : Participant;
  h_registered : Z * Z;
  h_turns : list Turn;
  h_clock : Z * Z;
  h_sender : HopEnv
}.

Definition h_hash (h : Hop) : Hash := our_ident (h_brr h).

(** ** The build request *)

(** a build message in either of its forms *)
Definition build_payload (fixed : bool) (records : list bytes) : MessagePayload :=
  if fixed then MTunnelBuild records else MVariableTunnelBuild records.

(** the listener of a hop, and one poll of the acceptor it spawns *)
Definition handle_build (h : Hop) (from : Hash) (msg : Message) : outcome (option (list Effect)) :=
  match listener_message (h_hash h) from msg with
  | Some (inl st) =>
      let! r := HopAcceptor_poll (h_decryptor h) (h_hash h) (h_env h) (h_filter h) st in
      Ret (match r with Some (_, eff, _) => Some eff | None => None end)
  | Some (inr st) =>
      let! r := HopAcceptor_poll (h_decryptor h) (h_hash h) (h_env h) (h_filter h) st in
      Ret (match r with Some (_, eff, _) => Some eff | None => None end)
  | None => Ret (Some [])
  end.

(** The request goes from hop to hop: to whom each has sent it and what it has
    registered, and the message that leaves the last one.  [None]: a hop has not
    taken it. *)
Fixpoint build_run (hops : list Hop) (from : Hash) (msg : Message)
  : outcome (option (list (RouterInfo * (TunnelId * HopConfig)) * Message)) :=
  match hops with
  | [] => Ret (Some ([], msg))
  | h :: hops =>
      let! r := handle_build h from msg in
      match r with
      | Some [ELookup _ _; ERegister tid config; ESend peer msg] =>
          let! r := build_run hops (h_hash h) msg in
          Ret (match r with Some (l, msg) => Some ((peer, (tid, config)) :: l, msg) | None => None end)
      | _ => Ret None
      end
  end.

(** *** The creator *)

(** the encryption that a hop puts on every record, and taking it off *)
Definition seal (brr : BuildRequestRecord) (r : bytes) : bytes := (cbc_encrypt (key_bytes (reply_key brr)) (reply_iv brr) r).1.
Definition unseal (brr : BuildRequestRecord) (r : bytes) : bytes := (cbc_decrypt (key_bytes (reply_key brr)) (reply_iv brr) r).1.

(** each record as the hops before its own have to receive it; behind them, the
    records that fill the message up *)
Fixpoint prepare (l : list (BuildRequestRecord * bytes)) (fill : list bytes) : list bytes :=
  match l with
  | [] => fill
  | (brr, ct) :: l => ct :: map (unseal brr) (prepare l fill)
  end.

(** the answer of each hop, which it and those after it have encrypted *)
Fixpoint answers (brrs : list BuildRequestRecord) (records : list bytes) : list bytes :=
  match brrs, records with
  | brr :: brrs', r :: records' => foldr unseal r brrs :: answers brrs' records'
  | _, _ => []
  end.

(** *** A hop takes the request *)

Definition accepted (h : Hop) : bytes := response_bytes (ac_padding (h_env h)) 0.

(** what a hop registers *)
Definition h_entry (from : Hash) (h : Hop) : TunnelId * HopConfig :=
  (receive_tid (h_brr h),
   mkHopConfig (HdIntermediate from (h_next h, next_tid (h_brr h))) (LayerCipher_new (iv_key (h_brr h)) (layer_key (h_brr h)))
     (ac_now (h_env h) + 600 * 10 ^ 9)).

Fixpoint tunnel_entries (from : Hash) (hops : list Hop) : list (TunnelId * HopConfig) :=
  match hops with
  | [] => []
  | h :: hops => h_entry from h :: tunnel_entries (h_hash h) hops
  end.

(** [ct] is a request that the hop can read, has not seen, may take and takes in
    time; it finds the next hop, and its tasks and transports are ready *)
Record admits (h : Hop) (from : Hash) (ct : bytes) : Prop := {
  ad_reads : BuildRequestRecord_decrypt ct (h_decryptor h) = Ret (Ok (h_brr h));
  ad_record : record_ok ct;
  ad_type : hop_type (h_brr h) = Intermediate;
  ad_new : present (h_filter h) (key_bytes (reply_key (h_brr h))) = false;
  ad_loop_free : loop_free (h_hash h) from (h_brr h) = true;
  ad_timely : 0 <= ac_now (h_env h) /\ timely (ac_now (h_env h)) (h_brr h) = true;
  ad_ready : ac_blocking (h_env h) = Ready tt /\ ac_lookup (h_env h) = Ready (h_next h) /\ ac_register (h_env h) = Ready tt;
  ad_sends : forall m, ac_send (h_env h) (h_next h) m = true;
  ad_padding : bytes_ok (ac_padding (h_env h)) /\ len (ac_padding (h_env h)) = 495
}.

Fixpoint all_admit (from : Hash) (hops : list Hop) (cts : list bytes) : Prop :=
  match hops, cts with
  | [], [] => True
  | h :: hops, ct :: cts => admits h from ct /\ all_admit (h_hash h) hops cts
  | _, _ => False
  end.

(** the records as they leave the last hop, of which [done] are answered *)
Fixpoint arrived (hops : list Hop) (done : list bytes) : list bytes :=
  match hops with
  | [] => done
  | h :: hops => arrived hops (map (seal (h_brr h)) (done ++ [accepted h]))
  end.

(** no hop takes an answer, which is encrypted, for its own record *)
Fixpoint unmistaken (hops : list Hop) (done : list bytes) : Prop :=
  match hops with
  | [] => True
  | h :: hops =>
      Forall (fun r => slice 0 16 r <> slice 0 16 (hash_bytes (h_hash h))) done /\
      unmistaken hops (map (seal (h_brr h)) (done ++ [accepted h]))
  end.

Lemma unseal_seal brr r : wf_BuildRequestRecord brr -> record_ok r -> record_ok (seal brr r) /\ unseal brr (seal brr r) = r.
Proof.
  intros (_ & _ & _ & _ & _ & _ & [Hk Hkl] & Hiv & _) [Hr Hl]. unfold seal, unseal.
  destruct (cbc_encrypt (key_bytes (reply_key brr)) (reply_iv brr) r) as [o iv'] eqn:E.
  destruct (cbc_dec_enc _ Hk Hkl 33 (reply_iv brr) r ltac:(lia) Hr Hiv _ _ E) as (Hol & Ho & _ & Hd).
  cbn [fst]. rewrite Hd. split; [split; [done|lia]|done].
Qed.

Lemma seal_unseal brr r : wf_BuildRequestRecord brr -> record_ok r -> record_ok (unseal brr r) /\ seal brr (unseal brr r) = r.
Proof.
  intros (_ & _ & _ & _ & _ & _ & [Hk Hkl] & Hiv & _) [Hr Hl]. unfold seal, unseal.
  destruct (cbc_decrypt (key_bytes (reply_key brr)) (reply_iv brr) r) as [o iv'] eqn:E.
  destruct (cbc_enc_dec _ Hk Hkl 33 (reply_iv brr) r ltac:(lia) Hr Hiv _ _ E) as (Hol & Ho & _ & Hd).
  cbn [fst]. rewrite Hd. split; [split; [done|lia]|done].
Qed.

Lemma map_seal_unseal brr rs : wf_BuildRequestRecord brr -> Forall record_ok rs ->
  Forall record_ok (map (unseal brr) rs) /\ map (seal brr) (map (unseal brr) rs) = rs.
Proof.
  intros Hb H. induction H as [|r rs Hr _ [IH1 IH2]]; [by split|]. destruct (seal_unseal brr r Hb Hr) as [H1 H2].
  cbn [map]. split; [by constructor|]. by rewrite H2, IH2.
Qed.

Lemma map_sealed_ok brr rs : wf_BuildRequestRecord brr -> Forall record_ok rs -> Forall record_ok (map (seal brr) rs).
Proof. intros Hb H. apply Forall_map. eapply Forall_impl; [exact H|]. intros r Hr. exact (proj1 (unseal_seal brr r Hb Hr)). Qed.

Lemma accepted_ok h from ct : admits h from ct ->
  record_ok (accepted h) /\ build_response_record (accepted h) = POk [] (mkBuildResponseRecord 0).
Proof.
  intros A. destruct (ad_padding _ _ _ A) as [Hp Hl]. unfold accepted.
  destruct (response_bytes_ok (ac_padding (h_env h)) (mkBuildResponseRecord 0) Hp Hl ltac:(by split)) as (H1 & _ & H2). by split.
Qed.

(** a hop finds its own record, behind those that are answered *)
Lemma find_entry our done ct rest :
  Forall (fun r => slice 0 16 r <> slice 0 16 (hash_bytes our)) done -> slice 0 16 ct = slice 0 16 (hash_bytes our) ->
  find_our_entry our (done ++ ct :: rest) = Some (length done).
Proof.
  intros Hd Hc. unfold find_our_entry.
  match goal with |- ?f 0%nat _ = _ => set (go := f) end.
  assert (forall i, go i (done ++ ct :: rest) = Some (i + length done)%nat) as H; [|exact (H 0%nat)].
  induction Hd as [|r done Hr _ IH]; intros i; cbn [app go length].
  - rewrite (proj2 (bytes_eqb_eq _ _) Hc). f_equal. lia.
  - destruct (bytes_eqb (slice 0 16 r) (slice 0 16 (hash_bytes our))) eqn:E; [by apply bytes_eqb_eq in E|].
    etransitivity; [apply IH|]. f_equal. lia.
Qed.

(** a record that decrypts is ours *)
Lemma decrypted_ours ct d brr : BuildRequestRecord_decrypt ct d = Ret (Ok brr) -> slice 0 16 ct = slice 0 16 (hash_bytes (our_ident brr)).
Proof.
  unfold BuildRequestRecord_decrypt. destruct (_ <? 16); [done|].
  destruct (decrypt d (zdrop 16 ct) false) as [[pt|]|]; cbn [obind]; [|done..].
  destruct (build_request_record pt) as [[[r b]|]|]; cbn [obind]; [|done..].
  destruct (bytes_eqb _ _) eqn:E; [|done]. intros [= <-]. by apply bytes_eqb_eq.
Qed.

Lemma poll_builds {TB} {tbr : TunnelBuildRequest TB} (Hgrp : group_ok grp) h from done ct rest (tb : TB) :
  admits h from ct -> Forall record_ok done -> Forall record_ok rest -> tb_records tb = done ++ ct :: rest ->
  exists f' tb' r, HopAcceptor_poll (h_decryptor h) (h_hash h) (h_env h) (h_filter h) (HopAcceptor_new from tb (length done)) =
      Ret (Some (f', [ELookup (next_ident (h_brr h)) 30000; ERegister (h_entry from h).1 (h_entry from h).2;
                      ESend (h_next h) (to_msg (ac_rand_id (h_env h)) (ac_now (h_env h)) tb' (send_msg_id (h_brr h)))], r)) /\
    tb_records tb' = map (seal (h_brr h)) (done ++ accepted h :: rest).
Proof.
  intros [Hd Hc Ht Hn Hl [Hn0 Hti] (Eb & El & Er) Hs [Hp Hpl]] Hdone Hrest Htb.
  assert (Forall record_ok (tb_records tb)) as Hrs by (rewrite Htb; apply Forall_app; split; [done|by constructor]).
  assert (tb_records tb !! length done = Some ct) as Hi by (rewrite Htb; by apply list_lookup_middle).
  destruct (admitted_poll (h_decryptor h) (h_hash h) from tb (length done) (h_env h) (h_filter h) ct
    (h_brr h) (h_next h) Hgrp Hrs Hi Hd Hn Hl Hn0 Hti Eb El Er Hs Hp Hpl) as (_ & f' & tb' & r & -> & Htb').
  rewrite Ht in *. exists f', tb', r. split; [reflexivity|]. rewrite Htb', Htb, insert_app_r_alt, Nat.sub_diag by done. reflexivity.
Qed.

Lemma hop_builds (Hgrp : group_ok grp) (fixed : bool) h from done ct rest msg :
  admits h from ct -> Forall record_ok done -> Forall record_ok rest ->
  Forall (fun r => slice 0 16 r <> slice 0 16 (hash_bytes (h_hash h))) done ->
  msg_payload msg = build_payload fixed (done ++ ct :: rest) ->
  exists msg', handle_build h from msg =
      Ret (Some [ELookup (next_ident (h_brr h)) 30000; ERegister (h_entry from h).1 (h_entry from h).2; ESend (h_next h) msg']) /\
    msg_payload msg' = build_payload fixed (map (seal (h_brr h)) (done ++ accepted h :: rest)) /\ msg_id msg' = send_msg_id (h_brr h).
Proof.
  intros A Hdone Hrest Hun Hm. pose proof (find_entry _ done ct rest Hun (decrypted_ours _ _ _ (ad_reads _ _ _ A))) as Hf.
  unfold handle_build, listener_message. rewrite Hm. destruct fixed; cbn [build_payload]; rewrite Hf.
  - destruct (poll_builds (tbr := FixedBuild_request) Hgrp h from done ct rest (mkFixedBuild (done ++ ct :: rest)) A Hdone Hrest eq_refl)
      as (f' & tb' & r & -> & Htb). cbn [obind].
    eexists. split; [reflexivity|]. split; [|apply to_msg_id]. cbn in Htb |- *. by rewrite Htb.
  - destruct (poll_builds (tbr := VariableBuild_request) Hgrp h from done ct rest (mkVariableBuild (done ++ ct :: rest)) A Hdone Hrest eq_refl)
      as (f' & tb' & r & -> & Htb). cbn [obind].
    eexists. split; [reflexivity|]. split; [|apply to_msg_id]. cbn in Htb |- *. by rewrite Htb.
Qed.

Lemma prepare_ok fill hops : forall from cts, group_ok grp -> Forall record_ok fill -> all_admit from hops cts ->
  Forall record_ok (prepare (zip (map h_brr hops) cts) fill).
Proof.
  induction hops as [|h hops IH]; intros from [|ct cts] Hg Hf H; try done. destruct H as [A H].
  cbn [map zip_with prepare]. constructor; [exact (ad_record _ _ _ A)|].
  refine (proj1 (map_seal_unseal (h_brr h) _ (decrypted_wf _ _ _ Hg (ad_reads _ _ _ A)) (IH _ _ Hg Hf H))).
Qed.

(** the whole way *)
Lemma build_runs (Hgrp : group_ok grp) (fixed : bool) fill (Hfill : Forall record_ok fill) hops : forall from cts done msg,
  all_admit from hops cts -> Forall record_ok done -> unmistaken hops done ->
  msg_payload msg = build_payload fixed (done ++ prepare (zip (map h_brr hops) cts) fill) ->
  exists msg', build_run hops from msg = Ret (Some (zip (map h_next hops) (tunnel_entries from hops), msg')) /\
    msg_payload msg' = build_payload fixed (arrived hops done ++ fill).
Proof.
  induction hops as [|h hops IH]; intros from [|ct cts] done msg H Hdone Hun Hm; try by destruct H.
  { by exists msg. }
  destruct H as [A H]. destruct Hun as [Hu Hun]. pose proof (prepare_ok fill hops (h_hash h) cts Hgrp Hfill H) as Hpre.
  pose proof (decrypted_wf _ _ _ Hgrp (ad_reads _ _ _ A)) as Hwf.
  destruct (map_seal_unseal (h_brr h) _ Hwf Hpre) as [Hrest Hback].
  cbn [map zip_with prepare] in Hm. destruct (hop_builds Hgrp fixed h from done ct _ msg A Hdone Hrest Hu Hm) as (msg1 & Hb & Hm1 & _).
  destruct (IH (h_hash h) cts (map (seal (h_brr h)) (done ++ [accepted h])) msg1 H) as (msg2 & Hr & Hm2).
  - apply map_sealed_ok; [exact Hwf|]. apply Forall_app. split; [exact Hdone|]. constructor; [exact (proj1 (accepted_ok _ _ _ A))|constructor].
  - exact Hun.
  - rewrite Hm1. f_equal. rewrite cons_middle, app_assoc, map_app. by rewrite Hback.
  - exists msg2. split; [|exact Hm2]. cbn [build_run]. rewrite Hb. cbn [obind]. rewrite Hr. reflexivity.
Qed.

(** what the hops after it do to a record *)
Definition seal_all (hops : list Hop) (r : bytes) : bytes := foldl (fun r h => seal (h_brr h) r) r hops.

Lemma arrived_app hops : forall done, arrived hops done = map (seal_all hops) done ++ arrived hops [].
Proof.
  induction hops as [|h hops IH]; intros done; cbn [arrived seal_all foldl].
  - by rewrite map_id, app_nil_r.
  - rewrite IH, (IH (map (seal (h_brr h)) ([] ++ [accepted h]))), map_app, map_app, map_map, <- app_assoc. reflexivity.
Qed.

Lemma unseal_all hops : forall from cts r, group_ok grp -> all_admit from hops cts -> record_ok r ->
  foldr unseal (seal_all hops r) (map h_brr hops) = r.
Proof.
  induction hops as [|h hops IH]; intros from [|ct cts] r Hg H Hr; try done. destruct H as [A H].
  pose proof (unseal_seal _ _ (decrypted_wf _ _ _ Hg (ad_reads _ _ _ A)) Hr) as [H1 H2].
  cbn [map foldr seal_all foldl]. fold (seal_all hops (seal (h_brr h) r)). by rewrite (IH _ _ _ Hg H H1).
Qed.

(** the creator reads the answer of every hop *)
Lemma answers_read fill hops : forall from cts, group_ok grp -> all_admit from hops cts ->
  answers (map h_brr hops) (arrived hops [] ++ fill) = map accepted hops.
Proof.
  induction hops as [|h hops IH]; intros from [|ct cts] Hg H; try done. pose proof H as [A H'].
  cbn [arrived app map]. rewrite arrived_app. cbn [map app answers]. f_equal; [|exact (IH _ _ Hg H')].
  exact (unseal_all (h :: hops) from (ct :: cts) (accepted h) Hg H (proj1 (accepted_ok _ _ _ A))).
Qed.

(** ** The data *)

Definition h_cipher (h : Hop) : LayerCipher := LayerCipher_new (iv_key (h_brr h)) (layer_key (h_brr h)).

(** The participant of a hop is given the tunnel, takes its turns, and one with
    the message; and one poll of the processor it spawns. *)
Definition handle_data (h : Hop) (entry : TunnelId * HopConfig) (from : Hash) (msg : Message)
  : outcome (option (list (RouterInfo * Message))) :=
  let! (p, _, _) := participant_run (h_participant h)
    (mkTurn [entry] false (h_registered h).1 (h_registered h).2 NotReady :: h_turns h) in
  let! (_, out, _) := participant_turn p (mkTurn [] false (h_clock h).1 (h_clock h).2 (Ready (Some (from, msg)))) in
  match out with
  | [hp] =>
      let! r := HopProcessor_poll (h_sender h) (Some hp) in
      Ret (match r with Some (sent, _) => Some sent | None => None end)
  | _ => Ret None
  end.

(** to whom each hop has sent the message, and the message that leaves the last
    one.  [None]: a hop has not forwarded it. *)
Fixpoint data_run (hops : list (Hop * (TunnelId * HopConfig))) (from : Hash) (msg : Message)
  : outcome (option (list RouterInfo * Message)) :=
  match hops with
  | [] => Ret (Some ([], msg))
  | (h, entry) :: hops =>
      let! r := handle_data h entry from msg in
      match r with
      | Some [(peer, msg)] =>
          let! r := data_run hops (h_hash h) msg in
          Ret (match r with Some (l, msg) => Some (peer :: l, msg) | None => None end)
      | _ => Ret None
      end
  end.

(** the participant still runs, has not given the id to another tunnel and has
    not seen the message; the tunnel has not expired at any of the turns; the
    thread pool is ready, and a transport takes the message *)
Record carries (h : Hop) (from : Hash) (td : TunnelData) : Prop := {
  ca_runs : exists p out, participant_run (h_participant h)
      (mkTurn [h_entry from h] false (h_registered h).1 (h_registered h).2 NotReady :: h_turns h) = Ret (p, out, NotReady) /\
    present (p_filter p) (filter_value td) = false;
  ca_turns : Forall (turn_keeps (h_entry from h).1 (h_entry from h).2) (h_turns h);
  ca_clocks : (h_registered h).2 < expires (h_entry from h).2 /\ (h_clock h).2 < expires (h_entry from h).2;
  ca_blocking : he_blocking (h_sender h) = Ready tt;
  ca_sends : forall m, he_send (h_sender h) (h_next h) m = true
}.

Fixpoint all_carry (from : Hash) (hops : list Hop) (td : TunnelData) : Prop :=
  match hops with
  | [] => True
  | h :: hops =>
      carries h from td /\
      forall e, encrypt_layer (h_cipher h) td = Ret e -> all_carry (h_hash h) hops (mkTunnelData (next_tid (h_brr h)) (td_data e))
  end.

(** each hop sends under the id that the next one receives *)
Fixpoint linked (tid : TunnelId) (hops : list Hop) : Prop :=
  match hops with
  | [] => True
  | h :: hops => receive_tid (h_brr h) = tid /\ linked (next_tid (h_brr h)) hops
  end.

Definition last_tid (tid : TunnelId) (hops : list Hop) : TunnelId := foldl (fun _ h => next_tid (h_brr h)) tid hops.

(** the id of a message is not encrypted *)
Lemma encrypt_layer_tid c t td : encrypt_layer c (mkTunnelData t (td_data td)) = let! e := encrypt_layer c td in Ret (mkTunnelData t (td_data e)).
Proof.
  unfold encrypt_layer. cbn [td_data td_tid]. destruct (Aes256_new _ _ _) as [a|]; [|done]. cbn [obind].
  destruct (encrypt_blocks a _) as [[a' d] n]. by destruct (bool_decide _).
Qed.

Lemma hops_add_tid cs : forall t td, hops_add cs (mkTunnelData t (td_data td)) = let! e := hops_add cs td in Ret (mkTunnelData t (td_data e)).
Proof.
  induction cs as [|c cs IH]; intros t td; [done|]. destruct (encrypt_layer c td) as [e|] eqn:E.
  - rewrite (hops_add_cons _ _ _ _ E), (hops_add_cons _ _ _ (mkTunnelData t (td_data e))) by (by rewrite encrypt_layer_tid, E). apply IH.
  - unfold hops_add. cbn [foldl obind]. rewrite encrypt_layer_tid, E. cbn [obind].
    assert (forall l, foldl (fun (o : outcome TunnelData) c => let! td := o in encrypt_layer c td) Panic l = Panic) as H
      by (intros l; induction l as [|x l IHl]; [done|exact IHl]).
    by rewrite H.
Qed.

Lemma hop_carries h from td msg :
  carries h from td -> wf_BuildRequestRecord (h_brr h) -> wf_TunnelData td -> receive_tid (h_brr h) = td_tid td ->
  msg_payload msg = MTunnelData td ->
  exists e msg', encrypt_layer (h_cipher h) td = Ret e /\ wf_TunnelData e /\
    handle_data h (h_entry from h) from msg = Ret (Some [(h_next h, msg')]) /\
    msg_payload msg' = MTunnelData (mkTunnelData (next_tid (h_brr h)) (td_data e)).
Proof.
  intros [(p & out & Hrun & Hnew) Hturns [Hc1 Hc2] Hb Hs] (_ & _ & _ & _ & Hlk & Hik & _) Htd Htid Hm.
  destruct (encrypt_layer_ok (h_cipher h) td (conj Hik Hlk) Htd) as (e & Ee & He & _).
  exists e. eexists. split; [exact Ee|]. split; [exact He|]. unfold handle_data. rewrite Hrun. cbn [obind].
  destruct (run_waits _ _ _ _ _ Hrun) as (p1 & o1 & o2 & r & Et & En & Er).
  assert (participating p !! td_tid td = Some (h_entry from h).2) as Hp.
  { rewrite <- Htid. apply (run_keeps _ _ _ _ _ _ Er); [|exact Hturns].
    rewrite (turn_table _ _ _ _ _ Et En). apply upkeep_keeps; [apply lookup_insert_eq|exact Hc1]. }
  set (tn := mkTurn [] false (h_clock h).1 (h_clock h).2 (Ready (Some (from, msg)))).
  pose proof (upkeep_keeps p tn (td_tid td) _ Hp Hc2) as Hq. pose proof (upkeep_present p tn _ Hnew) as Hf.
  unfold participant_turn. fold (upkeep p tn). cbn [tn_new_err tn_msg tn].
  assert (handle_message (upkeep p tn) from msg =
    Ret (with_filter (upkeep p tn) (feed (p_filter (upkeep p tn)) (filter_value td)).1,
         Some (HpProcessing (h_next h, next_tid (h_brr h)) td (h_cipher h)))) as ->.
  { apply ParticipantProps.participant_forwards_iff. exists td, (h_entry from h).2, (h_next h, next_tid (h_brr h)). by split_and!. }
  pose proof (processor_sends (h_sender h) (h_next h, next_tid (h_brr h)) td (h_cipher h) e Ee Hb Hs) as Hps.
  unfold HopProcessor_new in Hps. cbn [obind]. rewrite Hps. cbn [obind fst snd].
  split; [reflexivity|]. reflexivity.
Qed.

Lemma data_runs hops : forall from td msg,
  Forall (fun h => wf_BuildRequestRecord (h_brr h)) hops -> linked (td_tid td) hops -> wf_TunnelData td -> all_carry from hops td ->
  msg_payload msg = MTunnelData td ->
  exists e msg', hops_add (map h_cipher hops) td = Ret e /\
    data_run (zip hops (tunnel_entries from hops)) from msg = Ret (Some (map h_next hops, msg')) /\
    msg_payload msg' = MTunnelData (mkTunnelData (last_tid (td_tid td) hops) (td_data e)).
Proof.
  induction hops as [|h hops IH]; intros from td msg Hwf Hl Htd Hc Hm.
  { exists td, msg. split; [done|]. split; [done|]. rewrite Hm. by destruct td. }
  apply Forall_cons in Hwf as [Hh Hwf]. destruct Hl as [Ht Hl]. destruct Hc as [Hc Hcs].
  destruct (hop_carries h from td msg Hc Hh Htd Ht Hm) as (e & msg1 & Ee & [_ [He1 He2]] & Hd & Hm1).
  destruct (IH (h_hash h) (mkTunnelData (next_tid (h_brr h)) (td_data e)) msg1 Hwf Hl ltac:(split; [exact (proj1 (proj2 (proj2 Hh)))|by split]) (Hcs e Ee) Hm1) as (e' & msg2 & Ha & Hr & Hm2).
  cbn [map]. rewrite (hops_add_cons _ _ _ _ Ee). rewrite hops_add_tid in Ha.
  destruct (hops_add (map h_cipher hops) e) as [e2|]; [|done]. injection Ha as <-.
  exists e2, msg2. split; [reflexivity|]. split; [|exact Hm2].
  cbn [tunnel_entries zip_with data_run]. rewrite Hd. cbn [obind]. by rewrite Hr.
Qed.

End Path.

(** ** Properties *)

Module TunnelPathProps.
Section Props.
Context {nom : Nom} {cf : CookieFactory} {bu : BigUintOps} {sc : SigCrates} {sha : Sha2} {grp : DhGroup}
  {aes : AesCrate} {bf : BloomFilter}.

(** C12: A tunnel is built: a request that the creator has prepared for a chain of hops,
    each of which may take it, goes through all of them, in either form of the
    message and with any records to fill it up.  Each hop finds its own record,
    registers the tunnel with the participant under the keys and ids it was given,
    with the hop before it as the sender, and sends the message to the next; and in
    the message that the last hop sends, the creator, taking off the encryption of
    a record's own hop and those after it, reads that every hop has accepted. *)
Theorem tunnel_builds (fixed : bool) (hops : list Hop) (creator : Hash) (cts fill : list bytes) (msg : Message) :
  group_ok grp -> all_admit creator hops cts -> unmistaken hops [] -> Forall record_ok fill ->
  msg_payload msg = build_payload fixed (prepare (zip (map h_brr hops) cts) fill) ->
  exists records msg',
    build_run hops creator msg = Ret (Some (zip (map h_next hops) (tunnel_entries creator hops), msg')) /\
    msg_payload msg' = build_payload fixed records /\ drop (length hops) records = fill /\
    map build_response_record (answers (map h_brr hops) records) = map (fun _ => POk [] (mkBuildResponseRecord 0)) hops.
Proof.
  intros Hg Ha Hu Hfill Hm. destruct (build_runs Hg fixed fill Hfill hops creator cts [] msg Ha (Forall_nil_2 _) Hu Hm) as (msg' & Hr & Hm').
  exists (arrived hops [] ++ fill), msg'. split; [exact Hr|]. split; [exact Hm'|]. split.
  - assert (forall rs, length (arrived hops rs) = (length hops + length rs)%nat) as Hl.
    { clear. induction hops as [|h hops IH]; intros rs; [reflexivity|]. cbn [arrived length]. rewrite IH, length_map, length_app. cbn. lia. }
    apply drop_app_length'. by rewrite Hl, Nat.add_0_r.
  - rewrite (answers_read fill hops creator cts Hg Ha). clear Hu Hm Hr Hm'. revert creator cts Ha.
    induction hops as [|h hops IH]; intros creator [|ct cts] Ha; try by destruct Ha.
    destruct Ha as [A Ha]. cbn [map]. by rewrite (proj2 (accepted_ok _ _ _ A)), (IH _ _ Ha).
Qed.

(** C13: A built tunnel carries data: as long as the tunnel has not expired at any hop and none
    has seen the message, a tunnel data message goes from hop to hop, to the router
    and under the id that the hop's request names, whatever else the participants
    have done since.  What arrives is the data with the layers of all hops: the
    creator of an inbound tunnel takes them off again, and when the creator of an
    outbound one has taken them off in advance, what arrives is what it meant. *)
Theorem tunnel_delivers (hops : list Hop) (from : Hash) (td : TunnelData) (msg : Message) :
  Forall (fun h => wf_BuildRequestRecord (h_brr h)) hops -> linked (td_tid td) hops -> wf_TunnelData td ->
  all_carry from hops td -> msg_payload msg = MTunnelData td ->
  exists td' msg',
    data_run (zip hops (tunnel_entries from hops)) from msg = Ret (Some (map h_next hops, msg')) /\
    msg_payload msg' = MTunnelData td' /\ td_tid td' = last_tid (td_tid td) hops /\
    creator_removes (map h_cipher hops) (mkTunnelData (td_tid td) (td_data td')) = Ret td /\
    forall meant, wf_TunnelData meant -> creator_removes (map h_cipher hops) meant = Ret td -> td_data td' = td_data meant.
Proof.
  intros Hwf Hl Htd Hc Hm. destruct (data_runs hops from td msg Hwf Hl Htd Hc Hm) as (e & msg' & Ha & Hr & Hm').
  assert (Forall wf_LayerCipher (map h_cipher hops)) as Hci.
  { apply Forall_map. eapply Forall_impl; [exact Hwf|]. intros h (_ & _ & _ & _ & Hlk & Hik & _). by split. }
  destruct (hops_then_creator _ td Hci Htd) as (ct & Ha' & _ & Ht & Hrm). rewrite Ha in Ha'. injection Ha' as <-.
  eexists _, msg'. split; [exact Hr|]. split; [exact Hm'|]. split; [done|]. cbn [td_data]. split.
  - rewrite <- Ht. by destruct e.
  - intros meant Hwm Hmr. destruct (creator_then_hops _ meant Hci Hwm) as (pre & Hp & _ & _ & Hback).
    rewrite Hmr in Hp. injection Hp as <-. rewrite Ha in Hback. by injection Hback as ->.
Qed.

End Props.

#[local] Existing Instances nom_ref cf_ref biguint_ref sigcrates_ref sha2_ref mersenne_group aes_ref bloom_ref.
Import AcceptorSamples.

(** a second hop, behind the one of the samples *)
Definition brr2 : BuildRequestRecord :=
  mkBuildRequestRecord (mkTunnelId 9) (mkHash (replicate 32 4)) (mkTunnelId 11) (mkHash (replicate 32 6))
    (mkSessionKey (replicate 32 8)) (mkSessionKey (replicate 32 9)) (mkSessionKey (replicate 32 10))
    (replicate 16 11) Intermediate 400000 13.

Lemma brr2_wf : wf_BuildRequestRecord brr2.
Proof. unfold wf_BuildRequestRecord, wf_Hash, wf_SessionKey. split_and!; try done; by apply bytes_okb_ok. Qed.

(** the data arrives a second after the tunnel was registered *)
Definition sample_hop (brr : BuildRequestRecord) : Hop :=
  mkHop brr (Decryptor_from keys.1) (new 10) env DataSamples.ref_ri (Participant_new 0) (1, ac_now env) [] (10 ^ 9, ac_now env + 10 ^ 9)
    (mkHopEnv (Ready tt) 7 0 (fun _ _ => true) NotReady).

Definition sample_hops : list Hop := [sample_hop brr; sample_hop brr2].

Lemma sample_record_of b : wf_BuildRequestRecord b -> exists ct, record_ok ct /\ BuildRequestRecord_decrypt ct (Decryptor_from keys.1) = Ret (Ok b).
Proof.
  intros Hb. destruct (record_encrypt_decrypt [[9]] [[3]] [1] (zeros 29) b keys.1 keys.2) as (ct & _ & Hl & Ho & Hd & _).
  - exact mersenne_group_ok.
  - vm_compute. discriminate.
  - by repeat constructor.
  - by repeat constructor.
  - by repeat constructor.
  - apply Exists_cons_hd. vm_compute. reflexivity.
  - apply Exists_cons_hd. vm_compute. reflexivity.
  - apply Exists_cons_hd. reflexivity.
  - vm_compute. reflexivity.
  - exact Hb.
  - apply zeros_ok.
  - reflexivity.
  - exists ct. by split.
Qed.

Lemma sample_admits b from ct : record_ok ct -> BuildRequestRecord_decrypt ct (Decryptor_from keys.1) = Ret (Ok b) ->
  hop_type b = Intermediate -> loop_free (our_ident b) from b = true -> request_time b = 400000 -> admits (sample_hop b) from ct.
Proof.
  intros Hr Hd Ht Hl Hq. split; try done.
  - split; [discriminate|]. apply timely_iff. cbn [h_brr sample_hop]. rewrite Hq. by split.
  - split; [apply zeros_ok|reflexivity].
Qed.

Lemma sample_unmistaken : unmistaken sample_hops [].
Proof.
  split; [constructor|]. split; [|exact I]. constructor; [|constructor]. vm_compute. discriminate.
Qed.

Lemma tunnel_builds_witness :
  exists cts records msg',
    build_run sample_hops from (mkMessage 1 (mkI2PDate 0) (build_payload false (prepare (zip [brr; brr2] cts) [zeros 528]))) =
      Ret (Some ([(DataSamples.ref_ri, h_entry from (sample_hop brr)); (DataSamples.ref_ri, h_entry our_hash (sample_hop brr2))], msg')) /\
    msg_payload msg' = build_payload false records /\
    map build_response_record (answers [brr; brr2] records) = [POk [] (mkBuildResponseRecord 0); POk [] (mkBuildResponseRecord 0)].
Proof.
  destruct (sample_record_of brr brr_wf) as (ct1 & R1 & D1). destruct (sample_record_of brr2 brr2_wf) as (ct2 & R2 & D2).
  assert (Forall record_ok [zeros 528]) as Hf by (apply Forall_cons_2; [exact (conj (zeros_ok 528) eq_refl)|apply Forall_nil_2]).
  assert (all_admit from sample_hops [ct1; ct2]) as Ha.
  { split; [exact (sample_admits brr from ct1 R1 D1 eq_refl eq_refl eq_refl)|].
    split; [exact (sample_admits brr2 our_hash ct2 R2 D2 eq_refl eq_refl eq_refl)|exact I]. }
  destruct (tunnel_builds false sample_hops from [ct1; ct2] [zeros 528]
    (mkMessage 1 (mkI2PDate 0) (build_payload false (prepare (zip [brr; brr2] [ct1; ct2]) [zeros 528])))
    mersenne_group_ok Ha sample_unmistaken Hf eq_refl) as (records & msg' & H1 & H2 & _ & H3).
  exists [ct1; ct2], records, msg'. split; [exact H1|]. split; [exact H2|exact H3].
Defined.

Definition sample_td : TunnelData := mkTunnelData (mkTunnelId 7) (replicate 1024 2).
Definition data_msg : Message := mkMessage 1 (mkI2PDate 0) (MTunnelData sample_td).

Lemma sample_td_ok : wf_TunnelData sample_td.
Proof. split; [by split|]. split; [by apply bytes_okb_ok|done]. Qed.

Lemma sample_carries b from td : carries (sample_hop b) from td.
Proof.
  split.
  - eexists _, _. split; [reflexivity|]. apply (two_decays_empty (new 20000)).
  - apply Forall_nil_2.
  - by split.
  - reflexivity.
  - reflexivity.
Qed.

Lemma tunnel_delivers_witness :
  exists td' msg',
    data_run (zip sample_hops (tunnel_entries from sample_hops)) from data_msg = Ret (Some ([DataSamples.ref_ri; DataSamples.ref_ri], msg')) /\
    msg_payload msg' = MTunnelData td' /\ td_tid td' = mkTunnelId 11 /\
    creator_removes (map h_cipher sample_hops) (mkTunnelData (mkTunnelId 7) (td_data td')) = Ret sample_td.
Proof.
  assert (Forall (fun h => wf_BuildRequestRecord (h_brr h)) sample_hops) as Hw
    by (apply Forall_cons_2; [exact brr_wf|]; apply Forall_cons_2; [exact brr2_wf|apply Forall_nil_2]).
  assert (all_carry from sample_hops sample_td) as Hc.
  { split; [apply sample_carries|]. intros e _. split; [apply sample_carries|]. intros e2 _. exact I. }
  destruct (tunnel_delivers sample_hops from sample_td data_msg Hw (conj eq_refl (conj eq_refl I)) sample_td_ok Hc eq_refl)
    as (td' & msg' & H1 & H2 & H3 & H4 & _).
  exists td', msg'. split; [exact H1|]. split; [exact H2|]. split; [exact H3|exact H4].
Defined.

End TunnelPathProps.
