(* ===== verification/NetDb.v ===== *)
(** * The network database

    [src/netdb/mod.rs], [src/netdb/errors.rs] and the query handler of
    [src/netdb/client.rs]: the database of router infos and lease sets with the
    lookups waiting on it, and the engine that maintains it.

    Channels are numbered; what is sent on one is an effect.  The current date
    (formatted by [chrono]), the clock and the random numbers are arguments,
    and so are the results of polling the other tasks. *)

From S2P Require Import Prelude Nom Cookie Util Wire Crypto Data Dest I2np Message.

(** ** Errors *)

Inductive LookupError := LeNotFound | LeNoPath | LeSendFailure | LeTimedOut | LeTimerFailure.

(** [SeExpired]: the age in nanoseconds *)
Inductive StoreError :=
| SeCrypto (e : CryptoError)
| SeExpired (age : Z)
| SeInvalidKey
| SePublishedInFuture
| SeWrongNetwork.

(** ** Constants: seconds, and numbers of routers *)

Definition ROUTER_INFO_EXPIRATION : Z := 27 * 60 * 60.
Definition EXPIRE_RI_INTERVAL : Z := 5 * 60.
Definition EXPIRE_LS_INTERVAL : Z := 60.
Definition MINIMUM_ROUTERS : Z := 50.
Definition KEEP_ROUTERS : Z := 150.
Definition EXPLORE_MIN_INTERVAL : Z := 30.
Definition EXPLORE_MAX_INTERVAL : Z := 15 * 60.
Definition EXPLORE_MIN_ROUTERS : Z := 250.

(** ** Routing keys and distances *)

(** [today]: the UTC date as [YYYYMMDD]; another length fails the copy *)
Definition create_routing_key {sha : Sha2} (today : bytes) (key : Hash) : outcome Hash :=
  if len today =? 8 then Ret (mkHash (sha256 (hash_bytes key ++ today))) else Panic.

(** metrics are compared like the arrays they are, with [bytes_leb] *)
Record XorMetric := mkXorMetric { metric_bytes : bytes }.
Definition for_hash (hash key : Hash) : XorMetric := mkXorMetric (hash_bytes (Hash_xor hash key)).
Definition metric_leb (a b : XorMetric) : bool := bytes_leb (metric_bytes a) (metric_bytes b).

#[export] Instance XorMetric_eq_dec : EqDecision XorMetric.
Proof. solve_decision. Defined.

Section Database.
Context {cf : CookieFactory} {bu : BigUintOps} {sc : SigCrates} {sha : Sha2}.
Context (dsa_verify : DsaPublicKey -> bytes -> DsaSignature -> bool).

Definition ri_hash (ri : RouterInfo) : comp Hash := RouterIdentity_hash (router_id ri).

(** [now]: [SystemTime::now()] in nanoseconds since the epoch *)
Definition router_info_is_current (now : Z) (ri : RouterInfo) : result unit StoreError :=
  let published := I2PDate_to_system_time (published ri) in
  if published <? now - ROUTER_INFO_EXPIRATION * 10 ^ 9 then Err (SeExpired (now - published))
  else if published >? now + 2 * 60 * 10 ^ 9 then Err SePublishedInFuture
  else Ok tt.

(** ** [LocalNetworkDatabase] *)

(** [nd_next]: the next channel *)
Record LocalNetworkDatabase := mkNetDb {
  ri_ds : gmap Hash RouterInfo;
  ls_ds : gmap Hash LeaseSet;
  pending_ri : gmap Hash (list nat);
  pending_ls : gmap Hash (list nat);
  nd_next : nat
}.

Definition LocalNetworkDatabase_new : LocalNetworkDatabase := mkNetDb ∅ ∅ ∅ ∅ 0.

Definition known_routers (db : LocalNetworkDatabase) : Z := Z.of_nat (size (ri_ds db)).

(** [min_by_key]: the first of the least elements *)
Fixpoint min_by_metric (key : Hash) (l : list RouterInfo) (best : option (XorMetric * RouterInfo))
  : comp (option RouterInfo) :=
  match l with
  | [] => cret (snd <$> best)
  | ri :: l =>
      let* h := ri_hash ri in
      let m := for_hash h key in
      min_by_metric key l
        (match best with
         | Some (b, r) => if metric_leb b m then Some (b, r) else Some (m, ri)
         | None => Some (m, ri)
         end)
  end.

Definition select_closest_ff (today : bytes) (db : LocalNetworkDatabase) (key : Hash) : comp (option RouterInfo) :=
  let! key := create_routing_key today key in
  min_by_metric key (List.filter is_floodfill (map_to_list (ri_ds db)).*2) None.

(** The future a lookup returns: the answer, the wait for a lookup that is
    under way, or a new one with the given floodfill. *)
Inductive LookupFuture (T : Type) :=
| LfReady (r : result T LookupError)
| LfWait (rx : nat)
| LfLookup (rx : nat) (key : Hash) (lookup_type : DatabaseLookupType) (ff : RouterInfo) (timeout_ms : Z).
Arguments LfReady {T} r.
Arguments LfWait {T} rx.
Arguments LfLookup {T} rx key lookup_type ff timeout_ms.

(** a sender for a new channel, after those that wait for [key] already *)
Definition push_pending (pending : gmap Hash (list nat)) (key : Hash) (tx : nat) : gmap Hash (list nat) :=
  <[key := default [] (pending !! key) ++ [tx]]> pending.

Definition lookup_router_info (today : bytes) (db : LocalNetworkDatabase) (key : Hash) (timeout_ms : Z)
    (from_peer : option RouterInfo) : comp (LocalNetworkDatabase * LookupFuture RouterInfo) :=
  let registered :=
    mkNetDb (ri_ds db) (ls_ds db) (push_pending (pending_ri db) key (nd_next db)) (pending_ls db) (S (nd_next db)) in
  match ri_ds db !! key with
  | Some ri => cret (db, LfReady (Ok ri))
  | None =>
      match pending_ri db !! key with
      | Some _ => cret (registered, LfWait (nd_next db))
      | None =>
          let* ff := match from_peer with
                     | Some p => cret (Some p)
                     | None => select_closest_ff today db key
                     end in
          match ff with
          | Some ff => cret (registered, LfLookup (nd_next db) key LtRouterInfo ff timeout_ms)
          | None => cret (db, LfReady (Err LeNotFound))
          end
      end
  end.

Definition lookup_lease_set (today : bytes) (db : LocalNetworkDatabase) (key : Hash) (timeout_ms : Z)
  : comp (LocalNetworkDatabase * LookupFuture LeaseSet) :=
  let registered :=
    mkNetDb (ri_ds db) (ls_ds db) (pending_ri db) (push_pending (pending_ls db) key (nd_next db)) (S (nd_next db)) in
  match ls_ds db !! key with
  | Some ls => cret (db, LfReady (Ok ls))
  | None =>
      match pending_ls db !! key with
      | Some _ => cret (registered, LfWait (nd_next db))
      | None =>
          let* ff := select_closest_ff today db key in
          match ff with
          | Some ff => cret (registered, LfLookup (nd_next db) key LtLeaseSet ff timeout_ms)
          | None => cret (db, LfReady (Err LeNotFound))
          end
      end
  end.

(** the senders that wait for [key] *)
Definition waiting (pending : gmap Hash (list nat)) (key : Hash) : list nat := default [] (pending !! key).

(** The database, who is notified, and the result. *)
Definition store_router_info (now : Z) (db : LocalNetworkDatabase) (key : Hash) (ri : RouterInfo) (from_reseed : bool)
  : comp (LocalNetworkDatabase * list nat * result (option RouterInfo) StoreError) :=
  let* h := ri_hash ri in
  if negb (bool_decide (key = h)) then cret (db, [], Err SeInvalidKey)
  else
    let* v := RouterInfo_verify dsa_verify ri in
    match v with
    | Err e => cret (db, [], Err (SeCrypto e))
    | Ok _ =>
        if match network_id ri with Some net_id => negb (bool_decide (net_id = NET_ID)) | None => true end
        then cret (db, [], Err SeWrongNetwork)
        else
          match (if from_reseed then Ok tt else router_info_is_current now ri) with
          | Err e => cret (db, [], Err e)
          | Ok _ =>
              cret (mkNetDb (<[key := ri]> (ri_ds db)) (ls_ds db) (delete key (pending_ri db)) (pending_ls db)
                            (nd_next db),
                    waiting (pending_ri db) key, Ok (ri_ds db !! key))
          end
    end.

Definition store_lease_set (db : LocalNetworkDatabase) (key : Hash) (ls : LeaseSet)
  : LocalNetworkDatabase * list nat * result (option LeaseSet) StoreError :=
  (mkNetDb (ri_ds db) (<[key := ls]> (ls_ds db)) (pending_ri db) (delete key (pending_ls db)) (nd_next db),
   waiting (pending_ls db) key, Ok (ls_ds db !! key)).

(** [retain] with a closure that hashes *)
Fixpoint retain_current (is_established : option (Hash -> bool)) (now : Z) (l : list (Hash * RouterInfo))
  : comp (list (Hash * RouterInfo)) :=
  match l with
  | [] => cret []
  | (k, ri) :: l =>
      let* keep := match is_established with
                   | Some est => let* h := ri_hash ri in cret (est h)
                   | None => cret false
                   end in
      let keep := keep || match router_info_is_current now ri with Ok _ => true | Err _ => false end in
      let* l := retain_current is_established now l in
      cret (if keep then (k, ri) :: l else l)
  end.

Definition expire_router_infos (is_established : option (Hash -> bool)) (now : Z) (db : LocalNetworkDatabase)
  : comp LocalNetworkDatabase :=
  let* l := retain_current is_established now (map_to_list (ri_ds db)) in
  cret (mkNetDb (list_to_map l) (ls_ds db) (pending_ri db) (pending_ls db) (nd_next db)).

Definition expire_lease_sets (now : Z) (db : LocalNetworkDatabase) : LocalNetworkDatabase :=
  mkNetDb (ri_ds db) (base.filter (fun e => is_current now e.2 = true) (ls_ds db))
          (pending_ri db) (pending_ls db) (nd_next db).

End Database.

(** ** The engine *)

Section Engine.
Context {cf : CookieFactory} {bu : BigUintOps} {sc : SigCrates} {sha : Sha2}.
Context (dsa_verify : DsaPublicKey -> bytes -> DsaSignature -> bool).

(** what a client asks, with the channel for the answer *)
Inductive Query :=
| QKnownRouters (ret : nat)
| QSelectClosestFloodfill (key : Hash) (ret : nat)
| QLookupRouterInfo (key : Hash) (timeout_ms : Z) (from_peer : option RouterInfo) (ret : nat)
| QLookupLeaseSet (key : Hash) (timeout_ms : Z) (ret : nat)
| QStoreRouterInfo (key : Hash) (ri : RouterInfo) (from_reseed : bool) (ret : nat)
| QStoreLeaseSet (key : Hash) (ls : LeaseSet) (ret : nat).

(** what is sent on channels, and the tasks that are spawned *)
Inductive NdEffect :=
| EfNotifyRI (tx : nat) (ri : RouterInfo)
| EfNotifyLS (tx : nat) (ls : LeaseSet)
| EfKnownRouters (tx : nat) (n : Z)
| EfFloodfill (tx : nat) (ff : option RouterInfo)
| EfLookupRI (tx : nat) (f : LookupFuture RouterInfo)
| EfLookupLS (tx : nat) (f : LookupFuture LeaseSet)
| EfStoredRI (tx : nat) (r : result (option RouterInfo) StoreError)
| EfStoredLS (tx : nat) (r : result (option LeaseSet) StoreError)
| EfSearchReply (tx : nat) (dsr : DatabaseSearchReply)
| EfReseed
| EfExplore (key : Hash) (ff : RouterInfo) (timeout_ms : Z).

Definition Query_handle (now : Z) (today : bytes) (q : Query) (db : LocalNetworkDatabase)
  : comp (LocalNetworkDatabase * list NdEffect) :=
  match q with
  | QKnownRouters ret => cret (db, [EfKnownRouters ret (known_routers db)])
  | QSelectClosestFloodfill key ret =>
      let* ff := select_closest_ff today db key in cret (db, [EfFloodfill ret ff])
  | QLookupRouterInfo key timeout_ms from_peer ret =>
      let* (db, f) := lookup_router_info today db key timeout_ms from_peer in cret (db, [EfLookupRI ret f])
  | QLookupLeaseSet key timeout_ms ret =>
      let* (db, f) := lookup_lease_set today db key timeout_ms in cret (db, [EfLookupLS ret f])
  | QStoreRouterInfo key ri from_reseed ret =>
      let* (db, notified, r) := store_router_info dsa_verify now db key ri from_reseed in
      cret (db, map (fun tx => EfNotifyRI tx ri) notified ++ [EfStoredRI ret r])
  | QStoreLeaseSet key ls ret =>
      let '(db, notified, r) := store_lease_set db key ls in
      cret (db, map (fun tx => EfNotifyLS tx ls) notified ++ [EfStoredLS ret r])
  end.

(** the timers as deadlines, in nanoseconds; [active_reseed]: one is running *)
Record Engine := mkEngine {
  netdb : LocalNetworkDatabase;
  active_reseed : bool;
  pending_lookups : gmap (Hash * Hash) nat;
  expire_ri_timer : Z;
  expire_ls_timer : Z;
  explore_timer : Z
}.

Definition Engine_new (instant : Z) : Engine :=
  mkEngine LocalNetworkDatabase_new false ∅ (instant + EXPIRE_RI_INTERVAL * 10 ^ 9)
           (instant + EXPIRE_LS_INTERVAL * 10 ^ 9) instant.

(** What one pass finds: the reseed task and the setting, the clocks and the
    date, the key that is drawn, the peers we are connected to, the lookups to
    register (and how polling them ends), the inbox and the clients' queue. *)
Record EngineEnv := mkEngineEnv {
  ee_reseed : Poll unit unit;
  ee_reseed_enabled : bool;
  ee_instant : Z;
  ee_now : Z;
  ee_today : bytes;
  ee_random_key : Hash;
  ee_established : Hash -> bool;
  ee_pending : list (Hash * Hash * nat);
  ee_pending_end : Poll unit unit;
  ee_ib : Poll (option (Hash * Message)) unit;
  ee_client : Poll (option Query) unit
}.

Definition with_netdb (en : Engine) (db : LocalNetworkDatabase) : Engine :=
  mkEngine db (active_reseed en) (pending_lookups en) (expire_ri_timer en) (expire_ls_timer en) (explore_timer en).

(** [EngineState::CheckReseed] *)
Definition check_reseed (env : EngineEnv) (en : Engine) : Engine * list NdEffect :=
  let active := active_reseed en && match ee_reseed env with NotReady => true | _ => false end in
  let start := ee_reseed_enabled env && negb active && (known_routers (netdb en) <? MINIMUM_ROUTERS) in
  (mkEngine (netdb en) (active || start) (pending_lookups en) (expire_ri_timer en) (expire_ls_timer en)
            (explore_timer en),
   if start then [EfReseed] else []).

Definition expire_ri_step (env : EngineEnv) (en : Engine) : comp Engine :=
  if expire_ri_timer en <=? ee_instant env then
    let* db := if KEEP_ROUTERS <=? known_routers (netdb en)
               then expire_router_infos (Some (ee_established env)) (ee_now env) (netdb en)
               else cret (netdb en) in
    cret (mkEngine db (active_reseed en) (pending_lookups en)
            (ee_instant env + EXPIRE_RI_INTERVAL * 10 ^ 9) (expire_ls_timer en) (explore_timer en))
  else cret en.

Definition expire_ls_step (env : EngineEnv) (en : Engine) : Engine :=
  if expire_ls_timer en <=? ee_instant env then
    mkEngine (expire_lease_sets (ee_now env) (netdb en)) (active_reseed en) (pending_lookups en)
      (expire_ri_timer en) (ee_instant env + EXPIRE_LS_INTERVAL * 10 ^ 9) (explore_timer en)
  else en.

Definition explore_step (env : EngineEnv) (en : Engine) : comp (Engine * list NdEffect) :=
  if explore_timer en <=? ee_instant env then
    let* ff := select_closest_ff (ee_today env) (netdb en) (ee_random_key env) in
    let interval := if known_routers (netdb en) <? EXPLORE_MIN_ROUTERS
                    then EXPLORE_MIN_INTERVAL else EXPLORE_MAX_INTERVAL in
    cret (mkEngine (netdb en) (active_reseed en) (pending_lookups en) (expire_ri_timer en) (expire_ls_timer en)
            (ee_instant env + interval * 10 ^ 9),
          match ff with Some ff => [EfExplore (ee_random_key env) ff (30 * 1000)] | None => [] end)
  else cret (en, []).

(** [EngineState::Timers] *)
Definition timers (env : EngineEnv) (en : Engine) : comp (Engine * list NdEffect) :=
  let* en := expire_ri_step env en in
  explore_step env (expire_ls_step env en).

Definition register_lookups (en : Engine) (l : list (Hash * Hash * nat)) : Engine :=
  mkEngine (netdb en) (active_reseed en) (foldl (fun m e => <[e.1 := e.2]> m) (pending_lookups en) l)
    (expire_ri_timer en) (expire_ls_timer en) (explore_timer en).

(** a network message; a store that is refused fails the [expect] *)
Definition handle_network (env : EngineEnv) (en : Engine) (from : Hash) (msg : Message)
  : comp (Engine * list NdEffect) :=
  match msg_payload msg with
  | MDatabaseStore ds =>
      match ds_data ds with
      | DsRI ri =>
          let* (db, notified, r) := store_router_info dsa_verify (ee_now env) (netdb en) (ds_key ds) ri false in
          let! _ := unwrap (rok r) in
          cret (with_netdb en db, map (fun tx => EfNotifyRI tx ri) notified)
      | DsLS ls =>
          let '(db, notified, r) := store_lease_set (netdb en) (ds_key ds) ls in
          let! _ := unwrap (rok r) in
          cret (with_netdb en db, map (fun tx => EfNotifyLS tx ls) notified)
      end
  | MDatabaseSearchReply dsr =>
      match pending_lookups en !! (from, dsr_key dsr) with
      | Some tx =>
          cret (mkEngine (netdb en) (active_reseed en) (delete (from, dsr_key dsr) (pending_lookups en))
                  (expire_ri_timer en) (expire_ls_timer en) (explore_timer en),
                [EfSearchReply tx dsr])
      | None => cret (en, [])
      end
  | _ => cret (en, [])
  end.

(** [EngineState::Messages] *)
Definition messages (env : EngineEnv) (en : Engine) : comp (Engine * list NdEffect * option (Poll unit unit)) :=
  let en := register_lookups en (ee_pending env) in
  match ee_pending_end env with
  | PollErr _ => cret (en, [], Some (PollErr tt))
  | Ready _ => cret (en, [], Some (Ready tt))
  | NotReady =>
      let go (ib : option (Hash * Message)) (client : option Query) :=
        let* (en, eff1) := match ib with
                           | Some (from, msg) => handle_network env en from msg
                           | None => cret (en, [])
                           end in
        let* (en, eff2) := match client with
                           | Some q =>
                               let* (db, eff) := Query_handle (ee_now env) (ee_today env) q (netdb en) in
                               cret (with_netdb en db, eff)
                           | None => cret (en, [])
                           end in
        cret (en, eff1 ++ eff2, None) in
      match ee_ib env, ee_client env with
      | PollErr _, _ | _, PollErr _ => cret (en, [], Some (PollErr tt))
      | Ready None, _ | _, Ready None => cret (en, [], Some (Ready tt))
      | NotReady, NotReady => cret (en, [], Some NotReady)
      | Ready t, NotReady => go t None
      | NotReady, Ready u => go None u
      | Ready t, Ready u => go t u
      end
  end.

(** One pass through the three states; the last component is what [poll]
    returns, if it returns. *)
Definition engine_pass (env : EngineEnv) (en : Engine) : comp (Engine * list NdEffect * option (Poll unit unit)) :=
  let '(en, eff1) := check_reseed env en in
  let* (en, eff2) := timers env en in
  let* (en, eff3, r) := messages env en in
  cret (en, eff1 ++ eff2 ++ eff3, r).

(** Passes until the task ends. *)
Fixpoint engine_run (en : Engine) (envs : list EngineEnv) : comp (Engine * list NdEffect) :=
  match envs with
  | [] => cret (en, [])
  | env :: envs =>
      let* (en, eff, r) := engine_pass env en in
      match r with
      | Some (Ready _) | Some (PollErr _) => cret (en, eff)
      | Some NotReady | None => let* (en, eff') := engine_run en envs in cret (en, eff ++ eff')
      end
  end.

End Engine.

(** ** Lemmas *)

Section Lemmas.
Context {cf : CookieFactory} {bu : BigUintOps} {sc : SigCrates} {sha : Sha2}.
Context (dsa_verify : DsaPublicKey -> bytes -> DsaSignature -> bool).

(** Every router info is stored under the hash of its identity, its signature
    verifies and it is in our network; nobody waits for what we have. *)
Definition ri_ok (k : Hash) (ri : RouterInfo) : Prop :=
  ri_hash ri = Ret (Some k) /\ RouterInfo_verify dsa_verify ri = Ret (Some (Ok tt)) /\
  network_id ri = Some NET_ID.

Record netdb_ok (db : LocalNetworkDatabase) : Prop := {
  ok_ris : map_Forall ri_ok (ri_ds db);
  ok_wait_ri : forall k, is_Some (pending_ri db !! k) -> ri_ds db !! k = None;
  ok_wait_ls : forall k, is_Some (pending_ls db !! k) -> ls_ds db !! k = None
}.

Lemma new_ok : netdb_ok LocalNetworkDatabase_new.
Proof. split; [apply map_Forall_empty|by intros k [x Hx]..]. Qed.

Lemma cbind_inv {A B} (m : comp A) (k : A -> comp B) r :
  cbind m k = Ret (Some r) -> exists a, m = Ret (Some a) /\ k a = Ret (Some r).
Proof. destruct m as [[a|]|]; [|done..]. intros H. by exists a. Qed.

(** *** Storing *)

(** the check against our clock *)
Lemma is_current_spec now ri :
  router_info_is_current now ri = Ok tt <->
  now - 27 * 3600 * 10 ^ 9 <= I2PDate_to_system_time (published ri) <= now + 120 * 10 ^ 9.
Proof.
  unfold router_info_is_current, ROUTER_INFO_EXPIRATION. set (t := I2PDate_to_system_time _).
  destruct (Z.ltb_spec t (now - 27 * 60 * 60 * 10 ^ 9)); [split; [done|lia]|].
  rewrite Z.gtb_ltb. destruct (Z.ltb_spec (now + 2 * 60 * 10 ^ 9) t); split; try done; lia.
Qed.

(** A store ends in one of two ways: refused, with nothing changed, or
    accepted. *)
Lemma store_ri_cases now db key ri rs db' l r :
  store_router_info dsa_verify now db key ri rs = Ret (Some (db', l, r)) ->
  (exists e, r = Err e /\ db' = db /\ l = []) \/
  (r = Ok (ri_ds db !! key) /\ l = waiting (pending_ri db) key /\ ri_ok key ri /\
   (rs = true \/ router_info_is_current now ri = Ok tt) /\
   db' = mkNetDb (<[key := ri]> (ri_ds db)) (ls_ds db) (delete key (pending_ri db)) (pending_ls db) (nd_next db)).
Proof.
  unfold store_router_info. intros (h & Eh & H)%cbind_inv.
  case_bool_decide as Ek; cbn [negb] in H; [subst h|injection H as <- <- <-; left; eauto].
  apply cbind_inv in H as (v & Ev & H). destruct v as [[]|e]; [|injection H as <- <- <-; left; eauto].
  destruct (network_id ri) as [n|] eqn:En; [|injection H as <- <- <-; left; eauto].
  case_bool_decide as Hn; cbn [negb] in H; [subst n|injection H as <- <- <-; left; eauto].
  destruct (if rs then Ok tt else router_info_is_current now ri) as [[]|e] eqn:Ec;
    injection H as <- <- <-; [right|left; eauto].
  split_and!; try done. destruct rs; [by left|by right].
Qed.

Lemma store_ri_accepts now db key ri rs :
  ri_ok key ri -> (rs = true \/ router_info_is_current now ri = Ok tt) ->
  store_router_info dsa_verify now db key ri rs =
  cret (mkNetDb (<[key := ri]> (ri_ds db)) (ls_ds db) (delete key (pending_ri db)) (pending_ls db) (nd_next db),
        waiting (pending_ri db) key, Ok (ri_ds db !! key)).
Proof.
  intros (Eh & Ev & En) Hc. unfold store_router_info. rewrite Eh. cbn [cbind].
  rewrite bool_decide_true by done. cbn [negb]. rewrite Ev. cbn [cbind]. rewrite En.
  rewrite bool_decide_true by done. cbn [negb].
  assert ((if rs then Ok tt else router_info_is_current now ri) = Ok tt) as ->; [|done].
  destruct rs; [done|]. by destruct Hc as [|Hc].
Qed.

Lemma store_ri_ok now db key ri rs db' l r :
  netdb_ok db -> store_router_info dsa_verify now db key ri rs = Ret (Some (db', l, r)) -> netdb_ok db'.
Proof.
  intros Hok H. destruct (store_ri_cases _ _ _ _ _ _ _ _ H) as [(e & _ & -> & _)|(_ & _ & Hri & _ & ->)]; [done|].
  destruct Hok as [H1 H2 H3]. split; cbn.
  - by apply map_Forall_insert_2.
  - intros k Hk. destruct (decide (k = key)) as [->|Hne].
    + rewrite lookup_delete_eq in Hk. by destruct Hk.
    + rewrite lookup_delete_ne in Hk by done. rewrite lookup_insert_ne by done. by apply H2.
  - done.
Qed.

Lemma store_ls_ok db key ls : netdb_ok db -> netdb_ok (store_lease_set db key ls).1.1.
Proof.
  intros [H1 H2 H3]. split; cbn; [done|done|]. intros k Hk. destruct (decide (k = key)) as [->|Hne].
  - rewrite lookup_delete_eq in Hk. by destruct Hk.
  - rewrite lookup_delete_ne in Hk by done. rewrite lookup_insert_ne by done. by apply H3.
Qed.

(** *** Looking up *)

Lemma push_ok {V} (ds : gmap Hash V) pending key tx :
  ds !! key = None -> (forall k, is_Some (pending !! k) -> ds !! k = None) ->
  forall k, is_Some (push_pending pending key tx !! k) -> ds !! k = None.
Proof.
  intros Hk Hp k. unfold push_pending. destruct (decide (k = key)) as [->|Hne]; [done|].
  rewrite lookup_insert_ne by done. apply Hp.
Qed.

Lemma lookup_ri_ok today db key t p db' f :
  netdb_ok db -> lookup_router_info today db key t p = Ret (Some (db', f)) -> netdb_ok db'.
Proof.
  intros Hok. unfold lookup_router_info. destruct (ri_ds db !! key) as [ri|] eqn:Ek; [by intros [= <- _]|].
  assert (netdb_ok (mkNetDb (ri_ds db) (ls_ds db) (push_pending (pending_ri db) key (nd_next db))
                      (pending_ls db) (S (nd_next db)))) as Hreg.
  { destruct Hok as [H1 H2 H3]. split; cbn; [done|by apply push_ok|done]. }
  destruct (pending_ri db !! key); [by intros [= <- _]|]. intros (ff & _ & H)%cbind_inv.
  by destruct ff; injection H as <- _.
Qed.

Lemma lookup_ls_ok today db key t db' f :
  netdb_ok db -> lookup_lease_set today db key t = Ret (Some (db', f)) -> netdb_ok db'.
Proof.
  intros Hok. unfold lookup_lease_set. destruct (ls_ds db !! key) as [ri|] eqn:Ek; [by intros [= <- _]|].
  assert (netdb_ok (mkNetDb (ri_ds db) (ls_ds db) (pending_ri db) (push_pending (pending_ls db) key (nd_next db))
                      (S (nd_next db)))) as Hreg.
  { destruct Hok as [H1 H2 H3]. split; cbn; [done|done|by apply push_ok]. }
  destruct (pending_ls db !! key); [by intros [= <- _]|]. intros (ff & _ & H)%cbind_inv.
  by destruct ff; injection H as <- _.
Qed.

(** *** Expiring *)

Definition kept (est : option (Hash -> bool)) (now : Z) (k : Hash) (ri : RouterInfo) : Prop :=
  (exists e, est = Some e /\ e k = true) \/ router_info_is_current now ri = Ok tt.

Lemma retain_spec est now l l' :
  Forall (fun e => ri_hash e.2 = Ret (Some e.1)) l -> retain_current est now l = Ret (Some l') ->
  forall e, e ∈ l' <-> e ∈ l /\ kept est now e.1 e.2.
Proof.
  intros Hl. revert l'. induction Hl as [|[k ri] l Hh _ IH]; intros l'; cbn [retain_current].
  { intros [= <-] e. split; [by intros ?%elem_of_nil|by intros [?%elem_of_nil _]]. }
  intros (keep & Hkeep & (rest & Hrest & H)%cbind_inv)%cbind_inv e. specialize (IH rest Hrest e).
  set (b := keep || _) in H. cbn in Hh.
  assert (b = true <-> kept est now k ri) as Hb.
  { unfold b, kept. destruct est as [est|].
    - rewrite Hh in Hkeep. injection Hkeep as <-. rewrite orb_true_iff.
      destruct (router_info_is_current now ri) as [[]|]; naive_solver.
    - injection Hkeep as <-. cbn. destruct (router_info_is_current now ri) as [[]|]; naive_solver. }
  injection H as <-. destruct b.
  - rewrite !elem_of_cons, IH. split; [intros [->|[]]|intros [[->|] ?]]; naive_solver.
  - rewrite IH, elem_of_cons. split; [naive_solver|]. intros [[->|] Hk]; [|done]. cbn in Hk.
    apply Hb in Hk. done.
Qed.

Lemma retain_sublist est now l l' : retain_current est now l = Ret (Some l') -> sublist l' l.
Proof.
  revert l'. induction l as [|[k ri] l IH]; intros l'; cbn [retain_current]; [by intros [= <-]|].
  intros (keep & _ & (rest & Hrest & H)%cbind_inv)%cbind_inv. specialize (IH rest Hrest).
  injection H as <-. destruct (_ || _); by constructor.
Qed.

Lemma expire_ri_lookup est now db db' k ri :
  netdb_ok db -> expire_router_infos est now db = Ret (Some db') ->
  ri_ds db' !! k = Some ri <-> ri_ds db !! k = Some ri /\ kept est now k ri.
Proof.
  intros [H1 _ _]. unfold expire_router_infos. intros (l & Hl & H)%cbind_inv. injection H as <-. cbn.
  rewrite <- elem_of_list_to_map.
  - rewrite (retain_spec _ _ _ _ ltac:(apply Forall_forall; intros [k' ri'] Hin%elem_of_map_to_list;
      exact (proj1 (H1 _ _ Hin))) Hl (k, ri)). by rewrite elem_of_map_to_list.
  - apply (sublist_NoDup _ (map_to_list (ri_ds db)).*1); [apply NoDup_fst_map_to_list|].
    eapply fmap_sublist, retain_sublist, Hl.
Qed.

Lemma expire_ri_ok est now db db' :
  netdb_ok db -> expire_router_infos est now db = Ret (Some db') -> netdb_ok db'.
Proof.
  intros Hok H. pose proof (fun k ri => expire_ri_lookup est now db db' k ri Hok H) as Hlk.
  assert (pending_ri db' = pending_ri db /\ pending_ls db' = pending_ls db /\ ls_ds db' = ls_ds db) as (E1 & E2 & E3).
  { unfold expire_router_infos in H. apply cbind_inv in H as (l & _ & H). by injection H as <-. }
  destruct Hok as [H1 H2 H3]. split.
  - intros k ri Hk. apply Hlk in Hk as [Hk _]. by apply H1.
  - intros k. rewrite E1. intros Hk. apply eq_None_not_Some. intros [ri Hri].
    apply Hlk in Hri as [Hri _]. by rewrite (H2 _ Hk) in Hri.
  - by rewrite E2, E3.
Qed.

Lemma expire_ls_ok now db : netdb_ok db -> netdb_ok (expire_lease_sets now db).
Proof.
  intros [H1 H2 H3]. split; cbn; [done|done|]. intros k Hk. apply map_lookup_filter_None.
  left. by apply H3.
Qed.

(** *** The closest floodfill *)

Lemma bytes_leb_trans a b c : bytes_leb a b = true -> bytes_leb b c = true -> bytes_leb a c = true.
Proof.
  revert b c. induction a as [|x a IH]; intros [|y b] [|z c]; cbn; try done.
  rewrite !orb_true_iff, !andb_true_iff, !Z.ltb_lt, !Z.eqb_eq.
  intros [H1|[-> H1]] [H2|[-> H2]]; [left; lia..|]. right. split; [done|]. by eapply IH.
Qed.

Lemma metric_leb_refl m : metric_leb m m = true.
Proof. unfold metric_leb. by destruct (bytes_leb_total (metric_bytes m) (metric_bytes m)). Qed.

Lemma min_by_metric_spec key l best :
  Forall (fun ri => exists h, ri_hash ri = Ret (Some h)) l ->
  (forall m r, best = Some (m, r) -> exists h, ri_hash r = Ret (Some h) /\ m = for_hash h key) ->
  exists res, min_by_metric key l best = Ret (Some res) /\ (res = None <-> l = [] /\ best = None) /\
    forall r, res = Some r ->
      (r ∈ l \/ snd <$> best = Some r) /\
      exists h, ri_hash r = Ret (Some h) /\
        (forall r2 h2, r2 ∈ l -> ri_hash r2 = Ret (Some h2) -> metric_leb (for_hash h key) (for_hash h2 key) = true) /\
        (forall m r2, best = Some (m, r2) -> metric_leb (for_hash h key) m = true).
Proof.
  intros Hl. revert best. induction Hl as [|ri l [h Hh] _ IH]; intros best Hb.
  - exists (snd <$> best). split; [done|]. split; [destruct best; naive_solver|].
    destruct best as [[m r]|]; [|done]. intros ? [= <-]. split; [by right|].
    destruct (Hb m r eq_refl) as (h & Hh & ->). exists h. split; [done|]. split; [by intros ? ? ?%elem_of_nil|].
    intros ? ? [= <- _]. apply metric_leb_refl.
  - cbn [min_by_metric]. rewrite Hh. cbn [cbind].
    set (best' := match best with Some _ => _ | None => _ end).
    assert (forall m r, best' = Some (m, r) -> exists h, ri_hash r = Ret (Some h) /\ m = for_hash h key) as Hb'.
    { subst best'. destruct best as [[m r]|]; [destruct (metric_leb _ _)|]; intros ? ? [= <- <-]; eauto. }
    destruct (IH best' Hb') as (res & Hres & Hnone & Hsome). exists res. split; [exact Hres|]. split.
    + rewrite Hnone. subst best'. destruct best as [[m r]|]; [destruct (metric_leb _ _)|]; naive_solver.
    + intros r Hr. destruct (Hsome r Hr) as (Hin & h' & Hh' & Hl1 & Hl2).
      assert (metric_leb (for_hash h' key) (for_hash h key) = true /\
              forall m r2, best = Some (m, r2) -> metric_leb (for_hash h' key) m = true) as [Hri Hbest].
      { subst best'. destruct best as [[m r']|].
        - destruct (metric_leb m (for_hash h key)) eqn:Em.
          + specialize (Hl2 m r' eq_refl). split; [by eapply bytes_leb_trans|]. by intros ? ? [= <- _].
          + specialize (Hl2 _ ri eq_refl). split; [done|]. intros ? ? [= <- _].
            destruct (bytes_leb_total (metric_bytes (for_hash h key)) (metric_bytes m)) as [Ht|Ht].
            * by eapply bytes_leb_trans.
            * unfold metric_leb in Em. congruence.
        - specialize (Hl2 _ ri eq_refl). split; [done|]. by intros ? ? [=]. }
      split.
      * rewrite elem_of_cons. subst best'. destruct Hin as [Hin|Hin]; [by left; right|].
        destruct best as [[m r']|]; [destruct (metric_leb _ _)|]; injection Hin as <-; auto.
      * exists h'. split; [done|]. split; [|done]. intros r2 h2 [->|Hin2]%elem_of_cons Hr2; [|by eapply Hl1].
        rewrite Hh in Hr2. by injection Hr2 as <-.
Qed.

(** *** What the engine's steps preserve

    A property of the database is kept by the engine when the operations that
    the engine calls keep it; stores may be limited to some keys. *)

Lemma with_netdb_netdb en db : netdb (with_netdb en db) = db.
Proof. done. Qed.

Section Preserve.
Context (P : LocalNetworkDatabase -> Prop) (may_ri may_ls : Hash -> Prop).
Hypothesis keep_lookup_ri : forall today db key t p db' f,
  P db -> lookup_router_info today db key t p = Ret (Some (db', f)) -> P db'.
Hypothesis keep_lookup_ls : forall today db key t db' f,
  P db -> lookup_lease_set today db key t = Ret (Some (db', f)) -> P db'.
Hypothesis keep_store_ri : forall now db key ri rs db' l r,
  may_ri key -> P db -> store_router_info dsa_verify now db key ri rs = Ret (Some (db', l, r)) -> P db'.
Hypothesis keep_store_ls : forall db key ls, may_ls key -> P db -> P (store_lease_set db key ls).1.1.
Hypothesis keep_expire_ri : forall est now db db',
  P db -> expire_router_infos est now db = Ret (Some db') -> P db'.
Hypothesis keep_expire_ls : forall now db, P db -> P (expire_lease_sets now db).

Definition may_query (q : Query) : Prop :=
  match q with
  | QStoreRouterInfo key _ _ _ => may_ri key
  | QStoreLeaseSet key _ _ => may_ls key
  | _ => True
  end.

Definition may_message (msg : Message) : Prop :=
  match msg_payload msg with
  | MDatabaseStore ds => match ds_data ds with DsRI _ => may_ri (ds_key ds) | DsLS _ => may_ls (ds_key ds) end
  | _ => True
  end.

Definition may_env (env : EngineEnv) : Prop :=
  (forall from msg, ee_ib env = Ready (Some (from, msg)) -> may_message msg) /\
  (forall q, ee_client env = Ready (Some q) -> may_query q).

Lemma query_pres now today q db db' eff :
  may_query q -> P db -> Query_handle dsa_verify now today q db = Ret (Some (db', eff)) -> P db'.
Proof using All.
  intros Hm Hok. destruct q as [ret|key ret|key t p ret|key t ret|key ri rs ret|key ls ret]; cbn [Query_handle].
  - by intros [= <- _].
  - intros (ff & _ & [= <- _])%cbind_inv. done.
  - intros ([db1 f] & H & [= <- _])%cbind_inv. by eapply keep_lookup_ri.
  - intros ([db1 f] & H & [= <- _])%cbind_inv. by eapply keep_lookup_ls.
  - intros ([[db1 l] r] & H & [= <- _])%cbind_inv. by eapply keep_store_ri.
  - pose proof (keep_store_ls db key ls Hm Hok) as H. destruct (store_lease_set db key ls) as [[db1 l] r].
    by intros [= <- _].
Qed.

Lemma network_pres env en from msg en' eff :
  may_message msg -> P (netdb en) -> handle_network dsa_verify env en from msg = Ret (Some (en', eff)) ->
  P (netdb en').
Proof using All.
  unfold may_message. intros Hm Hok. unfold handle_network.
  destruct (msg_payload msg) as [ds| |dsr| | | | | | | | |]; try by intros [= <- _].
  - destruct (ds_data ds) as [ri|ls].
    + intros ([[db1 l] r] & H & H')%cbind_inv. destruct r as [o|e]; [|done]. injection H' as <- _.
      rewrite with_netdb_netdb. by eapply keep_store_ri.
    + pose proof (keep_store_ls (netdb en) (ds_key ds) ls Hm Hok) as H. unfold store_lease_set in *.
      cbn. by intros [= <- _].
  - by destruct (pending_lookups en !! _); intros [= <- _].
Qed.

Lemma timers_pres env en en' eff :
  P (netdb en) -> timers env en = Ret (Some (en', eff)) -> P (netdb en').
Proof using All.
  intros Hok. unfold timers. intros (en1 & H1 & H2)%cbind_inv.
  assert (P (netdb en1)) as Hok1.
  { unfold expire_ri_step in H1. destruct (_ <=? _); [|by injection H1 as <-].
    apply cbind_inv in H1 as (db & Hdb & H1). injection H1 as <-. cbn.
    destruct (KEEP_ROUTERS <=? _); [by eapply keep_expire_ri|by injection Hdb as <-]. }
  assert (P (netdb (expire_ls_step env en1))) as Hok2.
  { unfold expire_ls_step. destruct (_ <=? _); [|done]. by apply keep_expire_ls. }
  unfold explore_step in H2. destruct (_ <=? _); [|by injection H2 as <- _].
  apply cbind_inv in H2 as (ff & _ & H2). by injection H2 as <- _.
Qed.

Lemma messages_pres env en en' eff r :
  may_env env -> P (netdb en) -> messages dsa_verify env en = Ret (Some (en', eff, r)) -> P (netdb en').
Proof using All.
  intros [Hib Hcl] Hok. unfold messages. set (en0 := register_lookups en _).
  change (netdb en) with (netdb en0) in Hok.
  clearbody en0. destruct (ee_pending_end env); try by intros [= <- _].
  assert (forall ib client,
    (forall from msg, ib = Some (from, msg) -> may_message msg) -> (forall q, client = Some q -> may_query q) ->
    cbind (cbind match ib with Some (from, msg) => handle_network dsa_verify env en0 from msg | None => cret (en0, []) end
      (fun '(en, eff1) => cbind match client with
         | Some q => cbind (Query_handle dsa_verify (ee_now env) (ee_today env) q (netdb en))
                       (fun '(db, eff) => cret (with_netdb en db, eff))
         | None => cret (en, []) end (fun '(en, eff2) => cret (en, eff1 ++ eff2, @None (Poll unit unit)))))
      cret = Ret (Some (en', eff, r)) -> P (netdb en')) as Hgo.
  { intros ib client Hmi Hmc H. apply cbind_inv in H as (x & Hx & H4).
    apply cbind_inv in Hx as ([en1 e1] & H1 & Hx). apply cbind_inv in Hx as ([en2 e2] & H2 & H3).
    injection H3 as <-. injection H4 as <- _ _.
    assert (P (netdb en1)) as Hok1.
    { destruct ib as [[from msg]|]; [by eapply network_pres; eauto|by injection H1 as <- _]. }
    destruct client as [q|]; [|by injection H2 as <- _].
    apply cbind_inv in H2 as ([db e] & H2 & H5). injection H5 as <- _. rewrite with_netdb_netdb.
    by eapply query_pres; eauto. }
  assert (forall m : comp (Engine * list NdEffect * option (Poll unit unit)), cbind m cret = m) as Hid
    by (intros [[|]|]; done).
  destruct (ee_ib env) as [[ib|]| |], (ee_client env) as [[q|]| |]; try by intros [= <- _].
  all: intros H; (eapply (Hgo (Some ib) (Some q)) || eapply (Hgo (Some ib) None) || eapply (Hgo None (Some q)));
    [naive_solver|naive_solver|rewrite Hid; exact H].
Qed.

Lemma pass_pres env en en' eff r :
  may_env env -> P (netdb en) -> engine_pass dsa_verify env en = Ret (Some (en', eff, r)) -> P (netdb en').
Proof using All.
  intros Hm Hok. unfold engine_pass. destruct (check_reseed env en) as [en0 e0] eqn:E0.
  assert (netdb en0 = netdb en) as En by (unfold check_reseed in E0; by injection E0 as <- _).
  intros ([en1 e1] & H1 & ([[en2 e2] r2] & H2 & [= <- _ _])%cbind_inv)%cbind_inv.
  eapply messages_pres, H2; [done|]. eapply timers_pres, H1. by rewrite En.
Qed.

Lemma run_pres en envs en' eff :
  Forall may_env envs -> P (netdb en) -> engine_run dsa_verify en envs = Ret (Some (en', eff)) -> P (netdb en').
Proof using All.
  intros Hm. revert en eff. induction Hm as [|env envs Hm _ IH]; intros en eff Hok; cbn [engine_run];
    [by intros [= <- _]|].
  intros ([[en1 e1] r] & H1 & H2)%cbind_inv. pose proof (pass_pres _ _ _ _ _ Hm Hok H1) as Hok1.
  destruct r as [[u| |e]|]; try by injection H2 as <- _.
  all: apply cbind_inv in H2 as ([en2 e2] & H2 & H3); injection H3 as <- _; by eapply IH.
Qed.

End Preserve.

Lemma may_env_any may_ri may_ls env : (forall k, may_ri k) -> (forall k, may_ls k) -> may_env may_ri may_ls env.
Proof.
  intros Hr Hl. split.
  - intros from msg _. unfold may_message. destruct (msg_payload msg); try done. by destruct (ds_data _).
  - by intros [] _; cbn.
Qed.

(** the engine keeps the database well-formed *)
Lemma run_ok en envs en' eff :
  netdb_ok (netdb en) -> engine_run dsa_verify en envs = Ret (Some (en', eff)) -> netdb_ok (netdb en').
Proof.
  apply (run_pres netdb_ok (fun _ => True) (fun _ => True)); eauto using lookup_ri_ok, lookup_ls_ok, store_ri_ok,
    store_ls_ok, expire_ri_ok, expire_ls_ok.
  apply Forall_forall. intros env _. by apply may_env_any.
Qed.

Lemma query_ok now today q db db' eff :
  netdb_ok db -> Query_handle dsa_verify now today q db = Ret (Some (db', eff)) -> netdb_ok db'.
Proof.
  apply (query_pres netdb_ok (fun _ => True) (fun _ => True)); eauto using lookup_ri_ok, lookup_ls_ok, store_ri_ok,
    store_ls_ok, expire_ri_ok, expire_ls_ok. by destruct q.
Qed.

(** whoever waits for a router info keeps waiting while nobody stores it *)
Lemma run_keeps_waiting key en envs en' eff :
  Forall (may_env (fun k => k <> key) (fun _ => True)) envs ->
  is_Some (pending_ri (netdb en) !! key) /\ ri_ds (netdb en) !! key = None ->
  engine_run dsa_verify en envs = Ret (Some (en', eff)) ->
  is_Some (pending_ri (netdb en') !! key) /\ ri_ds (netdb en') !! key = None.
Proof.
  apply (run_pres (fun db => is_Some (pending_ri db !! key) /\ ri_ds db !! key = None)).
  - intros today db k t p db' f [Hp Hk]. unfold lookup_router_info.
    assert (is_Some (push_pending (pending_ri db) k (nd_next db) !! key)) as Hp'.
    { unfold push_pending. destruct (decide (key = k)) as [->|Hne]; [by rewrite lookup_insert_eq|].
      by rewrite lookup_insert_ne. }
    destruct (ri_ds db !! k); [by intros [= <- _]|]. destruct (pending_ri db !! k); [by intros [= <- _]|].
    intros (ff & _ & H)%cbind_inv. by destruct ff; injection H as <- _.
  - intros today db k t db' f H. unfold lookup_lease_set. destruct (ls_ds db !! k); [by intros [= <- _]|].
    destruct (pending_ls db !! k); [by intros [= <- _]|].
    intros (ff & _ & H')%cbind_inv. by destruct ff; injection H' as <- _.
  - intros now db k ri rs db' l r Hne [Hp Hk] H.
    destruct (store_ri_cases _ _ _ _ _ _ _ _ H) as [(e & _ & -> & _)|(_ & _ & _ & _ & ->)]; [done|]. cbn.
    by rewrite lookup_delete_ne, lookup_insert_ne.
  - by intros db k ls _ H.
  - intros est now db db' [Hp Hk]. unfold expire_router_infos. intros (l & Hl & H)%cbind_inv.
    injection H as <-. cbn. split; [done|]. apply not_elem_of_list_to_map. intros Hin.
    apply list_elem_of_fmap in Hin as ([k ri] & -> & Hin).
    eapply elem_of_sublist, elem_of_map_to_list in Hin; [|by eapply retain_sublist]. cbn in Hk. congruence.
  - by intros now db H.
Qed.

End Lemmas.
