(* ===== verification/NetDbSpec.v ===== *)
(** * What the network database promises

    An abstract database - two finite maps, and for each key the channels that
    wait for it - and the proof that every query handled by [NetDb.Query_handle]
    is a step of it; then the properties of the database and of its engine. *)

From S2P Require Import Prelude Nom Cookie Util Wire Crypto Data Dest I2np Message NetDb.

Arguments LfReady {sc T} r.
Arguments LfWait {sc T} rx.
Arguments LfLookup {sc T} rx key lookup_type ff timeout_ms.

Section Spec.
Context {cf : CookieFactory} {bu : BigUintOps} {sc : SigCrates} {sha : Sha2}.
Context (dsa_verify : DsaPublicKey -> bytes -> DsaSignature -> bool).

(** ** The abstract database *)

Record NdSpec := mkNdSpec {
  known : gmap Hash RouterInfo;
  leases : gmap Hash LeaseSet;
  asking_ri : Hash -> list nat;
  asking_ls : Hash -> list nat;
  fresh_channel : nat
}.

#[export] Instance NdSpec_equiv : Equiv NdSpec := fun s t =>
  known s = known t /\ leases s = leases t /\ (forall k, asking_ri s k = asking_ri t k) /\
  (forall k, asking_ls s k = asking_ls t k) /\ fresh_channel s = fresh_channel t.

#[export] Instance NdSpec_equivalence : Equivalence (≡@{NdSpec}).
Proof.
  split.
  - done.
  - intros s t (? & ? & ? & ? & ?). repeat split; congruence.
  - intros s t u (? & ? & ? & ? & ?) (? & ? & ? & ? & ?). repeat split; congruence.
Qed.

Definition set_asking (f : Hash -> list nat) (k : Hash) (l : list nat) : Hash -> list nat :=
  fun k' => if decide (k' = k) then l else f k'.

(** a floodfill that we know, and none is closer to the routing key of the day *)
Definition closest_floodfill (today : bytes) (s : NdSpec) (key : Hash) (ff : RouterInfo) : Prop :=
  exists rk h, create_routing_key today key = Ret rk /\ known s !! h = Some ff /\ is_floodfill ff = true /\
    forall h2 ff2, known s !! h2 = Some ff2 -> is_floodfill ff2 = true ->
      metric_leb (for_hash h rk) (for_hash h2 rk) = true.

Definition no_floodfill (s : NdSpec) : Prop :=
  forall h ff, known s !! h = Some ff -> is_floodfill ff = false.

Definition chooses (today : bytes) (s : NdSpec) (key : Hash) (from_peer ff : option RouterInfo) : Prop :=
  match from_peer, ff with
  | Some p, _ => ff = Some p
  | None, Some ff => closest_floodfill today s key ff
  | None, None => no_floodfill s
  end.

(** what a lookup finds, and what it adds to the channels of its key *)
Definition finds {T} (today : bytes) (s : NdSpec) (have : option T) (asking : list nat) (key : Hash)
    (ty : DatabaseLookupType) (timeout_ms : Z) (from_peer : option RouterInfo)
    (f : LookupFuture T) (asking' : list nat) (used : nat) : Prop :=
  match have, f with
  | Some v, LfReady (Ok v') => v = v' /\ asking' = asking /\ used = 0%nat
  | None, LfReady (Err e) =>
      e = LeNotFound /\ asking = [] /\ asking' = [] /\ used = 0%nat /\ chooses today s key from_peer None
  | None, LfWait rx => asking <> [] /\ rx = fresh_channel s /\ asking' = asking ++ [rx] /\ used = 1%nat
  | None, LfLookup rx key' ty' ff t =>
      asking = [] /\ rx = fresh_channel s /\ asking' = [rx] /\ used = 1%nat /\
      key' = key /\ ty' = ty /\ t = timeout_ms /\ chooses today s key from_peer (Some ff)
  | _, _ => False
  end.

(** what we agree to store *)
Definition acceptable (now : Z) (key : Hash) (ri : RouterInfo) (from_reseed : bool) : Prop :=
  ri_ok dsa_verify key ri /\ (from_reseed = true \/ router_info_is_current now ri = Ok tt).

Inductive spec_step (now : Z) (today : bytes) (s : NdSpec) : Query -> NdSpec -> list NdEffect -> Prop :=
| SpecKnown ret : spec_step now today s (QKnownRouters ret) s [EfKnownRouters ret (Z.of_nat (size (known s)))]
| SpecClosest key ret ff :
    chooses today s key None ff ->
    spec_step now today s (QSelectClosestFloodfill key ret) s [EfFloodfill ret ff]
| SpecLookupRI key t p ret f asking' used :
    finds today s (known s !! key) (asking_ri s key) key LtRouterInfo t p f asking' used ->
    spec_step now today s (QLookupRouterInfo key t p ret)
      (mkNdSpec (known s) (leases s) (set_asking (asking_ri s) key asking') (asking_ls s) (used + fresh_channel s))
      [EfLookupRI ret f]
| SpecLookupLS key t ret f asking' used :
    finds today s (leases s !! key) (asking_ls s key) key LtLeaseSet t None f asking' used ->
    spec_step now today s (QLookupLeaseSet key t ret)
      (mkNdSpec (known s) (leases s) (asking_ri s) (set_asking (asking_ls s) key asking') (used + fresh_channel s))
      [EfLookupLS ret f]
| SpecStoreRI key ri rs ret :
    acceptable now key ri rs ->
    spec_step now today s (QStoreRouterInfo key ri rs ret)
      (mkNdSpec (<[key := ri]> (known s)) (leases s) (set_asking (asking_ri s) key []) (asking_ls s) (fresh_channel s))
      (map (fun tx => EfNotifyRI tx ri) (asking_ri s key) ++ [EfStoredRI ret (Ok (known s !! key))])
| SpecRefuseRI key ri rs ret e :
    ~ acceptable now key ri rs ->
    spec_step now today s (QStoreRouterInfo key ri rs ret) s [EfStoredRI ret (Err e)]
| SpecStoreLS key ls ret :
    spec_step now today s (QStoreLeaseSet key ls ret)
      (mkNdSpec (known s) (<[key := ls]> (leases s)) (asking_ri s) (set_asking (asking_ls s) key []) (fresh_channel s))
      (map (fun tx => EfNotifyLS tx ls) (asking_ls s key) ++ [EfStoredLS ret (Ok (leases s !! key))]).

(** ** The abstraction *)

Definition absr (db : LocalNetworkDatabase) : NdSpec :=
  mkNdSpec (ri_ds db) (ls_ds db) (waiting (pending_ri db)) (waiting (pending_ls db)) (nd_next db).

(** an entry of the waiting lists is never empty *)
Definition listed (pending : gmap Hash (list nat)) : Prop := map_Forall (fun _ l => l <> []) pending.

Definition db_inv (db : LocalNetworkDatabase) : Prop :=
  netdb_ok dsa_verify db /\ listed (pending_ri db) /\ listed (pending_ls db).

(** the router info of a query can be hashed and checked *)
Definition checkable (q : Query) : Prop :=
  match q with
  | QStoreRouterInfo _ ri _ _ =>
      (exists h, ri_hash ri = Ret (Some h)) /\ exists v, RouterInfo_verify dsa_verify ri = Ret (Some v)
  | _ => True
  end.

(** ** Lemmas *)

Lemma waiting_nil pending k : listed pending -> (waiting pending k = [] <-> pending !! k = None).
Proof.
  intros Hl. unfold waiting. destruct (pending !! k) as [l|] eqn:E; cbn; [|done].
  split; [|done]. intros ->. by destruct (Hl _ _ E).
Qed.

Lemma waiting_push pending k tx k' :
  waiting (push_pending pending k tx) k' = set_asking (waiting pending) k (waiting pending k ++ [tx]) k'.
Proof.
  unfold waiting, push_pending, set_asking. destruct (decide (k' = k)) as [->|Hne].
  - by rewrite lookup_insert_eq.
  - by rewrite lookup_insert_ne by done.
Qed.

Lemma waiting_delete pending k k' : waiting (delete k pending) k' = set_asking (waiting pending) k [] k'.
Proof.
  unfold waiting, set_asking. destruct (decide (k' = k)) as [->|Hne].
  - by rewrite lookup_delete_eq.
  - by rewrite lookup_delete_ne by done.
Qed.

Lemma set_asking_id f k k' : set_asking f k (f k) k' = f k'.
Proof. unfold set_asking. by destruct (decide (k' = k)) as [->|]. Qed.

Lemma listed_push pending k tx : listed pending -> listed (push_pending pending k tx).
Proof. intros H. apply map_Forall_insert_2; [|done]. by intros [_ [=]]%app_eq_nil. Qed.

Lemma listed_delete pending k : listed pending -> listed (delete k pending).
Proof. apply map_Forall_delete. Qed.

(** the search for a floodfill ends, with a closest one if there is any *)
Lemma closest_total db today key :
  netdb_ok dsa_verify db -> len today = 8 ->
  exists ff, select_closest_ff today db key = Ret (Some ff) /\ chooses today (absr db) key None ff.
Proof.
  intros [Hri _ _] Ht. unfold select_closest_ff.
  assert (exists rk, create_routing_key today key = Ret rk) as [rk Hrk].
  { unfold create_routing_key. rewrite Ht. by eexists. }
  rewrite Hrk. cbn [obind]. set (l := List.filter _ _).
  assert (forall ri, ri ∈ l <-> is_floodfill ri = true /\ exists h, ri_ds db !! h = Some ri) as Hl.
  { intros ri. unfold l. rewrite list_elem_of_In, filter_In, <- list_elem_of_In, list_elem_of_fmap. split.
    - intros [([h r] & -> & Hin%elem_of_map_to_list) Hf]. eauto.
    - intros [Hf [h Hh]]. split; [|done]. exists (h, ri). by rewrite elem_of_map_to_list. }
  assert (forall ri h, ri_ds db !! h = Some ri -> ri_hash ri = Ret (Some h)) as Hh.
  { intros ri h Hr. exact (proj1 (Hri _ _ Hr)). }
  edestruct (min_by_metric_spec rk l None) as (res & Hres & Hnone & Hsome); [|done|].
  { apply Forall_forall. intros ri (_ & h & Hr)%Hl. eauto. }
  exists res. split; [exact Hres|]. destruct res as [ff|]; cbn.
  - destruct (Hsome ff eq_refl) as ([(Hf & h & Hr)%Hl|[=]] & h' & Hh' & Hmin & _).
    rewrite (Hh _ _ Hr) in Hh'. injection Hh' as <-. exists rk, h. split; [done|]. split; [done|]. split; [done|].
    intros h2 ff2 H2 Hf2. eapply Hmin; [|by apply Hh]. apply Hl. eauto.
  - intros h ff Hr. destruct (is_floodfill ff) eqn:Hf; [|done].
    assert (ff ∈ l) as Hin by (apply Hl; eauto). rewrite (proj1 (proj1 Hnone eq_refl)) in Hin.
    by apply elem_of_nil in Hin.
Qed.

Lemma chooses_total db today key p :
  netdb_ok dsa_verify db -> len today = 8 ->
  exists ff, (match p with Some p => cret (Some p) | None => select_closest_ff today db key end) = Ret (Some ff) /\
    chooses today (absr db) key p ff.
Proof.
  intros Hok Ht. destruct p as [p|]; [by exists (Some p)|]. by apply closest_total.
Qed.

Lemma lookup_ri_refines db now today key t p ret :
  db_inv db -> len today = 8 ->
  exists db' f s', lookup_router_info today db key t p = cret (db', f) /\
    spec_step now today (absr db) (QLookupRouterInfo key t p ret) s' [EfLookupRI ret f] /\ s' ≡ absr db' /\
    listed (pending_ri db') /\ listed (pending_ls db').
Proof.
  intros (Hok & L1 & L2) Ht. unfold lookup_router_info. destruct (ri_ds db !! key) as [ri|] eqn:Ek.
  { exists db, (LfReady (Ok ri)). eexists. split; [done|]. split.
    - eapply (SpecLookupRI _ _ _ _ _ _ _ _ (waiting (pending_ri db) key) 0). cbn. by rewrite Ek.
    - repeat split; try done. intros k. apply set_asking_id. }
  destruct (pending_ri db !! key) as [l|] eqn:Ep.
  { eexists _, _, _. split; [done|]. split.
    - eapply (SpecLookupRI _ _ _ _ _ _ _ _ (waiting (pending_ri db) key ++ [nd_next db]) 1). cbn. rewrite Ek. cbn.
      split; [|done]. intros Hw%waiting_nil; [congruence|done].
    - split; [|split; [by apply listed_push|done]]. repeat split; try done. intros k. symmetry. apply waiting_push. }
  assert (waiting (pending_ri db) key = []) as Hw by by apply waiting_nil.
  destruct (chooses_total db today key p Hok Ht) as (ff & -> & Hc). cbn [cbind]. destruct ff as [ff|].
  - eexists _, _, _. split; [done|]. split.
    + eapply (SpecLookupRI _ _ _ _ _ _ _ _ [nd_next db] 1). cbn. rewrite Ek. cbn. by rewrite Hw.
    + split; [|split; [by apply listed_push|done]]. repeat split; try done. intros k. cbn.
      rewrite waiting_push. by rewrite Hw.
  - eexists _, _, _. split; [done|]. split.
    + eapply (SpecLookupRI _ _ _ _ _ _ _ _ [] 0). cbn. rewrite Ek. cbn. by rewrite Hw.
    + repeat split; try done. intros k. cbn. rewrite <- Hw. apply set_asking_id.
Qed.

Lemma lookup_ls_refines db now today key t ret :
  db_inv db -> len today = 8 ->
  exists db' f s', lookup_lease_set today db key t = cret (db', f) /\
    spec_step now today (absr db) (QLookupLeaseSet key t ret) s' [EfLookupLS ret f] /\ s' ≡ absr db' /\
    listed (pending_ri db') /\ listed (pending_ls db').
Proof.
  intros (Hok & L1 & L2) Ht. unfold lookup_lease_set. destruct (ls_ds db !! key) as [ls|] eqn:Ek.
  { exists db, (LfReady (Ok ls)). eexists. split; [done|]. split.
    - eapply (SpecLookupLS _ _ _ _ _ _ _ (waiting (pending_ls db) key) 0). cbn. by rewrite Ek.
    - repeat split; try done. intros k. apply set_asking_id. }
  destruct (pending_ls db !! key) as [l|] eqn:Ep.
  { eexists _, _, _. split; [done|]. split.
    - eapply (SpecLookupLS _ _ _ _ _ _ _ (waiting (pending_ls db) key ++ [nd_next db]) 1). cbn. rewrite Ek. cbn.
      split; [|done]. intros Hw%waiting_nil; [congruence|done].
    - split; [|split; [done|by apply listed_push]]. repeat split; try done. intros k. symmetry. apply waiting_push. }
  assert (waiting (pending_ls db) key = []) as Hw by by apply waiting_nil.
  destruct (closest_total db today key Hok Ht) as (ff & -> & Hc). cbn [cbind]. destruct ff as [ff|].
  - eexists _, _, _. split; [done|]. split.
    + eapply (SpecLookupLS _ _ _ _ _ _ _ [nd_next db] 1). cbn. rewrite Ek. cbn. by rewrite Hw.
    + split; [|split; [done|by apply listed_push]]. repeat split; try done. intros k. cbn.
      rewrite waiting_push. by rewrite Hw.
  - eexists _, _, _. split; [done|]. split.
    + eapply (SpecLookupLS _ _ _ _ _ _ _ [] 0). cbn. rewrite Ek. cbn. by rewrite Hw.
    + repeat split; try done. intros k. cbn. rewrite <- Hw. apply set_asking_id.
Qed.

(** a store returns: the router info is checked and taken, or refused *)
Lemma store_ri_total db now key ri rs h v :
  ri_hash ri = Ret (Some h) -> RouterInfo_verify dsa_verify ri = Ret (Some v) ->
  exists x, store_router_info dsa_verify now db key ri rs = Ret (Some x).
Proof.
  intros Hh Hv. unfold store_router_info. rewrite Hh. cbn [cbind]. destruct (negb _); [by eexists|].
  rewrite Hv. cbn [cbind]. destruct v as [[]|e]; [|by eexists].
  destruct (match network_id ri with Some _ => _ | None => _ end); [by eexists|].
  destruct (if rs then _ else _); by eexists.
Qed.

Lemma store_ri_refines db now today key ri rs ret :
  db_inv db -> checkable (QStoreRouterInfo key ri rs ret) ->
  exists db' l r s', store_router_info dsa_verify now db key ri rs = cret (db', l, r) /\
    spec_step now today (absr db) (QStoreRouterInfo key ri rs ret) s'
      (map (fun tx => EfNotifyRI tx ri) l ++ [EfStoredRI ret r]) /\ s' ≡ absr db' /\
    listed (pending_ri db') /\ listed (pending_ls db').
Proof.
  intros (Hok & L1 & L2) [[h Hh] [v Hv]].
  destruct (store_ri_total db now key ri rs h v Hh Hv) as [[[db' l] r] H]. exists db', l, r.
  destruct (store_ri_cases _ _ _ _ _ _ _ _ _ H) as [(e & -> & -> & ->)|(-> & -> & Hri & Hc & ->)].
  - eexists. split; [exact H|]. split; [|split; [reflexivity|done]]. apply SpecRefuseRI. intros [Hri Hc].
    rewrite (store_ri_accepts _ _ _ _ _ _ Hri Hc) in H. discriminate.
  - eexists. split; [exact H|]. split; [by apply SpecStoreRI|]. split; [|split; [by apply listed_delete|done]].
    repeat split; try done. intros k. symmetry. apply waiting_delete.
Qed.

(** a router info from the network, by what the database makes of it *)
Lemma network_store (env : EngineEnv) (en : Engine) (from : Hash) (msg : Message) ds ri h v :
  msg_payload msg = MDatabaseStore ds -> ds_data ds = DsRI ri ->
  ri_hash ri = Ret (Some h) -> RouterInfo_verify dsa_verify ri = Ret (Some v) ->
  (~ acceptable (ee_now env) (ds_key ds) ri false <-> handle_network dsa_verify env en from msg = Panic) /\
  (acceptable (ee_now env) (ds_key ds) ri false ->
   exists en', handle_network dsa_verify env en from msg =
     cret (en', map (fun tx => EfNotifyRI tx ri) (waiting (pending_ri (netdb en)) (ds_key ds))) /\
     ri_ds (netdb en') = <[ds_key ds := ri]> (ri_ds (netdb en)) /\
     waiting (pending_ri (netdb en')) (ds_key ds) = []).
Proof.
  intros Hm Hd Hh Hv. unfold handle_network. rewrite Hm, Hd.
  assert (acceptable (ee_now env) (ds_key ds) ri false ->
    exists db', store_router_info dsa_verify (ee_now env) (netdb en) (ds_key ds) ri false =
      cret (db', waiting (pending_ri (netdb en)) (ds_key ds), Ok (ri_ds (netdb en) !! ds_key ds)) /\
      ri_ds db' = <[ds_key ds := ri]> (ri_ds (netdb en)) /\ waiting (pending_ri db') (ds_key ds) = []) as Hacc.
  { intros [Hr Hc]. eexists. split; [by apply store_ri_accepts|]. split; [done|]. cbn. rewrite waiting_delete.
    unfold set_asking. by rewrite decide_True. }
  split; [split|].
  - intros Hn. destruct (store_ri_total (netdb en) (ee_now env) (ds_key ds) ri false h v Hh Hv)
      as [[[db' l] r] H]. rewrite H.
    destruct (store_ri_cases _ _ _ _ _ _ _ _ _ H) as [(e & -> & _)|(_ & _ & Hr & Hc & _)]; [done|].
    by destruct (Hn (conj Hr Hc)).
  - intros Hp Ha. destruct (Hacc Ha) as (db' & H & _). by rewrite H in Hp.
  - intros Ha. destruct (Hacc Ha) as (db' & H & H2). rewrite H. cbn. by eexists.
Qed.

End Spec.

(** ** Samples: a signed router info of our network *)
Module NetDbSamples.
#[local] Existing Instances nom_ref cf_ref biguint_ref sigcrates_ref sha2_ref.
Import DataSamples.

Definition yes (k : DsaPublicKey) (m : bytes) (s : DsaSignature) : bool := true.

Definition ri : RouterInfo :=
  match RouterInfo_sign ref_ri ref_ssk with Ret (Some r) => r | _ => ref_ri end.

Definition key : Hash := match ri_hash ri with Ret (Some h) => h | _ => mkHash [] end.
Definition other : Hash := mkHash (replicate 32 7).
Definition today : bytes := [50; 48; 50; 54; 48; 49; 48; 49].

Definition env (ib : Poll (option (Hash * Message)) unit) (client : Poll (option Query) unit) : EngineEnv :=
  mkEngineEnv NotReady true 0 0 today other (fun _ => false) [] NotReady ib client.

(** a database in which somebody waits for [other] *)
Definition waiting_db : LocalNetworkDatabase := mkNetDb ∅ ∅ {[other := [0%nat]]} ∅ 1.

Lemma key_ok : ri_ok yes key ri.
Proof. split; [vm_compute; reflexivity|]. split; [vm_compute; reflexivity|]. vm_compute. reflexivity. Qed.

Lemma waiting_db_inv : db_inv yes waiting_db.
Proof.
  split; [split|split].
  - apply map_Forall_empty.
  - done.
  - by intros k [x Hx].
  - by apply map_Forall_singleton.
  - apply map_Forall_empty.
Qed.

End NetDbSamples.

(** ** Properties *)
Module NetDbProps.
Section Props.
Context {cf : CookieFactory} {bu : BigUintOps} {sc : SigCrates} {sha : Sha2}.
Context (dsa_verify : DsaPublicKey -> bytes -> DsaSignature -> bool).

(** C2: Every query handled by the network database is a step of the abstract
    database - a lookup answers from the map, joins those who already wait for
    the key, or asks a floodfill that is closest to the routing key of the day
    (or the given peer); a store of an acceptable router info replaces the
    entry and notifies exactly those who wait for its key, any other is refused
    and changes nothing - and the handler returns, whatever the query, and
    keeps the representation invariant. *)
Theorem netdb_refines (now : Z) (today : bytes) (q : Query) (db : LocalNetworkDatabase) :
  db_inv dsa_verify db -> len today = 8 -> checkable dsa_verify q ->
  exists db' eff s',
    Query_handle dsa_verify now today q db = cret (db', eff) /\
    spec_step dsa_verify now today (absr db) q s' eff /\ s' ≡ absr db' /\ db_inv dsa_verify db'.
Proof.
  intros Hi Ht Hq.
  assert (exists db' eff s', Query_handle dsa_verify now today q db = cret (db', eff) /\
    spec_step dsa_verify now today (absr db) q s' eff /\ s' ≡ absr db' /\
    listed (pending_ri db') /\ listed (pending_ls db')) as (db' & eff & s' & H & Hs & He & L1 & L2).
  2:{ exists db', eff, s'. split; [exact H|]. split; [done|]. split; [done|]. split; [|done].
      eapply query_ok; [apply Hi|exact H]. }
  destruct q as [ret|key ret|key t p ret|key t ret|key ri rs ret|key ls ret]; cbn [Query_handle].
  - eexists _, _, _. split; [done|]. split; [exact (SpecKnown _ _ _ (absr db) ret)|]. split; [reflexivity|apply Hi].
  - destruct (closest_total dsa_verify db today key (proj1 Hi) Ht) as (ff & -> & Hc). eexists _, _, _.
    split; [done|]. split; [by apply SpecClosest|]. split; [reflexivity|apply Hi].
  - destruct (lookup_ri_refines dsa_verify db now today key t p ret Hi Ht) as (db' & f & s' & -> & H). cbn [cbind].
    eexists _, _, _. split; [done|exact H].
  - destruct (lookup_ls_refines dsa_verify db now today key t ret Hi Ht) as (db' & f & s' & -> & H). cbn [cbind].
    eexists _, _, _. split; [done|exact H].
  - destruct (store_ri_refines dsa_verify db now today key ri rs ret Hi Hq) as (db' & l & r & s' & -> & H).
    cbn [cbind]. eexists _, _, _. split; [done|exact H].
  - eexists _, _, _. split; [done|]. split; [exact (SpecStoreLS _ _ _ (absr db) key ls ret)|]. destruct Hi as (_ & L1 & L2).
    split; [|split; [done|by apply listed_delete]]. repeat split; try done. intros k. symmetry. apply waiting_delete.
Qed.

(** C21: Whatever messages, queries and timers a network database engine sees
    from its start on, every router info it holds is stored under the hash of
    its identity, bears a signature that verifies and is in our network, and
    nobody waits for an entry that is there. *)
Theorem engine_invariant (instant : Z) (envs : list EngineEnv) :
  match engine_run dsa_verify (Engine_new instant) envs with
  | Ret (Some (en, _)) =>
      (forall k ri, ri_ds (netdb en) !! k = Some ri ->
         ri_hash ri = Ret (Some k) /\ RouterInfo_verify dsa_verify ri = Ret (Some (Ok tt)) /\
         network_id ri = Some NET_ID) /\
      (forall k, is_Some (pending_ri (netdb en) !! k) -> ri_ds (netdb en) !! k = None) /\
      (forall k, is_Some (pending_ls (netdb en) !! k) -> ls_ds (netdb en) !! k = None)
  | _ => True
  end.
Proof.
  destruct (engine_run _ _ _) as [[[en eff]|]|] eqn:H; [|done..].
  destruct (run_ok dsa_verify (Engine_new instant) _ _ _ (new_ok dsa_verify) H) as [H1 H2 H3]. split_and!; [|done..].
  intros k ri Hk. exact (H1 _ _ Hk).
Qed.

(** The engine stops with a panic exactly when a peer sends it a router
    info that the database refuses (for another key, with a bad signature, of
    another network, out of date); otherwise the router info is stored and
    those who wait for it are notified. *)
Theorem refused_store_panics (env : EngineEnv) (en : Engine) (from : Hash) (msg : Message) ds ri h v :
  msg_payload msg = MDatabaseStore ds -> ds_data ds = DsRI ri ->
  ri_hash ri = Ret (Some h) -> RouterInfo_verify dsa_verify ri = Ret (Some v) ->
  (~ acceptable dsa_verify (ee_now env) (ds_key ds) ri false <-> handle_network dsa_verify env en from msg = Panic) /\
  (acceptable dsa_verify (ee_now env) (ds_key ds) ri false ->
   exists en', handle_network dsa_verify env en from msg =
     cret (en', map (fun tx => EfNotifyRI tx ri) (waiting (pending_ri (netdb en)) (ds_key ds))) /\
     ri_ds (netdb en') = <[ds_key ds := ri]> (ri_ds (netdb en)) /\
     waiting (pending_ri (netdb en')) (ds_key ds) = []).
Proof. intros Hm Hd Hh Hv. exact (network_store dsa_verify env en from msg ds ri h v Hm Hd Hh Hv). Qed.

(** A router info that somebody has looked up is never asked for again
    unless it arrives: once a channel waits for a key (even when the lookup it
    belongs to has failed or timed out) every further lookup of that key only
    joins the waiting list, whatever the engine does, until a store of that
    very key. *)
Theorem failed_lookup_never_retried (key : Hash) (en : Engine) (envs : list EngineEnv) (en' : Engine) eff
    (today : bytes) (timeout_ms : Z) (from_peer : option RouterInfo) :
  is_Some (pending_ri (netdb en) !! key) -> ri_ds (netdb en) !! key = None ->
  Forall (may_env (fun k => k <> key) (fun _ => True)) envs ->
  engine_run dsa_verify en envs = cret (en', eff) ->
  exists db', lookup_router_info today (netdb en') key timeout_ms from_peer =
    cret (db', LfWait (nd_next (netdb en'))).
Proof.
  intros Hp Hk Hm H. destruct (run_keeps_waiting dsa_verify key en envs en' eff Hm (conj Hp Hk) H) as [[l Hl] Hn].
  unfold lookup_router_info. rewrite Hn, Hl. by eexists.
Qed.

(** Expiry removes exactly the router infos that are neither those of
    connected peers nor published between 27 hours ago and two minutes ahead,
    and leaves the rest of the database alone. *)
Theorem expire_exact (est : Hash -> bool) (now : Z) (db db' : LocalNetworkDatabase) (k : Hash) (ri : RouterInfo) :
  netdb_ok dsa_verify db -> expire_router_infos (Some est) now db = cret db' ->
  (ri_ds db' !! k = Some ri <->
   ri_ds db !! k = Some ri /\
   (est k = true \/ now - 27 * 3600 * 10 ^ 9 <= I2PDate_to_system_time (published ri) <= now + 120 * 10 ^ 9)) /\
  pending_ri db' = pending_ri db /\ ls_ds db' = ls_ds db.
Proof.
  intros Hok H. split.
  - rewrite (expire_ri_lookup dsa_verify _ _ _ _ k ri Hok H). unfold kept. rewrite is_current_spec. naive_solver.
  - unfold expire_router_infos in H. apply cbind_inv in H as (l & _ & H). by injection H as <-.
Qed.

End Props.

#[local] Existing Instances nom_ref cf_ref biguint_ref sigcrates_ref sha2_ref.
Import NetDbSamples.

Lemma netdb_refines_witness :
  exists db' eff s',
    Query_handle yes 0 today (QStoreRouterInfo key ri true 5) waiting_db = cret (db', eff) /\
    spec_step yes 0 today (absr waiting_db) (QStoreRouterInfo key ri true 5) s' eff /\ s' ≡ absr db' /\
    db_inv yes db'.
Proof.
  apply (netdb_refines yes 0 today (QStoreRouterInfo key ri true 5) waiting_db waiting_db_inv).
  - reflexivity.
  - split; eexists; apply key_ok.
Defined.

Lemma refused_store_panics_witness :
  handle_network yes (env NotReady NotReady) (Engine_new 0) other
    (mkMessage 1 (mkI2PDate 5) (MDatabaseStore (mkDatabaseStore other 0 None (DsRI ri)))) = Panic.
Proof.
  refine (proj1 (proj1 (refused_store_panics yes (env NotReady NotReady) (Engine_new 0) other
    (mkMessage 1 (mkI2PDate 5) (MDatabaseStore (mkDatabaseStore other 0 None (DsRI ri))))
    (mkDatabaseStore other 0 None (DsRI ri)) ri key (Ok tt) eq_refl eq_refl (proj1 key_ok)
    (proj1 (proj2 key_ok)))) _).
  intros [[Hh _] _]. vm_compute in Hh. discriminate.
Defined.

Lemma failed_lookup_never_retried_witness :
  exists en' eff db',
    engine_run yes (with_netdb (Engine_new 1) waiting_db) [env NotReady NotReady] = cret (en', eff) /\
    lookup_router_info today (netdb en') other 1000 None = cret (db', LfWait (nd_next (netdb en'))).
Proof.
  eexists _, _. 
  destruct (failed_lookup_never_retried yes other (with_netdb (Engine_new 1) waiting_db) [env NotReady NotReady]
    (mkEngine waiting_db true ∅ (1 + EXPIRE_RI_INTERVAL * 10 ^ 9) (1 + EXPIRE_LS_INTERVAL * 10 ^ 9) 1) [EfReseed]
    today 1000 None) as [db' H].
  - by eexists.
  - reflexivity.
  - apply Forall_cons_2; [|apply Forall_nil_2]. split; [discriminate|discriminate].
  - reflexivity.
  - exists db'. split; [reflexivity|exact H].
Defined.

Lemma expire_exact_witness :
  exists db', expire_router_infos (Some (fun _ => false)) 0 waiting_db = cret db' /\ pending_ri db' = pending_ri waiting_db.
Proof.
  exists waiting_db. split; [reflexivity|].
  exact (proj1 (proj2 (expire_exact yes (fun _ => false) 0 waiting_db waiting_db key ri (proj1 waiting_db_inv)
    ltac:(reflexivity)))).
Defined.

End NetDbProps.
