(* ===== verification/Lookup.v ===== *)
(** * Iterative lookups

    [src/netdb/lookup.rs]: asking one floodfill after the other, always the one
    that is closest to the key among those we know and have not asked, and
    taking in the routers that they point at.

    What the network does - whether a path to the peer exists, the answer or the
    timeout, what became of the lookups of the routers of the answer - is an
    argument of each pass. *)

From S2P Require Import Prelude Nom Cookie Util Wire Crypto Data Dest I2np Message NetDb.

Definition SINGLE_LOOKUP_TIMEOUT : Z := 5.

(** [netdb::errors::Error] *)
Inductive NdError := NeLookup (e : LookupError) | NeStore (e : StoreError) | NeClosed.

(** [futures::future::select_ok], on the results in the order in which the
    futures complete: the first success and the futures that are left, or the
    last error; it panics when there are none. *)
Class SelectOk := {
  select_ok : forall {A E : Type}, list (result A E) -> outcome (result (A * list (result A E)) E);
  select_ok_first : forall {A E : Type} (errs : list E) (x : A) (l : list (result A E)),
    select_ok (map Err errs ++ Ok x :: l) = Ret (Ok (x, l));
  select_ok_last : forall {A E : Type} (errs : list E) (e : E),
    select_ok (map Err errs ++ [Err e]) = Ret (@Err (A * list (result A E)) E e);
  select_ok_nil : forall {A E : Type}, @select_ok A E [] = Panic
}.

(** ** The ordered map of the peers to try: a [BTreeMap] as its sorted entries *)
Section BTreeMap.
Context {V : Type}.

Fixpoint bt_insert (m : XorMetric) (v : V) (t : list (XorMetric * V)) : list (XorMetric * V) :=
  match t with
  | [] => [(m, v)]
  | (m', v') :: t' =>
      if decide (m = m') then (m, v) :: t'
      else if metric_leb m m' then (m, v) :: t
      else (m', v') :: bt_insert m v t'
  end.

(** [keys().next()], then [remove] *)
Definition bt_pop (t : list (XorMetric * V)) : option V * list (XorMetric * V) :=
  match t with
  | [] => (None, [])
  | (_, v) :: t' => (Some v, t')
  end.

End BTreeMap.

(** ** The lookup *)
Section Lookup.
Context {cf : CookieFactory} {bu : BigUintOps} {sc : SigCrates} {sha : Sha2} {so : SelectOk}.

(** What the wait for a reply ends with: the inner future (was the lookup
    registered, was the message sent, did a reply arrive or was the channel
    dropped), or the timer. *)
Inductive WaitEvent :=
| WInner (registered sent : bool) (rx : option DatabaseSearchReply)
| WElapsed
| WTimerError.

(** [path]: the transports accept the message *)
Definition wait_for_search_reply (path : bool) (ev : WaitEvent) : result (option DatabaseSearchReply) NdError :=
  if path then
    match ev with
    | WInner false _ _ => Err NeClosed
    | WInner true false _ => Err (NeLookup LeSendFailure)
    | WInner true true (Some dsr) => Ok (Some dsr)
    | WInner true true None => Err (NeLookup LeTimedOut)
    | WElapsed => Ok None
    | WTimerError => Err (NeLookup LeTimerFailure)
    end
  else Err (NeLookup LeNoPath).

(** the loop that collects the routers; [fuel]: at most one pass per lookup *)
Fixpoint collect {E} (fuel : nat) (found : list RouterInfo) (peer_lookups : list (result RouterInfo E))
  : comp (result (list RouterInfo) E) :=
  match fuel with
  | O => Ret None
  | S fuel =>
      let! r := select_ok peer_lookups in
      match r with
      | Err e => cret (Err e)
      | Ok (ri, remaining) =>
          let found := found ++ [ri] in
          match remaining with [] => cret (Ok found) | _ => collect fuel found remaining end
      end
  end.

(** [from_ri]: the lookup of the sender; [lookups]: those of the peers of the
    reply, asked of the sender, as they complete *)
Definition process_dsr (tried : gset Hash) (dsr : DatabaseSearchReply) (from_ri : result RouterInfo NdError)
    (lookups : list (result RouterInfo NdError)) : comp (result (list RouterInfo) NdError) :=
  match dsr_peers dsr with
  | [] => cret (Ok [])
  | _ =>
      if decide (dsr_from dsr ∈ tried) then
        match from_ri with
        | Ok _ => collect (S (length lookups)) [] lookups
        | Err e => cret (Err e)
        end
      else cret (Ok [])
  end.

Record IterativeLookup := mkIterativeLookup {
  it_key : Hash;
  it_rk : Hash;
  it_from : Hash;
  it_lookup_type : DatabaseLookupType;
  to_try : list (XorMetric * RouterInfo);
  tried : gset Hash
}.

Definition with_to_try (st : IterativeLookup) (t : list (XorMetric * RouterInfo)) : IterativeLookup :=
  mkIterativeLookup (it_key st) (it_rk st) (it_from st) (it_lookup_type st) t (tried st).

(** the floodfills of [new] *)
Fixpoint insert_ffs (rk : Hash) (ffs : list RouterInfo) (t : list (XorMetric * RouterInfo))
  : comp (list (XorMetric * RouterInfo)) :=
  match ffs with
  | [] => cret t
  | ri :: ffs => let* h := ri_hash ri in insert_ffs rk ffs (bt_insert (for_hash h rk) ri t)
  end.

Definition IterativeLookup_new (today : bytes) (key from : Hash) (lookup_type : DatabaseLookupType)
    (ffs : list RouterInfo) : comp (IterativeLookup * RouterInfo) :=
  let! rk := create_routing_key today key in
  let* t := insert_ffs rk ffs [] in
  let! first := unwrap (fst (bt_pop t)) in
  cret (mkIterativeLookup key rk from lookup_type (snd (bt_pop t)) ∅, first).

(** the routers of a reply that we have not asked *)
Fixpoint add_new (st : IterativeLookup) (ris : list RouterInfo) : comp IterativeLookup :=
  match ris with
  | [] => cret st
  | ri :: ris =>
      let* h := ri_hash ri in
      add_new (if decide (h ∈ tried st) then st
               else with_to_try st (bt_insert (for_hash h (it_rk st)) ri (to_try st))) ris
  end.

(** what one pass finds *)
Record PeerEnv := mkPeerEnv {
  pe_id : Z;
  pe_now : Z;
  pe_path : bool;
  pe_wait : WaitEvent;
  pe_from : result RouterInfo NdError;
  pe_lookups : list (result RouterInfo NdError)
}.

(** The state afterwards, and what was sent to whom. *)
Definition process_peer (env : PeerEnv) (st : IterativeLookup) (peer : RouterInfo)
  : comp (IterativeLookup * (Hash * Message)) :=
  let dlm := DatabaseLookup_create_msg (pe_id env) (pe_now env) (it_key st) (it_from st) (it_lookup_type st) in
  let* peer_hash := ri_hash peer in
  let st := mkIterativeLookup (it_key st) (it_rk st) (it_from st) (it_lookup_type st) (to_try st)
              ({[peer_hash]} ∪ tried st) in
  let* st := match wait_for_search_reply (pe_path env) (pe_wait env) with
             | Ok (Some dsr) =>
                 let* ret := process_dsr (tried st) dsr (pe_from env) (pe_lookups env) in
                 match ret with
                 | Ok ris => add_new st ris
                 | Err _ => cret st
                 end
             | Ok None | Err _ => cret st
             end in
  cret (st, (peer_hash, dlm)).

Definition select_next_peer (st : IterativeLookup) : option RouterInfo * IterativeLookup :=
  let '(next, t) := bt_pop (to_try st) in (next, with_to_try st t).

(** The passes for which the network's behaviour is given, and whether the
    lookup is over after them. *)
Fixpoint lookup_loop (envs : list PeerEnv) (st : IterativeLookup) (peer : RouterInfo)
  : comp (list (Hash * Message) * bool) :=
  match envs with
  | [] => cret ([], false)
  | env :: envs =>
      let* (st, q) := process_peer env st peer in
      match select_next_peer st with
      | (Some peer, st) => let* (qs, b) := lookup_loop envs st peer in cret (q :: qs, b)
      | (None, _) => cret ([q], true)
      end
  end.

Definition iterative_lookup (today : bytes) (key from : Hash) (lookup_type : DatabaseLookupType) (ff : RouterInfo)
    (envs : list PeerEnv) : comp (list (Hash * Message) * bool) :=
  let* (st, first) := IterativeLookup_new today key from lookup_type [ff] in
  lookup_loop envs st first.

(** How a lookup ends: the entry arrives or its channel is dropped, all peers
    have been asked, or the timer. *)
Inductive LookupEnd (T : Type) := LeEntry (v : T) | LeDropped | LeExhausted | LeElapsed | LeTimer.

Definition lookup_db_entry {T} (ev : LookupEnd T) : result T LookupError :=
  match ev with
  | LeEntry _ v => Ok v
  | LeDropped _ | LeExhausted _ => Err LeNotFound
  | LeElapsed _ => Err LeTimedOut
  | LeTimer _ => Err LeTimerFailure
  end.

(** the explorer waits for no entry *)
Inductive ExploreEnd := ExDone | ExElapsed | ExTimer.

Definition explore_netdb (ev : ExploreEnd) : result unit LookupError :=
  match ev with
  | ExDone => Ok tt
  | ExElapsed => Err LeTimedOut
  | ExTimer => Err LeTimerFailure
  end.

End Lookup.

(** ** Lemmas *)

(** *** The order of metrics *)

Lemma bytes_leb_antisym a b : bytes_leb a b = true -> bytes_leb b a = true -> a = b.
Proof.
  revert b. induction a as [|x a IH]; intros [|y b]; cbn; try done.
  rewrite !orb_true_iff, !andb_true_iff, !Z.ltb_lt, !Z.eqb_eq.
  intros [H1|[-> H1]] [H2|[H2 H3]]; try lia. f_equal. by apply IH.
Qed.

Definition metric_lt (a b : XorMetric) : Prop := a <> b /\ metric_leb a b = true.

Lemma metric_leb_antisym a b : metric_leb a b = true -> metric_leb b a = true -> a = b.
Proof. destruct a as [a], b as [b]. cbn. intros H1 H2. f_equal. by apply bytes_leb_antisym. Qed.

Lemma metric_lt_trans a b c : metric_lt a b -> metric_lt b c -> metric_lt a c.
Proof.
  intros [Hn H1] [_ H2]. split; [|by eapply bytes_leb_trans]. intros <-. by apply Hn, metric_leb_antisym.
Qed.

Lemma metric_nle a b : a <> b -> metric_leb a b = false -> metric_lt b a.
Proof.
  intros Hn H. split; [done|]. unfold metric_leb in *.
  destruct (bytes_leb_total (metric_bytes a) (metric_bytes b)); congruence.
Qed.

(** *** The ordered map *)

Section BTreeLemmas.
Context {V : Type}.
Implicit Types (t : list (XorMetric * V)).

(** sorted, and no key twice *)
Definition bt_ok t : Prop := StronglySorted (fun a b => metric_lt a.1 b.1) t.

Lemma bt_insert_sub m v t e : e ∈ bt_insert m v t -> e = (m, v) \/ e ∈ t.
Proof.
  induction t as [|[m' v'] t IH]; cbn [bt_insert]; [rewrite list_elem_of_singleton; by left|].
  destruct (decide (m = m')); [|destruct (metric_leb m m')]; rewrite !elem_of_cons; naive_solver.
Qed.

Lemma bt_insert_ok m v t : bt_ok t -> bt_ok (bt_insert m v t).
Proof.
  induction t as [|[m' v'] t IH]; intros Hs; cbn [bt_insert]; [repeat constructor|].
  apply StronglySorted_inv in Hs as [Hs Hf]. destruct (decide (m = m')) as [->|Hne]; [by constructor|].
  destruct (metric_leb m m') eqn:E.
  - assert (metric_lt m m') as Hlt by by split.
    constructor; [by constructor|]. constructor; [done|]. eapply Forall_impl; [exact Hf|]. intros e He.
    by eapply metric_lt_trans.
  - constructor; [by apply IH|]. apply Forall_forall. intros e [->|He]%bt_insert_sub; [by apply metric_nle|].
    by eapply Forall_forall in Hf.
Qed.

(** what is taken out comes before the rest *)
Lemma bt_pop_first t v t' :
  bt_ok t -> bt_pop t = (Some v, t') ->
  bt_ok t' /\ exists m, t = (m, v) :: t' /\ Forall (fun e => metric_lt m e.1) t'.
Proof.
  destruct t as [|[m v'] t]; [done|]. cbn. intros [Hs Hf]%StronglySorted_inv [= -> ->]. split; [done|]. by exists m.
Qed.

End BTreeLemmas.

(** *** The lookup's state *)

Section LookupLemmas.
Context {cf : CookieFactory} {bu : BigUintOps} {sc : SigCrates} {sha : Sha2} {so : SelectOk}.

(** The routers to try are in the order of their distance from the key, and
    none has been asked. *)
Definition it_ok (st : IterativeLookup) : Prop :=
  bt_ok (to_try st) /\
  Forall (fun e => exists h, ri_hash e.2 = Ret (Some h) /\ e.1 = for_hash h (it_rk st) /\ h ∉ tried st) (to_try st).

(** all that we hear of is in [U] *)
Definition ri_in (U : gset Hash) (ri : RouterInfo) : Prop := exists h, ri_hash ri = Ret (Some h) /\ h ∈ U.

Definition env_in (U : gset Hash) (env : PeerEnv) : Prop :=
  Forall (fun r => match r with Ok ri => ri_in U ri | Err _ => True end) (pe_lookups env).

Lemma bt_insert_forall {V} (Q : XorMetric * V -> Prop) m v t : Q (m, v) -> Forall Q t -> Forall Q (bt_insert m v t).
Proof.
  intros Hm Ht. apply Forall_forall. intros e [->|He]%bt_insert_sub; [done|]. by eapply Forall_forall in Ht.
Qed.

Lemma add_new_ok st ris st' :
  it_ok st -> add_new st ris = cret st' ->
  it_ok st' /\ tried st' = tried st /\ it_rk st' = it_rk st /\ it_key st' = it_key st /\ it_from st' = it_from st /\
  it_lookup_type st' = it_lookup_type st.
Proof.
  revert st. induction ris as [|ri ris IH]; intros st Hok; cbn [add_new]; [by intros [= <-]|].
  intros (h & Hh & H)%cbind_inv. case_decide as Hin; [by apply IH|].
  destruct Hok as [Hs Hf]. apply IH in H; [exact H|]. split; cbn; [by apply bt_insert_ok|].
  apply bt_insert_forall; [|done]. by exists h.
Qed.

Lemma process_peer_ok env st peer st' q :
  it_ok st -> (forall h, ri_hash peer = Ret (Some h) -> Forall (fun e => e.1 <> for_hash h (it_rk st)) (to_try st)) ->
  process_peer env st peer = cret (st', q) ->
  it_ok st' /\ (exists h, ri_hash peer = Ret (Some h) /\ q.1 = h /\ tried st' = {[h]} ∪ tried st) /\
  it_key st' = it_key st /\ it_from st' = it_from st /\ it_lookup_type st' = it_lookup_type st /\
  q.2 = DatabaseLookup_create_msg (pe_id env) (pe_now env) (it_key st) (it_from st) (it_lookup_type st).
Proof.
  intros [Hs Hf] Hp. unfold process_peer. intros (h & Hh & (st1 & H1 & H2)%cbind_inv)%cbind_inv.
  injection H2 as <- <-. set (st0 := mkIterativeLookup _ _ _ _ _ _) in H1.
  assert (it_ok st0) as Hok0.
  { split; [done|]. cbn. specialize (Hp h Hh). apply Forall_forall. intros e He.
    rewrite Forall_forall in Hf, Hp. destruct (Hf e He) as (h' & Hh' & Em & Hn). exists h'. split; [done|].
    split; [done|]. intros [->%elem_of_singleton|]%elem_of_union; [|done]. by apply (Hp e He). }
  assert (it_ok st1 /\ tried st1 = tried st0 /\ it_rk st1 = it_rk st0 /\ it_key st1 = it_key st0 /\
    it_from st1 = it_from st0 /\ it_lookup_type st1 = it_lookup_type st0) as (Hok1 & E1 & _ & E2 & E3 & E4).
  { destruct (wait_for_search_reply _ _) as [[dsr|]|e]; [|by injection H1 as <-..].
    apply cbind_inv in H1 as (ret & _ & H1). destruct ret as [ris|e]; [by eapply add_new_ok|by injection H1 as <-]. }
  split; [done|]. split; [exists h; by rewrite E1|]. by rewrite E2, E3, E4.
Qed.

Lemma select_next_ok st peer st' :
  it_ok st -> select_next_peer st = (Some peer, st') ->
  it_ok st' /\ (exists h, ri_hash peer = Ret (Some h) /\ h ∉ tried st /\
    Forall (fun e => metric_lt (for_hash h (it_rk st)) e.1) (to_try st')) /\
  tried st' = tried st /\ it_rk st' = it_rk st /\ it_key st' = it_key st /\ it_from st' = it_from st /\
  it_lookup_type st' = it_lookup_type st /\ exists m, to_try st = (m, peer) :: to_try st'.
Proof.
  intros [Hs Hf]. unfold select_next_peer. destruct (bt_pop (to_try st)) as [next t] eqn:E. intros [= -> <-].
  destruct (bt_pop_first _ _ _ Hs E) as (Hs' & m & Et & Hlt). rewrite Et in Hf.
  apply Forall_cons in Hf as [(h & Hh & Em & Hn) Hf]. cbn in Hh, Em. subst m.
  split; [by split|]. split; [by exists h|]. repeat split; try done. by eexists.
Qed.

Lemma lt_ne_hash st' h rk : Forall (fun e : XorMetric * RouterInfo => metric_lt (for_hash h rk) e.1) (to_try st') ->
  Forall (fun e => e.1 <> for_hash h rk) (to_try st').
Proof. intros H. eapply Forall_impl; [exact H|]. intros e [Hn _] He. by apply Hn. Qed.

(** a peer is asked once, whatever is heard *)
Lemma lookup_loop_once envs st peer qs b h :
  it_ok st -> ri_hash peer = Ret (Some h) -> h ∉ tried st ->
  Forall (fun e => e.1 <> for_hash h (it_rk st)) (to_try st) ->
  lookup_loop envs st peer = cret (qs, b) ->
  NoDup qs.*1 /\ Forall (fun q => q.1 ∉ tried st) qs /\
  Forall (fun q => exists id now, q.2 =
    DatabaseLookup_create_msg id now (it_key st) (it_from st) (it_lookup_type st)) qs.
Proof.
  revert st peer qs h. induction envs as [|env envs IH]; intros st peer qs h Hok Hh Hn Hne; cbn [lookup_loop].
  { intros [= <- <-]. split_and!; constructor. }
  intros ([st1 q] & H1 & H2)%cbind_inv.
  assert (forall h', ri_hash peer = Ret (Some h') -> Forall (fun e => e.1 <> for_hash h' (it_rk st)) (to_try st)) as Hp
    by (intros h' E; rewrite Hh in E; by injection E as <-).
  destruct (process_peer_ok _ _ _ _ _ Hok Hp H1) as (Hok1 & (h' & Hh' & Eq & Et) & E2 & E3 & E4 & Em).
  rewrite Hh in Hh'. injection Hh' as <-.
  destruct (select_next_peer st1) as [[p|] st2] eqn:Es.
  - destruct (select_next_ok _ _ _ Hok1 Es) as (Hok2 & (h2 & Hh2 & Hn2 & Hlt) & T2 & K & K1 & K2 & K3 & _).
    apply cbind_inv in H2 as ([qs2 b2] & H2 & H3). injection H3 as <- <-.
    edestruct IH as (N & F & M); [exact Hok2|exact Hh2|by rewrite T2|rewrite K; by apply lt_ne_hash|exact H2|].
    rewrite T2, Et in F. rewrite K1, K2, K3, E2, E3, E4 in M. split_and!.
    + rewrite fmap_cons. apply NoDup_cons. split; [|done]. rewrite Eq. intros Hin.
      apply list_elem_of_fmap in Hin as (q' & Eq' & Hin). rewrite Forall_forall in F. specialize (F _ Hin).
      rewrite <- Eq' in F. set_solver.
    + constructor; [by rewrite Eq|]. eapply Forall_impl; [exact F|]. set_solver.
    + constructor; [|done]. rewrite Em. by eexists _, _.
  - injection H2 as <- _. split_and!.
    + apply NoDup_singleton.
    + by apply Forall_singleton; rewrite Eq.
    + apply Forall_singleton. rewrite Em. by eexists _, _.
Qed.

(** *** The routers of a reply *)

Definition oks {A E} (l : list (result A E)) : list A := omap rok l.

Lemma split_results {A E} (l : list (result A E)) :
  l <> [] ->
  (exists errs x l', l = map Err errs ++ Ok x :: l') \/ (exists errs e, l = map Err errs ++ [Err e]).
Proof.
  induction l as [|[x|e] l IH]; [done|left; by exists [], x, l|]. intros _. destruct l as [|r l].
  - right. by exists [], e.
  - destruct IH as [(errs & x & l' & E1)|(errs & e' & E1)]; [done| |].
    + left. exists (e :: errs), x, l'. cbn. by rewrite E1.
    + right. exists (e :: errs), e'. cbn. by rewrite E1.
Qed.

Lemma oks_errs {A E} (errs : list E) (l : list (result A E)) : oks (map Err errs ++ l) = oks l.
Proof. induction errs as [|e errs IH]; [done|exact IH]. Qed.

(** everything is lost when the last lookup fails *)
Lemma collect_spec {E} fuel found (l : list (result RouterInfo E)) :
  l <> [] -> (length l <= fuel)%nat ->
  collect fuel found l = cret (match last l with Some (Err e) => Err e | _ => Ok (found ++ oks l) end).
Proof.
  revert found l. induction fuel as [|fuel IH]; intros found l Hl Hf; [by destruct l; cbn in Hf; [|lia]|].
  cbn [collect]. destruct (split_results l Hl) as [(errs & x & l' & ->)|(errs & e & ->)].
  - rewrite select_ok_first, oks_errs. rewrite length_app in Hf. cbn in Hf.
    rewrite last_app_cons. cbn [obind]. destruct l' as [|r l']; [done|].
    rewrite IH by (done || cbn in *; lia). rewrite <- app_assoc. done.
  - by rewrite select_ok_last, last_snoc.
Qed.

Lemma process_dsr_total (U : gset Hash) tried dsr env :
  env_in U env -> pe_lookups env <> [] ->
  exists r, process_dsr tried dsr (pe_from env) (pe_lookups env) = cret r /\
    forall ris, r = Ok ris -> Forall (ri_in U) ris.
Proof.
  intros Hu Hl. unfold process_dsr. destruct (dsr_peers dsr); [eexists; split; [done|]; intros ? [= <-]; constructor|].
  case_decide; [|eexists; split; [done|]; intros ? [= <-]; constructor].
  destruct (pe_from env); [|eexists; split; [done|]; intros ? [=]].
  rewrite collect_spec by (done || lia). eexists. split; [done|]. intros ris Hr. cbn [app] in Hr.
  assert (ris = oks (pe_lookups env)) as -> by (destruct (last _) as [[]|]; by simplify_eq).
  apply Forall_forall. intros ri Hin. apply list_elem_of_omap in Hin as (r & Hr' & E1).
  unfold env_in in Hu. rewrite Forall_forall in Hu. specialize (Hu r Hr'). destruct r; [|done]. by injection E1 as <-.
Qed.

(** *** The lookup ends *)

Definition st_in (U : gset Hash) (st : IterativeLookup) : Prop := Forall (fun e => ri_in U e.2) (to_try st).

Lemma add_new_total U st ris :
  st_in U st -> Forall (ri_in U) ris -> exists st', add_new st ris = cret st' /\ st_in U st'.
Proof.
  intros Hst Hr. revert st Hst. induction Hr as [|ri ris Hri _ IH]; intros st Hst; cbn [add_new]; [by eexists|].
  pose proof Hri as (h & Hh & _). rewrite Hh. cbn [cbind]. apply IH. case_decide; [done|].
  by apply bt_insert_forall.
Qed.

Lemma process_peer_total U env st peer :
  st_in U st -> env_in U env -> pe_lookups env <> [] -> ri_in U peer ->
  exists st' q, process_peer env st peer = cret (st', q) /\ st_in U st'.
Proof.
  intros Hst Hu Hl (h & Hh & _). unfold process_peer. rewrite Hh. cbn [cbind].
  set (st0 := mkIterativeLookup _ _ _ _ _ _). change (st_in U st0) in Hst.
  destruct (wait_for_search_reply _ _) as [[dsr|]|e]; [|by eexists _, _..].
  destruct (process_dsr_total U (tried st0) dsr env Hu Hl) as (r & -> & Hr). cbn [cret cbind].
  destruct r as [ris|e]; [|by eexists _, _].
  destruct (add_new_total U st0 ris Hst (Hr _ eq_refl)) as (st' & -> & H'). by eexists _, _.
Qed.

Lemma lookup_loop_ends U envs st peer h :
  it_ok st -> st_in U st -> ri_hash peer = Ret (Some h) -> h ∈ U -> h ∉ tried st ->
  Forall (fun e => e.1 <> for_hash h (it_rk st)) (to_try st) ->
  Forall (fun env => env_in U env /\ pe_lookups env <> []) envs ->
  (size (U ∖ tried st) <= length envs)%nat ->
  exists qs, lookup_loop envs st peer = cret (qs, true) /\ (length qs <= size (U ∖ tried st))%nat.
Proof.
  intros Hok Hst Hh Hu Hn Hne He. revert st peer h Hok Hst Hh Hu Hn Hne.
  induction He as [|env envs [Hin Hl] _ IH]; intros st peer h Hok Hst Hh Hu Hn Hne Hsz; cbn [length] in Hsz.
  { assert (h ∈ U ∖ tried st) as Hd by set_solver. exfalso.
    assert (size (U ∖ tried st) = 0%nat) as Hz by lia. apply size_empty_inv in Hz. set_solver. }
  cbn [lookup_loop]. destruct (process_peer_total U env st peer Hst Hin Hl) as (st1 & q & H1 & Hst1).
  { by exists h. }
  rewrite H1. cbn [cret cbind].
  assert (forall h', ri_hash peer = Ret (Some h') -> Forall (fun e => e.1 <> for_hash h' (it_rk st)) (to_try st)) as Hp
    by (intros h' E; rewrite Hh in E; by injection E as <-).
  destruct (process_peer_ok _ _ _ _ _ Hok Hp H1) as (Hok1 & (h' & Hh' & _ & Et) & _).
  rewrite Hh in Hh'. injection Hh' as <-.
  assert (size (U ∖ tried st1) < size (U ∖ tried st))%nat as Hlt.
  { apply subset_size. rewrite Et. split; [set_solver|]. intros Hs. specialize (Hs h). set_solver. }
  destruct (select_next_peer st1) as [[p|] st2] eqn:Es.
  - destruct (select_next_ok _ _ _ Hok1 Es) as (Hok2 & (h2 & Hh2 & Hn2 & Hlt2) & T2 & K & _ & _ & _ & m & Em).
    unfold st_in in Hst1. rewrite Em in Hst1. apply Forall_cons in Hst1 as [(h3 & Hh3 & Hu3) Hst2].
    cbn in Hh3. rewrite Hh2 in Hh3. injection Hh3 as <-.
    destruct (IH st2 p h2) as (qs & -> & Hq); [done|done|done|done|by rewrite T2|rewrite K; by apply lt_ne_hash| |].
    { rewrite T2. lia. }
    cbn [cret cbind]. eexists. split; [done|]. rewrite T2 in Hq. cbn. lia.
  - eexists. split; [done|]. cbn. lia.
Qed.

(** the start: one floodfill *)
Lemma new_one today key from lt ff h :
  len today = 8 -> ri_hash ff = Ret (Some h) ->
  exists rk, IterativeLookup_new today key from lt [ff] = cret (mkIterativeLookup key rk from lt [] ∅, ff).
Proof.
  intros Ht Hh. unfold IterativeLookup_new, create_routing_key. rewrite Ht. cbn [Z.eqb Pos.eqb obind insert_ffs].
  rewrite Hh. by eexists.
Qed.

Lemma new_one_inv today key from lt ff st first :
  IterativeLookup_new today key from lt [ff] = cret (st, first) ->
  exists rk h, st = mkIterativeLookup key rk from lt [] ∅ /\ first = ff /\ ri_hash ff = Ret (Some h).
Proof.
  unfold IterativeLookup_new. destruct (create_routing_key today key) as [rk|]; [|done]. cbn [obind insert_ffs].
  destruct (ri_hash ff) as [[h|]|]; [|done..]. intros H. exists rk, h.
  assert ((mkIterativeLookup key rk from lt [] ∅, ff) = (st, first)) as E.
  { apply (f_equal (fun m => match m with Ret (Some x) => x | _ => (st, first) end)) in H. exact H. }
  injection E as <- <-. done.
Qed.

End LookupLemmas.

(** ** Samples *)
Module LookupSamples.

Fixpoint first_ok {A E} (l : list (result A E)) : outcome (result (A * list (result A E)) E) :=
  match l with
  | [] => Panic
  | Ok x :: l => Ret (Ok (x, l))
  | [Err e] => Ret (Err e)
  | Err _ :: l => first_ok l
  end.

Definition select_ok_ref : SelectOk.
Proof.
  refine {| select_ok := @first_ok |}.
  - intros A E errs x l. induction errs as [|e errs IH]; [done|]. cbn. rewrite IH. by destruct errs.
  - intros A E errs e. induction errs as [|e' errs IH]; [done|]. cbn. rewrite IH. by destruct errs.
  - done.
Defined.

End LookupSamples.

(** ** Properties *)
Module LookupProps.
Section Props.
Context {cf : CookieFactory} {bu : BigUintOps} {sc : SigCrates} {sha : Sha2} {so : SelectOk}.

(** C25: An iterative lookup ends, without a panic, whatever the peers answer:
    when the routers that we hear of come from a set of [n] routers, at most [n]
    of them are asked. *)
Theorem lookup_terminates (U : gset Hash) (today : bytes) (key from : Hash) (lt : DatabaseLookupType)
    (ff : RouterInfo) (envs : list PeerEnv) :
  len today = 8 -> ri_in U ff ->
  Forall (fun env => env_in U env /\ pe_lookups env <> []) envs -> (size U <= length envs)%nat ->
  exists qs, iterative_lookup today key from lt ff envs = cret (qs, true) /\ (length qs <= size U)%nat.
Proof.
  intros Ht (h & Hh & Hu) He Hs. unfold iterative_lookup.
  destruct (new_one today key from lt ff h Ht Hh) as [rk ->]. cbn [cret cbind].
  destruct (lookup_loop_ends U envs (mkIterativeLookup key rk from lt [] ∅) ff h) as (qs & Hq & Hl); try done.
  - split; constructor.
  - constructor.
  - cbn. by rewrite difference_empty_L.
  - exists qs. split; [exact Hq|]. cbn in Hl. by rewrite difference_empty_L in Hl.
Qed.

(** C37: No peer is asked twice in one lookup, whatever the network answers,
    and what is sent is a lookup of the wanted key with our own hash. *)
Theorem lookup_asks_once (today : bytes) (key from : Hash) (lt : DatabaseLookupType) (ff : RouterInfo)
    (envs : list PeerEnv) :
  match iterative_lookup today key from lt ff envs with
  | Ret (Some (qs, _)) =>
      NoDup qs.*1 /\ Forall (fun q => exists id now, q.2 = DatabaseLookup_create_msg id now key from lt) qs
  | _ => True
  end.
Proof.
  unfold iterative_lookup. destruct (IterativeLookup_new _ _ _ _ _) as [[[st first]|]|] eqn:Hn; [|done..].
  destruct (new_one_inv _ _ _ _ _ _ _ Hn) as (rk & h & -> & -> & Hh). cbn [cbind].
  set (st := mkIterativeLookup _ _ _ _ _ _).
  assert (it_ok st) as Hok by (split; constructor).
  assert (Forall (fun e => e.1 <> for_hash h (it_rk st)) (to_try st)) as Hf by constructor.
  destruct (lookup_loop envs st ff) as [[[qs b]|]|] eqn:H; [|done..].
  destruct (lookup_loop_once envs st ff qs b h Hok Hh (not_elem_of_empty h) Hf H) as (N & _ & M).
  exact (conj N M).
Qed.

(** After each answer the lookup goes on with a peer that has not been
    asked and is strictly closer to the key than all the others that it knows
    of and has not asked; what it knows stays sorted and unasked. *)
Theorem lookup_best_first (env : PeerEnv) (st st1 st2 : IterativeLookup) (peer next : RouterInfo) q :
  it_ok st ->
  (forall h, ri_hash peer = Ret (Some h) -> Forall (fun e => e.1 <> for_hash h (it_rk st)) (to_try st)) ->
  process_peer env st peer = cret (st1, q) -> select_next_peer st1 = (Some next, st2) ->
  it_ok st2 /\ tried st2 = {[q.1]} ∪ tried st /\
  exists h, ri_hash next = Ret (Some h) /\ h <> q.1 /\ h ∉ tried st /\
    Forall (fun e => metric_lt (for_hash h (it_rk st2)) e.1) (to_try st2).
Proof.
  intros Hok Hp H1 Hs. destruct (process_peer_ok _ _ _ _ _ Hok Hp H1) as (Hok1 & (h & Hh & -> & Et) & _).
  destruct (select_next_ok _ _ _ Hok1 Hs) as (Hok2 & (h2 & Hh2 & Hn2 & Hlt) & T2 & K & _).
  split; [done|]. split; [by rewrite T2|]. exists h2. rewrite K.
  rewrite Et, elem_of_union, elem_of_singleton in Hn2. split; [done|]. split; [intros ->; auto|]. split; [auto|done].
Qed.

(** When a peer we asked answers with routers, they are all added if the
    lookup that completes last succeeds, and none is, however many were found,
    if that one fails. *)
Theorem reply_all_or_nothing (tried : gset Hash) (dsr : DatabaseSearchReply) (sender : RouterInfo)
    (lookups : list (result RouterInfo NdError)) (last_one : result RouterInfo NdError) :
  dsr_peers dsr <> [] -> dsr_from dsr ∈ tried ->
  process_dsr tried dsr (Ok sender) (lookups ++ [last_one]) =
  cret (match last_one with Ok ri => Ok (oks lookups ++ [ri]) | Err e => Err e end).
Proof.
  intros Hp Hf. unfold process_dsr. destruct (dsr_peers dsr); [done|]. rewrite decide_True by done.
  rewrite collect_spec; [|by destruct lookups|lia]. rewrite last_snoc.
  destruct last_one as [ri|e]; [|done]. unfold oks. by rewrite omap_app.
Qed.

(** A search reply that claims to come from a router that was not asked
    adds nothing, whatever it holds and whatever its lookups would find. *)
Theorem unsolicited_reply_ignored (env : PeerEnv) (st : IterativeLookup) (peer : RouterInfo) (h : Hash) dsr :
  ri_hash peer = Ret (Some h) -> pe_path env = true -> pe_wait env = WInner true true (Some dsr) ->
  dsr_from dsr <> h -> dsr_from dsr ∉ tried st ->
  exists st' q, process_peer env st peer = cret (st', q) /\ to_try st' = to_try st /\ tried st' = {[h]} ∪ tried st.
Proof.
  intros Hh Hp Hw Hn Ht. unfold process_peer. rewrite Hh, Hp, Hw. cbn [cbind wait_for_search_reply].
  unfold process_dsr. rewrite decide_False by (cbn; set_solver).
  destruct (dsr_peers dsr); by eexists _, _.
Qed.

End Props.

#[local] Existing Instances nom_ref cf_ref biguint_ref sigcrates_ref sha2_ref.
#[local] Existing Instance LookupSamples.select_ok_ref.

Definition sample_key : Hash := match ri_hash DataSamples.ref_ri with Ret (Some h) => h | _ => mkHash [] end.
Definition sample_today : bytes := replicate 8 48.
Definition other_key : Hash := mkHash (replicate 32 7).

Lemma sample_key_ok : ri_hash DataSamples.ref_ri = Ret (Some sample_key).
Proof. vm_compute. reflexivity. Qed.

(** the peer answers with a router that turns out to be itself *)
Definition sample_env (from : Hash) : PeerEnv :=
  mkPeerEnv 1 2 true (WInner true true (Some (mkDatabaseSearchReply other_key [other_key] from)))
    (Ok DataSamples.ref_ri) [Ok DataSamples.ref_ri].

Lemma sample_env_in from : env_in {[sample_key]} (sample_env from) /\ pe_lookups (sample_env from) <> [].
Proof. split; [|done]. constructor; [|constructor]. exists sample_key. split; [exact sample_key_ok|set_solver]. Qed.

Lemma lookup_terminates_witness :
  exists qs, iterative_lookup sample_today other_key other_key LtRouterInfo DataSamples.ref_ri [sample_env sample_key]
    = cret (qs, true) /\ (length qs <= size ({[sample_key]} : gset Hash))%nat.
Proof.
  apply (lookup_terminates {[sample_key]}).
  - reflexivity.
  - exists sample_key. split; [exact sample_key_ok|set_solver].
  - constructor; [apply sample_env_in|constructor].
  - rewrite size_singleton. reflexivity.
Defined.

Lemma reply_all_or_nothing_witness :
  process_dsr {[sample_key]} (mkDatabaseSearchReply other_key [other_key; sample_key] sample_key)
    (Ok DataSamples.ref_ri) ([Ok DataSamples.ref_ri] ++ [Err NeClosed]) = cret (Err NeClosed).
Proof.
  refine (reply_all_or_nothing _ _ _ [Ok DataSamples.ref_ri] (Err NeClosed) _ _); [discriminate|].
  apply elem_of_singleton. reflexivity.
Defined.

Lemma unsolicited_reply_ignored_witness :
  exists st' q,
    process_peer (sample_env other_key) (mkIterativeLookup other_key other_key other_key LtAny [] ∅)
      DataSamples.ref_ri = cret (st', q) /\ to_try st' = [] /\ tried st' = {[sample_key]} ∪ ∅.
Proof.
  apply (unsolicited_reply_ignored (sample_env other_key) (mkIterativeLookup other_key other_key other_key LtAny [] ∅)
    DataSamples.ref_ri sample_key (mkDatabaseSearchReply other_key [other_key] other_key)).
  - exact sample_key_ok.
  - reflexivity.
  - reflexivity.
  - vm_compute. discriminate.
  - apply not_elem_of_empty.
Defined.

(** two routers, one known and one that is asked *)
Definition pk2 : ed_pk := dexist (P := fun d : bytes => len d = 32) (replicate 32 1) eq_refl.
Definition ri2 : RouterInfo :=
  RouterInfo_new (10 ^ 18) (mkRouterIdentity (mkPublicKey (zeros 256)) (Some (mkPadding (replicate 96 1)))
    (SpkEd25519 pk2) (certificate_ DataSamples.ref_rid)).
Definition key2 : Hash := match ri_hash ri2 with Ret (Some h) => h | _ => mkHash [] end.
Definition sample_state : IterativeLookup :=
  mkIterativeLookup other_key other_key other_key LtAny [(for_hash key2 other_key, ri2)] ∅.

Lemma key2_fresh : key2 ∉ tried sample_state.
Proof. unfold sample_state. cbn [tried]. generalize key2. intros k. apply not_elem_of_empty. Qed.

(** nobody answers *)
Definition silent_env : PeerEnv := mkPeerEnv 1 2 true WElapsed (Err NeClosed) [].

Definition after_silence (t : list (XorMetric * RouterInfo)) : IterativeLookup :=
  mkIterativeLookup other_key other_key other_key LtAny t ({[sample_key]} ∪ ∅).

Lemma process_silent :
  process_peer silent_env sample_state DataSamples.ref_ri =
  cret (after_silence [(for_hash key2 other_key, ri2)],
        (sample_key, DatabaseLookup_create_msg 1 2 other_key other_key LtAny)).
Proof. unfold process_peer. rewrite sample_key_ok. reflexivity. Qed.

Lemma lookup_best_first_witness :
  exists h, ri_hash ri2 = Ret (Some h) /\ h <> sample_key /\ h ∉ tried sample_state.
Proof.
  destruct (lookup_best_first silent_env sample_state (after_silence [(for_hash key2 other_key, ri2)])
    (after_silence []) DataSamples.ref_ri ri2 (sample_key, DatabaseLookup_create_msg 1 2 other_key other_key LtAny))
    as (_ & _ & h & Hh & Hn & Ht & _).
  - split; [repeat constructor|]. constructor; [|constructor]. exists key2. split; [vm_compute; reflexivity|].
    split; [reflexivity|exact key2_fresh].
  - intros h Hh. vm_compute in Hh. injection Hh as <-. constructor; [|constructor]. vm_compute. discriminate.
  - exact process_silent.
  - reflexivity.
  - exists h. exact (conj Hh (conj Hn Ht)).
Defined.

End LookupProps.
