(* ===== verification/Client.v ===== *)
(** * Clients of the network database

    [src/netdb/client.rs]: the futures through which the other tasks use the
    database.  A future sends its query to the engine's queue when it is polled
    first, with a one-shot channel for the answer, and waits on that channel.
    The queue and the channels are the shared state [Chan]; the engine's side of
    it ([engine_takes]) runs [Query_handle] of [NetDb] on the first query and
    puts the answer into the channel that the query names.  The abstract database
    that this refines has no channels and no futures: [history] says which
    operations some events stand for, and [db_run] applies them in sequence. *)

From S2P Require Import Prelude Nom Cookie Util Wire Crypto Data Dest I2np Message NetDb NetDbSpec.

(** [netdb::errors::Error] *)
Inductive ClientError := CeLookup (e : LookupError) | CeStore (e : StoreError) | CeClosed.

Section Client.
Context {cf : CookieFactory} {bu : BigUintOps} {sc : SigCrates} {sha : Sha2}.
Context (dsa_verify : DsaPublicKey -> bytes -> DsaSignature -> bool).

(** ** Channels *)

(** what goes through a one-shot channel *)
Inductive Answer :=
| AnKnownRouters (n : Z)
| AnFloodfill (ff : option RouterInfo)
| AnLookupRI (r : result RouterInfo LookupError)
| AnLookupLS (r : result LeaseSet LookupError)
| AnStoredRI (r : result (option RouterInfo) StoreError)
| AnStoredLS (r : result (option LeaseSet) StoreError).

(** a one-shot channel: the sender is there, has sent, or is gone (or what was
    sent has been taken) *)
Inductive Cell := CellWaiting | CellSent (a : Answer) | CellGone.

(** [open]: the engine still has the receiver of the queue *)
Record Chan := mkChan { ch_queue : list Query; ch_open : bool; ch_cells : gmap nat Cell; ch_next : nat }.

Definition with_cell (c : nat) (v : Cell) (ch : Chan) : Chan :=
  mkChan (ch_queue ch) (ch_open ch) (<[c := v]> (ch_cells ch)) (ch_next ch).

(** [oneshot::channel()] *)
Definition oneshot (ch : Chan) : Chan * nat :=
  (mkChan (ch_queue ch) (ch_open ch) (<[ch_next ch := CellWaiting]> (ch_cells ch)) (S (ch_next ch)), ch_next ch).

(** the channel a query holds the sender of *)
Definition query_ret (q : Query) : nat :=
  match q with
  | QKnownRouters r | QSelectClosestFloodfill _ r | QLookupRouterInfo _ _ _ r
  | QLookupLeaseSet _ _ r | QStoreRouterInfo _ _ _ r | QStoreLeaseSet _ _ r => r
  end.

(** [Client::send]; a query that is not taken is dropped, with its sender *)
Definition Client_send (ch : Chan) (q : Query) : Chan * result unit ClientError :=
  if ch_open ch then (mkChan (ch_queue ch ++ [q]) true (ch_cells ch) (ch_next ch), Ok tt)
  else (with_cell (query_ret q) CellGone ch, Err CeClosed).

(** [Receiver::poll] *)
Definition recv (ch : Chan) (rx : nat) : Chan * Poll Answer unit :=
  match ch_cells ch !! rx with
  | Some (CellSent a) => (with_cell rx CellGone ch, Ready a)
  | Some CellWaiting => (ch, NotReady)
  | _ => (ch, PollErr tt)
  end.

(** ** The futures *)

(** [query] is taken when the future is polled first *)
Record OneShot (Q : Type) := mkOneShot { os_query : option Q; os_rx : option nat }.
Arguments mkOneShot {Q} os_query os_rx.
Arguments os_query {Q} _.
Arguments os_rx {Q} _.

(** the query is sent: [query.take()], the channel, [client.send(..)?] *)
Definition ask {Q} (mk : Q -> nat -> Query) (ch : Chan) (f : OneShot Q) : Chan * OneShot Q * result unit ClientError :=
  match os_query f with
  | Some q =>
      let '(ch, rx) := oneshot ch in
      let '(ch, r) := Client_send ch (mk q rx) in
      (ch, mkOneShot None (Some rx), r)
  | None => (ch, f, Ok tt)
  end.

(** [poll]: the query, then the channel; [take] is what the answer means to the
    caller *)
Definition call_poll {Q A} (mk : Q -> nat -> Query) (take : Answer -> option (result A ClientError)) (ch : Chan) (f : OneShot Q)
  : outcome (Chan * OneShot Q * Poll A ClientError) :=
  let '(ch, f, r) := ask mk ch f in
  match r with
  | Err e => Ret (ch, f, PollErr e)
  | Ok _ =>
      let! rx := unwrap (os_rx f) in
      let '(ch, p) := recv ch rx in
      match p with
      | Ready a => let! r := unwrap (take a) in
          Ret (ch, f, match r with Ok a => Ready a | Err e => PollErr e end)
      | NotReady => Ret (ch, f, NotReady)
      | PollErr _ => Ret (ch, f, PollErr CeClosed)
      end
  end.

(** [Client::known_routers]; the source tests [response_rx] here, which is set
    exactly when the query is gone *)
Definition KnownRouters_new : OneShot unit := mkOneShot (Some tt) None.
Definition KnownRouters_poll : Chan -> OneShot unit -> outcome (Chan * OneShot unit * Poll Z ClientError) :=
  call_poll (fun _ => QKnownRouters) (fun a => match a with AnKnownRouters n => Some (Ok n) | _ => None end).

(** [Client::select_closest_ff] *)
Definition SelectClosestFloodfill_new (key : Hash) : OneShot Hash := mkOneShot (Some key) None.
Definition SelectClosestFloodfill_poll : Chan -> OneShot Hash -> outcome (Chan * OneShot Hash * Poll (option RouterInfo) ClientError) :=
  call_poll QSelectClosestFloodfill (fun a => match a with AnFloodfill ff => Some (Ok ff) | _ => None end).

(** [Client::lookup_router_info] *)
Definition LookupRouterInfo_new (key : Hash) (timeout_ms : Z) (from_peer : option RouterInfo) : OneShot (Hash * Z * option RouterInfo) :=
  mkOneShot (Some (key, timeout_ms, from_peer)) None.
Definition LookupRouterInfo_poll
  : Chan -> OneShot (Hash * Z * option RouterInfo) -> outcome (Chan * OneShot (Hash * Z * option RouterInfo) * Poll RouterInfo ClientError) :=
  call_poll (fun '(key, timeout_ms, from_peer) => QLookupRouterInfo key timeout_ms from_peer)
    (fun a => match a with AnLookupRI r => Some (rmap_err CeLookup r) | _ => None end).

(** [Client::lookup_lease_set]; the destination it is for is not used yet *)
Definition LookupLeaseSet_new (key : Hash) (timeout_ms : Z) : OneShot (Hash * Z) := mkOneShot (Some (key, timeout_ms)) None.
Definition LookupLeaseSet_poll : Chan -> OneShot (Hash * Z) -> outcome (Chan * OneShot (Hash * Z) * Poll LeaseSet ClientError) :=
  call_poll (fun '(key, timeout_ms) => QLookupLeaseSet key timeout_ms)
    (fun a => match a with AnLookupLS r => Some (rmap_err CeLookup r) | _ => None end).

(** [Client::store_router_info] *)
Definition StoreRouterInfo_new (key : Hash) (ri : RouterInfo) (from_reseed : bool) : OneShot (Hash * RouterInfo * bool) :=
  mkOneShot (Some (key, ri, from_reseed)) None.
Definition StoreRouterInfo_poll
  : Chan -> OneShot (Hash * RouterInfo * bool) -> outcome (Chan * OneShot (Hash * RouterInfo * bool) * Poll (option RouterInfo) ClientError) :=
  call_poll (fun '(key, ri, from_reseed) => QStoreRouterInfo key ri from_reseed)
    (fun a => match a with AnStoredRI r => Some (rmap_err CeStore r) | _ => None end).

(** [Client::store_lease_set] *)
Definition StoreLeaseSet_new (key : Hash) (ls : LeaseSet) : OneShot (Hash * LeaseSet) := mkOneShot (Some (key, ls)) None.
Definition StoreLeaseSet_poll
  : Chan -> OneShot (Hash * LeaseSet) -> outcome (Chan * OneShot (Hash * LeaseSet) * Poll (option LeaseSet) ClientError) :=
  call_poll (fun '(key, ls) => QStoreLeaseSet key ls)
    (fun a => match a with AnStoredLS r => Some (rmap_err CeStore r) | _ => None end).

(** ** The engine's side *)

(** a send on a one-shot channel; the receiver may be gone *)
Definition send_answer (tx : nat) (a : Answer) (ch : Chan) : Chan :=
  match ch_cells ch !! tx with Some CellWaiting => with_cell tx (CellSent a) ch | _ => ch end.

(** The database, the channels, and the lookups that were spawned with the
    channel each will answer on. *)
Record World := mkWorld {
  w_db : LocalNetworkDatabase;
  w_chan : Chan;
  w_lookups_ri : list (nat * LookupFuture RouterInfo);
  w_lookups_ls : list (nat * LookupFuture LeaseSet)
}.

(** what [Query_handle] does to the channels of the clients *)
Definition deliver (w : World) (ef : NdEffect) : World :=
  let answer tx a := mkWorld (w_db w) (send_answer tx a (w_chan w)) (w_lookups_ri w) (w_lookups_ls w) in
  match ef with
  | EfKnownRouters tx n => answer tx (AnKnownRouters n)
  | EfFloodfill tx ff => answer tx (AnFloodfill ff)
  | EfStoredRI tx r => answer tx (AnStoredRI r)
  | EfStoredLS tx r => answer tx (AnStoredLS r)
  | EfLookupRI tx f => mkWorld (w_db w) (w_chan w) (w_lookups_ri w ++ [(tx, f)]) (w_lookups_ls w)
  | EfLookupLS tx f => mkWorld (w_db w) (w_chan w) (w_lookups_ri w) (w_lookups_ls w ++ [(tx, f)])
  | EfNotifyRI _ _ | EfNotifyLS _ _ | EfSearchReply _ _ | EfReseed | EfExplore _ _ _ => w
  end.

(** the result of a spawned lookup: at hand, or what it ends with *)
Definition lookup_result {T} (f : LookupFuture T) (r : result T LookupError) : result T LookupError :=
  match f with LfReady mine => mine | _ => r end.

(** What can happen between two polls of a future: another client asks; the
    engine takes a query; the engine changes the database for another reason; a
    lookup ends; the engine is dropped, with the queue. *)
Inductive Event :=
| EvAsk (mk : nat -> Query)
| EvEngine (now : Z) (today : bytes)
| EvDatabase (db : LocalNetworkDatabase)
| EvLookupRI (i : nat) (r : result RouterInfo LookupError)
| EvLookupLS (i : nat) (r : result LeaseSet LookupError)
| EvClose.

Definition with_chan (w : World) (ch : Chan) : World := mkWorld (w_db w) ch (w_lookups_ri w) (w_lookups_ls w).

Definition engine_takes (now : Z) (today : bytes) (w : World) : comp World :=
  match ch_queue (w_chan w) with
  | [] => cret w
  | q :: rest =>
      let* (db, eff) := Query_handle dsa_verify now today q (w_db w) in
      cret (foldl deliver
              (mkWorld db (mkChan rest (ch_open (w_chan w)) (ch_cells (w_chan w)) (ch_next (w_chan w)))
                 (w_lookups_ri w) (w_lookups_ls w)) eff)
  end.

Definition world_step (w : World) (e : Event) : comp World :=
  match e with
  | EvAsk mk =>
      let '(ch, rx) := oneshot (w_chan w) in cret (with_chan w (Client_send ch (mk rx)).1)
  | EvEngine now today => engine_takes now today w
  | EvDatabase db => cret (mkWorld db (w_chan w) (w_lookups_ri w) (w_lookups_ls w))
  | EvLookupRI i r =>
      match w_lookups_ri w !! i with
      | Some (tx, f) => cret (mkWorld (w_db w) (send_answer tx (AnLookupRI (lookup_result f r)) (w_chan w))
                                (delete i (w_lookups_ri w)) (w_lookups_ls w))
      | None => cret w
      end
  | EvLookupLS i r =>
      match w_lookups_ls w !! i with
      | Some (tx, f) => cret (mkWorld (w_db w) (send_answer tx (AnLookupLS (lookup_result f r)) (w_chan w))
                                (w_lookups_ri w) (delete i (w_lookups_ls w)))
      | None => cret w
      end
  | EvClose =>
      let ch := w_chan w in
      cret (with_chan w (mkChan [] false (foldl (fun m q => <[query_ret q := CellGone]> m) (ch_cells ch) (ch_queue ch)) (ch_next ch)))
  end.

Fixpoint world_run (w : World) (es : list Event) : comp World :=
  match es with
  | [] => cret w
  | e :: es => let* w := world_step w e in world_run w es
  end.

(** ** The sequential database

    What the clients and the engine do to the database, one operation after the
    other: no channels, no futures. *)
Inductive DbOp := OpQuery (now : Z) (today : bytes) (q : Query) | OpSet (db : LocalNetworkDatabase).

Definition db_apply (db : LocalNetworkDatabase) (op : DbOp) : comp LocalNetworkDatabase :=
  match op with
  | OpQuery now today q => let* (db, _) := Query_handle dsa_verify now today q db in cret db
  | OpSet db => cret db
  end.

Fixpoint db_run (db : LocalNetworkDatabase) (ops : list DbOp) : comp LocalNetworkDatabase :=
  match ops with
  | [] => cret db
  | op :: ops => let* db := db_apply db op in db_run db ops
  end.

(** the channels that the operations answer on *)
Definition op_channels (ops : list DbOp) : list nat :=
  omap (fun op => match op with OpQuery _ _ q => Some (query_ret q) | OpSet _ => None end) ops.

(** The operations of some events, first come first served: [queue] has been
    asked and not been taken, and [next] is the next channel. *)
Fixpoint history (queue : list Query) (is_open : bool) (next : nat) (es : list Event) : list DbOp :=
  match es with
  | [] => []
  | EvAsk mk :: es => history (if is_open then queue ++ [mk next] else queue) is_open (S next) es
  | EvEngine now today :: es =>
      match queue with
      | [] => history [] is_open next es
      | q :: queue => OpQuery now today q :: history queue is_open next es
      end
  | EvDatabase db :: es => OpSet db :: history queue is_open next es
  | (EvLookupRI _ _ | EvLookupLS _ _) :: es => history queue is_open next es
  | EvClose :: es => history [] false next es
  end.

Definition history_of (w : World) : list Event -> list DbOp :=
  history (ch_queue (w_chan w)) (ch_open (w_chan w)) (ch_next (w_chan w)).

(** ** Who holds a sender *)

Definition owners (w : World) : list nat :=
  map query_ret (ch_queue (w_chan w)) ++ map fst (w_lookups_ri w) ++ map fst (w_lookups_ls w).

(** every sender belongs to one query or lookup, and to a channel that exists *)
Definition world_inv (w : World) : Prop :=
  NoDup (owners w) /\ Forall (fun c => (c < ch_next (w_chan w))%nat) (owners w) /\
  (ch_open (w_chan w) = false -> ch_queue (w_chan w) = []).

(** an event asks with the channel it is given *)
Definition event_fine (e : Event) : Prop := match e with EvAsk mk => forall r, query_ret (mk r) = r | _ => True end.

(** a query in flight moves from the queue to a lookup, or is answered *)
Definition ef_owner (ef : NdEffect) : option nat :=
  match ef with EfLookupRI tx _ | EfLookupLS tx _ => Some tx | _ => None end.

Definition ef_answer (ef : NdEffect) : option nat :=
  match ef with
  | EfKnownRouters tx _ | EfFloodfill tx _ | EfStoredRI tx _ | EfStoredLS tx _ => Some tx
  | _ => None
  end.

(** the effects of one query: notifications of lookups, then one effect for its
    own channel *)
Lemma handle_effects now today q db db' eff : Query_handle dsa_verify now today q db = cret (db', eff) ->
  exists pre ef, eff = pre ++ [ef] /\ Forall (fun e => ef_owner e = None /\ ef_answer e = None) pre /\
    (ef_owner ef = Some (query_ret q) /\ ef_answer ef = None \/ ef_owner ef = None /\ ef_answer ef = Some (query_ret q)).
Proof.
  destruct q; cbn [Query_handle query_ret].
  - intros [= _ <-]. by exists [], (EfKnownRouters ret (known_routers db)); auto.
  - intros (ff & _ & [= _ <-])%cbind_inv. by exists [], (EfFloodfill ret ff); auto.
  - intros ([d f] & _ & [= _ <-])%cbind_inv. by exists [], (EfLookupRI ret f); auto.
  - intros ([d f] & _ & [= _ <-])%cbind_inv. by exists [], (EfLookupLS ret f); auto.
  - intros ([[d l] r] & _ & [= _ <-])%cbind_inv. exists (map (fun tx => EfNotifyRI tx ri) l), (EfStoredRI ret r).
    split; [done|]. split; [|auto]. apply Forall_map, Forall_true. done.
  - destruct (store_lease_set db key ls) as [[d l] r]. intros [= _ <-].
    exists (map (fun tx => EfNotifyLS tx ls) l), (EfStoredLS ret r).
    split; [done|]. split; [|auto]. apply Forall_map, Forall_true. done.
Qed.

Lemma send_answer_chan tx a ch : ch_queue (send_answer tx a ch) = ch_queue ch /\ ch_open (send_answer tx a ch) = ch_open ch /\
  ch_next (send_answer tx a ch) = ch_next ch.
Proof. unfold send_answer. by destruct (ch_cells ch !! tx) as [[]|]. Qed.

Lemma send_answer_other tx a ch c : c <> tx -> ch_cells (send_answer tx a ch) !! c = ch_cells ch !! c.
Proof. intros Hc. unfold send_answer. destruct (ch_cells ch !! tx) as [[]|]; try done. cbn. by rewrite lookup_insert_ne. Qed.

Lemma send_answer_self tx a ch : ch_cells ch !! tx = Some CellWaiting -> ch_cells (send_answer tx a ch) !! tx = Some (CellSent a).
Proof. intros H. unfold send_answer. rewrite H. cbn. apply lookup_insert_eq. Qed.

Lemma deliver_quiet w effs : Forall (fun e => ef_owner e = None /\ ef_answer e = None) effs -> foldl deliver w effs = w.
Proof. intros H. induction H as [|e effs [He Ha] _ IH]; [done|]. cbn [foldl]. by destruct e. Qed.

Lemma deliver_other w ef tx c : ef_owner ef = Some tx /\ ef_answer ef = None \/ ef_owner ef = None /\ ef_answer ef = Some tx ->
  c <> tx -> ch_queue (w_chan (deliver w ef)) = ch_queue (w_chan w) /\ ch_open (w_chan (deliver w ef)) = ch_open (w_chan w) /\
    ch_next (w_chan (deliver w ef)) = ch_next (w_chan w) /\ owners (deliver w ef) ⊆+ tx :: owners w /\
    ch_cells (w_chan (deliver w ef)) !! c = ch_cells (w_chan w) !! c.
Proof.
  intros Hef Hc. destruct ef; cbn in Hef; destruct Hef as [[[= <-] _]|[_ [= <-]]] || (exfalso; naive_solver); cbn [deliver w_chan];
    unfold owners; cbn [w_chan w_lookups_ri w_lookups_ls];
    try (pose proof (send_answer_chan) as Hs; edestruct Hs as (-> & -> & ->); rewrite send_answer_other by done;
         split_and!; try done; by apply submseteq_cons).
  - split_and!; try done. rewrite map_app. cbn. rewrite <- !app_assoc. cbn. apply Permutation_submseteq. solve_Permutation.
  - split_and!; try done. rewrite map_app. cbn. rewrite !app_assoc. apply Permutation_submseteq. solve_Permutation.
Qed.

Lemma inv_smaller w w' : world_inv w -> owners w' ⊆+ owners w -> ch_next (w_chan w') = ch_next (w_chan w) ->
  (ch_open (w_chan w') = false -> ch_queue (w_chan w') = []) -> world_inv w'.
Proof.
  intros (Hnd & Hlt & _) Hs Hn Ho. destruct (submseteq_Permutation _ _ Hs) as [k Hk].
  split; [|split; [|done]].
  - rewrite Hk in Hnd. by apply NoDup_app in Hnd as [? _].
  - rewrite Hn. apply Forall_forall. intros c Hc. rewrite Forall_forall in Hlt. by apply Hlt, (elem_of_submseteq _ _ _ Hc Hs).
Qed.

(** the first query is answered, or becomes a lookup *)
Lemma engine_takes_cases now today w w' : engine_takes now today w = cret w' ->
  (w' = w /\ ch_queue (w_chan w) = []) \/
  exists q rest db eff pre ef, ch_queue (w_chan w) = q :: rest /\
    Query_handle dsa_verify now today q (w_db w) = cret (db, eff) /\ eff = pre ++ [ef] /\
    (ef_owner ef = Some (query_ret q) /\ ef_answer ef = None \/ ef_owner ef = None /\ ef_answer ef = Some (query_ret q)) /\
    w' = deliver (mkWorld db (mkChan rest (ch_open (w_chan w)) (ch_cells (w_chan w)) (ch_next (w_chan w)))
                    (w_lookups_ri w) (w_lookups_ls w)) ef.
Proof.
  unfold engine_takes. destruct (ch_queue (w_chan w)) as [|q rest]; [intros [= <-]; by left|].
  intros ([db eff] & Hq & [= <-])%cbind_inv. right.
  destruct (handle_effects _ _ _ _ _ _ Hq) as (pre & ef & -> & Hpre & Hef).
  exists q, rest, db, (pre ++ [ef]), pre, ef. do 4 (split; [done|]). by rewrite foldl_app, (deliver_quiet _ _ Hpre).
Qed.

Lemma gone_cells qs (m : gmap nat Cell) c : foldl (fun m q => <[query_ret q := CellGone]> m) m qs !! c =
  if decide (c ∈ map query_ret qs) then Some CellGone else m !! c.
Proof.
  revert m. induction qs as [|q qs IH]; intros m; [done|]. cbn [foldl map]. rewrite IH.
  destruct (decide (c ∈ map query_ret qs)) as [H|H]; [by rewrite decide_True by (by constructor)|].
  destruct (decide (c = query_ret q)) as [->|Hne].
  - rewrite decide_True by constructor. apply lookup_insert_eq.
  - rewrite decide_False, lookup_insert_ne; [done|done|]. by intros [?|?]%elem_of_cons.
Qed.

(** the channels an event may answer on or drop *)
Definition touches (e : Event) (w : World) : list nat :=
  match e with
  | EvEngine _ _ => map query_ret (take 1 (ch_queue (w_chan w)))
  | EvLookupRI i _ => match w_lookups_ri w !! i with Some l => [l.1] | None => [] end
  | EvLookupLS i _ => match w_lookups_ls w !! i with Some l => [l.1] | None => [] end
  | EvClose => map query_ret (ch_queue (w_chan w))
  | _ => []
  end.

(** A step of the engine's side: it touches only channels whose senders it has,
    loses senders, and takes queries from the front of the queue. *)
Lemma step_shape w e w' : world_inv w -> (forall mk, e <> EvAsk mk) -> world_step w e = cret w' ->
  ch_next (w_chan w') = ch_next (w_chan w) /\ owners w' ⊆+ owners w /\
  (ch_open (w_chan w') = false -> ch_queue (w_chan w') = []) /\
  (forall c, c ∉ touches e w -> ch_cells (w_chan w') !! c = ch_cells (w_chan w) !! c).
Proof.
  intros (_ & _ & Ho) Hne. destruct e; cbn [world_step touches]; [by destruct (Hne mk)|..].
  - intros [[-> _]|(q & rest & db & eff & pre & ef & Hq & _ & _ & Hef & ->)]%engine_takes_cases; [done|].
    set (w0 := mkWorld _ _ _ _). assert (owners w = query_ret q :: owners w0) as -> by (unfold owners; rewrite Hq; done).
    destruct (deliver_other w0 ef (query_ret q) (S (query_ret q)) Hef) as (Hq' & Ho' & Hn' & Hs & _); [lia|].
    split_and!; [done|done|rewrite Ho', Hq'; cbn; intros H; apply Ho in H; by rewrite Hq in H|].
    intros c Hc. rewrite Hq in Hc. cbn in Hc. apply (deliver_other w0 ef (query_ret q) c Hef). set_solver.
  - by intros [= <-].
  - destruct (w_lookups_ri w !! i) as [[tx f]|] eqn:Ei; intros [= <-]; [|done].
    destruct (send_answer_chan tx (AnLookupRI (lookup_result f r)) (w_chan w)) as (Hq' & Ho' & Hn').
    unfold owners. cbn. rewrite Hq', Ho', Hn'. split_and!; [done| |done|].
    + apply submseteq_app; [done|]. apply submseteq_app; [|done]. apply (fmap_submseteq fst), submseteq_delete.
    + intros c Hc. apply send_answer_other. set_solver.
  - destruct (w_lookups_ls w !! i) as [[tx f]|] eqn:Ei; intros [= <-]; [|done].
    destruct (send_answer_chan tx (AnLookupLS (lookup_result f r)) (w_chan w)) as (Hq' & Ho' & Hn').
    unfold owners. cbn. rewrite Hq', Ho', Hn'. split_and!; [done| |done|].
    + apply submseteq_app; [done|]. apply submseteq_app; [done|]. apply (fmap_submseteq fst), submseteq_delete.
    + intros c Hc. apply send_answer_other. set_solver.
  - intros [= <-]. cbn. split_and!; [done| |done|].
    + unfold owners. cbn. by apply submseteq_inserts_l.
    + intros c Hc. rewrite gone_cells. by rewrite decide_False.
Qed.

(** another client's query goes to the end of the queue *)
Lemma ask_shape w mk w' : world_inv w -> event_fine (EvAsk mk) -> world_step w (EvAsk mk) = cret w' ->
  world_inv w' /\ ch_next (w_chan w') = S (ch_next (w_chan w)) /\
  (forall c, c ∈ owners w' -> c = ch_next (w_chan w) \/ c ∈ owners w) /\
  (forall c, (c < ch_next (w_chan w))%nat -> ch_cells (w_chan w') !! c = ch_cells (w_chan w) !! c) /\
  exists l, ch_queue (w_chan w') = ch_queue (w_chan w) ++ l.
Proof.
  intros (Hnd & Hlt & Ho) He. cbn. unfold Client_send. cbn. specialize (He (ch_next (w_chan w))).
  assert (ch_next (w_chan w) ∉ owners w) as Hf.
  { intros H. rewrite Forall_forall in Hlt. specialize (Hlt _ H). lia. }
  destruct (ch_open (w_chan w)) eqn:Eo; intros [= <-]; set (w1 := with_chan _ _).
  - assert (owners w1 ≡ₚ ch_next (w_chan w) :: owners w) as Hp.
    { unfold w1, owners. cbn. rewrite map_app. cbn. rewrite He, <- !app_assoc. cbn. solve_Permutation. }
    split_and!; [|done| |intros c Hc; apply lookup_insert_ne; lia|by exists [mk (ch_next (w_chan w))]].
    + split; [rewrite Hp; by constructor|]. split; [|done].
      rewrite Hp. constructor; [cbn; lia|]. eapply Forall_impl; [exact Hlt|]. cbn. lia.
    + intros c Hc. rewrite Hp in Hc. set_solver.
  - split_and!; [|done|by right| |by exists []; rewrite app_nil_r].
    + split; [done|]. split; [eapply Forall_impl; [exact Hlt|cbn; lia]|]. intros _. by apply Ho.
    + intros c Hc. cbn. rewrite He. by rewrite !lookup_insert_ne by lia.
Qed.

Lemma touches_owned e w : (forall mk, e <> EvAsk mk) -> forall c, c ∈ touches e w -> c ∈ owners w.
Proof.
  intros Hne c. unfold owners. rewrite !elem_of_app. destruct e; cbn; try (intros H; by inversion H).
  - intros H. left. destruct (ch_queue (w_chan w)); [done|]. cbn in *. set_solver.
  - destruct (w_lookups_ri w !! i) as [l|] eqn:Ei; intros H; [|by inversion H]. apply list_elem_of_singleton in H as ->.
    right. left. apply (list_elem_of_fmap_2 fst), (list_elem_of_lookup_2 _ _ _ Ei).
  - destruct (w_lookups_ls w !! i) as [l|] eqn:Ei; intros H; [|by inversion H]. apply list_elem_of_singleton in H as ->.
    right. right. apply (list_elem_of_fmap_2 fst), (list_elem_of_lookup_2 _ _ _ Ei).
  - intros H. by left.
Qed.

Lemma not_touched c e w : c ∉ owners w -> c ∉ touches e w.
Proof.
  intros Hc Ht. destruct e; [by apply elem_of_nil in Ht|..]; apply Hc; (eapply touches_owned; [|exact Ht]); done.
Qed.

Lemma ask_or_not e : (exists mk, e = EvAsk mk) \/ (forall mk, e <> EvAsk mk).
Proof. destruct e; naive_solver. Qed.

(** one event, seen from a channel [c] that nobody has a sender of *)
Lemma step_idle c w e w' : world_inv w -> event_fine e -> (c < ch_next (w_chan w))%nat -> world_step w e = cret w' ->
  world_inv w' /\ (c < ch_next (w_chan w'))%nat /\
  (c ∉ owners w -> c ∉ owners w' /\ ch_cells (w_chan w') !! c = ch_cells (w_chan w) !! c).
Proof.
  intros Hw He Hc Hs. destruct (ask_or_not e) as [[mk ->]|Hne].
  - destruct (ask_shape w mk w' Hw He Hs) as (Hi & Hn & Ho & Hcells & _).
    split_and!; [done|lia|]. intros Hni. split; [|by apply Hcells]. intros [->|H]%Ho; [lia|done].
  - destruct (step_shape w e w' Hw Hne Hs) as (Hn & Ho & Hq & Hcells).
    split_and!; [by apply (inv_smaller w)|lia|]. intros Hni.
    split; [by intros H; apply Hni, (elem_of_submseteq _ _ _ H Ho)|]. apply Hcells. intros H. by apply Hni, (touches_owned e).
Qed.

(** ** The world's database is the sequential one *)

Lemma op_channels_app a b : op_channels (a ++ b) = op_channels a ++ op_channels b.
Proof. apply omap_app. Qed.

Lemma db_run_app db a b : db_run db (a ++ b) = cbind (db_run db a) (fun db => db_run db b).
Proof.
  revert db. induction a as [|op a IH]; intros db; cbn [db_run app]; [done|].
  destruct (db_apply db op) as [[db1|]|]; [|done..]. apply IH.
Qed.

Lemma deliver_keeps w ef : w_db (deliver w ef) = w_db w /\ ch_queue (w_chan (deliver w ef)) = ch_queue (w_chan w) /\
  ch_open (w_chan (deliver w ef)) = ch_open (w_chan w) /\ ch_next (w_chan (deliver w ef)) = ch_next (w_chan w).
Proof.
  assert (forall tx a, let ch := send_answer tx a (w_chan w) in
    ch_queue ch = ch_queue (w_chan w) /\ ch_open ch = ch_open (w_chan w) /\ ch_next ch = ch_next (w_chan w)) as Hs
    by (intros; apply send_answer_chan).
  destruct ef; cbn [deliver w_db w_chan]; by repeat (split; [first [done|apply Hs]|]); first [done|apply Hs].
Qed.

(** one event: its operations, and the database they lead to *)
Lemma step_history w e w' es : world_step w e = cret w' ->
  history_of w (e :: es) = history_of w [e] ++ history_of w' es /\
  db_run (w_db w) (history_of w [e]) = cret (w_db w') /\ Forall (fun c => c ∈ touches e w) (op_channels (history_of w [e])).
Proof.
  unfold history_of. destruct e; cbn [world_step history touches].
  - unfold Client_send. cbn. destruct (ch_open (w_chan w)) eqn:Eo; intros [= <-]; cbn; by rewrite ?Eo.
  - intros [[-> Hq]|(q & rest & db & eff & pre & ef & Hq & Hh & _ & _ & ->)]%engine_takes_cases.
    { rewrite Hq. by repeat constructor. }
    rewrite Hq. destruct (deliver_keeps (mkWorld db (mkChan rest (ch_open (w_chan w)) (ch_cells (w_chan w)) (ch_next (w_chan w)))
      (w_lookups_ri w) (w_lookups_ls w)) ef) as (-> & -> & -> & ->). cbn. rewrite Hh. cbn. split; [done|]. split; [done|].
    repeat constructor.
  - intros [= <-]. cbn. by repeat constructor.
  - destruct (w_lookups_ri w !! i) as [[tx f]|]; intros [= <-]; cbn; [|by repeat constructor].
    destruct (send_answer_chan tx (AnLookupRI (lookup_result f r)) (w_chan w)) as (-> & -> & ->). by repeat constructor.
  - destruct (w_lookups_ls w !! i) as [[tx f]|]; intros [= <-]; cbn; [|by repeat constructor].
    destruct (send_answer_chan tx (AnLookupLS (lookup_result f r)) (w_chan w)) as (-> & -> & ->). by repeat constructor.
  - intros [= <-]. cbn. by repeat constructor.
Qed.

Lemma run_history w es w' : world_run w es = cret w' ->
  db_run (w_db w) (history_of w es) = cret (w_db w') /\
  forall es', history_of w (es ++ es') = history_of w es ++ history_of w' es'.
Proof.
  revert w. induction es as [|e es IH]; intros w; cbn [world_run app]; [by intros [= <-]|].
  intros (w1 & Hs & Hr)%cbind_inv. destruct (IH w1 Hr) as [H1 H2].
  destruct (step_history w e w1 es Hs) as (E & Hd & _). split.
  - rewrite E, db_run_app, Hd. exact H1.
  - intros es'. destruct (step_history w e w1 (es ++ es') Hs) as (-> & _). by rewrite E, H2, app_assoc.
Qed.

(** ** A store in flight *)

Definition is_engine (e : Event) : bool := match e with EvEngine _ _ => true | _ => false end.
Definition engine_steps (es : list Event) : nat := length (List.filter is_engine es).

Section Flight.
Context (key : Hash) (ri : RouterInfo) (rs : bool) (c : nat).

(** The store is one of the operations [ops] that lead from the database [db0] to
    [db], and the only one that answers on its channel; [r] is what it returned at
    its place in the sequence. *)
Definition applied (db0 : LocalNetworkDatabase) (ops : list DbOp) (db : LocalNetworkDatabase)
    (r : result (option RouterInfo) StoreError) : Prop :=
  exists before now today after db1 db2 notified,
    ops = before ++ OpQuery now today (QStoreRouterInfo key ri rs c) :: after /\ c ∉ op_channels (before ++ after) /\
    db_run db0 before = cret db1 /\ store_router_info dsa_verify now db1 key ri rs = cret (db2, notified, r) /\
    db_run db2 after = cret db /\
    match r with
    | Ok prev => prev = ri_ds db1 !! key /\ ri_ds db2 !! key = Some ri
    | Err _ => db2 = db1
    end.

(** where the query is after the events [es]: in the queue, [n] queries were in
    front of it at first; answered; or dropped *)
Definition in_flight (w0 : World) (n : nat) (es : list Event) (w : World) : Prop :=
  (exists pre post, ch_queue (w_chan w) = pre ++ QStoreRouterInfo key ri rs c :: post /\
     (length pre + engine_steps es)%nat = n /\ ch_cells (w_chan w) !! c = Some CellWaiting /\
     c ∉ op_channels (history_of w0 es)) \/
  (exists r, ch_cells (w_chan w) !! c = Some (CellSent (AnStoredRI r)) /\
     applied (w_db w0) (history_of w0 es) (w_db w) r /\ c ∉ owners w) \/
  (ch_cells (w_chan w) !! c = Some CellGone /\ In EvClose es /\ c ∉ owners w /\
     c ∉ op_channels (history_of w0 es)).

Lemma world_run_snoc w es e : world_run w (es ++ [e]) = cbind (world_run w es) (fun w => world_step w e).
Proof.
  revert w. induction es as [|x es IH]; intros w; cbn [world_run app].
  - cbn. by destruct (world_step w e) as [[]|].
  - destruct (world_step w x) as [[w1|]|]; [|done..]. apply IH.
Qed.

Lemma engine_steps_snoc es e : engine_steps (es ++ [e]) = (engine_steps es + if is_engine e then 1 else 0)%nat.
Proof. unfold engine_steps. rewrite List.filter_app, length_app. cbn. by destruct (is_engine e). Qed.

(** the next event does not touch the query *)
Lemma untouched_snoc w0 es w e w' : world_run w0 es = cret w -> world_step w e = cret w' -> c ∉ touches e w ->
  exists ops, history_of w0 (es ++ [e]) = history_of w0 es ++ ops /\ db_run (w_db w) ops = cret (w_db w') /\ c ∉ op_channels ops.
Proof.
  intros Hr Hs Hc. destruct (run_history w0 es w Hr) as [_ Hh]. exists (history_of w [e]). split; [apply Hh|].
  destruct (step_history w e w' [] Hs) as (_ & Hd & Ht). split; [exact Hd|]. intros Hin. rewrite Forall_forall in Ht. by apply Hc, Ht.
Qed.

Lemma applied_snoc db0 ops db r ops' db' : applied db0 ops db r -> db_run db ops' = cret db' -> c ∉ op_channels ops' ->
  applied db0 (ops ++ ops') db' r.
Proof.
  intros (before & now & today & after & db1 & db2 & l & -> & Hc & Hb & Hs & Ha & Hr) Hd Hc'.
  exists before, now, today, (after ++ ops'), db1, db2, l. split; [by rewrite <- app_assoc|].
  split; [rewrite app_assoc, op_channels_app, elem_of_app; naive_solver|]. do 2 (split; [done|]). split; [|done].
  by rewrite db_run_app, Ha.
Qed.

Lemma store_handled now today db db' eff : Query_handle dsa_verify now today (QStoreRouterInfo key ri rs c) db = cret (db', eff) ->
  exists l r, store_router_info dsa_verify now db key ri rs = cret (db', l, r) /\
    eff = map (fun tx => EfNotifyRI tx ri) l ++ [EfStoredRI c r].
Proof. cbn [Query_handle]. intros ([[d l] r] & Hs & [= <- <-])%cbind_inv. by exists l, r. Qed.

(** the engine takes the query itself *)
Lemma engine_answers now today w post w' : world_inv w -> ch_queue (w_chan w) = QStoreRouterInfo key ri rs c :: post ->
  ch_cells (w_chan w) !! c = Some CellWaiting -> engine_takes now today w = cret w' ->
  exists l r, store_router_info dsa_verify now (w_db w) key ri rs = cret (w_db w', l, r) /\
    ch_cells (w_chan w') !! c = Some (CellSent (AnStoredRI r)) /\ c ∉ owners w'.
Proof.
  intros (Hnd & _) Hq Hc [[_ Hn]|(q & rest & db & eff & pre & ef & Hq' & Hh & He & _ & ->)]%engine_takes_cases; [by rewrite Hq in Hn|].
  rewrite Hq in Hq'. injection Hq' as <- <-. apply store_handled in Hh as (l & r & Hs & He2).
  rewrite He in He2. apply app_inj_tail in He2 as [_ ->]. exists l, r. split; [exact Hs|]. split.
  - cbn. by apply send_answer_self.
  - unfold owners in *. rewrite Hq in Hnd. cbn in Hnd |- *.
    destruct (send_answer_chan c (AnStoredRI r) (mkChan post (ch_open (w_chan w)) (ch_cells (w_chan w)) (ch_next (w_chan w)))) as (-> & _).
    cbn. by inversion Hnd.
Qed.

(** then the store is the last operation so far *)
Lemma engine_applies w0 es now today w post w' r l : world_run w0 es = cret w -> c ∉ op_channels (history_of w0 es) ->
  ch_queue (w_chan w) = QStoreRouterInfo key ri rs c :: post ->
  store_router_info dsa_verify now (w_db w) key ri rs = cret (w_db w', l, r) ->
  applied (w_db w0) (history_of w0 (es ++ [EvEngine now today])) (w_db w') r.
Proof.
  intros Hr Hc Hq Hs. destruct (run_history w0 es w Hr) as [Hd Hh].
  exists (history_of w0 es), now, today, [], (w_db w), (w_db w'), l. split; [rewrite Hh; unfold history_of at 2; by rewrite Hq|].
  split; [by rewrite app_nil_r|]. do 3 (split; [done|]).
  destruct (store_ri_cases _ _ _ _ _ _ _ _ _ Hs) as [(e & -> & -> & _)|(-> & _ & _ & _ & ->)]; [done|].
  split; [done|]. apply lookup_insert_eq.
Qed.

(** an event that does not come to the query *)
Lemma queue_moves w pre post e w' : world_inv w -> event_fine e -> (c < ch_next (w_chan w))%nat ->
  ch_queue (w_chan w) = pre ++ QStoreRouterInfo key ri rs c :: post -> world_step w e = cret w' ->
  (is_engine e = true -> pre <> []) -> e <> EvClose ->
  exists pre' post', ch_queue (w_chan w') = pre' ++ QStoreRouterInfo key ri rs c :: post' /\
    length pre = (length pre' + if is_engine e then 1 else 0)%nat /\ ch_cells (w_chan w') !! c = ch_cells (w_chan w) !! c /\
    c ∉ touches e w.
Proof.
  intros Hw He Hc Hq Hs Hpre Hcl. destruct (ask_or_not e) as [[mk ->]|Hne].
  - destruct (ask_shape w mk w' Hw He Hs) as (_ & _ & _ & Hcells & l & Hl).
    exists pre, (post ++ l). split; [by rewrite Hl, Hq, <- app_assoc|]. split; [cbn; lia|]. split; [by apply Hcells|].
    cbn. apply not_elem_of_nil.
  - destruct (step_shape w e w' Hw Hne Hs) as (_ & _ & _ & Hcells).
    assert (c ∉ touches e w) as Ht.
    { destruct Hw as (Hnd & _). unfold owners in Hnd. rewrite Hq, map_app, map_cons in Hnd. cbn in Hnd.
      destruct e; cbn; try (intros H; by inversion H); try done.
      - rewrite Hq. destruct pre as [|x pre]; [by destruct Hpre|]. cbn. rewrite take_0. cbn in *. inversion Hnd; subst. set_solver.
      - destruct (w_lookups_ri w !! i) as [l|] eqn:Ei; [|intros H; by inversion H]. intros ->%list_elem_of_singleton.
        apply (list_elem_of_lookup_2 _ _ _), (list_elem_of_fmap_2 fst) in Ei. apply NoDup_app in Hnd as (_ & Hd & _).
        eapply (Hd l.1); [set_solver|]. rewrite elem_of_app. by left.
      - destruct (w_lookups_ls w !! i) as [l|] eqn:Ei; [|intros H; by inversion H]. intros ->%list_elem_of_singleton.
        apply (list_elem_of_lookup_2 _ _ _), (list_elem_of_fmap_2 fst) in Ei. apply NoDup_app in Hnd as (_ & Hd & _).
        eapply (Hd l.1); [set_solver|]. rewrite elem_of_app. by right. }
    assert (exists pre' post', ch_queue (w_chan w') = pre' ++ QStoreRouterInfo key ri rs c :: post' /\
      length pre = (length pre' + if is_engine e then 1 else 0)%nat) as (pre' & post' & H1 & H2); [|by exists pre', post'; rewrite Hcells].
    destruct e; cbn [world_step is_engine] in *; [by destruct (Hne mk)|..|done].
    + apply engine_takes_cases in Hs as [[_ Hn]|(q & rest & db & eff & p0 & ef & Hq' & _ & _ & Hef & ->)]; [by rewrite Hq in Hn; destruct pre|].
      destruct pre as [|x pre]; [by destruct Hpre|]. rewrite Hq in Hq'. injection Hq' as <- <-.
      edestruct (deliver_other) as (-> & _); [exact Hef|apply (Nat.neq_succ_diag_l (query_ret x))|].
      exists pre, post. split; [done|]. cbn. lia.
    + injection Hs as <-. exists pre, post. split; [done|lia].
    + destruct (w_lookups_ri w !! i) as [[tx f]|]; injection Hs as <-; exists pre, post; (split; [|lia]); cbn; [|done].
      by destruct (send_answer_chan tx (AnLookupRI (lookup_result f r)) (w_chan w)) as (-> & _).
    + destruct (w_lookups_ls w !! i) as [[tx f]|]; injection Hs as <-; exists pre, post; (split; [|lia]); cbn; [|done].
      by destruct (send_answer_chan tx (AnLookupLS (lookup_result f r)) (w_chan w)) as (-> & _).
Qed.

Lemma flight_step w0 n es w e w' : world_inv w -> event_fine e -> (c < ch_next (w_chan w))%nat ->
  world_run w0 es = cret w -> in_flight w0 n es w -> world_step w e = cret w' -> in_flight w0 n (es ++ [e]) w'.
Proof.
  intros Hw He Hc Hrun Hf Hs. destruct (step_idle c w e w' Hw He Hc Hs) as (Hw' & _ & Hidle).
  destruct Hf as [(pre & post & Hq & Hn & Hcell & Hno)|[(r & Hcell & Hst & Hno)|(Hcell & Hin & Hno & Hh)]].
  - assert (e = EvClose \/ e <> EvClose) as [->|Hcl] by (destruct e; naive_solver).
    { right. right. injection Hs as <-. split; [|split; [apply in_app_iff; right; by left|split]].
      - cbn. rewrite gone_cells, decide_True; [done|]. rewrite Hq, map_app. set_solver.
      - destruct Hw as (Hnd & _). unfold owners in *. cbn. rewrite Hq, map_app in Hnd. apply NoDup_app in Hnd as (_ & Hd & _).
        apply Hd. cbn. set_solver.
      - destruct (run_history w0 es w Hrun) as [_ Hh]. rewrite Hh, op_channels_app, elem_of_app. intros [?|H]; [done|].
        by apply elem_of_nil in H. }
    assert (is_engine e = true /\ pre = [] \/ (is_engine e = true -> pre <> [])) as [[Ee ->]|Hpre].
    { destruct (is_engine e), pre; naive_solver. }
    + destruct e; try done. right. left. destruct (engine_answers now today w post w' Hw Hq Hcell Hs) as (l & r & H1 & H2 & H3).
      exists r. split; [done|]. split; [|done]. by apply (engine_applies w0 es now today w post w' r l).
    + destruct (queue_moves w pre post e w' Hw He Hc Hq Hs Hpre Hcl) as (pre' & post' & H1 & H2 & H3 & Ht).
      destruct (untouched_snoc w0 es w e w' Hrun Hs Ht) as (ops & Eh & _ & Hops).
      left. exists pre', post'. split; [done|]. split; [rewrite engine_steps_snoc; destruct (is_engine e); lia|].
      split; [by rewrite H3|]. rewrite Eh, op_channels_app, elem_of_app. naive_solver.
  - right. left. destruct (Hidle Hno) as [Hno' Hcell']. exists r. rewrite Hcell'. split; [done|]. split; [|done].
    destruct (untouched_snoc w0 es w e w' Hrun Hs) as (ops & -> & Hd & Hops); [by apply not_touched|].
    by eapply applied_snoc.
  - right. right. destruct (Hidle Hno) as [Hno' Hcell']. rewrite Hcell'. split; [done|]. split; [apply in_app_iff; by left|].
    split; [done|]. destruct (untouched_snoc w0 es w e w' Hrun Hs) as (ops & -> & Hd & Hops); [by apply not_touched|].
    rewrite op_channels_app, elem_of_app. naive_solver.
Qed.

Lemma flight_run w0 n w1 es w2 : world_inv w1 -> Forall event_fine es -> (c < ch_next (w_chan w1))%nat -> world_run w0 [] = cret w1 ->
  in_flight w0 n [] w1 -> world_run w1 es = cret w2 ->
  world_inv w2 /\ (c < ch_next (w_chan w2))%nat /\ in_flight w0 n es w2.
Proof.
  intros Hw Hes Hc H0 Hf. injection H0 as <-. revert w2. induction es as [|e es IH] using rev_ind; intros w2 Hrun.
  - injection Hrun as <-. done.
  - apply Forall_app in Hes as [Hes [He _]%Forall_cons_1].
    rewrite world_run_snoc in Hrun. apply cbind_inv in Hrun as (w & Hrun & Hs).
    destruct (IH Hes w Hrun) as (Hw' & Hc' & Hf').
    destruct (step_idle c w e w2 Hw' He Hc' Hs) as (Hw2 & Hc2 & _). split; [done|]. split; [done|].
    by apply (flight_step w0 n es w e w2).
Qed.

End Flight.

(** what a caller sees of the channel *)
Lemma asked_poll key ri rs c n w0 es w : in_flight key ri rs c w0 n es w ->
  exists ch' p, StoreRouterInfo_poll (w_chan w) (mkOneShot None (Some c)) = Ret (ch', mkOneShot None (Some c), p) /\
    match p with
    | NotReady => (engine_steps es <= n)%nat /\ c ∉ op_channels (history_of w0 es)
    | Ready prev => applied key ri rs c (w_db w0) (history_of w0 es) (w_db w) (Ok prev)
    | PollErr (CeStore e) => applied key ri rs c (w_db w0) (history_of w0 es) (w_db w) (Err e)
    | PollErr CeClosed => In EvClose es /\ c ∉ op_channels (history_of w0 es)
    | PollErr (CeLookup _) => False
    end.
Proof.
  unfold StoreRouterInfo_poll, call_poll. cbn [ask os_query os_rx unwrap obind]. unfold recv.
  intros [(pre & post & _ & Hn & -> & Hh)|[(r & -> & Hst & _)|(-> & Hin & _ & Hh)]].
  - eexists _, NotReady. split; [done|]. split; [lia|done].
  - destruct r as [prev|e]; [eexists _, (Ready prev)|eexists _, (PollErr (CeStore e))]; by split.
  - eexists _, (PollErr CeClosed). by split.
Qed.

(** the first poll puts the query at the end of the queue *)
Lemma first_poll key ri rs w0 : world_inv w0 -> ch_open (w_chan w0) = true ->
  exists ch, StoreRouterInfo_poll (w_chan w0) (StoreRouterInfo_new key ri rs) = Ret (ch, mkOneShot None (Some (ch_next (w_chan w0))), NotReady) /\
    world_inv (with_chan w0 ch) /\ (ch_next (w_chan w0) < ch_next ch)%nat /\
    in_flight key ri rs (ch_next (w_chan w0)) (with_chan w0 ch) (length (ch_queue (w_chan w0))) [] (with_chan w0 ch).
Proof.
  intros Hw Ho. set (q := QStoreRouterInfo key ri rs (ch_next (w_chan w0))).
  set (ch := mkChan (ch_queue (w_chan w0) ++ [q]) true (<[ch_next (w_chan w0) := CellWaiting]> (ch_cells (w_chan w0))) (S (ch_next (w_chan w0)))).
  assert (world_step w0 (EvAsk (fun r => QStoreRouterInfo key ri rs r)) = cret (with_chan w0 ch)) as Hs.
  { cbn. unfold Client_send. cbn. by rewrite Ho. }
  destruct (ask_shape w0 (fun r => QStoreRouterInfo key ri rs r) _ Hw (fun _ => eq_refl) Hs) as (Hw1 & _). exists ch. split_and!; [|done|cbn; lia|].
  - unfold StoreRouterInfo_poll, call_poll. cbn [ask os_query StoreRouterInfo_new oneshot]. unfold Client_send. cbn [ch_open].
    rewrite Ho. cbn [os_rx unwrap obind]. unfold recv. cbn [ch_cells]. by rewrite lookup_insert_eq.
  - left. exists (ch_queue (w_chan w0)), []. split; [done|]. split; [cbn; lia|].
    split; [cbn; apply lookup_insert_eq|]. apply not_elem_of_nil.
Qed.

End Client.

(** ** Properties *)

Module ClientProps.
Section Props.
Context {cf : CookieFactory} {bu : BigUintOps} {sc : SigCrates} {sha : Sha2}.
Context (dsa_verify : DsaPublicKey -> bytes -> DsaSignature -> bool).

(** C3: Storing a router info through a client is one atomic operation of the
    database.  Whatever other clients ask, lookups end and messages change in
    between, the world's database is what the operations asked for make of it one
    after the other, first come first served; when the future is through, the
    store is one of them, exactly once: what it returns is what the store returned
    at its place, where it left the router info in the database (and, refused,
    left the database as it was), and everything later worked on what it left.
    The future waits only until the engine has taken the queries that were queued
    before and its own, and fails otherwise only if the engine was dropped; until
    then, and in that case, the store has not happened. *)
Theorem client_store_linearizes (key : Hash) (ri : RouterInfo) (rs : bool) (w0 : World) (es : list (Event)) :
  world_inv w0 -> ch_open (w_chan w0) = true -> Forall event_fine es ->
  exists ch c, let f := mkOneShot _ None (Some c) in
    StoreRouterInfo_poll (w_chan w0) (StoreRouterInfo_new key ri rs) = Ret (ch, f, NotReady) /\
    let w1 := with_chan w0 ch in
    forall w, world_run dsa_verify w1 es = cret w ->
      db_run dsa_verify (w_db w0) (history_of w1 es) = cret (w_db w) /\
      exists ch' p, StoreRouterInfo_poll (w_chan w) f = Ret (ch', f, p) /\
        match p with
        | NotReady => (engine_steps es <= length (ch_queue (w_chan w0)))%nat /\ c ∉ op_channels (history_of w1 es)
        | Ready prev => applied dsa_verify key ri rs c (w_db w0) (history_of w1 es) (w_db w) (Ok prev)
        | PollErr (CeStore e) => applied dsa_verify key ri rs c (w_db w0) (history_of w1 es) (w_db w) (Err e)
        | PollErr CeClosed => In EvClose es /\ c ∉ op_channels (history_of w1 es)
        | PollErr (CeLookup _) => False
        end.
Proof.
  intros Hw Ho Hes. destruct (first_poll dsa_verify key ri rs w0 Hw Ho) as (ch & Hp & Hw1 & Hc & Hf).
  exists ch, (ch_next (w_chan w0)). cbv zeta. split; [exact Hp|]. intros w Hrun.
  split; [exact (proj1 (run_history dsa_verify (with_chan w0 ch) es w Hrun))|].
  destruct (flight_run dsa_verify key ri rs _ (with_chan w0 ch) _ (with_chan w0 ch) es w Hw1 Hes Hc eq_refl Hf Hrun) as (_ & _ & Hf').
  exact (asked_poll dsa_verify key ri rs _ _ _ _ _ Hf').
Qed.

End Props.

#[local] Existing Instances cf_ref biguint_ref sigcrates_ref sha2_ref.
Import NetDbSpec.NetDbSamples.

Definition empty_world : World := mkWorld LocalNetworkDatabase_new (mkChan [] true ∅ 0) [] [].

Lemma empty_world_inv : world_inv empty_world.
Proof. split; [constructor|]. split; [constructor|done]. Qed.

Definition sample_events : list Event := [EvAsk QKnownRouters; EvEngine 0 today; EvEngine 0 today].

(** the store is answered, and the query asked after it counts one router *)
Example sample_world_run :
  match StoreRouterInfo_poll (w_chan empty_world) (StoreRouterInfo_new key ri true) with
  | Ret (ch, f, _) =>
      match world_run yes (with_chan empty_world ch) sample_events with
      | Ret (Some w) =>
          match StoreRouterInfo_poll (w_chan w) f, ch_cells (w_chan w) !! 1%nat with
          | Ret (_, _, Ready None), Some (CellSent (AnKnownRouters n)) => Some n
          | _, _ => None
          end
      | _ => None
      end
  | _ => None
  end = Some 1.
Proof. vm_compute. reflexivity. Qed.

Lemma client_store_linearizes_witness :
  exists ch c, let f := mkOneShot _ None (Some c) in
    StoreRouterInfo_poll (w_chan empty_world) (StoreRouterInfo_new key ri true) = Ret (ch, f, NotReady) /\
    let w1 := with_chan empty_world ch in
    forall w, world_run yes w1 sample_events = cret w ->
      db_run yes (w_db empty_world) (history_of w1 sample_events) = cret (w_db w) /\
      exists ch' p, StoreRouterInfo_poll (w_chan w) f = Ret (ch', f, p) /\
        match p with
        | NotReady => (engine_steps sample_events <= length (ch_queue (w_chan empty_world)))%nat /\
            c ∉ op_channels (history_of w1 sample_events)
        | Ready prev => applied yes key ri true c (w_db empty_world) (history_of w1 sample_events) (w_db w) (Ok prev)
        | PollErr (CeStore e) => applied yes key ri true c (w_db empty_world) (history_of w1 sample_events) (w_db w) (Err e)
        | PollErr CeClosed => In EvClose sample_events /\ c ∉ op_channels (history_of w1 sample_events)
        | PollErr (CeLookup _) => False
        end.
Proof.
  apply (client_store_linearizes yes key ri true empty_world sample_events empty_world_inv eq_refl).
  constructor; [by intros r|]. constructor; [done|]. constructor; [done|constructor].
Defined.

End ClientProps.
