(* ===== verification/Reseed.v ===== *)
(** * Reseeding

    [src/netdb/reseed.rs]: a router that knows too few others fetches signed
    archives of router infos from well-known servers, one server after another,
    and stores what is in them.  The reseeder is a state machine; what its polls
    meet (the answer of a server, a store that is through) are events.  The
    servers are drawn in a random order, which is an argument, as is the name
    resolution; the network and TLS are not modelled. *)

From S2P Require Import Prelude Nom Cookie Util Wire Crypto Data Address Dest I2np Message NetDb NetDbSpec Client Su3.

(** ** Servers and their keys *)

Record ReseedHost := mkHost { host_name : bytes; host_port : Z; host_path : bytes }.

#[export] Instance ReseedHost_eq_dec : EqDecision ReseedHost.
Proof. solve_decision. Defined.

Definition host (name : string) (port : Z) (path : string) : ReseedHost := mkHost (ascii_bytes name) port (ascii_bytes path).


Definition MIN_RI_WANTED : Z := 100.
Definition MIN_RESEED_SERVERS : Z := 2.

(** the signers, each with the certificate file of the assets *)
Definition RESEED_CERTS : list (string * string) := [
  ("atomike@mail.i2p", "atomike_at_mail.i2p.der");
  ("backup@mail.i2p", "backup_at_mail.i2p.der");
  ("bugme@mail.i2p", "bugme_at_mail.i2p.der");
  ("creativecowpat@mail.i2p", "creativecowpat_at_mail.i2p.der");
  ("echelon@mail.i2p", "echelon_at_mail.i2p.der");
  ("hottuna@mail.i2p", "hottuna_at_mail.i2p.der");
  ("igor@novg.net", "igor_at_novg.net.der");
  ("lazygravy@mail.i2p", "lazygravy_at_mail.i2p.der");
  ("meeh@mail.i2p", "meeh_at_mail.i2p.der");
  ("zmx@mail.i2p", "zmx_at_mail.i2p.der")
]%string.

(** [futures::future::select_all]: panics when there is nothing to wait for *)
Class SelectAll := {
  select_all : forall {F : Type}, list F -> outcome (list F);
  select_all_nil : forall F : Type, @select_all F [] = Panic;
  select_all_some : forall (F : Type) (x : F) (l : list F), select_all (x :: l) = Ret (x :: l)
}.

(** ** The request *)

(** the I/O errors *)
Inductive ReseedError :=
| RePermissionDenied (status : Z) | ReNotFound | ReStatus (status : Z) | ReInvalidData (e : FileError)
| ReIo | ReTimedOut | ReTimer.

Definition file_error (e : FileError) : ReseedError :=
  match e with
  | FeHttp status =>
      if (status =? 401) || (status =? 402) || (status =? 403) || (status =? 451) then RePermissionDenied status
      else if status =? 404 then ReNotFound else ReStatus status
  | e => ReInvalidData e
  end.

Definition crlf : bytes := [13; 10].

Definition reseed_request (h : ReseedHost) : bytes :=
  ascii_bytes "GET " ++ host_path h ++ ascii_bytes "i2pseeds.su3 HTTP/1.0" ++ crlf ++
  ascii_bytes "Host: " ++ host_name h ++ crlf ++ ascii_bytes "User-Agent: Wget/1.11.4" ++ crlf ++ crlf.

(** a request under way: where it goes and what is written *)
Record Fetch := mkFetch { fetch_host : ReseedHost; fetch_addr : SocketAddr; fetch_request : bytes }.

(** how it ends: all that the server sent, an error of the connection, the
    timeout of ten seconds, or an error of the timer *)
Inductive FetchEnd := FetchData (data : bytes) | FetchIo | FetchElapsed | FetchTimer.

Section Reseed.
Context {nom : Nom} {text : NomText} {cf : CookieFactory} {bu : BigUintOps} {sc : SigCrates} {sha : Sha2} {rsa : RsaCrates} {zip : ZipCrate} {sa : SelectAll}.

(** [RESEED_SIGNERS]; [der] is [include_bytes!] *)
Definition RESEED_SIGNERS (der : string -> bytes) : outcome (gmap bytes OfflineSigningPublicKey) :=
  foldl (fun m e =>
    let! m := m in
    let! r := osk_from_bytes Rsa4096Sha512 (der e.2) in
    let! k := unwrap (rok r) in
    Ret (<[ascii_bytes e.1 := k]> m)) (Ret ∅) RESEED_CERTS.

Context (oc : bool) (signers : gmap bytes OfflineSigningPublicKey).
(** [to_socket_addrs] *)
Context (resolve : bytes -> Z -> result (list SocketAddr) unit).

Definition reseed_from_host (h : ReseedHost) : outcome Fetch :=
  let! addrs := unwrap (rok (resolve (host_name h) (host_port h))) in
  let! addr := unwrap (hd_error addrs) in
  Ret (mkFetch h addr (reseed_request h)).

Definition fetch_result (e : FetchEnd) : outcome (result Su3File ReseedError) :=
  match e with
  | FetchData data => let! r := Su3File_from_http_data oc data signers in Ret (rmap_err file_error r)
  | FetchIo => Ret (Err ReIo)
  | FetchElapsed => Ret (Err ReTimedOut)
  | FetchTimer => Ret (Err ReTimer)
  end.

(** ** The reseeder *)

(** the query of a store: key, router info, and [from_reseed] *)
Definition StoreOf : Type := Hash * RouterInfo * bool.

(** [Storing] holds what the stores under way are for *)
Inductive ReseedState := RsFetching (f : Fetch) | RsStoring (l : list StoreOf) | RsNextHost.

(** the counters count what is in memory *)
Record HttpsReseeder := mkReseeder {
  rs_state : option ReseedState;
  rs_pending : list ReseedHost;
  succeeded : Z;
  fetched : Z;
  valid : Z
}.

Definition with_state (s : HttpsReseeder) (st : option ReseedState) : HttpsReseeder :=
  mkReseeder st (rs_pending s) (succeeded s) (fetched s) (valid s).

(** what a poll meets: the request is through; of the stores under way, the one
    at [idx] is through *)
Inductive RsEvent := RsFetched (e : FetchEnd) | RsStored (idx : nat) (r : result (option RouterInfo) ClientError).

(** one pass of the loop: the next state, and the request that is started; or
    the poll returns *)
Inductive RsPass := RsGo (st : ReseedState) (started : list Fetch) (s : HttpsReseeder) | RsReturn (s : HttpsReseeder) (p : Poll unit unit).

(** [Vec::swap_remove(0)]: the last element takes the place of the first *)
Definition swap_remove_0 {A} (l : list A) : outcome (A * list A) :=
  match l with
  | [] => Panic
  | x :: l => Ret (x, match rev l with y :: l' => y :: rev l' | [] => [] end)
  end.

(** the stores that are started, under the hashes of the identities and as reseeded *)
Fixpoint hash_all (l : list RouterInfo) : comp (list StoreOf) :=
  match l with
  | [] => cret []
  | ri :: l => let* h := ri_hash ri in let* l := hash_all l in cret ((h, ri, true) :: l)
  end.

Definition rs_fetching (f : Fetch) (ev : option RsEvent) (s : HttpsReseeder) : comp RsPass :=
  match ev with
  | Some (RsFetched e) =>
      let! r := fetch_result e in
      match r with
      | Ok su3 =>
          match su3_content_of su3 with
          | Reseed new_ri =>
              let s := mkReseeder None (rs_pending s) (succeeded s + 1) (fetched s + len new_ri) (valid s) in
              let* stores := hash_all new_ri in
              let! stores := select_all stores in
              cret (RsGo (RsStoring stores) [] s)
          end
      | Err _ => cret (RsGo RsNextHost [] s)
      end
  | _ => cret (RsReturn (with_state s (Some (RsFetching f))) NotReady)
  end.

Definition rs_storing (l : list StoreOf) (ev : option RsEvent) (s : HttpsReseeder) : comp RsPass :=
  match ev with
  | Some (RsStored idx r) =>
      if (idx <? length l)%nat then
        let s := match r with Ok _ => mkReseeder None (rs_pending s) (succeeded s) (fetched s) (valid s + 1) | Err _ => s end in
        match delete idx l with
        | [] => if (MIN_RI_WANTED <=? valid s) && (MIN_RESEED_SERVERS <=? succeeded s) then cret (RsReturn s (Ready tt))
                else cret (RsGo RsNextHost [] s)
        | remaining => let! remaining := select_all remaining in cret (RsGo (RsStoring remaining) [] s)
        end
      else cret (RsReturn (with_state s (Some (RsStoring l))) NotReady)
  | _ => cret (RsReturn (with_state s (Some (RsStoring l))) NotReady)
  end.

Definition rs_next_host (s : HttpsReseeder) : comp RsPass :=
  match rs_pending s with
  | [] => cret (RsReturn s (if valid s =? 0 then PollErr tt else Ready tt))
  | pending =>
      let! (h, pending) := swap_remove_0 pending in
      let! f := reseed_from_host h in
      cret (RsGo (RsFetching f) [f] (mkReseeder None pending (succeeded s) (fetched s) (valid s)))
  end.

(** the loop; an event is met by the first poll it can be meant for *)
Fixpoint rs_loop (fuel : nat) (evs : list RsEvent) (st : ReseedState) (s : HttpsReseeder)
  : comp (HttpsReseeder * list Fetch * Poll unit unit) :=
  match fuel with
  | O => Ret None
  | S fuel =>
      let* pass := match st with
                   | RsFetching f => rs_fetching f (hd_error evs) s
                   | RsStoring l => rs_storing l (hd_error evs) s
                   | RsNextHost => rs_next_host s
                   end in
      match pass with
      | RsReturn s p => cret (s, [], p)
      | RsGo st' started s =>
          let* (s, more, p) := rs_loop fuel (match st with RsNextHost => evs | _ => tl evs end) st' s in
          cret (s, started ++ more, p)
      end
  end.

(** [poll]; two passes per event and two more are enough *)
Definition rs_poll (evs : list RsEvent) (s : HttpsReseeder) : comp (HttpsReseeder * list Fetch * Poll unit unit) :=
  let! st := unwrap (rs_state s) in
  rs_loop (2 * length evs + 2) evs st (with_state s None).



(** ** What a run keeps *)










Lemma hash_all_returns l : Forall wf_RouterInfo l -> exists l', hash_all l = cret l' /\ len l' = len l /\ map (fun e => e.1.2) l' = l /\
  Forall (fun e => ri_hash e.1.2 = cret e.1.1 /\ e.2 = true) l'.
Proof.
  intros H. induction H as [|ri l Hri _ (l' & IH & Hl & Hs & Hh)]; [exists []; by repeat split|].
  destruct (hash_returns (router_id ri)) as [h Hh']; [apply Hri|]. exists ((h, ri, true) :: l'). cbn [hash_all].
  unfold ri_hash at 1. rewrite Hh'. cbn [cbind]. rewrite IH. cbn [cbind]. split; [done|]. split; [rewrite !len_cons; lia|].
  split; [cbn; by rewrite Hs|]. by constructor.
Qed.










(** ** Polls that are always answered *)








(** a store under the own hash, without the check of its age *)
Lemma own_key_store dsa_verify now db h ri db' notified r : ri_hash ri = cret h ->
  store_router_info dsa_verify now db h ri true = cret (db', notified, r) ->
  (r = Ok (ri_ds db !! h) /\ ri_ds db' = <[h := ri]> (ri_ds db)) \/
  (db' = db /\ (r = Err SeWrongNetwork \/ exists err, r = Err (SeCrypto err))).
Proof.
  unfold store_router_info. intros -> H. cbn [cret cbind] in H. rewrite bool_decide_true in H by done. cbn [negb] in H.
  apply cbind_inv in H as (v & _ & H). revert H. destruct v as [[]|e]; [|intros [= <- _ <-]; right; eauto].
  destruct (match network_id ri with Some n => _ | None => true end); [intros [= <- _ <-]; right; eauto|].
  intros [= <- _ <-]. by left.
Qed.

End Reseed.

(** ** Samples *)

Definition select_all_ref : SelectAll.
Proof.
  refine {| select_all := fun F l => match l with [] => Panic | _ => Ret l end |}; done.
Defined.

Module ReseedSamples.
#[local] Existing Instances nom_ref nom_text_ref cf_ref biguint_ref sigcrates_ref sha2_ref rsa_ref zip_ref select_all_ref.
Import Su3Samples.

Definition resolver (_ : bytes) (_ : Z) : result (list SocketAddr) unit := Ok [mkSocketAddr (V4 [127; 0; 0; 1]) 443].











(** a file whose only entry is not a router info *)
Definition empty_message : bytes := su3_header fill Rsa2048Sha256 version signer 1 0 3 ++ [1].
Definition empty_response : bytes := ascii_bytes "HTTP/1.1 200" ++ empty_message ++ sha256 empty_message ++ zeros 224.

Definition empty_file : Su3File :=
  match Su3File_from_http_data true empty_response signers with
  | Ret (Ok f) => f
  | _ => mkSu3File [] [] (Reseed [ref_parsed]) Rsa2048Sha256 0 (SigRsa2048Sha256 [])
  end.

Lemma empty_accepted : Su3File_from_http_data true empty_response signers = Ret (Ok empty_file).
Proof. vm_cast_no_check (@eq_refl (outcome (result Su3File FileError)) (Ret (Ok empty_file))). Qed.

Lemma empty_holds : su3_content_of empty_file = Reseed [].
Proof. vm_cast_no_check (@eq_refl Su3Content (Reseed [])). Qed.

Definition active : Fetch := mkFetch (host "a" 443 "/") (mkSocketAddr (V4 [127; 0; 0; 1]) 443) [].
Definition fetching : HttpsReseeder := mkReseeder (Some (RsFetching active)) [] 0 0 0.

Definition stores : list StoreOf :=
  match rs_fetching true signers active (Some (RsFetched (FetchData response))) fetching with
  | Ret (Some (RsGo (RsStoring l) _ _)) => l
  | _ => []
  end.

Lemma response_stores : rs_fetching true signers active (Some (RsFetched (FetchData response))) fetching =
  cret (RsGo (RsStoring stores) [] (mkReseeder None [] 1 1 0)).
Proof. vm_cast_no_check (@eq_refl (comp RsPass) (cret (RsGo (RsStoring stores) [] (mkReseeder None [] 1 1 0)))). Qed.

End ReseedSamples.

(** ** Properties *)

Module ReseedProps.
Section Props.
Context {nom : Nom} {text : NomText} {cf : CookieFactory} {bu : BigUintOps} {sc : SigCrates} {sha : Sha2} {rsa : RsaCrates} {zip : ZipCrate} {sa : SelectAll}.
Context (oc : bool) (signers : gmap bytes OfflineSigningPublicKey) (resolve : bytes -> Z -> result (list SocketAddr) unit).




(** A file that is signed properly but holds no router info that parses panics
    the reseeder. *)
Theorem empty_reseed_panics (data : bytes) (f : Su3File) (active : Fetch) (s : HttpsReseeder) (evs : list RsEvent) :
  Su3File_from_http_data oc data signers = Ret (Ok f) -> su3_content_of f = Reseed [] -> rs_state s = Some (RsFetching active) ->
  rs_poll oc signers resolve (RsFetched (FetchData data) :: evs) s = Panic.
Proof.
  intros Hf Hc Hs. unfold rs_poll. rewrite Hs. cbn [unwrap obind]. rewrite Nat.add_comm. cbn [Nat.add rs_loop hd_error].
  unfold rs_fetching, fetch_result. rewrite Hf. cbn [obind rmap_err]. rewrite Hc. cbn [hash_all cret cbind]. by rewrite select_all_nil.
Qed.

(** C15: What a server's answer makes the reseeder store was signed by one of the
    known signers; each router info is stored under the hash of its own identity,
    and the database takes it unless its own signature or its network is wrong:
    not for its age. *)
Theorem reseed_stores_signed (dsa_verify : DsaPublicKey -> bytes -> DsaSignature -> bool) (data : bytes) (active : Fetch)
    (s s' : HttpsReseeder) (l : list StoreOf) (started : list Fetch) :
  bytes_ok data -> len data < 2 ^ 64 ->
  rs_fetching oc signers active (Some (RsFetched (FetchData data))) s = cret (RsGo (RsStoring l) started s') ->
  (exists pre msg sig rest m pk sg, data = pre ++ msg ++ sig ++ rest /\ parses su3_message msg m /\
     signers !! sm_signer m = Some pk /\ osk_verify pk msg sg = Ok tt /\ sm_content m = Reseed (map (fun e => e.1.2) l)) /\
  Forall (fun e => wf_RouterInfo e.1.2 /\ ri_hash e.1.2 = cret e.1.1 /\
    forall now db db' notified r, store_router_info dsa_verify now db e.1.1 e.1.2 e.2 = cret (db', notified, r) ->
      (r = Ok (ri_ds db !! e.1.1) /\ ri_ds db' = <[e.1.1 := e.1.2]> (ri_ds db)) \/
      (db' = db /\ (r = Err SeWrongNetwork \/ exists err, r = Err (SeCrypto err)))) l.
Proof.
  intros Hb Hl H. unfold rs_fetching in H. cbn [fetch_result] in H.
  destruct (Su3File_from_http_data oc data signers) as [[f|]|] eqn:Ef; [|done..]. cbn [obind rmap_err] in H.
  destruct (from_http_data_accepts oc data signers f Hb Hl Ef) as (pre & rest & msg & sig & m & pk & -> & Hp & _ & Hwf & _ & _ & Hf & Hpk & Hv).
  rewrite Hf in H. cbn [su3_content_of su3_signed] in H. destruct (sm_content m) as [ris] eqn:Ec. cbn in Hwf.
  destruct (hash_all_returns ris Hwf) as (l' & E & _ & Hs & Hh). rewrite E in H. cbn [cret cbind] in H.
  destruct l' as [|x l']; [by rewrite select_all_nil in H|]. rewrite select_all_some in H. cbn [obind] in H.
  assert (l = x :: l') as -> by (by injection H). split.
  - exists pre, msg, sig, rest, m, pk, (su3_sig f). by rewrite Ec, Hs.
  - apply Forall_forall. intros [[h ri] rs] Hin. rewrite Forall_forall in Hh. rewrite <- Hs in Hwf.
    destruct (Hh _ Hin) as [Eh Ers]. cbn in Eh, Ers. subst rs. split; [|split; [exact Eh|]].
    { rewrite Forall_forall in Hwf. apply Hwf. change ri with ((h, ri, true) : StoreOf).1.2.
      exact (list_elem_of_fmap_2 (fun e : StoreOf => e.1.2) _ _ Hin). }
    intros now db db' notified r Hst. exact (own_key_store dsa_verify now db h ri db' notified r Eh Hst).
Qed.

End Props.

#[local] Existing Instances nom_ref nom_text_ref cf_ref biguint_ref sigcrates_ref sha2_ref rsa_ref zip_ref select_all_ref.
Import Su3Samples ReseedSamples.



Lemma empty_reseed_panics_witness : rs_poll true signers resolver [RsFetched (FetchData empty_response)] fetching = Panic.
Proof. exact (empty_reseed_panics true signers resolver empty_response empty_file active fetching [] empty_accepted empty_holds eq_refl). Defined.

Lemma reseed_stores_signed_witness :
  (exists pre msg sig rest m pk sg, response = pre ++ msg ++ sig ++ rest /\ parses su3_message msg m /\
     signers !! sm_signer m = Some pk /\ osk_verify pk msg sg = Ok tt /\ sm_content m = Reseed (map (fun e => e.1.2) stores)) /\
  Forall (fun e => wf_RouterInfo e.1.2 /\ ri_hash e.1.2 = cret e.1.1 /\
    forall now db db' notified r, store_router_info NetDbSamples.yes now db e.1.1 e.1.2 e.2 = cret (db', notified, r) ->
      (r = Ok (ri_ds db !! e.1.1) /\ ri_ds db' = <[e.1.1 := e.1.2]> (ri_ds db)) \/
      (db' = db /\ (r = Err SeWrongNetwork \/ exists err, r = Err (SeCrypto err)))) stores.
Proof.
  exact (reseed_stores_signed true signers NetDbSamples.yes response active fetching _ stores [] response_ok response_len response_stores).
Defined.

End ReseedProps.
