(* ===== verification/Router.v ===== *)
(** * The router

    [src/router/mod.rs], [src/router/builder.rs] and the places where the parts
    of the router meet: the [Distributor] that hands received messages to the
    subsystems, what the NTCP2 listener does with the router info of a peer
    ([listen] in [src/transport/ntcp2/mod.rs]), and how a router is built and
    started.  Settings, files, random draws and clocks are arguments. *)

From S2P Require Import Prelude Nom Cookie Util Wire Crypto ElGamal Aes Data Address Dest I2np Message Session.
From S2P Require Import Tunnel Participant Acceptor NetDb NetDbSpec Transport.
From S2P Require Ntcp2Session Ntcp2Frame Ntcp2Codec Ntcp2Handshake.

(** ** The distributor *)

Inductive Subsystem := SNetDb | SAcceptor | SProcessor.

#[export] Instance Subsystem_eq_dec : EqDecision Subsystem.
Proof. solve_decision. Defined.

Section Distributor.
Context {sc : SigCrates}.

(** a message with the peer it came from *)
Definition Received : Type := Hash * Message.

(** the queues of the three subsystems *)
Record Inboxes := mkInboxes { netdb_ib : list Received; build_ib : list Received; data_ib : list Received }.

Definition inbox (s : Subsystem) (ib : Inboxes) : list Received :=
  match s with SNetDb => netdb_ib ib | SAcceptor => build_ib ib | SProcessor => data_ib ib end.

Definition enqueue (s : Subsystem) (m : Received) (ib : Inboxes) : Inboxes :=
  match s with
  | SNetDb => mkInboxes (netdb_ib ib ++ [m]) (build_ib ib) (data_ib ib)
  | SAcceptor => mkInboxes (netdb_ib ib) (build_ib ib ++ [m]) (data_ib ib)
  | SProcessor => mkInboxes (netdb_ib ib) (build_ib ib) (data_ib ib ++ [m])
  end.

(** the future [handle] returns: the [send] on a clone of a sender, or
    [future::ok] *)
Inductive DistributorResult := DrSend (to : Subsystem) (m : Received) | DrDone.

(** [Distributor::handle] *)
Definition Distributor_handle (from : Hash) (msg : Message) : DistributorResult :=
  match msg_payload msg with
  | MDatabaseStore _ | MDatabaseLookup _ | MDatabaseSearchReply _ => DrSend SNetDb (from, msg)
  | MTunnelData _ | MTunnelGateway _ => DrSend SProcessor (from, msg)
  | MTunnelBuild _ | MVariableTunnelBuild _ => DrSend SAcceptor (from, msg)
  | _ => DrDone
  end.

(** a poll of it, with what the queue says *)
Definition DistributorResult_poll (a : SinkAnswer) (r : DistributorResult) (ib : Inboxes) : Inboxes * Poll unit Received :=
  match r with
  | DrDone => (ib, Ready tt)
  | DrSend to m =>
      match a with
      | SinkReady => (enqueue to m ib, Ready tt)
      | SinkNotReady => (ib, NotReady)
      | SinkErr => (ib, PollErr m)
      end
  end.

(** the polls until the future is ready, one answer each *)
Fixpoint deliver (answers : list SinkAnswer) (r : DistributorResult) (ib : Inboxes) : Inboxes * Poll unit Received :=
  match answers with
  | [] => (ib, NotReady)
  | a :: answers =>
      match DistributorResult_poll a r ib with
      | (ib, NotReady) => deliver answers r ib
      | p => p
      end
  end.

(** A session hands on its messages one after another: the next is read when
    the future of the last is ready. *)
Fixpoint distribute (received : list (Received * list SinkAnswer)) (ib : Inboxes) : Inboxes * Poll unit Received :=
  match received with
  | [] => (ib, Ready tt)
  | ((from, msg), answers) :: received =>
      match deliver answers (Distributor_handle from msg) ib with
      | (ib, Ready _) => distribute received ib
      | p => p
      end
  end.

(** the messages for [s] *)
Definition is_for (s : Subsystem) (m : Received) : bool :=
  match Distributor_handle m.1 m.2 with DrSend to _ => bool_decide (to = s) | DrDone => false end.

Lemma inbox_enqueue s to m ib : inbox s (enqueue to m ib) = inbox s ib ++ (if bool_decide (to = s) then [m] else []).
Proof. by destruct s, to; cbn; rewrite ?app_nil_r. Qed.

Lemma deliver_spec answers r ib ib' p : deliver answers r ib = (ib', p) ->
  match p with
  | Ready _ => ib' = match r with DrSend to m => enqueue to m ib | DrDone => ib end
  | _ => ib' = ib
  end.
Proof.
  revert ib. induction answers as [|a answers IH]; intros ib; cbn [deliver]; [by intros [= <- <-]|].
  destruct r as [to m|]; cbn; [destruct a; cbn|]; try (by intros [= <- <-]). apply IH.
Qed.

Lemma handle_same from msg to m : Distributor_handle from msg = DrSend to m -> m = (from, msg).
Proof. unfold Distributor_handle. destruct (msg_payload msg); try done; by intros [= _ <-]. Qed.

Lemma distribute_keeps received ib ib' p : distribute received ib = (ib', p) ->
  exists taken rest, map fst received = taken ++ rest /\ (p = Ready tt -> rest = []) /\
    forall s, inbox s ib' = inbox s ib ++ List.filter (is_for s) taken.
Proof.
  revert ib. induction received as [|[[from msg] answers] received IH]; intros ib; cbn [distribute map fst].
  - intros [= <- <-]. exists [], []. split; [done|]. split; [done|]. intros s. by rewrite app_nil_r.
  - destruct (deliver answers _ ib) as [ib1 p1] eqn:E. pose proof (deliver_spec _ _ _ _ _ E) as Hd. destruct p1 as [[]| |].
    + intros H. destruct (IH ib1 H) as (taken & rest & -> & Hr & Hi). exists ((from, msg) :: taken), rest.
      split; [done|]. split; [done|]. intros s. rewrite Hi, Hd. cbn [List.filter]. unfold is_for at 2. cbn [fst snd].
      destruct (Distributor_handle from msg) as [to m|] eqn:Eh; [|done]. apply handle_same in Eh as ->.
      rewrite inbox_enqueue, <- app_assoc. by destruct (bool_decide (to = s)).
    + intros [= <- <-]. exists [], ((from, msg) :: map fst received). split; [done|]. split; [done|]. intros s. by rewrite Hd, app_nil_r.
    + intros [= <- <-]. exists [], ((from, msg) :: map fst received). split; [done|]. split; [done|]. intros s. by rewrite Hd, app_nil_r.
Qed.

End Distributor.

(** ** A peer that connected to us *)

Section Listen.
Context {cf : CookieFactory} {sc : SigCrates} {sha : Sha2}.

(** [Session::new]: the session, and its entry in the session table; [tx]: its
    channel *)
Definition ntcp2_session_new (l : Locked Ntcp2Frame.Block) (tx : nat) (peer_hash : Hash)
  : outcome (Locked Ntcp2Frame.Block * Session.Session Ntcp2Session.ntcp2_kind) :=
  let! t := lock l in
  let! t := open_session t peer_hash tx in
  Ret (mkLocked t false, Ntcp2Session.new_session peer_hash).

(** The closure [process_conn] of the NTCP2 listener, up to the point where the
    session is started: the router info of the handshake is stored like one that
    the peer had sent. *)
Definition ntcp2_process_conn (l : Locked Ntcp2Frame.Block) (tx : nat) (rand_id now : Z) (ri : RouterInfo)
  : comp (Locked Ntcp2Frame.Block * Session.Session Ntcp2Session.ntcp2_kind * DistributorResult) :=
  let* peer_hash := RouterIdentity_hash (router_id ri) in
  let! (l, session) := ntcp2_session_new l tx peer_hash in
  let* ds := DatabaseStore_from_ri ri None in
  let fake_ds := Message_from_payload rand_id now (MDatabaseStore ds) in
  cret (l, session, Distributor_handle peer_hash fake_ds).

End Listen.

(** ** Building and starting *)

(** [Config::get_string] *)
Inductive CfgValue := CfgString (s : bytes) | CfgNotFound | CfgError.

(** [src/router/config.rs] *)
Definition ROUTER_KEYFILE : bytes := ascii_bytes "router.keyfile".
Definition RI_FILE : bytes := ascii_bytes "router.infofile".
Definition NTCP_LISTEN : bytes := ascii_bytes "transport.ntcp.listen".
Definition NTCP2_LISTEN : bytes := ascii_bytes "transport.ntcp2.listen".
Definition NTCP2_KEYFILE : bytes := ascii_bytes "transport.ntcp2.keyfile".

Inductive BuilderError := BeRead (e : ReadError) | BeWrite.

Section Build.
Context {nom : Nom} {cf : CookieFactory} {bu : BigUintOps} {sc : SigCrates} {sha : Sha2} {fl : Flate2} {bf : BloomFilter}.
Context {txt : IpText} {b64 : Ntcp2Handshake.Base64}.

(** [File::create] fails, [write] fails, or it takes [n] bytes of the buffer *)
Inductive FileAnswer := FaNoCreate | FaNoWrite | FaTook (n : Z).

(** the settings of a configuration *)
Definition Settings : Type := bytes -> CfgValue.

(** what building meets: the settings that come of a configuration file, if it can
    be loaded, or of none; which files exist, what can be read of them, what happens when they are written, and the text of an I/O error; new
    router keys; [str::parse::<SocketAddr>]; the key pair and IV of a new NTCP2
    manager; the clocks *)
Record BuildEnv := mkBuildEnv {
  be_settings : option bytes -> option Settings;
  be_exists : bytes -> bool;
  be_read : bytes -> option bytes;
  be_write : bytes -> FileAnswer;
  be_io_error : bytes;
  be_new_keys : comp RouterSecretKeys;
  be_parse_socket : bytes -> option SocketAddr;
  be_keypair : bytes * bytes * bytes;
  be_now : Z;
  be_instant : Z
}.

(** the files that were created, with their contents *)
Definition Files : Type := list (bytes * bytes).

(** [to_file] of router keys, router infos and NTCP2 managers: one [write], whose
    count is not looked at *)
Definition to_file (env : BuildEnv) (path : bytes) (contents : comp bytes) : comp (result unit BuilderError * Files) :=
  match be_write env path with
  | FaNoCreate => cret (Err BeWrite, [])
  | FaNoWrite => let* _ := contents in cret (Err BeWrite, [(path, [])])
  | FaTook n => let* bs := contents in cret (Ok tt, [(path, ztake n bs)])
  end.

Record Builder := mkBuilder {
  b_cfg_file : option bytes;
  b_keys : option RouterSecretKeys;
  b_ri_file : option bytes;
  b_comms : option Manager
}.

Definition Builder_new : Builder := mkBuilder None None None None.
Definition config_file (b : Builder) (cfg_file : bytes) : Builder := mkBuilder (Some cfg_file) (b_keys b) (b_ri_file b) (b_comms b).
Definition router_keys (b : Builder) (keys : RouterSecretKeys) : Builder := mkBuilder (b_cfg_file b) (Some keys) (b_ri_file b) (b_comms b).
(** nothing reads this field: [build] writes the file that the configuration names *)
Definition router_info_file (b : Builder) (ri_file : bytes) : Builder := mkBuilder (b_cfg_file b) (b_keys b) (Some ri_file) (b_comms b).
Definition comm_system (b : Builder) (comms : Manager) : Builder := mkBuilder (b_cfg_file b) (b_keys b) (b_ri_file b) (Some comms).

(** the context of the router, and the tasks that [start] takes *)
Record Router := mkRouter {
  r_keys : RouterSecretKeys;
  r_ri : RouterInfo;
  r_comms : Manager;
  r_netdb_engine : option Engine;
  r_tunnel_listener : option Hash;
  r_tunnel_participant : option Participant
}.

Definition get_string (get : Settings) (key : bytes) : option bytes :=
  match get key with CfgString s => Some s | _ => None end.

(** [transport::Manager::from_config] *)
Definition Manager_from_config (get : Settings) (env : BuildEnv) : comp (Manager * Files) :=
  let! ntcp_text := unwrap (get_string get NTCP_LISTEN) in
  let! ntcp_addr := unwrap (be_parse_socket env ntcp_text) in
  let! ntcp2_text := unwrap (get_string get NTCP2_LISTEN) in
  let! ntcp2_addr := unwrap (be_parse_socket env ntcp2_text) in
  let! ntcp2_keyfile := unwrap (get_string get NTCP2_KEYFILE) in
  let ntcp_manager := NtcpManager_new ntcp_addr in
  match be_read env ntcp2_keyfile with
  | Some data =>
      let! m := ntcp2_from_file ntcp2_addr data in
      cret (mkManager ntcp_manager m, [])
  | None =>
      let '(private, public, iv) := be_keypair env in
      let m := Ntcp2Manager_new ntcp2_addr private public iv in
      let* (r, files) := to_file env ntcp2_keyfile (cret (ntcp2_to_file m)) in
      let! _ := unwrap (rok r) in
      cret (mkManager ntcp_manager m, files)
  end.

(** the keys of the router: given, of the file, or new *)
Definition Builder_keys (get : Settings) (env : BuildEnv) (keys : option RouterSecretKeys) : comp (result RouterSecretKeys BuilderError * Files) :=
  match keys with
  | Some keys => cret (Ok keys, [])
  | None =>
      match get ROUTER_KEYFILE with
      | CfgString keyfile =>
          if be_exists env keyfile then
            match be_read env keyfile with
            | Some data => let! r := RouterSecretKeys_from_file data in cret (rmap_err BeRead r, [])
            | None => cret (Err (BeRead (FileIo (be_io_error env))), [])
            end
          else
            let* keys := be_new_keys env in
            let* (r, files) := to_file env keyfile (RouterSecretKeys_to_bytes keys) in
            cret (rmap (fun _ => keys) r, files)
      | CfgNotFound => let* keys := be_new_keys env in cret (Ok keys, [])
      | CfgError => Panic
      end
  end.

(** [Builder::build] *)
Definition Builder_build (env : BuildEnv) (b : Builder) : comp (result Router BuilderError * Files) :=
  let! get := unwrap (be_settings env (b_cfg_file b)) in
  let* (keys, w1) := Builder_keys get env (b_keys b) in
  match keys with
  | Err e => cret (Err e, w1)
  | Ok keys =>
      let* (comms, w2) := match b_comms b with Some m => cret (m, []) | None => Manager_from_config get env end in
      let tunnel_participant := Some (Participant_new (be_instant env)) in
      let ri := RouterInfo_new (be_now env) (rid_ keys) in
      let ri := set_addresses ri (Manager_addresses comms) in
      let* ri := RouterInfo_sign ri (signing_private_key_ keys) in
      let build (w3 : Files) :=
        let* our_hash := RouterIdentity_hash (rid_ keys) in
        cret (Ok (mkRouter keys ri comms (Some (Engine_new (be_instant env))) (Some our_hash) tunnel_participant), w1 ++ w2 ++ w3) in
      match get RI_FILE with
      | CfgString ri_file =>
          let* (r, w3) := to_file env ri_file (RouterInfo_to_bytes ri) in
          match r with Ok _ => build w3 | Err e => cret (Err e, w1 ++ w2 ++ w3) end
      | CfgNotFound => build []
      | CfgError => Panic
      end
  end.

(** [Router::start]: the router afterwards and the tasks that run; [can_bind]:
    whether a socket is free *)
Definition Router_start (can_bind : SocketAddr -> bool) (r : Router) : comp (Router * (Engine * Hash * Participant)) :=
  let* _ := RouterIdentity_hash (rid_ (r_keys r)) in
  let comms := Manager_start (r_comms r) in
  let! _ := unwrap (if can_bind (nm_addr (ntcp comms)) then Some tt else None) in
  let! _ := unwrap (if can_bind (n2_addr (ntcp2 comms)) then Some tt else None) in
  let! netdb_engine := unwrap (r_netdb_engine r) in
  let! tunnel_listener := unwrap (r_tunnel_listener r) in
  let! tunnel_participant := unwrap (r_tunnel_participant r) in
  cret (mkRouter (r_keys r) (r_ri r) comms None None None, (netdb_engine, tunnel_listener, tunnel_participant)).

End Build.

(** ** What the subsystems do with a stream of messages *)

Section Streams.

(** a subsystem that handles one message after another, with the effects of
    each *)
Fixpoint run_stream {S M E} (step : S -> M -> comp (S * list E)) (s : S) (l : list M) : comp (S * list E) :=
  match l with
  | [] => cret (s, [])
  | m :: l =>
      let* (s, e1) := step s m in
      let* (s, e2) := run_stream step s l in
      cret (s, e1 ++ e2)
  end.

(** Messages that the subsystem ignores can be left out. *)
Lemma run_stream_filter {S M E} (step : S -> M -> comp (S * list E)) (keep : M -> bool) s l :
  (forall s m, keep m = false -> step s m = cret (s, [])) ->
  run_stream step s (List.filter keep l) = run_stream step s l.
Proof.
  intros Hi. revert s. induction l as [|m l IH]; intros s; cbn [run_stream List.filter]; [done|].
  destruct (keep m) eqn:Hk; cbn [run_stream].
  - destruct (step s m) as [[[s' e]|]|]; cbn [cbind]; [|done..]. by rewrite IH.
  - rewrite (Hi s m Hk), (IH s). cbn [cret cbind].
    by destruct (run_stream step s l) as [[[s' e]|]|].
Qed.

Context {cf : CookieFactory} {bu : BigUintOps} {sc : SigCrates} {sha : Sha2} {bf : BloomFilter}.
Context (dsa_verify : DsaPublicKey -> bytes -> DsaSignature -> bool).

Definition netdb_step (env : EngineEnv) (en : Engine) (m : Received) : comp (Engine * list NdEffect) :=
  handle_network dsa_verify env en m.1 m.2.

Definition acceptor_step (our_hash : Hash) (s : unit) (m : Received) :=
  cret (s, option_list (listener_message our_hash m.1 m.2)).

Definition processor_step (p : Participant) (m : Received) : comp (Participant * list HopProcessorState) :=
  let! (p, spawned) := handle_message p m.1 m.2 in cret (p, option_list spawned).

(** What is not for a subsystem, it would ignore. *)
Lemma netdb_ignores env en m : is_for SNetDb m = false -> netdb_step env en m = cret (en, []).
Proof. unfold is_for, netdb_step, handle_network, Distributor_handle. by destruct (msg_payload m.2). Qed.

Lemma acceptor_ignores h s m : is_for SAcceptor m = false -> acceptor_step h s m = cret (s, []).
Proof. unfold is_for, acceptor_step, listener_message, Distributor_handle. by destruct (msg_payload m.2). Qed.

Lemma processor_ignores p m : is_for SProcessor m = false -> processor_step p m = cret (p, []).
Proof. unfold is_for, processor_step, handle_message, Distributor_handle. by destruct (msg_payload m.2). Qed.

End Streams.

(** ** Lemmas about the listener *)

Section ListenLemmas.
Context {cf : CookieFactory} {bu : BigUintOps} {sc : SigCrates} {sha : Sha2}.
Context (dsa_verify : DsaPublicKey -> bytes -> DsaSignature -> bool).

Lemma from_payload rand_id now p : msg_payload (Message_from_payload rand_id now p) = p.
Proof. reflexivity. Qed.

Lemma store_goes_to_netdb from msg ds : msg_payload msg = MDatabaseStore ds -> Distributor_handle from msg = DrSend SNetDb (from, msg).
Proof. intros H. unfold Distributor_handle. by rewrite H. Qed.

Lemma ds_from_ri ri h : ri_hash ri = cret h -> DatabaseStore_from_ri ri None = cret (mkDatabaseStore h 0 None (DsRI ri)).
Proof. unfold ri_hash. intros Hh. unfold DatabaseStore_from_ri. by rewrite Hh. Qed.

Lemma ri_hash_eq ri : ri_hash ri = RouterIdentity_hash (router_id ri).
Proof. unfold ri_hash. reflexivity. Qed.

(** a new session is in the table, with the frames that waited for it *)
Lemma session_new_ok (l : Locked Ntcp2Frame.Block) tx h : poisoned l = false ->
  exists t, ntcp2_session_new l tx h = Ret (mkLocked t false, Ntcp2Session.new_session h) /\
    sessions t !! h = Some tx /\ pending_sessions t !! h = None /\
    channels t !! tx = Some (default [] (pending_sessions (table l) !! h)).
Proof.
  intros Hp. unfold ntcp2_session_new, lock. rewrite Hp. cbn [obind].
  destruct (open_waiting (table l) h tx) as (t & -> & H). by exists t.
Qed.

Lemma process_conn_sends l tx rand_id now ri h : ri_hash ri = cret h -> poisoned l = false ->
  exists msg t, msg_payload msg = MDatabaseStore (mkDatabaseStore h 0 None (DsRI ri)) /\
    ntcp2_process_conn l tx rand_id now ri = cret (mkLocked t false, Ntcp2Session.new_session h, DrSend SNetDb (h, msg)) /\
    sessions t !! h = Some tx /\ pending_sessions t !! h = None /\
    channels t !! tx = Some (default [] (pending_sessions (table l) !! h)).
Proof.
  intros Hh Hl. destruct (session_new_ok l tx h Hl) as (t & Hn & Ht).
  eexists _, t. split; [apply (from_payload rand_id now)|]. split; [|exact Ht].
  unfold ntcp2_process_conn. rewrite (ds_from_ri ri h Hh). rewrite ri_hash_eq in Hh. rewrite Hh. cbn [cret cbind].
  rewrite Hn. cbn [obind].
  rewrite (store_goes_to_netdb _ _ _ (from_payload rand_id now _)). reflexivity.
Qed.

Lemma acceptable_iff now h ri v : ri_hash ri = cret h -> RouterInfo_verify dsa_verify ri = cret v ->
  acceptable dsa_verify now h ri false <->
  v = Ok tt /\ network_id ri = Some NET_ID /\
  now - 27 * 3600 * 10 ^ 9 <= I2PDate_to_system_time (published ri) <= now + 120 * 10 ^ 9.
Proof.
  intros Hh Hv. unfold acceptable, ri_ok. rewrite is_current_spec, Hv. split.
  - intros [(_ & H & Hn) [[=]|Hc]]. by injection H as ->.
  - intros (-> & Hn & Hc). split; [done|by right].
Qed.

Lemma acceptable_dec now h ri v : ri_hash ri = cret h -> RouterInfo_verify dsa_verify ri = cret v ->
  acceptable dsa_verify now h ri false \/ ~ acceptable dsa_verify now h ri false.
Proof.
  intros Hh Hv. rewrite (acceptable_iff now h ri v Hh Hv). destruct v as [[]|]; [|by right; intros (? & _)].
  destruct (decide (network_id ri = Some NET_ID)); [|by right; intros (_ & ? & _)].
  match goal with |- (_ /\ _ /\ ?range) \/ _ => destruct (decide range); [by left|by right; intros (_ & _ & ?)] end.
Qed.

(** the engine meets a router info that a peer sent *)
Lemma messages_store (env : EngineEnv) (en : Engine) (msg : Message) ri h v :
  msg_payload msg = MDatabaseStore (mkDatabaseStore h 0 None (DsRI ri)) ->
  ri_hash ri = cret h -> RouterInfo_verify dsa_verify ri = cret v ->
  ee_pending env = [] -> ee_pending_end env = NotReady ->
  ee_ib env = Ready (Some (h, msg)) -> ee_client env = NotReady ->
  (messages dsa_verify env en = Panic <->
   ~ (v = Ok tt /\ network_id ri = Some NET_ID /\
      ee_now env - 27 * 3600 * 10 ^ 9 <= I2PDate_to_system_time (published ri) <= ee_now env + 120 * 10 ^ 9)) /\
  (messages dsa_verify env en <> Panic ->
   exists en', messages dsa_verify env en =
     cret (en', map (fun tx => EfNotifyRI tx ri) (waiting (pending_ri (netdb en)) h), None) /\
     ri_ds (netdb en') !! h = Some ri).
Proof.
  intros Hm Hh Hv Hp0 Hp1 Hib Hc. rewrite <- (acceptable_iff _ _ _ _ Hh Hv).
  assert (register_lookups en [] = en) as Hreg by (by destruct en).
  unfold messages. rewrite Hp0, Hp1, Hib, Hc, Hreg.
  destruct (network_store dsa_verify env en h msg _ ri h v Hm eq_refl Hh Hv) as [Hs1 Hs2].
  destruct (acceptable_dec (ee_now env) h ri v Hh Hv) as [Hacc|Hacc].
  - destruct (Hs2 Hacc) as (en' & -> & Hst & _). cbn [cret cbind]. split; [done|].
    intros _. exists en'. rewrite app_nil_r, Hst. split; [done|apply lookup_insert_eq].
  - rewrite (proj1 Hs1 Hacc). cbn [cbind]. by split.
Qed.

End ListenLemmas.

(** ** Lemmas about building *)

Section BuildLemmas.
Context {nom : Nom} {cf : CookieFactory} {bu : BigUintOps} {sc : SigCrates} {sha : Sha2} {fl : Flate2} {bf : BloomFilter}.
Context (dsa_verify : DsaPublicKey -> bytes -> DsaSignature -> bool).

(** the router info of a router with these keys and addresses, signed *)
Lemma own_ri_ok now (keys : RouterSecretKeys) addrs :
  wf_RouterIdentity (rid_ keys) -> key_matches (rid_ keys) (signing_private_key_ keys) ->
  now < 2 ^ 64 * 10 ^ 6 -> Forall wf_RouterAddress addrs -> u8_ok (len addrs) ->
  exists ri bs h,
    RouterInfo_sign (set_addresses (RouterInfo_new now (rid_ keys)) addrs) (signing_private_key_ keys) = cret ri /\
    addresses ri = addrs /\ RouterInfo_to_bytes ri = cret bs /\ router_info bs = POk [] ri /\
    RouterIdentity_hash (rid_ keys) = cret h /\ ri_ok dsa_verify h ri /\ published ri = I2PDate_from_system_time now.
Proof.
  intros Hrid Hk Hnow Ha Hl.
  destruct (signed_ok dsa_verify _ _ (new_ri_wf now _ _ Hrid Hnow Ha Hl) Hk) as (ri & bs & Hs & Hv & [sig ->] & Hb & Hp).
  destruct (hash_returns (rid_ keys) Hrid) as [h Hh].
  eexists _, bs, h. split; [exact Hs|]. split; [done|]. split; [done|]. split; [done|]. split; [done|]. split; [|done].
  split; [done|]. by split.
Qed.

(** our own router info is current for everybody whose clock is at most two
    minutes behind or 27 hours ahead *)
Lemma own_ri_current now now' ri :
  published ri = I2PDate_from_system_time now -> 0 <= now ->
  now - 120 * 10 ^ 9 <= now' <= now + 27 * 3600 * 10 ^ 9 - 10 ^ 6 ->
  router_info_is_current now' ri = Ok tt.
Proof. intros Hp Hn H. apply is_current_spec. rewrite Hp. pose proof (date_rounds now). lia. Qed.

(** a router starts if both sockets are free *)
Lemma router_starts {txt : IpText} {b64 : Ntcp2Handshake.Base64} can_bind keys ri comms h en lh p :
  RouterIdentity_hash (rid_ keys) = cret h ->
  Router_start can_bind (mkRouter keys ri comms (Some en) (Some lh) (Some p)) =
    if can_bind (nm_addr (ntcp comms)) && can_bind (n2_addr (ntcp2 comms))
    then cret (mkRouter keys ri (Manager_start comms) None None None, (en, lh, p)) else Panic.
Proof.
  intros Hh. unfold Router_start. cbn [r_keys r_comms r_ri r_netdb_engine r_tunnel_listener r_tunnel_participant]. rewrite Hh. cbn [cret cbind].
  cbn [Manager_start ntcp ntcp2 ntcp_set_context ntcp2_set_context nm_addr n2_addr].
  by destruct (can_bind (nm_addr (ntcp comms))), (can_bind (n2_addr (ntcp2 comms))).
Qed.

End BuildLemmas.

(** ** Properties *)

Module RouterProps.
Section Props.
Context {nom : Nom} {cf : CookieFactory} {bu : BigUintOps} {sc : SigCrates} {sha : Sha2} {fl : Flate2} {bf : BloomFilter}.
Context {txt : IpText} {b64 : Ntcp2Handshake.Base64}.
Context (dsa_verify : DsaPublicKey -> bytes -> DsaSignature -> bool).

(** C29: Whatever a session hands on, each subsystem finds in its queue exactly
    the messages for it, in order, up to the first one that could not be
    delivered, and nothing is lost by the split: every subsystem ends in the
    same state with the same effects as if it had seen all the messages. *)
Theorem distribution_loses_nothing (received : list (Received * list SinkAnswer)) (ib : Inboxes) (p : Poll unit Received) :
  distribute received (mkInboxes [] [] []) = (ib, p) ->
  exists taken rest, map fst received = taken ++ rest /\ (p = Ready tt -> rest = []) /\
    (forall s, inbox s ib = List.filter (is_for s) taken) /\
    (forall env en, run_stream (netdb_step dsa_verify env) en (netdb_ib ib) = run_stream (netdb_step dsa_verify env) en taken) /\
    (forall h, run_stream (acceptor_step h) tt (build_ib ib) = run_stream (acceptor_step h) tt taken) /\
    (forall part, run_stream processor_step part (data_ib ib) = run_stream processor_step part taken).
Proof.
  intros H. destruct (distribute_keeps _ _ _ _ H) as (taken & rest & Ht & Hr & Hi). exists taken, rest.
  split; [done|]. split; [done|].
  assert (forall s, inbox s ib = List.filter (is_for s) taken) as Hs by (intros s; rewrite Hi; by destruct s).
  split; [exact Hs|]. split; [|split].
  - intros env en. rewrite <- (run_stream_filter _ (is_for SNetDb) en taken (netdb_ignores dsa_verify env)).
    by rewrite <- Hs.
  - intros h. rewrite <- (run_stream_filter _ (is_for SAcceptor) tt taken (acceptor_ignores h)). by rewrite <- Hs.
  - intros part. rewrite <- (run_stream_filter _ (is_for SProcessor) part taken processor_ignores). by rewrite <- Hs.
Qed.

(** C19: A peer that connects over NTCP2 stops the network database with a panic
    exactly when the router info of its handshake is one that the database
    refuses (a bad signature, another network, published more than 27 hours ago
    or more than two minutes ahead), although the handshake has accepted it;
    otherwise it is stored under the hash of its identity and whoever waits for
    it is notified.  The session is in the table either way, with the frames that
    waited for it. *)
Theorem handshake_router_info_stops_netdb (l : Locked Ntcp2Frame.Block) (tx : nat) (rand_id now : Z) (ri : RouterInfo) (h : Hash) v :
  ri_hash ri = cret h -> RouterInfo_verify dsa_verify ri = cret v -> poisoned l = false ->
  exists msg t,
    ntcp2_process_conn l tx rand_id now ri = cret (mkLocked t false, Ntcp2Session.new_session h, DrSend SNetDb (h, msg)) /\
    sessions t !! h = Some tx /\ channels t !! tx = Some (default [] (pending_sessions (table l) !! h)) /\
    forall env en, ee_pending env = [] -> ee_pending_end env = NotReady ->
      ee_ib env = Ready (Some (h, msg)) -> ee_client env = NotReady ->
      (messages dsa_verify env en = Panic <->
       ~ (v = Ok tt /\ network_id ri = Some NET_ID /\
          ee_now env - 27 * 3600 * 10 ^ 9 <= I2PDate_to_system_time (published ri) <= ee_now env + 120 * 10 ^ 9)) /\
      (messages dsa_verify env en <> Panic ->
       exists en', messages dsa_verify env en =
         cret (en', map (fun tx => EfNotifyRI tx ri) (waiting (pending_ri (netdb en)) h), None) /\
         ri_ds (netdb en') !! h = Some ri).
Proof.
  intros Hh Hv Hl. destruct (process_conn_sends l tx rand_id now ri h Hh Hl) as (msg & t & Hm & Hc & Hs & _ & Hq).
  exists msg, t. split; [exact Hc|]. split; [exact Hs|]. split; [exact Hq|]. clear Hc Hs Hq.
  intros env en Hp Hpe Hib Hc. exact (messages_store dsa_verify env en msg ri h v Hm Hh Hv Hp Hpe Hib Hc).
Qed.

(** C16: Building a router from matching keys: its router info lists the
    addresses of the transports, is signed, serialises to the bytes that parse back
    to it and of which the configured file gets what one write takes, and any
    database takes it under the router's hash, if its clock is at most two minutes
    behind ours or 27 hours ahead.  A file that cannot be written is an error
    and a broken setting a panic; the router starts once if both sockets are
    free, and a second start panics. *)
Theorem built_router_info (env : BuildEnv) (get : Settings) (cfg_file ri_file : option bytes) (keys : RouterSecretKeys) (comms : Manager) :
  be_settings env cfg_file = Some get ->
  wf_RouterIdentity (rid_ keys) -> key_matches (rid_ keys) (signing_private_key_ keys) ->
  Forall wf_RouterAddress (Manager_addresses comms) -> 0 <= be_now env < 2 ^ 64 * 10 ^ 6 ->
  exists r bs h,
    Builder_build env (mkBuilder cfg_file (Some keys) ri_file (Some comms)) =
      match get RI_FILE with
      | CfgString f =>
          match be_write env f with
          | FaTook n => cret (Ok r, [(f, ztake n bs)])
          | FaNoWrite => cret (Err BeWrite, [(f, [])])
          | FaNoCreate => cret (Err BeWrite, [])
          end
      | CfgNotFound => cret (Ok r, [])
      | CfgError => Panic
      end /\
    addresses (r_ri r) = Manager_addresses comms /\ RouterInfo_to_bytes (r_ri r) = cret bs /\
    router_info bs = POk [] (r_ri r) /\
    (forall now, be_now env - 120 * 10 ^ 9 <= now <= be_now env + 27 * 3600 * 10 ^ 9 - 10 ^ 6 ->
       acceptable dsa_verify now h (r_ri r) false) /\
    (forall can_bind,
       let sockets := can_bind (nm_addr (ntcp comms)) && can_bind (n2_addr (ntcp2 comms)) in
       if sockets
       then exists r', Router_start can_bind r = cret (r', (Engine_new (be_instant env), h, Participant_new (be_instant env))) /\
              r_comms r' = Manager_start comms /\ Router_start can_bind r' = Panic
       else Router_start can_bind r = Panic).
Proof.
  intros Hset Hrid Hk Ha Hnow.
  destruct (own_ri_ok dsa_verify (be_now env) keys (Manager_addresses comms) Hrid Hk (proj2 Hnow) Ha ltac:(done))
    as (ri & bs & h & Hs & Hra & Hb & Hp & Hh & Hok & Hpub).
  exists (mkRouter keys ri comms (Some (Engine_new (be_instant env))) (Some h) (Some (Participant_new (be_instant env)))), bs, h.
  split.
  { unfold Builder_build. cbn [b_cfg_file]. rewrite Hset. cbn [unwrap obind b_keys b_comms Builder_keys cret cbind]. rewrite Hs. cbn [cret cbind]. rewrite Hb, Hh.
    cbn [cret cbind app]. destruct (get RI_FILE) as [f| |]; [|done..]. unfold to_file. by destruct (be_write env f). }
  split; [done|]. split; [done|]. split; [done|]. split.
  { intros now Hn. split; [done|]. right. exact (own_ri_current _ _ _ Hpub (proj1 Hnow) Hn). }
  intros can_bind. cbn beta zeta. rewrite (router_starts can_bind keys ri comms h _ _ _ Hh).
  destruct (can_bind (nm_addr (ntcp comms)) && can_bind (n2_addr (ntcp2 comms))); [|done].
  eexists. split; [reflexivity|]. split; [done|]. unfold Router_start. cbn [r_keys r_comms r_netdb_engine]. rewrite Hh. cbn [cret cbind].
  by destruct (unwrap _), (unwrap _).
Qed.

End Props.

#[local] Existing Instances nom_ref cf_ref biguint_ref sigcrates_ref sha2_ref flate_ref bloom_ref ip_ref.
#[local] Existing Instances Ntcp2Handshake.Ntcp2HandshakeSamples.toy_base64.
Import DataSamples NetDbSamples.

Definition search_reply : Message := mkMessage 7 (mkI2PDate 5) (MDatabaseSearchReply (mkDatabaseSearchReply other [] other)).
Definition plain_data : Message := mkMessage 8 (mkI2PDate 5) (MData [1]).

(** two are handed over, the third subsystem is down *)
Lemma distribution_loses_nothing_witness :
  exists ib taken rest,
    distribute [((key, search_reply), [SinkNotReady; SinkReady]); ((key, plain_data), [SinkReady]); ((other, search_reply), [SinkErr])]
      (mkInboxes [] [] []) = (ib, PollErr (other, search_reply)) /\
    [(key, search_reply); (key, plain_data); (other, search_reply)] = taken ++ rest /\
    inbox SNetDb ib = List.filter (is_for SNetDb) taken.
Proof.
  destruct (distribution_loses_nothing yes
    [((key, search_reply), [SinkNotReady; SinkReady]); ((key, plain_data), [SinkReady]); ((other, search_reply), [SinkErr])]
    _ _ eq_refl) as (taken & rest & Ht & _ & Hi & _).
  eexists _, taken, rest. split; [reflexivity|]. split; [exact Ht|exact (Hi SNetDb)].
Defined.

(** [now] is 0, the router info of 2001 is published in the future *)
Lemma handshake_router_info_stops_netdb_witness :
  exists msg t,
    ntcp2_process_conn (mkLocked Shared_new false) 3 7 0 ri =
      cret (mkLocked t false, Ntcp2Session.new_session key, DrSend SNetDb (key, msg)) /\
    sessions t !! key = Some 3%nat /\
    messages yes (env (Ready (Some (key, msg))) NotReady) (Engine_new 0) = Panic.
Proof.
  destruct (handshake_router_info_stops_netdb yes (mkLocked Shared_new false) 3 7 0 ri key (Ok tt) (proj1 key_ok) (proj1 (proj2 key_ok)) eq_refl)
    as (msg & t & H1 & H2 & _ & H3).
  exists msg, t. split; [exact H1|]. split; [exact H2|].
  apply (H3 (env (Ready (Some (key, msg))) NotReady) (Engine_new 0) eq_refl eq_refl eq_refl eq_refl).
  intros (_ & _ & _ & H). vm_compute in H. by apply H.
Defined.

Definition my_keys : RouterSecretKeys := mkRouterSecretKeys ref_rid (mkPrivateKey (zeros 256)) ref_ssk.
Definition my_socket : SocketAddr := mkSocketAddr (V4 [127; 0; 0; 1]) 9001.
Definition my_comms : Manager := mkManager (NtcpManager_new my_socket) (Ntcp2Manager_new my_socket (zeros 32) (zeros 32) (zeros 16)).
Definition my_env : BuildEnv :=
  mkBuildEnv (fun _ => Some (fun key => if bool_decide (key = RI_FILE) then CfgString [114] else CfgNotFound)) (fun _ => false) (fun _ => None)
    (fun _ => FaTook 500) [] Panic (fun _ => None) ([], [], []) (10 ^ 18) 0.

Lemma string_wf l : bytes_okb l && utf8_ok l && (len l <? 256) = true -> wf_I2PString (mkI2PString l).
Proof.
  intros [[H1 H2]%andb_true_iff H3%Z.ltb_lt]%andb_true_iff. split; [by apply bytes_okb_ok|]. split; [done|].
  split; [apply len_nonneg|done].
Qed.

Lemma my_addresses_wf : Forall wf_RouterAddress (Manager_addresses my_comms).
Proof.
  apply Forall_cons_2; [|apply Forall_cons_2; [|apply Forall_nil_2]].
  all: split; [done|split; [done|split; [by apply string_wf|split; [|vm_compute; split; [discriminate|reflexivity]]]]].
  all: repeat (apply map_Forall_insert_2; [split; by apply string_wf|]); apply map_Forall_empty.
Qed.

Lemma built_router_info_witness :
  exists r bs h,
    Builder_build my_env (comm_system (router_keys Builder_new my_keys) my_comms) = cret (Ok r, [([114], ztake 500 bs)]) /\
    router_info bs = POk [] (r_ri r) /\ acceptable yes (10 ^ 18) h (r_ri r) false /\
    exists r', Router_start (fun _ => true) r = cret (r', (Engine_new 0, h, Participant_new 0)) /\
      Router_start (fun _ => true) r' = Panic.
Proof.
  destruct (built_router_info yes my_env _ None None my_keys my_comms eq_refl) as (r & bs & h & H1 & _ & _ & H2 & H3 & H4).
  - exact ref_rid_wf.
  - split; [split; reflexivity|reflexivity].
  - exact my_addresses_wf.
  - split; [discriminate|reflexivity].
  - exists r, bs, h. split; [exact H1|]. split; [exact H2|]. split; [apply H3; vm_compute; by split|].
    destruct (H4 (fun _ => true)) as (r' & H5 & _ & H6). exists r'. split; [exact H5|exact H6].
Defined.

End RouterProps.
