(* ===== verification/EndToEnd.v ===== *)
(** * From one router to the other

    The composition of the parts that a message passes: the session of the
    sender, its NTCP2 codec, the connection, the codec and the session of the
    receiver, and the queues of its subsystems. *)

From S2P Require Import Prelude Nom Cookie Util Wire Crypto Data Dest I2np Message Framed Session.
From S2P Require Import Ntcp2Frame Ntcp2Codec Ntcp2Session Router.
From S2P Require NtcpCodec.

(** ** Small messages fit *)

Section Fits.
Context {nom : Nom} {cf : CookieFactory} {bu : BigUintOps} {sc : SigCrates} {sha : Sha2} {fl : Flate2}.

(** a message of which ten fit a frame: 10 * (3 + 6548) + 16 <= 65535 *)
Definition small_message (m : Message) : Prop :=
  (exists depth, sendable_f depth m) /\ date_ms (msg_expiration m) < 1000 * 2 ^ 32 /\
  exists bs, writes (gen_ntcp2_message m) bs /\ len bs <= 6548.

Lemma small_sendable m : small_message m -> sendable_block (BlkMessage m).
Proof. intros (Hs & He & bs & Hw & Hl). split; [done|]. split; [done|]. exists bs. split; [done|lia]. Qed.

Lemma small_block draw m bs : small_message m -> writes (gen_block draw (BlkMessage m)) bs -> len bs <= 6551.
Proof.
  intros (_ & _ & b & Hw & Hl) H. pose proof (len_nonneg b).
  assert (writes (gen_block draw (BlkMessage m)) (be_bytes 1 3 ++ be_bytes 2 (len b) ++ b)) as H2.
  { cbn [gen_block]. apply writes_seq; [apply writes_be_u8|]. by apply writes_len_prefixed. }
  rewrite (writes_det _ _ _ H H2), !len_app, !len_be_bytes. lia.
Qed.

(** a frame of at most ten of them *)
Lemma small_frame_fits draw f :
  (forall k n, 0 <= n -> len (draw k n) = n) -> frame_size_ok f ->
  Forall (fun b => exists m, b = BlkMessage m /\ small_message m) f -> fits draw f.
Proof.
  intros Hd [H1 H10] Hf.
  assert (Forall sendable_block f) as Hs.
  { eapply Forall_impl; [exact Hf|]. intros b (m & -> & Hm). by apply small_sendable. }
  split; [by destruct f; [cbn in H1; lia|]|]. split; [exact Hs|].
  destruct (writes_frame true draw f 0 Hs Hd) as (bss & W & _). exists (concat bss). split.
  { apply writes_many_each. eapply Forall2_impl; [exact W|]. by intros [k b] bs. }
  assert (length bss = length f) as Hlen by (apply Forall2_length in W; by rewrite length_imap in W).
  assert (Forall (fun bs => len bs <= 6551) bss) as Hb.
  { apply Forall_lookup_2. intros i bs Hi. destruct (Forall2_lookup_r _ _ _ _ _ W Hi) as ([k b] & Hk & Wb).
    rewrite list_lookup_imap in Hk. apply fmap_Some in Hk as (b' & Ei & [= -> ->]). cbn [fst snd] in Wb.
    destruct (proj1 (Forall_lookup _ _) Hf _ _ Ei) as (m & -> & Hm). by eapply small_block. }
  assert (len (concat bss) <= 6551 * Z.of_nat (length bss)) as Hc.
  { clear W Hlen. induction Hb as [|bs bss Hl _ IH]; [done|]. cbn [concat length]. rewrite len_app. lia. }
  unfold NTCP2_MTU, BLOCKS_PER_FRAME in *. lia.
Qed.

(** what a session packs of them fits *)
Lemma small_frames_fit draw sent msgs :
  (forall k n, 0 <= n -> len (draw k n) = n) -> Forall frame_size_ok sent ->
  concat sent = map BlkMessage msgs -> Forall small_message msgs -> Forall (fits draw) sent.
Proof.
  intros Hd Hs Hc Hm. apply Forall_lookup_2. intros i f Hi.
  apply small_frame_fits; [done|exact (proj1 (Forall_lookup _ _) Hs _ _ Hi)|].
  apply Forall_forall. intros b Hb. assert (b ∈ map BlkMessage msgs) as (m & -> & Hin)%list_elem_of_fmap.
  { rewrite <- Hc. apply list_elem_of_In, in_concat. exists f. split; apply list_elem_of_In; [by eapply list_elem_of_lookup_2|done]. }
  exists m. split; [done|]. by apply (proj1 (Forall_forall _ _) Hm).
Qed.

End Fits.

(** ** Receiving all that has come *)

Section Receive.
Context {cf : CookieFactory} {sc : SigCrates} {sha : Sha2}.

Definition all_ready {A} (up : list A) : list (Poll (option A) unit) := map (fun f => Ready (Some f)) up.

Definition frames_msgs (hash : Hash) (up : list FrameIn) : list Message := concat (map (frame_msgs hash) up).

(** the next message of an inbound half whose frames have all come *)
Lemma inbound_next s up : Forall (frame_readable (ib_hash s)) up ->
  match cached_msgs s ++ frames_msgs (ib_hash s) up with
  | [] => InboundSession_poll s (all_ready up) = cret (mkInboundSession (ib_hash s) [], [], NotReady)
  | m :: ms => exists s' up', InboundSession_poll s (all_ready up) = cret (s', all_ready up', Ready (Some m)) /\
      ib_hash s' = ib_hash s /\ cached_msgs s' ++ frames_msgs (ib_hash s) up' = ms /\ Forall (frame_readable (ib_hash s)) up'
  end.
Proof.
  revert s. induction up as [|f up IH]; intros [h [|m ms]] Hu; cbn [ib_hash cached_msgs app] in *.
  - done.
  - exists (mkInboundSession h ms), []. done.
  - apply Forall_cons in Hu as [[fm Hf] Hu]. unfold frames_msgs. cbn [map concat all_ready InboundSession_poll cached_msgs ib_hash].
    assert (frame_msgs h f = fm) as E by (unfold frame_msgs; by rewrite Hf). rewrite E, Hf. cbn [cret cbind].
    destruct fm as [|m fm]; cbn [app].
    + exact (IH (mkInboundSession h []) Hu).
    + exists (mkInboundSession h fm), up. done.
  - by exists (mkInboundSession h ms), (f :: up).
Qed.

Lemma read_all n s up : Forall (frame_readable (ib_hash s)) up ->
  (length (cached_msgs s ++ frames_msgs (ib_hash s) up) < n)%nat ->
  read_pending (k := ntcp2_kind) (replicate n (Ready tt)) s (all_ready up) =
    cret (mkInboundSession (ib_hash s) [], false, cached_msgs s ++ frames_msgs (ib_hash s) up, NotReady).
Proof.
  revert s up. induction n as [|n IH]; intros s up Hu Hn; [lia|]. cbn [replicate read_pending].
  pose proof (inbound_next s up Hu) as H. destruct (cached_msgs s ++ frames_msgs (ib_hash s) up) as [|m ms] eqn:E.
  - cbn [ib_poll ntcp2_kind]. by rewrite H.
  - destruct H as (s' & up' & H & Hh & Hms & Hu'). cbn [ib_poll ntcp2_kind]. rewrite H. cbn [cret cbind].
    rewrite <- Hh in Hms, Hu'. rewrite IH by (rewrite ?Hms; cbn in Hn; done || lia). cbn [cret cbind]. by rewrite Hms, Hh.
Qed.

(** one poll of a session with nothing to send whose peer's frames have all
    come, and whose subsystems take [n] messages *)
Definition receive_env (n : nat) (up : list FrameIn) : SessionEnv ntcp2_kind :=
  @mkSessionEnv ntcp2_kind [] (fun _ => SinkReady) SinkReady NotReady (all_ready up) (replicate n (Ready tt)).

Lemma poll_receives_all hash n up : Forall (frame_readable hash) up -> (length (frames_msgs hash up) <= n)%nat ->
  Session_poll (receive_env n up) (new_session hash) = cret (new_session hash, [], frames_msgs hash up, NotReady).
Proof.
  intros Hu Hn. unfold Session_poll, write_items, read_loop, receive_env, new_session. cbn -[replicate InboundSession_poll].
  pose proof (inbound_next (mkInboundSession hash []) up Hu) as H. cbn [ib_hash cached_msgs app] in H.
  destruct (frames_msgs hash up) as [|m ms] eqn:E.
  - by rewrite H.
  - destruct H as (s' & up' & H & Hh & Hms & Hu'). rewrite H. cbn [cret cbind].
    rewrite <- Hh in Hms, Hu'. rewrite read_all by (rewrite ?Hms; cbn in Hn; done || lia). cbn [cret cbind].
    by rewrite Hms, Hh.
Qed.

(** blocks that carry messages, as they are received *)
Lemma message_frame hash (f : FrameIn) msgs : map fst f = map BlkMessage msgs ->
  frame_readable hash f /\ frame_msgs hash f = msgs.
Proof.
  intros Hf. assert (handle_frame hash f = cret msgs) as H.
  { revert msgs Hf. induction f as [|[b [i t]] f IH]; intros [|m msgs]; try done. cbn [map fst]. intros [= -> Hf].
    cbn [handle_frame handle_block cret cbind]. by rewrite (IH _ Hf). }
  split; [by exists msgs|]. unfold frame_msgs. by rewrite H.
Qed.

Lemma message_frames hash (up : list FrameIn) msgs : concat (map (map fst) up) = map BlkMessage msgs ->
  Forall (frame_readable hash) up /\ frames_msgs hash up = msgs.
Proof.
  revert msgs. induction up as [|f up IH]; intros msgs; cbn [map concat].
  - by destruct msgs.
  - intros H. symmetry in H. apply map_eq_app in H as (m1 & m2 & -> & H1 & H2).
    destruct (IH m2 (eq_sym H2)) as [Hu Hm]. destruct (message_frame hash f m1 (eq_sym H1)) as [Hr Hf].
    split; [by constructor|]. unfold frames_msgs in *. cbn [map concat]. by rewrite Hf, Hm.
Qed.

(** queues that take everything *)
Lemma distribute_all (ms : list Received) ib :
  exists ib', distribute (map (fun m => (m, [SinkReady])) ms) ib = (ib', Ready tt) /\
    forall s, inbox s ib' = inbox s ib ++ List.filter (is_for s) ms.
Proof.
  assert (exists ib', distribute (map (fun m => (m, [SinkReady])) ms) ib = (ib', Ready tt)) as [ib' H].
  { revert ib. induction ms as [|[h m] ms IH]; intros ib; [by exists ib|]. cbn [map distribute deliver].
    destruct (Distributor_handle h m); cbn [DistributorResult_poll]; apply IH. }
  exists ib'. split; [exact H|]. destruct (distribute_keeps _ _ _ _ H) as (taken & rest & Ht & Hr & Hi).
  rewrite (Hr eq_refl), app_nil_r in Ht. intros s. rewrite Hi, <- Ht, map_map. by rewrite map_id.
Qed.

End Receive.

(** ** What a session sends arrives *)

Section Arrives.
Context {nom : Nom} {cf : CookieFactory} {bu : BigUintOps} {sc : SigCrates} {sha : Sha2} {fl : Flate2}.
Context {noise : NoiseTransport} {sip : SipHash}.

(** What [alice]'s session sends of [msgs] over any polls, encoded with [e] and
    cut into pieces in any way, [d] decodes and [bob]'s session hands on.  (The
    hashes are of the peers: [alice]'s session is with [bob].) *)
Definition carries (oc : bool) (draw : nat -> Z -> bytes) (e d : Codec) (alice bob : Hash) (msgs : list Message) : Prop :=
  forall (envs : list (SessionEnv ntcp2_kind)) (s' : Session ntcp2_kind) (sent : list Frame) (back : list Message),
  concat (map sv_arrivals envs) = map BlkMessage msgs ->
  Forall (fun env : SessionEnv ntcp2_kind => up_readable bob (sv_upstream env)) envs ->
  Session_run (new_session bob) envs = cret (s', sent, back, NotReady) -> to_send s' = [] ->
  exists e' wire, encode_all draw e sent [] = Ret (e', wire, Ok tt) /\
    forall chunks, concat chunks = wire -> chunks <> [] ->
      exists d' fs, feed (codec := ntcp2_decode oc) d [] chunks = Ret (d', [], fs, None) /\
        forall up : list FrameIn, map (map fst) up = fs ->
          Session_poll (receive_env (length msgs) up) (new_session alice) =
            cret (new_session alice, [], map short_expiration msgs, NotReady).

Lemma messages_arrive oc draw e d alice bob msgs :
  in_sync e d -> (forall k n, 0 <= n -> len (draw k n) = n) -> Forall small_message msgs -> carries oc draw e d alice bob msgs.
Proof.
  intros Hsync Hdraw Hsmall envs s' sent back Harr Hup Hrun Hall.
  destruct (ntcp2_session_run bob envs Hup) as (s1 & sent1 & back1 & r1 & H & Hord).
  rewrite Hrun in H. injection H as <- <- <- <-. destruct (Hord eq_refl) as (Hsizes & Hsent & _).
  rewrite Hall, app_nil_r, Harr in Hsent.
  assert (Forall (fits draw) sent) as Hfits by (by eapply small_frames_fit).
  destruct (encode_all_stream oc draw e d sent [] Hsync Hdraw Hfits) as (e' & wire & Henc & Hstr).
  exists e', wire. split; [exact Henc|]. intros chunks <- Hne.
  destruct (feed_pending (laws := ntcp2_framed oc) d [] chunks _ Hne Hstr) as (d' & Hfeed & _).
  exists d', (map (map received) sent). split; [exact Hfeed|]. intros up Hu.
  destruct (message_frames alice up (map short_expiration msgs)) as [Hread Hm].
  { by rewrite Hu, <- concat_map, Hsent, !map_map. }
  rewrite (poll_receives_all alice _ up Hread), Hm; [done|]. by rewrite Hm, length_map.
Qed.

End Arrives.

(** ** Properties *)

Module EndToEndProps.
Section Props.
Context {nom : Nom} {cf : CookieFactory} {bu : BigUintOps} {sc : SigCrates} {sha : Sha2} {fl : Flate2}.
Context {noise : NoiseTransport} {sip : SipHash}.

(** Router to router over NTCP2: when the session of one router has sent
    the messages it was given, packed into frames as it liked over any number of
    polls, their encryption is a byte stream that, cut into pieces in any way, the
    other router decrypts into frames; its session hands over exactly these
    messages, in order, up to the milliseconds that the short header drops; and
    each of its subsystems finds those for it in its queue, in order, under the
    sender's hash. *)
Theorem ntcp2_router_to_router (oc : bool) (draw : nat -> Z -> bytes) (e d : Codec) (alice bob : Hash)
    (envs : list (SessionEnv ntcp2_kind)) (s' : Session ntcp2_kind) (sent : list Frame) (back : list Message) (msgs : list Message) :
  in_sync e d -> (forall k n, 0 <= n -> len (draw k n) = n) ->
  concat (map sv_arrivals envs) = map BlkMessage msgs -> Forall small_message msgs ->
  Forall (fun env : SessionEnv ntcp2_kind => up_readable bob (sv_upstream env)) envs ->
  Session_run (new_session bob) envs = cret (s', sent, back, NotReady) -> to_send s' = [] ->
  exists e' wire, encode_all draw e sent [] = Ret (e', wire, Ok tt) /\
    forall chunks, concat chunks = wire -> chunks <> [] ->
      exists d' fs, feed (codec := ntcp2_decode oc) d [] chunks = Ret (d', [], fs, None) /\
        forall up : list FrameIn, map (map fst) up = fs ->
          Session_poll (receive_env (length msgs) up) (new_session alice) =
            cret (new_session alice, [], map short_expiration msgs, NotReady) /\
          exists ib, distribute (map (fun m => ((alice, m), [SinkReady])) (map short_expiration msgs)) (mkInboxes [] [] []) = (ib, Ready tt) /\
            forall s, inbox s ib = List.filter (is_for s) (map (pair alice) (map short_expiration msgs)).
Proof.
  intros Hsync Hdraw Harr Hsmall Hup Hrun Hall.
  destruct (messages_arrive oc draw e d alice bob msgs Hsync Hdraw Hsmall envs s' sent back Harr Hup Hrun Hall) as (e' & wire & Henc & Hfeed).
  exists e', wire. split; [exact Henc|]. intros chunks E Hne. destruct (Hfeed chunks E Hne) as (d' & fs & Hf & Hp).
  exists d', fs. split; [exact Hf|]. intros up Hu. split; [exact (Hp up Hu)|].
  destruct (distribute_all (map (pair alice) (map short_expiration msgs)) (mkInboxes [] [] [])) as (ib & Hd & Hi).
  rewrite !map_map in Hd. rewrite !map_map. exists ib. split; [exact Hd|]. intros s. rewrite Hi, map_map. by destruct s.
Qed.

End Props.

#[local] Existing Instances nom_ref cf_ref biguint_ref sigcrates_ref sha2_ref flate_ref.
#[local] Existing Instances Ntcp2CodecSamples.toy_noise Ntcp2CodecSamples.toy_sip.
Import Ntcp2FrameSamples Ntcp2CodecSamples NtcpCodec.NtcpCodecSamples.

Lemma status_small : small_message status.
Proof.
  split; [exists 1%nat; exact status_sendable|]. split; [reflexivity|]. eexists. split.
  - unfold gen_ntcp2_message. apply writes_seq; [apply writes_be_u8|]. apply writes_seq; [apply writes_be_u32|].
    apply writes_seq; [apply writes_be_u32|exact status_payload].
  - vm_compute. discriminate.
Qed.

(** one poll gives the session two messages, which leave in one frame *)
Definition two_messages : SessionEnv ntcp2_kind :=
  @mkSessionEnv ntcp2_kind [BlkMessage status; BlkMessage status] (fun _ => SinkReady) SinkReady NotReady [NotReady] [Ready tt].

Lemma two_sent : Session_run (new_session (mkHash [2])) [two_messages] =
  cret (new_session (mkHash [2]), [[BlkMessage status; BlkMessage status]], [], NotReady).
Proof. reflexivity. Qed.

Lemma ntcp2_router_to_router_witness :
  exists e' wire, encode_all draw Ntcp2CodecSamples.toy_end [[BlkMessage status; BlkMessage status]] [] = Ret (e', wire, Ok tt) /\
    forall chunks, concat chunks = wire -> chunks <> [] ->
      exists d' fs, feed (codec := ntcp2_decode true) Ntcp2CodecSamples.toy_end [] chunks = Ret (d', [], fs, None) /\
        forall up : list FrameIn, map (map fst) up = fs ->
          Session_poll (receive_env 2 up) (new_session (mkHash [1])) =
            cret (new_session (mkHash [1]), [], [short_expiration status; short_expiration status], NotReady).
Proof.
  destruct (ntcp2_router_to_router true draw Ntcp2CodecSamples.toy_end Ntcp2CodecSamples.toy_end (mkHash [1]) (mkHash [2]) [two_messages] _ _ _
    [status; status] Ntcp2CodecProps.toy_sync draw_len eq_refl
    (Forall_cons_2 _ _ _ status_small (Forall_cons_2 _ _ _ status_small (Forall_nil_2 _)))
    ltac:(by repeat constructor) two_sent eq_refl) as (e' & wire & H & Hc).
  exists e', wire. split; [exact H|]. intros chunks E Hne. destruct (Hc chunks E Hne) as (d' & fs & Hf & Hu).
  exists d', fs. split; [exact Hf|]. intros up Eu. exact (proj1 (Hu up Eu)).
Defined.

End EndToEndProps.
