(* ===== verification/Connect.v ===== *)
(** * Connection attempts

    The two [connect] functions of [src/transport/ntcp/mod.rs] and
    [src/transport/ntcp2/mod.rs] give a handshake ten seconds and then open a
    session with the peer.  This is the task they share: what a poll of it does,
    and what becomes of the messages that wait for it, whatever the handshake is.

    [tokio::timer::Timeout] is a class.  Each poll of a task gets the clock, what
    has arrived, and what others have done to the session table since the last. *)

From S2P Require Import Prelude Nom Cookie Util Wire Crypto Data Address Session Duplex Transport.

(** ** The timeout *)

(** [tokio::timer::timeout::Error] *)
Inductive TimeoutError (E : Type) := TmInner (e : E) | TmElapsed | TmTimer.
Arguments TmInner {E} e.
Arguments TmElapsed {E}.
Arguments TmTimer {E}.

(** the clock's resolution *)
Definition MILLISECOND : Z := 10 ^ 6.

(** A poll of [Timeout::new(future, limit)] made at [since], when the future
    answers [p] at [now].  What it makes of a future that is ready too late is
    left open. *)
Class Timeout := {
  timeout_poll : forall {A E}, Z -> Z -> Z -> Poll A E -> Poll A (TimeoutError E);
  to_value : forall {A E} limit since now (p : Poll A E) a, timeout_poll limit since now p = Ready a -> p = Ready a;
  to_ready : forall {A E} limit since now (a : A), now - since <= limit -> timeout_poll (E := E) limit since now (Ready a) = Ready a;
  to_ends : forall {A E} limit since now (p : Poll A E), p <> NotReady -> timeout_poll limit since now p <> NotReady;
  to_late : forall {A E} limit since now (p : Poll A E),
    limit + MILLISECOND <= now - since -> timeout_poll limit since now p <> NotReady
}.

(** [Duration::new(10, 0)] *)
Definition CONNECT_TIMEOUT : Z := 10 * 10 ^ 9.

(** ** A connection attempt *)

(** the answer of a handshake; none when it is out of fuel *)
Definition hs_poll {R E} (s : HsStep R E) : option (Poll R E) :=
  match s with
  | Again => None
  | Pending => Some NotReady
  | Finished r => Some (Ready r)
  | Failed e => Some (PollErr e)
  end.

Section Task.
Context {timeout : Timeout} {F H R E Env S : Type}.

(** the handshake, and what is done once it is through *)
Context (poll : Env -> H -> bytes -> comp (H * bytes * bytes * HsStep R E)).
Context (connected : Locked F -> R -> comp (Locked F * S)).

(** [timed.and_then(..)] *)
Definition task_poll (since now : Z) (env : Env) (l : Locked F) (h : H) (inp : bytes)
  : comp (H * bytes * bytes * Locked F * Poll S (TimeoutError E)) :=
  let* (h, inp, out, s) := poll env h inp in
  match hs_poll s with
  | None => Ret None
  | Some p =>
      match timeout_poll CONNECT_TIMEOUT since now p with
      | Ready r => let* (l, session) := connected l r in cret (h, inp, out, l, Ready session)
      | NotReady => cret (h, inp, out, l, NotReady)
      | PollErr e => cret (h, inp, out, l, PollErr e)
      end
  end.

(** one poll: the clock, the rest of the environment, the bytes that have arrived
    and what has happened to the session table *)
Record TaskEvent := mkTaskEvent { te_now : Z; te_env : Env; te_arrived : bytes; te_others : list (TableEvent F) }.

(** polls until the task ends; it leaves the table, and what it has written *)
Fixpoint task_run (since : Z) (l : Locked F) (h : H) (inp : bytes) (evs : list TaskEvent)
  : comp (Locked F * bytes * Poll S (TimeoutError E)) :=
  match evs with
  | [] => cret (l, [], NotReady)
  | ev :: evs =>
      let! t := lock l in
      let! t := table_run t (te_others ev) in
      let* (h, inp, out, l, r) := task_poll since (te_now ev) (te_env ev) (mkLocked t false) h (inp ++ te_arrived ev) in
      match r with
      | NotReady => let* (l, out', r) := task_run since l h inp evs in cret (l, out ++ out', r)
      | _ => cret (l, out, r)
      end
  end.

(** *** What holds of every attempt *)

Context (inv : H -> Prop) (post : R -> Prop) (hash : Hash) (tx : nat) (session : R -> S).

(** the handshake keeps up [inv] and ends with [post]; what follows is a session
    with the peer *)
Context (keeps : forall env h inp h' inp' out s, inv h -> poll env h inp = cret (h', inp', out, s) ->
  match s with Finished r => post r | Failed _ => True | _ => inv h' end).
Context (opens : forall l r, post r ->
  connected l r = let! t := lock l in let! t := open_session t hash tx in cret (mkLocked t false, session r)).

(** what has been sent to the peer by [evs] *)
Definition sent_meanwhile (evs : list TaskEvent) : list F := sent_to hash (concat (map te_others evs)).

(** the peer itself opens no session with us *)
Definition alone (evs : list TaskEvent) : Prop := Forall (fun ev => forall x, TeOpen hash x ∉ te_others ev) evs.

(** the peer's place in the table after [evs], without the attempt's own session *)
Definition peer_after (st : PeerState F) (evs : list TaskEvent) : PeerState F := peer_run hash st (concat (map te_others evs)).

Lemma alone_waits evs q : alone evs -> peer_after (PsWaiting q) evs = PsWaiting (q ++ sent_meanwhile evs).
Proof.
  intros Ha. apply peer_waits. intros tx' Hin. apply list_elem_of_In, in_concat in Hin as (es & Hin & He).
  apply in_map_iff in Hin as (ev & <- & Hin). unfold alone in Ha. rewrite Forall_forall in Ha.
  by apply (Ha ev (proj2 (list_elem_of_In _ _) Hin) tx'), list_elem_of_In.
Qed.

(** What is left of an attempt that ends with [r]: a session, with the frames
    that waited in its channel, or the table as the others have left it. *)
Definition outcome_ok (st : PeerState F) (t : Shared F) (r : Poll S (TimeoutError E)) : Prop :=
  match r with
  | Ready s => sessions t !! hash = Some tx /\ channels t !! tx = Some (waiting_for st) /\ pending_sessions t !! hash = None /\
      exists r, s = session r /\ post r
  | _ => peer_is t hash st
  end.

Lemma peer_pending (t : Shared F) (st : PeerState F) : peer_is t hash st -> default (@nil F) (pending_sessions t !! hash) = waiting_for st.
Proof. by destruct st; intros [_ ->]. Qed.

Lemma task_poll_spec since now env t h inp st h' inp' out l' r :
  inv h -> peer_is t hash st ->
  task_poll since now env (mkLocked t false) h inp = cret (h', inp', out, l', r) ->
  poisoned l' = false /\ outcome_ok st (table l') r /\
  (r = NotReady -> inv h' /\ now - since < CONNECT_TIMEOUT + MILLISECOND).
Proof.
  intros Hi Hs. unfold task_poll.
  destruct (poll env h inp) as [[[[[h1 inp1] out1] s1]|]|] eqn:Ep; cbn [cbind]; [|done..].
  pose proof (keeps _ _ _ _ _ _ _ Hi Ep) as Hk. destruct (hs_poll s1) as [p|] eqn:Eq; [|done].
  destruct (timeout_poll CONNECT_TIMEOUT since now p) as [a| |e] eqn:Et.
  - pose proof (to_value _ _ _ _ _ Et) as ->. destruct s1 as [| |r1|e1]; try done. injection Eq as ->. rewrite (opens _ _ Hk). unfold lock. cbn [poisoned table obind].
    destruct (open_waiting t hash tx) as (t' & -> & H1 & H2 & H3). rewrite (peer_pending _ _ Hs) in H3. cbn [obind cret cbind]. intros [= _ _ _ <- <-].
    split; [done|]. split; [|done]. cbn. split_and!; [done..|]. by exists a.
  - intros [= <- _ _ <- <-]. split; [done|]. split; [done|]. intros _. split.
    + destruct p as [a| |e]; [by destruct (to_ends (E := E) CONNECT_TIMEOUT since now (Ready a))| |by destruct (to_ends (A := R) CONNECT_TIMEOUT since now (PollErr e))].
      by destruct s1.
    + destruct (Z.lt_ge_cases (now - since) (CONNECT_TIMEOUT + MILLISECOND)) as [Hl|Hl]; [done|].
      by destruct (to_late _ _ _ _ Hl Et).
  - intros [= _ _ _ <- <-]. by split.
Qed.

(** However the polls fall and whatever others do, the peer's place in the table
    is where the outcome says, and no attempt outlasts the timeout. *)
Lemma task_run_spec since evs : forall t h inp st l' out r,
  inv h -> peer_is t hash st ->
  task_run since (mkLocked t false) h inp evs = cret (l', out, r) ->
  exists seen rest, evs = seen ++ rest /\ poisoned l' = false /\ outcome_ok (peer_after st seen) (table l') r /\
    (r = NotReady -> rest = [] /\ Forall (fun ev => te_now ev - since < CONNECT_TIMEOUT + MILLISECOND) evs).
Proof.
  induction evs as [|ev evs IH]; intros t h inp st l' out r Hi Hs; cbn [task_run].
  { intros [= <- _ <-]. exists [], []. by split_and!. }
  unfold lock at 1. cbn [poisoned table obind].
  destruct (run_peer hash (te_others ev) t st Hs) as (t1 & -> & Hs1). cbn [obind].
  destruct (task_poll since (te_now ev) (te_env ev) (mkLocked t1 false) h (inp ++ te_arrived ev)) as [[[[[[h2 inp2] out2] l2] r2]|]|] eqn:Et; cbn [cbind]; [|done..].
  destruct (task_poll_spec _ _ _ _ _ _ _ _ _ _ _ _ Hi Hs1 Et) as (Hl & Ho & Hn).
  assert (forall s, peer_after st (ev :: s) = peer_after (peer_run hash st (te_others ev)) s) as Hc.
  { intros s. unfold peer_after, peer_run. cbn [map concat]. by rewrite foldl_app. }
  destruct r2 as [s| |e].
  - intros [= <- _ <-]. exists [ev], evs. split; [done|]. split; [done|]. by rewrite Hc.
  - destruct (Hn eq_refl) as [Hi2 Hin]. destruct l2 as [t2 p2]. cbn [poisoned table] in Hl, Ho. subst p2.
    destruct (task_run since (mkLocked t2 false) h2 inp2 evs) as [[[[l3 out3] r3]|]|] eqn:Er; cbn [cbind]; [|done..]. intros [= <- _ <-].
    destruct (IH _ _ _ _ _ _ _ Hi2 Ho Er) as (seen & rest & -> & Hl3 & Ho3 & Hn3).
    exists (ev :: seen), rest. split; [done|]. split; [done|]. rewrite Hc. split; [done|].
    intros H1. destruct (Hn3 H1). split; [done|]. by constructor.
  - intros [= <- _ <-]. exists [ev], evs. split; [done|]. split; [done|]. by rewrite Hc.
Qed.

End Task.

Arguments TaskEvent F Env : clear implicits.

(** ** Sending to a peer that we have no session with *)

Section Send.
Context {F C : Type}.
Implicit Types (l : Locked F) (f : F) (c : comp C).

Lemma state_send_new l h f c :
  poisoned l = false -> sessions (table l) !! h = None ->
  exists t, sessions t !! h = None /\ pending_sessions t !! h = Some (default [] (pending_sessions (table l) !! h) ++ [f]) /\
    state_send l h f c =
      match pending_sessions (table l) !! h with
      | Some _ => (mkLocked t false, None, cret SendReady)
      | None => match c with
                | Ret (Some c) => (mkLocked t false, Some c, cret SendReady)
                | Ret None => (l, None, Ret None)
                | Panic => (mkLocked (table l) true, None, Panic)
                end
      end.
Proof.
  intros Hl Hs. unfold state_send, lock. rewrite Hl, (send_new _ _ _ Hs).
  exists (mkShared (sessions (table l)) (<[h := default [] (pending_sessions (table l) !! h) ++ [f]]> (pending_sessions (table l))) (channels (table l))).
  split; [exact Hs|]. split; [apply lookup_insert_eq|].
  destruct (pending_sessions (table l) !! h) as [q|]; cbn; [done|]. by destruct c as [[c|]|].
Qed.

End Send.

(** ** Samples: a timeout that polls the future first, and sockets *)
Module ConnectSamples.

Definition sock (port : Z) : SocketAddr := mkSocketAddr (V4 [127; 0; 0; 1]) port.

Lemma sock_wf port : 0 <= port < 2 ^ 16 -> wf_SocketAddr (sock port).
Proof. intros H. split; [split; [by apply bytes_okb_ok|reflexivity]|exact H]. Qed.

Definition timeout_ref : Timeout.
Proof.
  refine (@Build_Timeout (fun A E limit since now p =>
    match p with
    | Ready a => Ready a
    | PollErr e => PollErr (TmInner e)
    | NotReady => if now - since <? limit then NotReady else PollErr TmElapsed
    end) _ _ _ _).
  - intros A E limit since now [a'| |e] a; [by intros [= ->]|by destruct (_ <? _)|done].
  - done.
  - by intros A E limit since now [a| |e].
  - intros A E limit since now [a| |e] H; [done| |done]. unfold MILLISECOND in H. by rewrite (proj2 (Z.ltb_ge _ _)) by lia.
Defined.

End ConnectSamples.
