(* ===== verification/Ntcp2Connect.v ===== *)
(** * Connecting over NTCP2

    [connect] of [src/transport/ntcp2/mod.rs] and what follows it: the sessions on
    both sides, and the first contact of two routers, from the messages that Alice
    is asked to send to the queues of Bob's subsystems. *)

From S2P Require Import Prelude Nom Cookie Util Wire Crypto Data Address Dest I2np Message Framed Session Duplex.
From S2P Require Import Ntcp2Frame Ntcp2Codec Ntcp2Session Ntcp2Handshake Transport Router EndToEnd Connect.
From S2P Require NtcpCodec.

Section Ntcp2.
Context {nom : Nom} {cf : CookieFactory} {bu : BigUintOps} {sc : SigCrates} {sha : Sha2} {fl : Flate2}.
Context {noise : NoiseTransport} {sip : SipHash} {hs : NoiseHandshake} {sk : SipKeys} {txt : IpText} {b64 : Base64}.
Context {timeout : Timeout}.

(** once connected: the session that is started; [tx]: its channel *)
Definition ntcp2_connected (tx : nat) (l : Locked Block) (r : RouterIdentity * Codec)
  : comp (Locked Block * (Session ntcp2_kind * Codec)) :=
  let '(ri, conn) := r in
  let* h := RouterIdentity_hash ri in
  let! (l, session) := ntcp2_session_new l tx h in
  cret (l, (session, conn)).

(** the future that [connect] returns *)
Definition ntcp2_connect_run (d : HsDraws) (tx : nat) := task_run (ob_poll d) (ntcp2_connected tx).

(** messages that a manager is asked to send to one peer, one after another: the
    manager afterwards and the connections that were started *)
Fixpoint ntcp2_send_all (draw : nat -> Z -> bytes) (padlen : Z) (own_ri : RouterInfo) (m : Ntcp2Manager) (peer : RouterInfo) (msgs : list Message)
  : comp (Ntcp2Manager * list (result (OBHandshake * SocketAddr) HsNewError)) :=
  match msgs with
  | [] => cret (m, [])
  | msg :: msgs =>
      let* (m, c, r) := ntcp2_start_send draw padlen own_ri m peer msg in
      let* r := r in
      match r with
      | SendReady => let* (m, cs) := ntcp2_send_all draw padlen own_ri m peer msgs in cret (m, option_list c ++ cs)
      | SendBroken => Panic
      end
  end.

(** the manager [m] with another session table *)
Definition with_sessions (m : Ntcp2Manager) (l : Locked Block) : Ntcp2Manager :=
  mkNtcp2Manager (n2_addr m) (static_private_key m) (static_public_key m) (n2_aesobfse_iv m) l (n2_ctx m).

Lemma send_all_waits draw padlen own_ri peer h msgs : forall m q,
  RouterIdentity_hash (router_id peer) = cret h -> poisoned (n2_sessions m) = false ->
  sessions (table (n2_sessions m)) !! h = None -> pending_sessions (table (n2_sessions m)) !! h = Some q ->
  exists t, ntcp2_send_all draw padlen own_ri m peer msgs = cret (with_sessions m (mkLocked t false), []) /\
    sessions t !! h = None /\ pending_sessions t !! h = Some (q ++ map BlkMessage msgs).
Proof.
  induction msgs as [|msg msgs IH]; intros m q Hh Hl Hs Hq; cbn [ntcp2_send_all map].
  { exists (table (n2_sessions m)). rewrite app_nil_r. split; [|by split]. destruct m as [? ? ? ? [? ?] ?]. cbn in *. by subst. }
  destruct (state_send_new (n2_sessions m) h (BlkMessage msg) (OBHandshake_new draw padlen (static_private_key m) own_ri peer) Hl Hs)
    as (t1 & Hs1 & Hq1 & E).
  unfold ntcp2_start_send. rewrite Hh. cbn [cret cbind]. rewrite E, Hq. rewrite Hq in Hq1. cbn [cret cbind option_list app].
  destruct (IH (with_sessions m (mkLocked t1 false)) _ Hh eq_refl Hs1 Hq1) as (t & Ht & Hst & Hpt).
  exists t. cbn [default] in Hpt. rewrite <- app_assoc in Hpt. split; [|by split]. unfold with_sessions in Ht |- *.
  cbn [n2_addr static_private_key static_public_key n2_aesobfse_iv n2_ctx] in Ht. by rewrite Ht.
Qed.


(** a handshake never forgets whom it is for *)
Lemma ob_poll_keeps d env bob_ri h inp h' inp' out s :
  peer_ri h = bob_ri -> ob_poll d env h inp = cret (h', inp', out, s) ->
  match s with Finished r => r.1 = router_id bob_ri | Failed _ => True | _ => peer_ri h' = bob_ri end.
Proof.
  intros Hi Hp. assert (forall env h inp h' inp' out s, peer_ri h = bob_ri -> ob_round d env h inp = cret (h', inp', out, s) ->
    round_keeps (fun h => peer_ri h = bob_ri) (fun r : RouterIdentity * Codec => r.1 = router_id bob_ri) s h') as Hk.
  2: { pose proof (poll_loop_keeps (ob_round d) _ _ Hk _ _ _ _ _ _ _ _ Hi Hp) as H. by destruct s. }
  clear. intros env h inp h' inp' out s Hi. unfold ob_round.
  destruct (ob_step d (oe_conn env) (oe_env env) h inp) as [r|] eqn:E; cbn [obind]; [|done]. intros [= ->].
  revert E. unfold ob_step, obind. repeat (case_match; try done); intros [= <- _ _ <-]; cbn; by subst.
Qed.

Lemma ob_new_peer draw padlen sa own_ri peer a0 ad :
  OBHandshake_new draw padlen sa own_ri peer = cret (Ok (a0, ad)) -> peer_ri a0 = peer.
Proof.
  unfold OBHandshake_new, cbind, obind. repeat (case_match; try done). all: by intros [= <- _].
Qed.

(** what a connection attempt starts when it is through *)
Lemma ntcp2_connected_opens tx h l r : RouterIdentity_hash r.1 = cret h ->
  ntcp2_connected tx l r = let! t := lock l in let! t := open_session t h tx in cret (mkLocked t false, (new_session h, r.2)).
Proof.
  destruct r as [ri conn]. cbn [fst snd]. intros Hh. unfold ntcp2_connected, ntcp2_session_new. rewrite Hh. cbn [cret cbind].
  destruct (lock l) as [t|]; cbn [obind]; [|done]. by destruct (open_session t h tx).
Qed.

(** *** Two routers that have not met *)




End Ntcp2.

(** ** Properties *)

Module Ntcp2ConnectProps.
Section Props.
Context {nom : Nom} {cf : CookieFactory} {bu : BigUintOps} {sc : SigCrates} {sha : Sha2} {fl : Flate2}.
Context {noise : NoiseTransport} {sip : SipHash} {hs : NoiseHandshake} {sk : SipKeys} {txt : IpText} {b64 : Base64}.


Context {timeout : Timeout}.

(** C9: A connection attempt over NTCP2, against whatever is at the other end and
    whatever else happens to the session table meanwhile: it does not outlast its
    ten seconds, and leaves no lock poisoned.  If it gets through, the session is
    with the peer it was for, in the table under the peer's hash, and its channel
    has the messages that waited for the peer, in order.  If it fails while
    messages wait for the peer, they still wait, nothing ever connects to the peer
    again, and whatever else is sent to the peer waits with them.  As long as the
    peer opens no session with us meanwhile, every message that was sent to it
    waits; once it has, what waited has gone to that session, and the table is as
    that session has left it, up to the session that the attempt opens. *)
Theorem ntcp2_connection_attempt (draw : nat -> Z -> bytes) (padlen : Z) (sa : bytes) (own_ri bob_ri : RouterInfo) (hb : Hash)
    (a0 : OBHandshake) (ad : SocketAddr) (d : HsDraws) (tx : nat) (since : Z) (t : Shared Block) (q : list Block)
    (evs : list (TaskEvent Block ObEnv)) (l : Locked Block) (out : bytes) (r : Poll (Session ntcp2_kind * Codec) (TimeoutError HsError)) :
  OBHandshake_new draw padlen sa own_ri bob_ri = cret (Ok (a0, ad)) -> RouterIdentity_hash (router_id bob_ri) = cret hb ->
  sessions t !! hb = None -> pending_sessions t !! hb = Some q ->
  ntcp2_connect_run d tx since (mkLocked t false) a0 [] evs = cret (l, out, r) ->
  exists seen rest, evs = seen ++ rest /\ poisoned l = false /\
    let st := peer_after hb (PsWaiting q) seen in
    (alone hb seen -> st = PsWaiting (q ++ sent_meanwhile hb seen)) /\
    match r with
    | Ready (s, _) => s = new_session hb /\ sessions (table l) !! hb = Some tx /\ channels (table l) !! tx = Some (waiting_for st)
    | NotReady => rest = [] /\ Forall (fun ev => te_now ev - since < CONNECT_TIMEOUT + MILLISECOND) evs /\ peer_is (table l) hb st
    | PollErr _ => peer_is (table l) hb st /\
        forall q', st = PsWaiting q' -> forall draw padlen own_ri m msgs, n2_sessions m = l ->
          exists t', ntcp2_send_all draw padlen own_ri m bob_ri msgs = cret (with_sessions m (mkLocked t' false), []) /\
            sessions t' !! hb = None /\ pending_sessions t' !! hb = Some (q' ++ map BlkMessage msgs)
    end.
Proof.
  intros Hob Hh Hs Hq Hrun. pose proof (ob_new_peer _ _ _ _ _ _ _ Hob) as Hp.
  assert (peer_is t hb (PsWaiting q)) as Hst by (by split).
  destruct (task_run_spec (ob_poll d) (ntcp2_connected tx) (fun h => peer_ri h = bob_ri) (fun r => r.1 = router_id bob_ri) hb tx
    (fun r => (new_session hb, r.2)) (fun env h inp h' inp' o s => ob_poll_keeps d env bob_ri h inp h' inp' o s)
    (fun l r Hr => ntcp2_connected_opens tx hb l r (eq_trans (f_equal RouterIdentity_hash Hr) Hh))
    since evs t a0 [] _ l out r Hp Hst Hrun) as (seen & rest & E & Hl & Ho & Hn).
  exists seen, rest. split; [exact E|]. split; [exact Hl|]. cbn beta zeta. split; [apply alone_waits|]. destruct r as [[s conn]| |e].
  - destruct Ho as (H1 & H2 & _ & x & [= -> _] & _). by split_and!.
  - destruct (Hn eq_refl) as [H1 H2]. by split_and!.
  - split; [exact Ho|]. intros q' Eq draw' padlen' own' m msgs Hm. unfold outcome_ok in Ho. rewrite Eq in Ho. destruct Ho as [H1 H2].
    subst l. by apply send_all_waits.
Qed.

End Props.
#[local] Existing Instances nom_ref cf_ref biguint_ref sigcrates_ref sha2_ref flate_ref ip_ref ConnectSamples.timeout_ref.
#[local] Existing Instances Ntcp2CodecSamples.toy_noise Ntcp2CodecSamples.toy_sip.
Import Ntcp2FrameSamples DataSamples Ntcp2HandshakeSamples Ntcp2HandshakeProps ConnectSamples.
#[local] Existing Instances toy_handshake toy_sip_keys toy_base64.

Definition alice_manager : Ntcp2Manager := Ntcp2Manager_new (sock 9001) [9] [9] (zeros 16).



(** a TCP connection that has not come about after eleven seconds *)
Definition unreachable : list (TaskEvent Block ObEnv) :=
  let never now := mkTaskEvent now (mkObEnv NotReady (mkHsEnv false 0)) [] [] in [never (5 * 10 ^ 9); never (11 * 10 ^ 9)].

Lemma ntcp2_connection_attempt_witness :
  exists h a0 t', let l := mkLocked (mkShared ∅ {[h := [BlkPadding 1]]} ∅) false in
    ntcp2_connect_run sample_draws 1 0 l a0 [] unreachable = cret (l, [], PollErr TmElapsed) /\
    ntcp2_send_all draw 3 ref_signed_ri (with_sessions alice_manager l) (bob_ri (zeros 16)) [NtcpCodec.NtcpCodecSamples.status] =
      cret (with_sessions alice_manager (mkLocked t' false), []) /\
    pending_sessions t' !! h = Some [BlkPadding 1; BlkMessage NtcpCodec.NtcpCodecSamples.status].
Proof.
  destruct ref_hash as [h Hh]. destruct own_confirmed as (c & Hc & Hl).
  assert (len c + 16 <= NTCP2_MTU) as Hl2 by lia.
  assert (addr (bob_addr (zeros 16)) = Some (mkSocketAddr (V4 [127; 0; 0; 1]) 9001)) as Had by (vm_compute; reflexivity).
  pose proof (ob_new_ok draw 3 [9] ref_signed_ri (bob_ri (zeros 16)) (bob_addr (zeros 16)) (mkI2PString [7]) (mkI2PString (zeros 16)) [7] (zeros 16)
    h 0%nat c _ bob_ntcp2_address Had eq_refl eq_refl eq_refl eq_refl eq_refl Hh eq_refl Hc Hl2) as Hob.
  match type of Hob with _ = cret (Ok (?a, _)) => set (a0 := a) in Hob end.
  set (l := mkLocked (mkShared ∅ {[h := [BlkPadding 1]]} ∅) false : Locked Block).
  assert (ntcp2_connect_run sample_draws 1 0 l a0 [] unreachable = cret (l, [], PollErr TmElapsed)) as Hrun by reflexivity.
  destruct (ntcp2_connection_attempt draw 3 [9] ref_signed_ri (bob_ri (zeros 16)) h a0 _ sample_draws 1 0 (table l) [BlkPadding 1] unreachable l []
    (PollErr TmElapsed) Hob Hh (lookup_empty h) (lookup_singleton_eq h _) Hrun) as (seen & rest & E & _ & _ & _ & H).
  assert (peer_after h (PsWaiting [BlkPadding 1]) seen = PsWaiting [BlkPadding 1]) as Hst.
  { destruct seen as [|e1 [|e2 [|e3 seen]]]; [reflexivity|injection E as <- _; reflexivity|injection E as <- <- _; reflexivity|discriminate E]. }
  destruct (H _ Hst draw 3 ref_signed_ri (with_sessions alice_manager l) [NtcpCodec.NtcpCodecSamples.status] eq_refl) as (t' & H1 & _ & H2).
  exists h, a0, t'. split; [exact Hrun|]. by split.
Defined.

End Ntcp2ConnectProps.
