(* ===== verification/NtcpConnect.v ===== *)
(** * Connecting over NTCP

    [connect] and the end of [listen] of [src/transport/ntcp/mod.rs]: the TCP
    connection, the handshake, the timeout over both, the sessions on either side,
    and the first contact of two routers. *)

From S2P Require Import Prelude Nom Cookie Util Wire Crypto ElGamal Aes Data Address Dest I2np Message Framed Session Duplex.
From S2P Require Import NtcpFrame NtcpCodec NtcpSession NtcpHsFrame NtcpHsCodec NtcpHandshake NtcpHsRun Transport Router Connect.
From S2P Require EndToEnd.

(** the TCP connection failed, or the handshake *)
Inductive ConnError := CeTcp | CeHandshake (e : HsError).

Section Ntcp.
Context {nom : Nom} {cf : CookieFactory} {bu : BigUintOps} {sc : SigCrates} {sha : Sha2} {aes_crate : AesCrate} {grp : DhGroup}.
Context {fl : Flate2} {txt : IpText} {b64 : Ntcp2Handshake.Base64} {timeout : Timeout}.
Context (dsa_verify : DsaPublicKey -> bytes -> DsaSignature -> bool).

(** [TcpStream::connect(&addr).and_then(|socket| OBHandshake::new(socket, ..))] *)
Inductive Connecting := CnTcp | CnHandshake (h : OBHandshake).

(** what a poll meets: the answer of the TCP connection, and the socket *)
Record ConnEnv := mkConnEnv { cn_tcp : Poll unit unit; cn_io : IoEnv }.

Definition handshake_poll (clk : HsClock) (env : IoEnv) (h : OBHandshake) (inp : bytes)
  : comp (Connecting * bytes * bytes * HsStep (RouterIdentity * Framed Codec) ConnError) :=
  let* (h, inp, out, s) := poll_loop (ob_step dsa_verify clk env) 6 h inp in
  cret (CnHandshake h, inp, out,
        match s with Again => Again | Pending => Pending | Finished r => Finished r | Failed e => Failed (CeHandshake e) end).

Definition connecting_poll (clk : HsClock) (draw : bytes) (own_ri : RouterIdentity) (own_key : SigningPrivateKey) (peer : RouterIdentity)
    (env : ConnEnv) (c : Connecting) (inp : bytes)
  : comp (Connecting * bytes * bytes * HsStep (RouterIdentity * Framed Codec) ConnError) :=
  match c with
  | CnTcp =>
      match cn_tcp env with
      | NotReady => cret (CnTcp, inp, [], Pending)
      | PollErr _ => cret (CnTcp, inp, [], Failed CeTcp)
      | Ready _ =>
          let* h := OBHandshake_new clk draw own_ri own_key peer in
          handshake_poll clk (cn_io env) h inp
      end
  | CnHandshake h => handshake_poll clk (cn_io env) h inp
  end.

(** [Session::new]; [tx]: its channel *)
Definition ntcp_session_new (tx : nat) (l : Locked Frame) (ri : RouterIdentity) : comp (Locked Frame * Session ntcp_kind) :=
  let* h := RouterIdentity_hash ri in
  let! t := lock l in
  let! t := open_session t h tx in
  cret (mkLocked t false, new_session h).

(** once connected, on either side; the session is a task of its own *)
Definition ntcp_connected (tx : nat) (l : Locked Frame) (r : RouterIdentity * Framed Codec)
  : comp (Locked Frame * (Session ntcp_kind * Framed Codec)) :=
  let '(ri, conn) := r in
  let* (l, session) := ntcp_session_new tx l ri in
  cret (l, (session, conn)).

(** the future that [connect] returns *)
Definition ntcp_connect_run (clk : HsClock) (draw : bytes) (own_ri : RouterIdentity) (own_key : SigningPrivateKey) (peer : RouterIdentity)
    (tx : nat) :=
  task_run (connecting_poll clk draw own_ri own_key peer) (ntcp_connected tx).

(** the closure [process_conn] of [listen]: the handshake, then the session *)
Definition ntcp_process_poll (clk : HsClock) (tx : nat) (env : IoEnv) (l : Locked Frame) (h : IBHandshake) (inp : bytes)
  : comp (IBHandshake * bytes * bytes * Locked Frame * Poll (Session ntcp_kind * Framed Codec) HsError) :=
  let* (h, inp, out, s) := poll_loop (ib_step dsa_verify clk env) 6 h inp in
  match s with
  | Again => Ret None
  | Pending => cret (h, inp, out, l, NotReady)
  | Failed e => cret (h, inp, out, l, PollErr e)
  | Finished r => let* (l, s) := ntcp_connected tx l r in cret (h, inp, out, l, Ready s)
  end.

(** messages that a manager is asked to send to one peer, one after another: the
    manager afterwards and the connections that were started *)
Fixpoint ntcp_send_all (m : NtcpManager) (peer : RouterInfo) (msgs : list Message) : comp (NtcpManager * list (option SocketAddr)) :=
  match msgs with
  | [] => cret (m, [])
  | msg :: msgs =>
      let* (m, c, r) := ntcp_start_send m peer msg in
      let* r := r in
      match r with
      | SendReady => let* (m, cs) := ntcp_send_all m peer msgs in cret (m, option_list c ++ cs)
      | SendBroken => Panic
      end
  end.

Definition with_sessions (m : NtcpManager) (l : Locked Frame) : NtcpManager := mkNtcpManager (nm_addr m) l (nm_ctx m).

Lemma ntcp_send_all_waits peer h msgs : forall m q,
  RouterIdentity_hash (router_id peer) = cret h -> poisoned (nm_sessions m) = false ->
  sessions (table (nm_sessions m)) !! h = None -> pending_sessions (table (nm_sessions m)) !! h = Some q ->
  exists t, ntcp_send_all m peer msgs = cret (with_sessions m (mkLocked t false), []) /\
    sessions t !! h = None /\ pending_sessions t !! h = Some (q ++ map Standard msgs).
Proof.
  induction msgs as [|msg msgs IH]; intros m q Hh Hl Hs Hq; cbn [ntcp_send_all map].
  { exists (table (nm_sessions m)). rewrite app_nil_r. split; [|by split]. destruct m as [? [? ?] ?]. cbn in *. by subst. }
  destruct (state_send_new (nm_sessions m) h (Standard msg) (ntcp_connect peer) Hl Hs) as (t1 & Hs1 & Hq1 & E).
  unfold ntcp_start_send. rewrite Hh. cbn [cret cbind]. rewrite E, Hq. rewrite Hq in Hq1. cbn [cret cbind option_list app].
  destruct (IH (with_sessions m (mkLocked t1 false)) _ Hh eq_refl Hs1 Hq1) as (t & Ht & Hst & Hpt).
  exists t. cbn [default] in Hpt. rewrite <- app_assoc in Hpt. split; [|by split]. unfold with_sessions in Ht |- *. cbn [nm_addr nm_ctx] in Ht. by rewrite Ht.
Qed.

(** the first one starts a connection, the others wait for it *)
Lemma ntcp_send_all_connects peer h m msg msgs c :
  RouterIdentity_hash (router_id peer) = cret h -> poisoned (nm_sessions m) = false ->
  sessions (table (nm_sessions m)) !! h = None -> pending_sessions (table (nm_sessions m)) !! h = None ->
  ntcp_connect peer = cret c ->
  exists t, ntcp_send_all m peer (msg :: msgs) = cret (with_sessions m (mkLocked t false), [c]) /\
    sessions t !! h = None /\ pending_sessions t !! h = Some (map Standard (msg :: msgs)).
Proof.
  intros Hh Hl Hs Hq Hc.
  destruct (state_send_new (nm_sessions m) h (Standard msg) (ntcp_connect peer) Hl Hs) as (t1 & Hs1 & Hq1 & E).
  cbn [ntcp_send_all]. unfold ntcp_start_send. rewrite Hh. cbn [cret cbind]. rewrite E, Hq, Hc. rewrite Hq in Hq1. cbn [cret cbind option_list app].
  destruct (ntcp_send_all_waits peer h msgs (with_sessions m (mkLocked t1 false)) _ Hh eq_refl Hs1 Hq1) as (t & Ht & Hst & Hpt).
  exists t. split; [|by split]. unfold with_sessions in Ht |- *. cbn [nm_addr nm_ctx] in Ht. by rewrite Ht.
Qed.

(** a session that is opened has the frames that waited for it *)
Lemma ntcp_connected_ok tx h l r : RouterIdentity_hash r.1 = cret h -> poisoned l = false ->
  exists t, ntcp_connected tx l r = cret (mkLocked t false, (new_session h, r.2)) /\ sessions t !! h = Some tx /\
    channels t !! tx = Some (default [] (pending_sessions (table l) !! h)).
Proof.
  destruct r as [ri conn]. cbn [fst snd]. intros Hh Hl. unfold ntcp_connected, ntcp_session_new, lock. rewrite Hh, Hl. cbn [cret cbind obind].
  destruct (open_waiting (table l) h tx) as (t & -> & H1 & _ & H2). by exists t.
Qed.

Lemma ntcp_connected_opens tx h l r : RouterIdentity_hash r.1 = cret h ->
  ntcp_connected tx l r = let! t := lock l in let! t := open_session t h tx in cret (mkLocked t false, (new_session h, r.2)).
Proof.
  destruct r as [ri conn]. cbn [fst snd]. intros Hh. unfold ntcp_connected, ntcp_session_new. rewrite Hh. cbn [cret cbind].
  destruct (lock l) as [t|]; cbn [obind]; [|done]. by destruct (open_session t h tx).
Qed.

(** *** Two routers that have not met *)

(** Alice's transport and identity, Bob's transports and what he publishes, the
    hashes and signing keys of both, and what they draw for the handshake *)
Record meeting (ma : NtcpManager) (mb : Manager) (own : RouterIdentity) (bob_ri : RouterInfo) (ha hb : Hash)
    (ka kb : SigningPrivateKey) (draw_a draw_b : bytes) (ck_a ck_b : HsClock) : Prop := {
  (** Bob publishes his addresses; his sockets are IPv4 *)
  me_addresses : addresses bob_ri = Manager_addresses mb;
  me_sockets : wf_SocketAddr (nm_addr (ntcp mb)) /\ wf_SocketAddr (n2_addr (ntcp2 mb)) /\
    is_ipv4 (nm_addr (ntcp mb)) = true /\ is_ipv4 (n2_addr (ntcp2 mb)) = true;
  (** both sign with the keys of their identities *)
  me_alice : RouterIdentity_hash own = cret ha /\ sendable_identity own /\ signer ka own;
  me_bob : RouterIdentity_hash (router_id bob_ri) = cret hb /\ wf_RouterIdentity (router_id bob_ri) /\ signer kb (router_id bob_ri);
  (** neither transport has panicked, and Alice has neither a session with Bob nor
      messages that wait for one *)
  me_unpoisoned : poisoned (nm_sessions ma) = false /\ poisoned (nm_sessions (ntcp mb)) = false;
  me_new : sessions (table (nm_sessions ma)) !! hb = None /\ pending_sessions (table (nm_sessions ma)) !! hb = None;
  me_draws : bytes_ok draw_a /\ bytes_ok draw_b;
  me_clocks : clock_ok ck_a /\ clock_ok ck_b
}.

Lemma ntcp_connect_same ri ri' : addresses ri = addresses ri' -> ntcp_connect ri = ntcp_connect ri'.
Proof. intros E. unfold ntcp_connect, address. by rewrite E. Qed.

(** where Alice connects to *)
Lemma meeting_connects ma mb own bob_ri ha hb ka kb draw_a draw_b ck_a ck_b :
  meeting ma mb own bob_ri ha hb ka kb draw_a draw_b ck_a ck_b -> ntcp_connect bob_ri = cret (Some (nm_addr (ntcp mb))).
Proof.
  intros [Ha (W1 & W2 & V1 & V2) _ _ _ _ _ _]. destruct (addresses_work mb bob_ri W1 W2 V1 V2) as (<- & _).
  exact (ntcp_connect_same bob_ri (set_addresses bob_ri (Manager_addresses mb)) Ha).
Qed.

(** *** What an attempt keeps up *)

(** a TCP connection under way, or a handshake with the peer *)
Definition connecting_inv (draw : bytes) (own_ri peer : RouterIdentity) (c : Connecting) : Prop :=
  match c with
  | CnTcp => True
  | CnHandshake h => exists x, get_pub (DHSessionKeyBuilder_new draw) = Ret x /\ ob_inv own_ri peer (DHSessionKeyBuilder_new draw) x h
  end.

(** a handshake that is through is with the peer, whose key has signed both DH
    values for us, and has the key agreed on *)
Definition connecting_post (draw : bytes) (own_ri peer : RouterIdentity) (r : RouterIdentity * Framed Codec) : Prop :=
  exists x, get_pub (DHSessionKeyBuilder_new draw) = Ret x /\ ob_post dsa_verify own_ri peer (DHSessionKeyBuilder_new draw) x r.

Lemma handshake_poll_keeps clk draw own_ri peer env h inp c' inp' out s :
  connecting_inv draw own_ri peer (CnHandshake h) -> handshake_poll clk env h inp = cret (c', inp', out, s) ->
  match s with Finished r => connecting_post draw own_ri peer r | Failed _ => True | _ => connecting_inv draw own_ri peer c' end.
Proof.
  intros (x & Gx & Hx). unfold handshake_poll.
  destruct (poll_loop (ob_step dsa_verify clk env) 6 h inp) as [[[[[h1 inp1] out1] s1]|]|] eqn:E; cbn [cbind]; [|done..].
  intros [= <- _ _ <-].
  pose proof (poll_loop_keeps _ _ _ (ob_step_keeps dsa_verify own_ri peer _ x clk) _ _ _ _ _ _ _ _ Hx E) as Hk.
  destruct s1 as [| |r|e]; cbn; try done; by exists x.
Qed.

Lemma connecting_poll_keeps clk draw own_ri own_key peer env c inp c' inp' out s :
  connecting_inv draw own_ri peer c -> connecting_poll clk draw own_ri own_key peer env c inp = cret (c', inp', out, s) ->
  match s with Finished r => connecting_post draw own_ri peer r | Failed _ => True | _ => connecting_inv draw own_ri peer c' end.
Proof.
  intros Hi. destruct c as [|h]; cbn [connecting_poll]; [|by apply handshake_poll_keeps].
  destruct (cn_tcp env); [|by intros [= <- _ _ <-]..].
  destruct (OBHandshake_new clk draw own_ri own_key peer) as [[h|]|] eqn:E; cbn [cbind]; [|done..].
  apply handshake_poll_keeps. exact (ob_new_keeps clk draw own_ri own_key peer h E).
Qed.

End Ntcp.

(** ** Properties *)

Module NtcpConnectProps.
Section Props.
Context {nom : Nom} {cf : CookieFactory} {bu : BigUintOps} {sc : SigCrates} {sha : Sha2} {aes_crate : AesCrate} {grp : DhGroup}.
Context {fl : Flate2} {txt : IpText} {b64 : Ntcp2Handshake.Base64}.

(** C11: The first contact of two routers over NTCP.  Alice, who has never met Bob,
    is asked to send him messages: one connection is started, to the socket that he
    publishes.  The handshake comes through, however the polls of its ends
    interleave.  Alice's session then finds all the messages in its channel, in
    order, and Bob opens his session with Alice; whatever way the polls and the
    connection cut what Alice's session sends, the messages reach Bob's subsystems:
    each finds those for it, in order, under Alice's hash. *)
Theorem ntcp_first_contact (dsa_verify : DsaPublicKey -> bytes -> DsaSignature -> bool) (oc : bool) (ma : NtcpManager) (mb : Manager)
    (own : RouterIdentity) (bob_ri : RouterInfo) (ha hb : Hash) (ka kb : SigningPrivateKey) (draw_a draw_b : bytes) (ck_a ck_b : HsClock)
    (es : list (NetEvent IoEnv IoEnv)) (msg : Message) (msgs : list Message) (txa txb : nat) :
  group_ok grp -> meeting ma mb own bob_ri ha hb ka kb draw_a draw_b ck_a ck_b ->
  Forall (event_ok env_ok env_ok) es -> Forall fits (map Standard (msg :: msgs)) ->
  exists a0 b0 la ca cb w,
    ntcp_send_all ma bob_ri (msg :: msgs) = cret (with_sessions ma la, [Some (nm_addr (ntcp mb))]) /\
    OBHandshake_new ck_a draw_a own ka (router_id bob_ri) = cret a0 /\ IBHandshake_new draw_b (router_id bob_ri) kb = Ret b0 /\
    ntcp_run dsa_verify ck_a ck_b (mkNet (Running a0) (Running b0) [] []) es = cret w /\
    (forall e1 e2 e3 e4 e5, roomy e1 -> roomy e2 -> roomy e3 -> roomy e4 -> roomy e5 ->
      exists w', ntcp_run dsa_verify ck_a ck_b w [PollAlice e1; PollBob e2; PollAlice e3; PollBob e4; PollAlice e5] = cret w' /\
        alice w' = Through (router_id bob_ri, mkFramed ca [] false []) /\ bob w' = Through (own, mkFramed cb [] false [])) /\
    (exists ta, ntcp_connected txa la (router_id bob_ri, mkFramed ca [] false []) =
        cret (mkLocked ta false, (new_session hb, mkFramed ca [] false [])) /\
      sessions ta !! hb = Some txa /\ channels ta !! txa = Some (map Standard (msg :: msgs))) /\
    carries oc ca cb ha hb (map Standard (msg :: msgs)) /\
    exists tb ib, ntcp_connected txb (nm_sessions (ntcp mb)) (own, mkFramed cb [] false []) =
        cret (mkLocked tb false, (new_session ha, mkFramed cb [] false [])) /\
      sessions tb !! ha = Some txb /\
      let received := frames_msgs ha (map Standard (msg :: msgs)) in
      received = map (pair ha) (msg :: msgs) /\
      distribute (map (fun m => (m, [SinkReady])) received) (mkInboxes [] [] []) = (ib, Ready tt) /\
      forall s, inbox s ib = List.filter (is_for s) received.
Proof.
  intros Hgrp M Hes Hm. pose proof (meeting_connects _ _ _ _ _ _ _ _ _ _ _ _ M) as Hc.
  destruct M as [_ _ (Hha & Ha & Hka) (Hhb & Hb & Hkb) [Hpa Hpb] [Hs Hq] [Hda Hdb] [Hca Hcb]].
  destruct (ntcp_handshake_runs dsa_verify ck_a ck_b draw_a draw_b own (router_id bob_ri) ka kb es Hgrp Hda Hdb Hca Hcb Hka Hkb Ha Hb Hes)
    as (a0 & b0 & ca & cb & w & Hob & Hib & (Wa & _ & Sab & _ & _ & Db) & Hrun & _ & _ & Hfin).
  destruct (ntcp_send_all_connects bob_ri hb ma msg msgs _ Hhb Hpa Hs Hq Hc) as (ta0 & Hsend & _ & Hwait).
  exists a0, b0, (mkLocked ta0 false), ca, cb, w. do 5 (split; [assumption|]). split; [|split].
  - destruct (ntcp_connected_ok txa hb (mkLocked ta0 false) (router_id bob_ri, mkFramed ca [] false []) Hhb eq_refl) as (ta & H0 & H1 & H2).
    cbn [table] in H2. rewrite Hwait in H2. by exists ta.
  - by apply frames_arrive.
  - destruct (ntcp_connected_ok txb ha (nm_sessions (ntcp mb)) (own, mkFramed cb [] false []) Hha Hpb) as (tb & H0 & H1 & _).
    destruct (EndToEnd.distribute_all (frames_msgs ha (map Standard (msg :: msgs))) (mkInboxes [] [] [])) as (ib & Hdist & Hi).
    exists tb, ib. split; [exact H0|]. split; [exact H1|]. split; [apply frames_msgs_standard|]. split; [exact Hdist|].
    intros s. rewrite (Hi s). by destruct s.
Qed.

Context {timeout : Timeout}.

(** C10: A connection attempt over NTCP, from the TCP connection on, against
    whatever is at the other end and whatever else happens to the session table
    meanwhile: it does not outlast its ten seconds, and leaves no lock poisoned.
    If it gets through, the peer's key has signed both DH values for us, the
    session is with that peer, in the table under its hash, and its channel has
    the messages that waited for the peer, in order.  If it fails while messages
    wait for the peer, they still wait, nothing ever connects to the peer again,
    and whatever else is sent to the peer waits with them.  As long as the peer
    opens no session with us meanwhile, every message that was sent to it waits;
    once it has, what waited has gone to that session, and the table is as that
    session has left it, up to the session that the attempt opens. *)
Theorem ntcp_connection_attempt (dsa_verify : DsaPublicKey -> bytes -> DsaSignature -> bool) (clk : HsClock) (draw : bytes)
    (own_ri : RouterIdentity) (own_key : SigningPrivateKey) (bob_ri : RouterInfo) (hb : Hash) (tx : nat) (since : Z)
    (t : Shared Frame) (q : list Frame) (evs : list (TaskEvent Frame ConnEnv)) (l : Locked Frame) (out : bytes)
    (r : Poll (Session ntcp_kind * Framed Codec) (TimeoutError ConnError)) :
  RouterIdentity_hash (router_id bob_ri) = cret hb ->
  sessions t !! hb = None -> pending_sessions t !! hb = Some q ->
  ntcp_connect_run dsa_verify clk draw own_ri own_key (router_id bob_ri) tx since (mkLocked t false) CnTcp [] evs = cret (l, out, r) ->
  exists seen rest, evs = seen ++ rest /\ poisoned l = false /\
    let st := peer_after hb (PsWaiting q) seen in
    (alone hb seen -> st = PsWaiting (q ++ sent_meanwhile hb seen)) /\
    match r with
    | Ready (s, conn) => s = new_session hb /\ sessions (table l) !! hb = Some tx /\ channels (table l) !! tx = Some (waiting_for st) /\
        exists x y, get_pub (DHSessionKeyBuilder_new draw) = Ret x /\ len y = 256 /\
          signed_for dsa_verify own_ri (router_id bob_ri) x y /\
          build_session_key (DHSessionKeyBuilder_new draw) y = Ret (aes_key (aes (fr_codec conn)))
    | NotReady => rest = [] /\ Forall (fun ev => te_now ev - since < CONNECT_TIMEOUT + MILLISECOND) evs /\ peer_is (table l) hb st
    | PollErr _ => peer_is (table l) hb st /\
        forall q', st = PsWaiting q' -> forall m msgs, nm_sessions m = l ->
          exists t', ntcp_send_all m bob_ri msgs = cret (with_sessions m (mkLocked t' false), []) /\
            sessions t' !! hb = None /\ pending_sessions t' !! hb = Some (q' ++ map Standard msgs)
    end.
Proof.
  intros Hh Hs Hq Hrun. assert (peer_is t hb (PsWaiting q)) as Hst by (by split).
  assert (forall l r, connecting_post dsa_verify draw own_ri (router_id bob_ri) r -> ntcp_connected tx l r =
    let! t := lock l in let! t := open_session t hb tx in cret (mkLocked t false, (new_session hb, r.2))) as Hopen.
  { intros l1 r1 (x & _ & Hr & _). apply ntcp_connected_opens. by rewrite Hr. }
  destruct (task_run_spec _ _ (connecting_inv draw own_ri (router_id bob_ri)) (connecting_post dsa_verify draw own_ri (router_id bob_ri)) hb tx _
    (connecting_poll_keeps dsa_verify clk draw own_ri own_key (router_id bob_ri)) Hopen
    since evs t CnTcp [] _ l out r I Hst Hrun) as (seen & rest & E & Hl & Ho & Hn).
  exists seen, rest. split; [exact E|]. split; [exact Hl|]. cbn beta zeta. split; [apply alone_waits|]. destruct r as [[s conn]| |e].
  - destruct Ho as (H1 & H2 & _ & [ri c] & [= -> ->] & x & Gx & _ & y & Ly & Sy & Ky). do 3 (split; [done|]). by exists x, y.
  - destruct (Hn eq_refl) as [H1 H2]. by split_and!.
  - split; [exact Ho|]. intros q' Eq m msgs Hm. unfold outcome_ok in Ho. rewrite Eq in Ho. destruct Ho as [H1 H2].
    subst l. by apply ntcp_send_all_waits.
Qed.

End Props.
#[local] Existing Instances nom_ref cf_ref biguint_ref sigcrates_ref sha2_ref aes_ref mersenne_group flate_ref ip_ref ConnectSamples.timeout_ref.
#[local] Existing Instance Ntcp2Handshake.Ntcp2HandshakeSamples.toy_base64.
Import DataSamples NtcpCodecSamples NtcpHsSamples ConnectSamples.

Definition no_dsa (_ : DsaPublicKey) (_ : bytes) (_ : DsaSignature) : bool := false.

Definition alice_manager : NtcpManager := NtcpManager_new (sock 9001).
Definition bob_managers : Manager := mkManager (NtcpManager_new (sock 9002)) (Ntcp2Manager_new (sock 9003) [7] [7] (zeros 16)).
Definition published_ri : RouterInfo := set_addresses ref_ri (Manager_addresses bob_managers).

Lemma ntcp_sample_meeting h : RouterIdentity_hash ref_rid = cret h ->
  meeting alice_manager bob_managers ref_rid published_ri h h ref_ssk ref_ssk [5] [9] sample_clock sample_clock.
Proof.
  intros Hh. split.
  - reflexivity.
  - split; [exact (sock_wf 9002 ltac:(lia))|]. split; [exact (sock_wf 9003 ltac:(lia))|]. split; reflexivity.
  - exact (conj Hh (conj ref_sendable ref_signer)).
  - exact (conj Hh (conj ref_rid_wf ref_signer)).
  - split; reflexivity.
  - split; reflexivity.
  - exact draws_ok.
  - exact (conj sample_clock_ok sample_clock_ok).
Qed.

Lemma ntcp_first_contact_witness :
  exists h a0 b0 la ca cb w,
    ntcp_send_all alice_manager published_ri [status; status] = cret (with_sessions alice_manager la, [Some (sock 9002)]) /\
    ntcp_run no_dsa sample_clock sample_clock (mkNet (Running a0) (Running b0) [] []) sample_events = cret w /\
    carries true ca cb h h [Standard status; Standard status].
Proof.
  destruct (hash_returns ref_rid ref_rid_wf) as [h Hh].
  destruct (ntcp_first_contact no_dsa true alice_manager bob_managers ref_rid published_ri h h ref_ssk ref_ssk [5] [9] sample_clock sample_clock
    sample_events status [status] 1 1 mersenne_group_ok (ntcp_sample_meeting h Hh) sample_events_ok
    (Forall_cons_2 _ _ _ status_fits (Forall_cons_2 _ _ _ status_fits (Forall_nil_2 _))))
    as (a0 & b0 & la & ca & cb & w & H1 & _ & _ & H2 & _ & _ & H3 & _).
  exists h, a0, b0, la, ca, cb, w. split; [exact H1|]. by split.
Defined.

(** a TCP connection that has not come about after eleven seconds *)
Definition unreachable : list (TaskEvent Frame ConnEnv) :=
  let never now := mkTaskEvent now (mkConnEnv NotReady (mkIoEnv false false 100 100)) [] [] in [never (5 * 10 ^ 9); never (11 * 10 ^ 9)].

Lemma ntcp_connection_attempt_witness :
  exists h t', let l := mkLocked (Session.mkShared ∅ {[h := [Standard status]]} ∅) false in
    ntcp_connect_run no_dsa (mkHsClock 0 0 0) [5] ref_rid ref_ssk (router_id ref_ri) 1 0 l CnTcp [] unreachable = cret (l, [], PollErr TmElapsed) /\
    ntcp_send_all (mkNtcpManager (mkSocketAddr (V4 [127; 0; 0; 1]) 9001) l true) ref_ri [status] =
      cret (with_sessions (mkNtcpManager (mkSocketAddr (V4 [127; 0; 0; 1]) 9001) l true) (mkLocked t' false), []) /\
    pending_sessions t' !! h = Some [Standard status; Standard status].
Proof.
  destruct (hash_returns ref_rid ref_rid_wf) as [h Hh].
  set (l := mkLocked (Session.mkShared ∅ {[h := [Standard status]]} ∅) false : Locked Frame).
  assert (ntcp_connect_run no_dsa (mkHsClock 0 0 0) [5] ref_rid ref_ssk (router_id ref_ri) 1 0 l CnTcp [] unreachable = cret (l, [], PollErr TmElapsed))
    as Hrun by reflexivity.
  destruct (ntcp_connection_attempt no_dsa (mkHsClock 0 0 0) [5] ref_rid ref_ssk ref_ri h 1 0 (table l) [Standard status] unreachable l [] (PollErr TmElapsed)
    Hh (lookup_empty h) (lookup_singleton_eq h _) Hrun) as (seen & rest & E & _ & _ & _ & H).
  assert (peer_after h (PsWaiting [Standard status]) seen = PsWaiting [Standard status]) as Hst.
  { destruct seen as [|e1 [|e2 [|e3 seen]]]; [reflexivity|injection E as <- _; reflexivity|injection E as <- <- _; reflexivity|discriminate E]. }
  destruct (H _ Hst (mkNtcpManager (mkSocketAddr (V4 [127; 0; 0; 1]) 9001) l true) [status] eq_refl) as (t' & H1 & _ & H2).
  exists h, t'. split; [exact Hrun|]. by split.
Defined.

End NtcpConnectProps.
