(* ===== verification/Restart.v ===== *)
(** * A router that is started again

    A router built for the first time writes its keys and those of its NTCP2
    transport; built again from the same configuration, it reads them.  This file
    composes the two builds of [Router.Builder_build], with what the first has
    written as the files that the second finds. *)

From S2P Require Import Prelude Nom Cookie Util Wire Crypto ElGamal Data Address Dest I2np Message Session NetDb NetDbSpec Participant Transport Router.
From S2P Require Ntcp2Frame Ntcp2Handshake Duplex.

(** ** Key files that were not written whole *)

Section Keys.
Context {nom : Nom} {cf : CookieFactory} {bu : BigUintOps} {sc : SigCrates}.

Lemma waits_router_secret_keys rsk b :
  wf_RouterSecretKeys rsk -> writes (gen_router_secret_keys rsk) b -> waits router_secret_keys b.
Proof.
  intros (Hr & Hp & Hs & Ht) Hw.
  destruct (rt_router_identity _ Hr) as (b1 & W1 & P1). destruct (ssk_roundtrip _ Hs) as (b3 & Hb3 & L3 & _).
  assert (writes (gen_router_secret_keys rsk) (b1 ++ sk_bytes (private_key_ rsk) ++ b3)) as Hw'.
  { apply writes_seq; [exact W1|]. apply writes_seq; [apply writes_slice|by apply writes_slice_of]. }
  rewrite (writes_det _ _ _ Hw Hw'), app_assoc.
  assert (parses private_key (sk_bytes (private_key_ rsk)) (private_key_ rsk)) as P2 by (by apply parses_private_key).
  eapply waits_bind; [exact (parses_pair _ _ _ _ _ _ P1 P2)| |].
  - eapply waits_pair; [exact P1|by apply (waits_router_identity (rid_ rsk))|].
    apply waits_map_pure, waits_take. symmetry. apply Hp.
  - cbv beta iota. rewrite Ht. apply waits_last, waits_map_res, waits_take. by rewrite L3.
Qed.

End Keys.

(** ** What the second start finds *)

Section Restart.
Context {nom : Nom} {cf : CookieFactory} {bu : BigUintOps} {sc : SigCrates} {sha : Sha2} {fl : Flate2} {bf : BloomFilter}.
Context {txt : IpText} {b64 : Ntcp2Handshake.Base64}.

(** what was written to a file last *)
Definition file_at (files : Files) (path : bytes) : option bytes :=
  snd <$> List.find (fun f => bool_decide (f.1 = path)) (rev files).

(** the environment [next], with the files of a first build in [env]; the
    configuration is the same *)
Definition restart (env : BuildEnv) (files : Files) (next : BuildEnv) : BuildEnv :=
  mkBuildEnv (be_settings env)
    (fun p => match file_at files p with Some _ => true | None => be_exists next p end)
    (fun p => match file_at files p with Some c => Some c | None => be_read next p end)
    (be_write next) (be_io_error next) (be_new_keys next) (be_parse_socket env) (be_keypair next) (be_now next) (be_instant next).

(** where a configuration puts the files and the sockets *)
Record configured (env : BuildEnv) (cfg : bytes) (get : Settings) (kf nf : bytes) (a1 a2 : SocketAddr) : Prop := {
  cg_settings : be_settings env (Some cfg) = Some get;
  cg_keyfile : get ROUTER_KEYFILE = CfgString kf;
  cg_ntcp2_keyfile : get NTCP2_KEYFILE = CfgString nf;
  cg_distinct : kf <> nf;
  cg_ri : match get RI_FILE with CfgString rf => rf <> kf /\ rf <> nf | CfgNotFound => True | CfgError => False end;
  cg_ntcp : exists s, get NTCP_LISTEN = CfgString s /\ be_parse_socket env s = Some a1;
  cg_ntcp2 : exists s, get NTCP2_LISTEN = CfgString s /\ be_parse_socket env s = Some a2
}.

(** the router info can be written, or need not be *)
Definition ri_writable (get : Settings) (env : BuildEnv) : Prop :=
  match get RI_FILE with CfgString rf => exists n, be_write env rf = FaTook n | _ => True end.

Lemma restart_configured env cfg get kf nf a1 a2 files next :
  configured env cfg get kf nf a1 a2 -> configured (restart env files next) cfg get kf nf a1 a2.
Proof. intros []. by split. Qed.

(** the NTCP2 transport, from a key file or new *)
Lemma from_config_reads env cfg get kf nf a1 a2 data :
  configured env cfg get kf nf a1 a2 -> be_read env nf = Some data ->
  Manager_from_config get env = let! m := ntcp2_from_file a2 data in cret (mkManager (NtcpManager_new a1) m, []).
Proof.
  intros [_ _ Hnf _ _ (s1 & E1 & P1) (s2 & E2 & P2)] Hr.
  unfold Manager_from_config, get_string. rewrite E1, E2, Hnf. cbn [unwrap obind]. rewrite P1, P2. cbn [unwrap obind]. by rewrite Hr.
Qed.

Lemma from_config_writes env cfg get kf nf a1 a2 private public iv n :
  configured env cfg get kf nf a1 a2 -> be_read env nf = None -> be_keypair env = (private, public, iv) -> be_write env nf = FaTook n ->
  let m := Ntcp2Manager_new a2 private public iv in
  Manager_from_config get env = cret (mkManager (NtcpManager_new a1) m, [(nf, ztake n (ntcp2_to_file m))]).
Proof.
  intros [_ _ Hnf _ _ (s1 & E1 & P1) (s2 & E2 & P2)] Hr Hk Hw m.
  unfold Manager_from_config, get_string. rewrite E1, E2, Hnf. cbn [unwrap obind]. rewrite P1, P2. cbn [unwrap obind].
  rewrite Hr, Hk. unfold to_file. rewrite Hw. reflexivity.
Qed.

(** a build, once it has its keys and transports *)
Lemma build_from env cfg get kf nf a1 a2 keys m w1 w2 :
  configured env cfg get kf nf a1 a2 -> ri_writable get env ->
  Builder_keys get env None = cret (Ok keys, w1) -> Manager_from_config get env = cret (m, w2) ->
  wf_RouterIdentity (rid_ keys) -> key_matches (rid_ keys) (signing_private_key_ keys) ->
  Forall wf_RouterAddress (Manager_addresses m) -> be_now env < 2 ^ 64 * 10 ^ 6 ->
  exists r w3, Builder_build env (config_file Builder_new cfg) = cret (Ok r, w1 ++ w2 ++ w3) /\
    (exists ri h, r = mkRouter keys ri m (Some (Engine_new (be_instant env))) (Some h) (Some (Participant_new (be_instant env))) /\
       RouterIdentity_hash (rid_ keys) = cret h /\ addresses ri = Manager_addresses m) /\
    Forall (fun f => get RI_FILE = CfgString f.1) w3.
Proof.
  intros [Hs _ _ _ Hri _ _] Hw Hk Hm Hrid Hkm Ha Hnow.
  destruct (own_ri_ok (fun _ _ _ => true) (be_now env) keys (Manager_addresses m) Hrid Hkm Hnow Ha ltac:(done))
    as (ri & bs & h & Hsig & Hra & Hb & _ & Hh & _).
  unfold Builder_build. cbn [config_file Builder_new b_cfg_file b_keys b_comms b_ri_file]. rewrite Hs. cbn [unwrap obind].
  rewrite Hk. cbn [cret cbind]. rewrite Hm. cbn [cret cbind]. rewrite Hsig. cbn [cret cbind]. rewrite Hb, Hh.
  unfold ri_writable in Hw. destruct (get RI_FILE) as [rf| |]; [|exists (mkRouter keys ri m (Some (Engine_new (be_instant env))) (Some h) (Some (Participant_new (be_instant env)))), []|done].
  - destruct Hw as [n Hn]. exists (mkRouter keys ri m (Some (Engine_new (be_instant env))) (Some h) (Some (Participant_new (be_instant env)))), [(rf, ztake n bs)].
    unfold to_file. rewrite Hn. cbn [cret cbind]. split; [done|]. split; [by exists ri, h|by constructor].
  - split; [done|]. split; [by exists ri, h|done].
Qed.

(** the two key files, among all that was written *)
Lemma files_found (get : Settings) kf nf kb nb w3 : kf <> nf ->
  match get RI_FILE with CfgString rf => rf <> kf /\ rf <> nf | CfgNotFound => True | CfgError => False end ->
  Forall (fun f : bytes * bytes => get RI_FILE = CfgString f.1) w3 ->
  file_at ([(kf, kb)] ++ [(nf, nb)] ++ w3) kf = Some kb /\ file_at ([(kf, kb)] ++ [(nf, nb)] ++ w3) nf = Some nb.
Proof.
  intros Hne Hri Hw. unfold file_at. rewrite !rev_app_distr. cbn [rev app].
  assert (forall p, p = kf \/ p = nf -> forall l, List.find (fun f : bytes * bytes => bool_decide (f.1 = p)) (rev w3 ++ l) = List.find (fun f => bool_decide (f.1 = p)) l) as Hskip.
  { intros p Hp l. apply Forall_rev in Hw. induction Hw as [|f w Hf _ IH]; [done|]. cbn. rewrite Hf in Hri.
    rewrite bool_decide_eq_false_2 by (destruct Hp as [-> | ->]; apply Hri). exact IH. }
  rewrite <- !app_assoc. rewrite !Hskip by tauto. cbn.
  rewrite (bool_decide_eq_true_2 (nf = nf)), (bool_decide_eq_true_2 (kf = kf)) by done.
  by rewrite (bool_decide_eq_false_2 (nf = kf)) by done.
Qed.

End Restart.

(** ** Properties *)

Module RestartProps.
Section Props.
Context {nom : Nom} {cf : CookieFactory} {bu : BigUintOps} {sc : SigCrates} {sha : Sha2} {fl : Flate2} {bf : BloomFilter}.
Context {txt : IpText} {b64 : Ntcp2Handshake.Base64}.

(** C17: A router that is started again is the same router.  The first build
    makes new keys and writes them, those of the identity and those of the NTCP2
    transport; built again from the same configuration, with the files that the
    first build left, it has the same keys, the same transports and publishes the
    same addresses, whatever else has changed.  But one write is all a file gets:
    when that took only a part, the first build succeeds all the same, and the
    second fails with a read error, or panics on the NTCP2 keys. *)
Theorem restart_keeps_identity (env next : BuildEnv) (cfg : bytes) (get : Settings) (kf nf : bytes) (a1 a2 : SocketAddr)
    (keys : RouterSecretKeys) (private public iv : bytes) (n1 n2 : Z) :
  configured env cfg get kf nf a1 a2 -> ri_writable get env -> ri_writable get next ->
  be_exists env kf = false -> be_new_keys env = cret keys -> be_write env kf = FaTook n1 ->
  be_read env nf = None -> be_keypair env = (private, public, iv) -> be_write env nf = FaTook n2 ->
  wf_RouterSecretKeys keys -> key_matches (rid_ keys) (signing_private_key_ keys) ->
  len private = 32 -> len public = 32 -> len iv = 16 ->
  let m := mkManager (NtcpManager_new a1) (Ntcp2Manager_new a2 private public iv) in
  Forall wf_RouterAddress (Manager_addresses m) -> be_now env < 2 ^ 64 * 10 ^ 6 -> be_now next < 2 ^ 64 * 10 ^ 6 ->
  exists kb r files, RouterSecretKeys_to_bytes keys = cret kb /\
    Builder_build env (config_file Builder_new cfg) = cret (Ok r, files) /\
    r_keys r = keys /\ r_comms r = m /\
    let second := Builder_build (restart env files next) (config_file Builder_new cfg) in
    (len kb <= n1 -> 80 <= n2 -> exists r' files', second = cret (Ok r', files') /\
       r_keys r' = keys /\ r_comms r' = m /\ addresses (r_ri r') = addresses (r_ri r) /\
       Forall (fun f => get RI_FILE = CfgString f.1) files') /\
    (len kb <= n1 -> 0 <= n2 < 80 -> second = Panic) /\
    (0 <= n1 < len kb -> exists e, second = cret (Err (BeRead e), [])).
Proof.
  intros Hc Hri1 Hri2 Hex Hnew Hw1 Hrd Hkp Hw2 Hwf Hkm Lp Lq Li m Ha Hnow1 Hnow2. pose proof Hc as [Hset Hkf Hnf Hne Hrf _ _].
  destruct (rt_serialize _ _ _ _ (rt_router_secret_keys keys Hwf) (writes_le_router_secret_keys keys Hwf)) as (kb & Hkb & Wkb & Pkb & _); [lia|].
  assert (Builder_keys get env None = cret (Ok keys, [(kf, ztake n1 kb)])) as Hbk.
  { unfold Builder_keys. rewrite Hkf, Hex, Hnew. cbn [cret cbind]. unfold to_file, RouterSecretKeys_to_bytes. rewrite Hw1, Hkb. reflexivity. }
  pose proof (from_config_writes env cfg get kf nf a1 a2 private public iv n2 Hc Hrd Hkp Hw2) as Hm. cbv zeta in Hm. fold m in Hm.
  destruct (build_from env cfg get kf nf a1 a2 keys m _ _ Hc Hri1 Hbk Hm (proj1 Hwf) Hkm Ha Hnow1) as (r & w3 & Hb & (ri & h & -> & _ & Ead) & Hw3).
  match type of Hb with _ = cret (_, ?f) => set (files := f) in Hb end.
  assert (file_at files kf = Some (ztake n1 kb) /\ file_at files nf = Some (ztake n2 (ntcp2_to_file (ntcp2 m)))) as [F1 F2]
    by exact (files_found get kf nf (ztake n1 kb) (ztake n2 (ntcp2_to_file (ntcp2 m))) w3 Hne Hrf Hw3).
  clearbody files. eexists kb, _, files. split; [exact Hkb|]. split; [exact Hb|]. split; [done|]. split; [done|].
  pose proof (restart_configured env cfg get kf nf a1 a2 files next Hc) as Hc2.
  assert (be_read (restart env files next) nf = Some (ztake n2 (ntcp2_to_file (ntcp2 m)))) as R2 by (unfold restart; cbn [be_read]; by rewrite F2).
  pose proof (from_config_reads _ _ _ _ _ _ _ _ Hc2 R2) as Hm2.
  assert (Builder_keys get (restart env files next) None =
    let! x := RouterSecretKeys_from_file (ztake n1 kb) in cret (rmap_err BeRead x, [])) as Hbk2.
  { unfold Builder_keys. rewrite Hkf. unfold restart. cbn [be_exists be_read]. by rewrite F1. }
  assert (len (ntcp2_to_file (ntcp2 m)) = 80) as L80 by (unfold ntcp2_to_file, m; cbn; rewrite !len_app, Lp, Lq, Li; reflexivity).
  assert (len kb <= n1 -> Builder_keys get (restart env files next) None = cret (Ok keys, [])) as Hkeys.
  { intros H. rewrite Hbk2, (proj2 (Duplex.room_all n1 kb H)). unfold RouterSecretKeys_from_file, read_with. by rewrite (parses_exact _ _ _ Pkb). }
  cbv zeta. split; [|split].
  - intros H1 H2. specialize (Hkeys H1). rewrite (proj2 (Duplex.room_all n2 _ ltac:(by rewrite L80))) in Hm2.
    rewrite (proj2 (TransportProps.ntcp2_keyfile a2 [] (ntcp2 m)) Lp Lq Li) in Hm2. cbn [obind] in Hm2.
    destruct (build_from _ cfg get kf nf a1 a2 keys m _ _ Hc2 Hri2 Hkeys Hm2 (proj1 Hwf) Hkm Ha Hnow2) as (r' & w' & Hb' & (ri' & h' & -> & _ & Ead') & Hw').
    eexists _, w'. split; [exact Hb'|]. cbn [r_keys r_comms r_ri]. split_and!; [done..|by rewrite Ead', Ead|done].
  - intros H1 H2. specialize (Hkeys H1).
    assert (ntcp2_from_file a2 (ztake n2 (ntcp2_to_file (ntcp2 m))) = Panic) as Hp.
    { apply (TransportProps.ntcp2_keyfile a2 _ (ntcp2 m)). rewrite len_ztake by lia. lia. }
    rewrite Hp in Hm2. cbn [obind] in Hm2. unfold Builder_build. cbn [config_file Builder_new b_cfg_file b_keys b_comms].
    rewrite (cg_settings _ _ _ _ _ _ _ Hc2). cbn [unwrap obind]. rewrite Hkeys. cbn [cret cbind]. by rewrite Hm2.
  - intros H. destruct (waits_router_secret_keys keys kb Hwf Wkb (ztake n1 kb) (zdrop n1 kb)) as [k Hk].
    { by rewrite ztake_zdrop. } { intros E. assert (len (zdrop n1 kb) = 0) as H0 by (by rewrite E). rewrite len_zdrop in H0 by lia. lia. }
    exists (RIncomplete k). unfold Builder_build. cbn [config_file Builder_new b_cfg_file b_keys b_comms].
    rewrite (cg_settings _ _ _ _ _ _ _ Hc2). cbn [unwrap obind]. rewrite Hbk2. unfold RouterSecretKeys_from_file, read_with. by rewrite Hk.
Qed.

End Props.
#[local] Existing Instances nom_ref cf_ref biguint_ref sigcrates_ref sha2_ref flate_ref bloom_ref ip_ref.
#[local] Existing Instances Ntcp2Handshake.Ntcp2HandshakeSamples.toy_base64.
Import DataSamples RouterProps.

(** all settings are there; both sockets are the sample's *)
Definition settings : Settings := fun key =>
  if bool_decide (key = ROUTER_KEYFILE) then CfgString [107]
  else if bool_decide (key = NTCP2_KEYFILE) then CfgString [110]
  else if bool_decide (key = RI_FILE) then CfgString [114]
  else CfgString [115].

Definition first_env (took : Z) : BuildEnv :=
  mkBuildEnv (fun _ => Some settings) (fun _ => false) (fun _ => None) (fun p => FaTook (if bool_decide (p = [110]) then took else 10000)) []
    (cret my_keys) (fun _ => Some my_socket) (zeros 32, zeros 32, zeros 16) (10 ^ 18) 0.

(** later, with other draws *)
Definition next_env : BuildEnv :=
  mkBuildEnv (fun _ => None) (fun _ => false) (fun _ => None) (fun _ => FaTook 10000) [] Panic (fun _ => None) ([], [], []) (10 ^ 18 + 5) 1.

Lemma first_configured took : configured (first_env took) [99] settings [107] [110] my_socket my_socket.
Proof.
  split; try reflexivity; [by discriminate|by split; discriminate| |]; exists [115]; split; reflexivity.
Qed.

Lemma my_keys_ok : wf_RouterSecretKeys my_keys /\ key_matches (rid_ my_keys) (signing_private_key_ my_keys).
Proof.
  split; [|split; [split; reflexivity|reflexivity]].
  split; [exact ref_rid_wf|]. split; [by split; [apply bytes_okb_ok|]|]. split; [split; reflexivity|reflexivity].
Qed.

Lemma restart_keeps_identity_witness :
  exists kb r files, RouterSecretKeys_to_bytes my_keys = cret kb /\
    Builder_build (first_env 79) (config_file Builder_new [99]) = cret (Ok r, files) /\ r_keys r = my_keys /\
    (len kb <= 10000 -> Builder_build (restart (first_env 79) files next_env) (config_file Builder_new [99]) = Panic).
Proof.
  destruct (restart_keeps_identity (first_env 79) next_env [99] settings [107] [110] my_socket my_socket my_keys (zeros 32) (zeros 32) (zeros 16) 10000 79
    (first_configured 79) (ex_intro _ 10000 eq_refl) (ex_intro _ 10000 eq_refl) eq_refl eq_refl eq_refl eq_refl eq_refl eq_refl
    (proj1 my_keys_ok) (proj2 my_keys_ok) eq_refl eq_refl eq_refl my_addresses_wf eq_refl eq_refl)
    as (kb & r & files & H1 & H2 & H3 & _ & _ & H4 & _).
  exists kb, r, files. split; [exact H1|]. split; [exact H2|]. split; [exact H3|]. intros H. apply H4; [exact H|]. split; [discriminate|reflexivity].
Defined.

End RestartProps.
