(* ===== verification/Mock.v ===== *)
(** * Stand-ins

    The mocks of [src/router/mock.rs] and [src/netdb/mock.rs]: a distributor that
    collects what it gets, a communication system that says yes to everything, a
    router's context with new keys, and a network database that only answers
    lookups of router infos.  Tests use them, and the command line client of
    [Program]. *)

From S2P Require Import Prelude Nom Cookie Util Wire Crypto Data Dest I2np Message NetDb NetDbSpec Client.

Section Router.
Context {cf : CookieFactory} {sc : SigCrates} {sha : Sha2}.

(** [MockDistributor]: what it has received *)
Definition MockDistributor : Type := list (Hash * Message).
Definition MockDistributor_new : MockDistributor := [].
Definition MockDistributor_handle (d : MockDistributor) (from : Hash) (msg : Message) : MockDistributor := d ++ [(from, msg)].

(** [MockCommSystem] has no state *)
Definition mock_addresses : list RouterAddress := [].
Definition mock_is_established (_hash : Hash) : bool := false.
Definition mock_send (_peer : RouterInfo) (_msg : Message) : result unit (RouterInfo * Message) := Ok tt.

(** [mock_context_with_netdb]: its keys and its router info; new keys and the
    clock are arguments *)
Definition mock_context_with_netdb (new_keys : comp RouterSecretKeys) (now : Z) : comp (RouterSecretKeys * RouterInfo) :=
  let* keys := new_keys in
  let ri := RouterInfo_new now (rid_ keys) in
  let* ri := RouterInfo_sign ri (signing_private_key_ keys) in
  cret (keys, ri).

End Router.

(** ** The database *)

Section NetDb.
Context {cf : CookieFactory} {sc : SigCrates} {sha : Sha2}.

(** the router infos stored *)
Definition MockNetDb : Type := gmap Hash RouterInfo.
Definition MockNetDb_new : MockNetDb := ∅.
Definition mock_store_router_info (db : MockNetDb) (key : Hash) (ri : RouterInfo) : MockNetDb := <[key := ri]> db.

(** [self.ri_ds.get(&query.key).cloned().ok_or(NotFound)] *)
Definition mock_answer (db : MockNetDb) (key : Hash) : result RouterInfo LookupError :=
  match db !! key with Some ri => Ok ri | None => Err LeNotFound end.

(** [MockNetDb::poll]: the clients' queue; [clients]: some client is there, so
    that an empty queue is not its end; [listens]: whether somebody waits for the
    answer on a channel.  A query that is not answered is dropped with its
    sender. *)
Fixpoint MockNetDb_poll (fuel : nat) (clients : bool) (listens : nat -> bool) (db : MockNetDb) (ch : Chan) : comp (Chan * Poll unit unit) :=
  match fuel with
  | O => Ret None
  | S fuel =>
      match ch_queue ch with
      | q :: rest =>
          let ch := mkChan rest (ch_open ch) (ch_cells ch) (ch_next ch) in
          match q with
          | QLookupRouterInfo key _ _ ret =>
              let! _ := unwrap (if listens ret then Some tt else None) in
              MockNetDb_poll fuel clients listens db (send_answer ret (AnLookupRI (mock_answer db key)) ch)
          | q => MockNetDb_poll fuel clients listens db (with_cell (query_ret q) CellGone ch)
          end
      | [] => if clients then cret (ch, NotReady) else MockNetDb_poll fuel clients listens db ch
      end
  end.

(** the first poll of a lookup, and one that finds the answer *)
Lemma lookup_asks (ch : Chan) key timeout_ms from_peer : ch_open ch = true -> ch_queue ch = [] ->
  LookupRouterInfo_poll ch (LookupRouterInfo_new key timeout_ms from_peer) =
    Ret (mkChan [QLookupRouterInfo key timeout_ms from_peer (ch_next ch)] true (<[ch_next ch := CellWaiting]> (ch_cells ch)) (S (ch_next ch)),
         mkOneShot _ None (Some (ch_next ch)), NotReady).
Proof.
  destruct ch as [q o cells n]. cbn [ch_open ch_queue]. intros -> ->.
  unfold LookupRouterInfo_poll, LookupRouterInfo_new, call_poll, ask, oneshot, Client_send, recv.
  cbn [os_query os_rx ch_open ch_queue ch_cells ch_next app unwrap obind]. by rewrite lookup_insert_eq.
Qed.

Lemma lookup_answered (ch : Chan) rx r : ch_cells ch !! rx = Some (CellSent (AnLookupRI r)) ->
  LookupRouterInfo_poll ch (mkOneShot _ None (Some rx)) =
    Ret (with_cell rx CellGone ch, mkOneShot _ None (Some rx), match r with Ok ri => Ready ri | Err e => PollErr (CeLookup e) end).
Proof.
  intros H. unfold LookupRouterInfo_poll, call_poll, ask, recv. cbn [os_query os_rx unwrap obind]. rewrite H. by destruct r.
Qed.

End NetDb.

(** ** Properties *)

Module MockProps.
Section Props.
Context {cf : CookieFactory} {sc : SigCrates} {sha : Sha2}.

(** A client that looks up a router info gets what was stored under the key, or
    that it is not found; a client that has given up panics the mock; and once all
    clients are gone, a poll of the mock never returns. *)
Theorem mock_netdb_answers (db : MockNetDb) (ch : Chan) (key : Hash) (timeout_ms : Z) (from_peer : option RouterInfo) :
  ch_open ch = true -> ch_queue ch = [] ->
  exists ch1 f1, LookupRouterInfo_poll ch (LookupRouterInfo_new key timeout_ms from_peer) = Ret (ch1, f1, NotReady) /\
    (forall fuel clients listens, listens (ch_next ch) = false -> MockNetDb_poll (S fuel) clients listens db ch1 = Panic) /\
    forall listens, listens (ch_next ch) = true ->
      exists ch2, MockNetDb_poll 2 true listens db ch1 = cret (ch2, NotReady) /\
        (exists ch3 f3, LookupRouterInfo_poll ch2 f1 =
           Ret (ch3, f3, match db !! key with Some ri => Ready ri | None => PollErr (CeLookup LeNotFound) end)) /\
        forall fuel, MockNetDb_poll fuel false listens db ch2 = Ret None.
Proof.
  intros Ho Hq. eexists _, _. split; [by apply lookup_asks|]. split.
  { intros fuel clients listens Hl. cbn [MockNetDb_poll ch_queue]. by rewrite Hl. }
  intros listens Hl. cbn [MockNetDb_poll ch_queue ch_open ch_cells ch_next]. rewrite Hl. cbn [unwrap obind].
  unfold send_answer. cbn [ch_cells]. rewrite lookup_insert_eq. unfold with_cell. cbn [ch_queue ch_open ch_cells ch_next].
  eexists. split; [reflexivity|]. split.
  - destruct (db !! key) as [ri|] eqn:E; eexists _, _; rewrite (lookup_answered _ _ (mock_answer db key)) by (cbn [ch_cells]; apply lookup_insert_eq);
      unfold mock_answer; by rewrite E.
  - intros fuel. induction fuel as [|fuel IH]; [done|]. cbn [MockNetDb_poll ch_queue]. exact IH.
Qed.

End Props.

#[local] Existing Instances cf_ref sigcrates_ref sha2_ref.
Import DataSamples NetDbSamples.

Lemma mock_netdb_answers_witness :
  exists ch1 f1 ch2, LookupRouterInfo_poll (mkChan [] true ∅ 0) (LookupRouterInfo_new key 5 None) = Ret (ch1, f1, NotReady) /\
    MockNetDb_poll 2 true (fun _ => true) (mock_store_router_info MockNetDb_new key ri) ch1 = cret (ch2, NotReady) /\
    exists ch3 f3, LookupRouterInfo_poll ch2 f1 = Ret (ch3, f3, Ready ri).
Proof.
  destruct (mock_netdb_answers (mock_store_router_info MockNetDb_new key ri) (mkChan [] true ∅ 0) key 5 None eq_refl eq_refl) as (ch1 & f1 & H1 & _ & H2).
  destruct (H2 (fun _ => true) eq_refl) as (ch2 & H3 & (ch3 & f3 & H4) & _).
  exists ch1, f1, ch2. split; [exact H1|]. split; [exact H3|]. exists ch3, f3.
  assert (mock_store_router_info MockNetDb_new key ri !! key = Some ri) as E by exact (lookup_insert_eq (M := gmap Hash) ∅ key ri). rewrite E in H4. exact H4.
Defined.

End MockProps.
