(* ===== verification/Program.v ===== *)
(** * The program

    [src/bin/ire.rs]: the router, a key generator and a test client behind one
    command line.  [clap] parses the command line, so the matches are arguments;
    [tokio::run] runs what each command starts, until it is done, and the exit code
    does not depend on it. *)

From S2P Require Import Prelude Nom Cookie Util Wire Crypto ElGamal Data Address Dest I2np Message Session NetDb NetDbSpec Participant Transport Router Restart Mock.
From S2P Require Ntcp2Frame Ntcp2Codec Ntcp2Handshake Ntcp2Session Duplex Connect Ntcp2Connect.

(** what [clap] has matched; each value is required, so that it is there *)
Inductive CliMatches :=
| McGen (routerKeys : option bytes)
| McClient (routerKeys peerInfo transport : option bytes)
| McReseed
| McOther.

Inductive Matches := MRouter (cfgFile : option bytes) | MCli (sub : CliMatches) | MOther.

Section Program.
Context {nom : Nom} {cf : CookieFactory} {bu : BigUintOps} {sc : SigCrates} {sha : Sha2} {fl : Flate2} {bf : BloomFilter}.
Context {txt : IpText} {b64 : Ntcp2Handshake.Base64} {noise : Ntcp2Codec.NoiseTransport} {sip : Ntcp2Codec.SipHash}.
Context {hs : Ntcp2Handshake.NoiseHandshake}.

(** what is handed to [tokio::run]; a client's connection, with the context of its
    mock or with the keys that it is made with *)
Inductive Started :=
| StNothing
| StRouter (r : Router) (tasks : Engine * Hash * Participant)
| StNtcp (m : NtcpManager) (keys : RouterSecretKeys) (peer_ri : RouterInfo) (addr : SocketAddr)
| StNtcp2 (m : Ntcp2Manager) (mock_ri : RouterInfo) (h : Ntcp2Handshake.OBHandshake) (addr : SocketAddr)
| StReseed.

(** what the program meets: files, draws and clocks as in a build; which sockets
    are free; the padding that a handshake draws *)
Record ProgramEnv := mkProgramEnv {
  pe_build : BuildEnv;
  pe_can_bind : SocketAddr -> bool;
  pe_draw : nat -> Z -> bytes;
  pe_padlen : Z
}.

(** the files written and what is started; then the exit code *)
Definition Run : Type := Files * Started * Z.

(** [from_file(..).unwrap()] *)
Definition read_file {A} (env : BuildEnv) (path : bytes) (from_file : bytes -> outcome (result A ReadError)) : outcome A :=
  let! data := unwrap (be_read env path) in
  let! r := from_file data in
  unwrap (rok r).

Definition cli_gen (env : ProgramEnv) (routerKeys : option bytes) : comp Run :=
  let* pkf := be_new_keys (pe_build env) in
  let! path := unwrap routerKeys in
  let* (r, files) := to_file (pe_build env) path (RouterSecretKeys_to_bytes pkf) in
  let! _ := unwrap (rok r) in
  cret (files, StNothing, 0).

Definition cli_router (env : ProgramEnv) (cfgFile : option bytes) : comp Run :=
  let builder := Builder_new in
  let builder := match cfgFile with Some cfg_file => config_file builder cfg_file | None => builder end in
  let* (r, files) := Builder_build (pe_build env) builder in
  let! r := unwrap (rok r) in
  let* (r, tasks) := Router_start (pe_can_bind env) r in
  cret (files, StRouter r tasks, 0).

Definition NTCP : bytes := ascii_bytes "NTCP".
Definition NTCP2 : bytes := ascii_bytes "NTCP2".
Definition LOCALHOST : bytes := ascii_bytes "127.0.0.1:0".

(** up to the connection that it starts *)
Definition cli_client (env : ProgramEnv) (routerKeys peerInfo transport : option bytes) : comp Run :=
  let be := pe_build env in
  let! path := unwrap routerKeys in
  let! rsk := read_file be path RouterSecretKeys_from_file in
  let! path := unwrap peerInfo in
  let! peer_ri := read_file be path RouterInfo_from_file in
  let ri := RouterInfo_new (be_now be) (rid_ rsk) in
  let* ri := RouterInfo_sign ri (signing_private_key_ rsk) in
  match transport with
  | None => Panic
  | Some t =>
      if decide (t = NTCP) then
        let! addr := unwrap (be_parse_socket be LOCALHOST) in
        let ntcp := NtcpManager_new addr in
        let* _ := mock_context_with_netdb (be_new_keys be) (be_now be) in
        let ntcp := ntcp_set_context ntcp in
        let* to := ntcp_connect peer_ri in
        let! to := unwrap to in
        cret ([], StNtcp ntcp rsk peer_ri to, 0)
      else if decide (t = NTCP2) then
        let! addr := unwrap (be_parse_socket be LOCALHOST) in
        let '(private, public, iv) := be_keypair be in
        let ntcp2 := Ntcp2Manager_new addr private public iv in
        let* (_, mock_ri) := mock_context_with_netdb (be_new_keys be) (be_now be) in
        let ntcp2 := ntcp2_set_context ntcp2 in
        let* conn := Ntcp2Handshake.OBHandshake_new (pe_draw env) (pe_padlen env) (static_private_key ntcp2) ri peer_ri in
        let! (conn, to) := unwrap (rok conn) in
        cret ([], StNtcp2 ntcp2 mock_ri conn to, 0)
      else Panic
  end.

(** once the connection is there: [sink().send(..)], for which the context of the
    mock must be set; the manager, any connection started, the result *)
Definition ntcp2_client_connected (env : ProgramEnv) (mock_ri : RouterInfo) (m : Ntcp2Manager) (peer_ri : RouterInfo) :=
  let! _ := unwrap (if n2_ctx m then Some tt else None) in
  ntcp2_start_send (pe_draw env) (pe_padlen env) mock_ri m peer_ri dummy_data.

Definition ntcp_client_connected (m : NtcpManager) (peer_ri : RouterInfo) :=
  let! _ := unwrap (if nm_ctx m then Some tt else None) in
  ntcp_start_send m peer_ri dummy_data.

(** the reseeder gets a mock's client *)
Definition cli_reseed (env : ProgramEnv) : comp Run :=
  let* _ := mock_context_with_netdb (be_new_keys (pe_build env)) (be_now (pe_build env)) in
  cret ([], StReseed, 0).

Definition inner_main (env : ProgramEnv) (matches : Matches) : comp Run :=
  match matches with
  | MRouter cfgFile => cli_router env cfgFile
  | MCli (McGen routerKeys) => cli_gen env routerKeys
  | MCli (McClient routerKeys peerInfo transport) => cli_client env routerKeys peerInfo transport
  | MCli McReseed => cli_reseed env
  | MCli McOther => Panic
  | MOther => cret ([], StNothing, 1)
  end.

End Program.

(** ** Lemmas *)

Section Lemmas.
Context {nom : Nom} {cf : CookieFactory} {bu : BigUintOps} {sc : SigCrates} {sha : Sha2} {fl : Flate2} {bf : BloomFilter}.
Context {txt : IpText} {b64 : Ntcp2Handshake.Base64} {noise : Ntcp2Codec.NoiseTransport} {sip : Ntcp2Codec.SipHash}.
Context {hs : Ntcp2Handshake.NoiseHandshake}.

Lemma obind_comp_inv {A B} (m : outcome A) (k : A -> comp B) b : (let! x := m in k x) = cret b -> exists a, m = Ret a /\ k a = cret b.
Proof. destruct m as [a|]; [|done]. by exists a. Qed.

Lemma unwrap_bind_inv {A B} (o : option A) (k : A -> comp B) b : (let! x := unwrap o in k x) = cret b -> exists a, o = Some a /\ k a = cret b.
Proof. destruct o as [a|]; [|done]. by exists a. Qed.

Lemma read_file_inv {A} env path (from_file : bytes -> outcome (result A ReadError)) a : read_file env path from_file = Ret a ->
  exists data, be_read env path = Some data /\ from_file data = Ret (Ok a).
Proof.
  unfold read_file. destruct (be_read env path) as [data|]; [|done]. cbn [unwrap obind].
  destruct (from_file data) as [[x|e]|] eqn:E; [|done..]. intros [= ->]. by exists data.
Qed.

(** a client of NTCP2 as it is started *)
Lemma ntcp2_client_inv env k p t files m mock_ri conn to code :
  cli_client env k p t = cret (files, StNtcp2 m mock_ri conn to, code) ->
  files = [] /\ code = 0 /\ exists addr private public iv path data peer_ri ri,
    m = ntcp2_set_context (Ntcp2Manager_new addr private public iv) /\
    p = Some path /\ be_read (pe_build env) path = Some data /\ RouterInfo_from_file data = Ret (Ok peer_ri) /\
    Ntcp2Handshake.OBHandshake_new (pe_draw env) (pe_padlen env) private ri peer_ri = cret (Ok (conn, to)).
Proof.
  unfold cli_client. intros (kp & -> & H)%unwrap_bind_inv. apply obind_comp_inv in H as (rsk & _ & H).
  apply unwrap_bind_inv in H as (pp & -> & H). apply obind_comp_inv in H as (peer_ri & (data & Er & Ep)%read_file_inv & H).
  apply cbind_inv in H as (ri & _ & H). destruct t as [t|]; [|done].
  destruct (decide (t = NTCP)) as [Et|Et].
  { apply unwrap_bind_inv in H as (a & _ & H). apply cbind_inv in H as (x & _ & H). apply cbind_inv in H as (o & _ & H).
    apply unwrap_bind_inv in H as (b & _ & H). done. }
  destruct (decide (t = NTCP2)) as [Et2|Et2]; [|done]. apply unwrap_bind_inv in H as (a & _ & H).
  destruct (be_keypair (pe_build env)) as [[private public] iv]. apply cbind_inv in H as ([keys mri] & _ & H).
  apply cbind_inv in H as (c & Hc & H). apply unwrap_bind_inv in H as ([c' to'] & Hr & H). injection H as <- <- <- <- <- <-.
  destruct c as [c|er]; [|done]. injection Hr as ->. split; [done|]. split; [done|].
  exists a, private, public, iv, pp, data, peer_ri, ri. split; [reflexivity|]. split; [reflexivity|]. split; [exact Er|]. split; [exact Ep|]. exact Hc.
Qed.

End Lemmas.

(** ** Properties *)

Module ProgramProps.
Section Props.
Context {nom : Nom} {cf : CookieFactory} {bu : BigUintOps} {sc : SigCrates} {sha : Sha2} {fl : Flate2} {bf : BloomFilter}.
Context {txt : IpText} {b64 : Ntcp2Handshake.Base64} {noise : Ntcp2Codec.NoiseTransport} {sip : Ntcp2Codec.SipHash}.
Context {hs : Ntcp2Handshake.NoiseHandshake}.

(** C18: The keys that [ire cli gen] writes are those of the router that is started
    with them: when its configuration names the file, and both its sockets are free,
    [ire router] starts a router with that identity, which reads nothing else and
    makes no other keys.  If the file got only a part of the keys, [gen] reports
    success all the same and [router] panics. *)
Theorem generated_keys_start_a_router (gen_env : ProgramEnv) (path : bytes) (keys : RouterSecretKeys) (n : Z) :
  be_new_keys (pe_build gen_env) = cret keys -> wf_RouterSecretKeys keys -> key_matches (rid_ keys) (signing_private_key_ keys) ->
  be_write (pe_build gen_env) path = FaTook n -> 0 <= n ->
  exists kb files, RouterSecretKeys_to_bytes keys = cret kb /\
    inner_main gen_env (MCli (McGen (Some path))) = cret (files, StNothing, 0) /\
    forall (env : ProgramEnv) (cfg : bytes) (get : Settings) (nf : bytes) (a1 a2 : SocketAddr) (private public iv : bytes) (n2 : Z),
      let be := pe_build env in
      let m := mkManager (NtcpManager_new a1) (Ntcp2Manager_new a2 private public iv) in
      let run := inner_main (mkProgramEnv (restart be files be) (pe_can_bind env) (pe_draw env) (pe_padlen env)) (MRouter (Some cfg)) in
      configured be cfg get path nf a1 a2 -> ri_writable get be -> be_read be nf = None ->
      be_keypair be = (private, public, iv) -> be_write be nf = FaTook n2 ->
      Forall wf_RouterAddress (Manager_addresses m) -> be_now be < 2 ^ 64 * 10 ^ 6 ->
      if (len kb <=? n) && (pe_can_bind env a1 && pe_can_bind env a2)
      then exists files' r h, run = cret (files', StRouter r (Engine_new (be_instant be), h, Participant_new (be_instant be)), 0) /\
             r_keys r = keys /\ RouterIdentity_hash (rid_ keys) = cret h /\ r_comms r = Manager_start m /\
             addresses (r_ri r) = Manager_addresses m
      else run = Panic.
Proof.
  intros Hnew Hwf Hkm Hw Hn.
  destruct (rt_serialize _ _ _ _ (rt_router_secret_keys keys Hwf) (writes_le_router_secret_keys keys Hwf)) as (kb & Hkb & Wkb & Pkb & _); [lia|].
  exists kb, [(path, ztake n kb)]. split; [exact Hkb|]. split.
  { cbn [inner_main]. unfold cli_gen. rewrite Hnew. cbn [cret cbind unwrap obind]. unfold to_file, RouterSecretKeys_to_bytes. rewrite Hw, Hkb. reflexivity. }
  intros env cfg get nf a1 a2 private public iv n2 be m run Hc Hri Hrd Hkp Hw2 Ha Hnow. pose proof Hc as [Hset Hkf Hnf Hne _ _ _].
  set (files := [(path, ztake n kb)]). fold files in run.
  assert (file_at files path = Some (ztake n kb)) as F1 by (unfold file_at; cbn; by rewrite bool_decide_eq_true_2).
  assert (file_at files nf = None) as F2 by (unfold file_at; cbn; by rewrite bool_decide_eq_false_2). clearbody files.
  pose proof (restart_configured be cfg get path nf a1 a2 files be Hc) as Hc2.
  assert (Builder_keys get (restart be files be) None = let! x := RouterSecretKeys_from_file (ztake n kb) in cret (rmap_err BeRead x, [])) as Hbk.
  { unfold Builder_keys. rewrite Hkf. unfold restart. cbn [be_exists be_read]. by rewrite F1. }
  assert (be_read (restart be files be) nf = None) as R2 by (unfold restart; cbn [be_read]; by rewrite F2).
  pose proof (from_config_writes _ cfg get path nf a1 a2 private public iv n2 Hc2 R2 Hkp Hw2) as Hm. cbv zeta in Hm. fold m in Hm.
  subst run. cbn [inner_main]. unfold cli_router. cbn [pe_build pe_can_bind]. destruct (Z.leb_spec (len kb) n) as [Hl|Hl]; cbn [andb].
  - rewrite (proj2 (Duplex.room_all n kb Hl)) in Hbk. unfold RouterSecretKeys_from_file, read_with in Hbk. rewrite (parses_exact _ _ _ Pkb) in Hbk.
    cbn [obind POk rmap_err] in Hbk.
    destruct (build_from _ cfg get path nf a1 a2 keys m _ _ Hc2 Hri Hbk Hm (proj1 Hwf) Hkm Ha Hnow) as (r & w & -> & (ri & h & -> & Hh & Had) & _).
    cbn [cret cbind rok unwrap obind]. rewrite (router_starts (pe_can_bind env) keys ri m h _ _ _ Hh). cbn [m ntcp ntcp2 NtcpManager_new Ntcp2Manager_new nm_addr n2_addr].
    destruct (pe_can_bind env a1 && pe_can_bind env a2); [|done]. cbn [cret cbind].
    eexists _, _, h. split; [reflexivity|]. by split_and!.
  - destruct (waits_router_secret_keys keys kb Hwf Wkb (ztake n kb) (zdrop n kb)) as [k Hk].
    { by rewrite ztake_zdrop. } { intros E. assert (len (zdrop n kb) = 0) as H0 by (by rewrite E). rewrite len_zdrop in H0 by lia. lia. }
    unfold RouterSecretKeys_from_file, read_with in Hbk. rewrite Hk in Hbk. cbn [obind rmap_err] in Hbk.
    unfold Builder_build. cbn [config_file Builder_new b_cfg_file b_keys b_comms].
    rewrite (cg_settings _ _ _ _ _ _ _ Hc2). cbn [unwrap obind]. by rewrite Hbk.
Qed.

(** What [ire cli client] does over NTCP2: the handshake that it starts is with
    the peer of the file; once it is through, the session is with that peer, and the
    test message is all that is in its channel, without another connection.  The
    exit code is the same whatever becomes of it. *)
Theorem ntcp2_client_sends (env : ProgramEnv) (k p t : option bytes) (files : Files) (m : Ntcp2Manager) (mock_ri : RouterInfo)
    (conn : Ntcp2Handshake.OBHandshake) (to : SocketAddr) (code : Z) :
  inner_main env (MCli (McClient k p t)) = cret (files, StNtcp2 m mock_ri conn to, code) ->
  files = [] /\ code = 0 /\ exists path data peer_ri, p = Some path /\ be_read (pe_build env) path = Some data /\
    RouterInfo_from_file data = Ret (Ok peer_ri) /\ Ntcp2Handshake.peer_ri conn = peer_ri /\
    forall h tx codec, RouterIdentity_hash (router_id peer_ri) = cret h ->
      exists l t', Ntcp2Connect.ntcp2_connected tx (n2_sessions m) (router_id peer_ri, codec) = cret (l, (Ntcp2Session.new_session h, codec)) /\
        ntcp2_client_connected env mock_ri (Ntcp2Connect.with_sessions m l) peer_ri =
          cret (Ntcp2Connect.with_sessions m (mkLocked t' false), None, cret SendReady) /\
        sessions t' !! h = Some tx /\ channels t' !! tx = Some [Ntcp2Frame.BlkMessage dummy_data].
Proof.
  cbn [inner_main]. intros H.
  destruct (ntcp2_client_inv env k p t files m mock_ri conn to code H) as (-> & -> & addr & private & public & iv & path & data & peer_ri & ri & -> & -> & Er & Ep & Hob).
  split; [done|]. split; [done|]. exists path, data, peer_ri. split; [done|]. split; [exact Er|]. split; [exact Ep|].
  split; [exact (Ntcp2Connect.ob_new_peer _ _ _ _ _ _ _ Hob)|]. intros h tx codec Hh.
  set (m := ntcp2_set_context (Ntcp2Manager_new addr private public iv)).
  destruct (session_new_ok (n2_sessions m) tx h eq_refl) as (l & Hn & H1 & _ & H2).
  exists (mkLocked l false). eexists. split.
  { unfold Ntcp2Connect.ntcp2_connected. rewrite Hh. cbn [cret cbind]. rewrite Hn. reflexivity. }
  unfold ntcp2_client_connected, ntcp2_start_send, state_send, lock. rewrite Hh.
  cbn [Ntcp2Connect.with_sessions m n2_ctx ntcp2_set_context unwrap obind cret cbind n2_sessions poisoned table].
  unfold session_send. rewrite H1, H2. cbn [cret cbind]. split; [reflexivity|]. split; [exact H1|]. cbn. apply lookup_insert_eq.
Qed.

End Props.
#[local] Existing Instances nom_ref cf_ref biguint_ref sigcrates_ref sha2_ref flate_ref bloom_ref ip_ref.
#[local] Existing Instances Ntcp2Codec.Ntcp2CodecSamples.toy_noise Ntcp2Codec.Ntcp2CodecSamples.toy_sip.
#[local] Existing Instances Ntcp2Handshake.Ntcp2HandshakeSamples.toy_base64 Ntcp2Handshake.Ntcp2HandshakeSamples.toy_handshake.
Import DataSamples RouterProps RestartProps.

Definition sample_program : ProgramEnv := mkProgramEnv (first_env 100) (fun _ => true) Ntcp2Frame.Ntcp2FrameSamples.draw 3.

Lemma generated_keys_start_a_router_witness :
  exists files files' r h, inner_main sample_program (MCli (McGen (Some [107]))) = cret (files, StNothing, 0) /\
    inner_main (mkProgramEnv (restart (first_env 100) files (first_env 100)) (fun _ => true) Ntcp2Frame.Ntcp2FrameSamples.draw 3) (MRouter (Some [99])) =
      cret (files', StRouter r (Engine_new 0, h, Participant_new 0), 0) /\ r_keys r = my_keys.
Proof.
  assert ((0 <= 10000)%Z) as H0 by discriminate.
  destruct (generated_keys_start_a_router sample_program [107] my_keys 10000 eq_refl (proj1 my_keys_ok) (proj2 my_keys_ok) eq_refl H0) as (kb & files & Hkb & Hg & H).
  assert (match RouterSecretKeys_to_bytes my_keys with Ret (Some b) => len b <=? 10000 | _ => false end = true) as Hl by (vm_compute; reflexivity).
  rewrite Hkb in Hl. cbn [cret] in Hl.
  specialize (H sample_program [99] settings [110] my_socket my_socket (zeros 32) (zeros 32) (zeros 16) 100
    (first_configured 100) (ex_intro _ 10000 eq_refl) eq_refl eq_refl eq_refl my_addresses_wf eq_refl).
  cbv zeta in H. rewrite Hl in H. destruct H as (files' & r & h & H1 & H2 & _).
  exists files, files', r, h. split; [exact Hg|]. split; [exact H1|exact H2].
Defined.

(** the files of a client: its keys, and the router info of a peer with NTCP2 *)
Definition key_file : bytes := Eval vm_compute in match RouterSecretKeys_to_bytes my_keys with Ret (Some b) => b | _ => [] end.
Definition peer_file : bytes := Eval vm_compute in
  match RouterInfo_sign (set_addresses ref_ri [Ntcp2Handshake.Ntcp2HandshakeProps.bob_addr (zeros 16)]) ref_ssk with
  | Ret (Some ri) => match RouterInfo_to_bytes ri with Ret (Some b) => b | _ => [] end
  | _ => []
  end.

Definition client_env : ProgramEnv :=
  mkProgramEnv (mkBuildEnv (fun _ => None) (fun _ => false) (fun p => Some (if bool_decide (p = [1]) then key_file else peer_file)) (fun _ => FaNoCreate) []
    (cret my_keys) (fun _ => Some my_socket) ([9], [9], zeros 16) (10 ^ 18) 0) (fun _ => true) Ntcp2Frame.Ntcp2FrameSamples.draw 3.

Definition client_run := Eval vm_compute in inner_main client_env (MCli (McClient (Some [1]) (Some [2]) (Some NTCP2))).

Lemma client_runs : inner_main client_env (MCli (McClient (Some [1]) (Some [2]) (Some NTCP2))) = client_run.
Proof. vm_cast_no_check (@eq_refl (comp Run) client_run). Qed.

Lemma ntcp2_client_sends_witness :
  exists m mock_ri conn to peer_ri,
    inner_main client_env (MCli (McClient (Some [1]) (Some [2]) (Some NTCP2))) = cret ([], StNtcp2 m mock_ri conn to, 0) /\
    RouterInfo_from_file peer_file = Ret (Ok peer_ri) /\ Ntcp2Handshake.peer_ri conn = peer_ri.
Proof.
  destruct (ntcp2_client_sends client_env (Some [1]) (Some [2]) (Some NTCP2) _ _ _ _ _ _ client_runs) as (_ & _ & path & data & peer_ri & [= <-] & [= <-] & H1 & H2 & _).
  eexists _, _, _, _, peer_ri. split; [exact client_runs|]. split; [exact H1|exact H2].
Defined.

End ProgramProps.
